(* ===== verification/_CoqProject ===== *)
-Q . S2P
Prelude.v
Go.v
Json.v
JsonText.v
Util.v
Bitcoin.v
TxTypes.v
EventTypes.v
World.v
Effects.v
Storage.v
WalletStorage.v
PgWallet.v
EventStorage.v
PgInvariants.v
WellFormed.v
PgSpec.v
MemWallet.v
Broadcaster.v
Broker.v
NodeAPI.v
Rpc.v
SendLock.v
Settings.v
WalletBase.v
TestEnv.v
Withdraw.v
NotifySpec.v
Pending.v
Updates.v
Program.v
Api.v
Client.v
Cli.v
WalletKeeps.v
ApiKeeps.v
WithdrawSafety.v
WithdrawSpec.v
PendingSpec.v
UpdatesSpec.v
System.v
SafetyProps.v
NotifyProps.v
TypeProps.v
UpdatesProps.v
AccountProps.v
StorageProps.v
Ledger.v
MemLedger.v
PgLedger.v
LedgerProps.v
PendingProps.v
EventProps.v
Delivery.v
WithdrawProps.v
RpcProps.v
ClientProps.v
ClientEvents.v
CliProps.v
ProgramProps.v
Interleave.v
InterleaveProps.v
EventLog.v
JsonIndent.v
Testing.v
Harness.v
Regtest.v
Processing.v
Checkers.v
Acceptance.v
AcceptanceProps.v
DepositTests.v
WithdrawTests.v
EventTests.v
Tools.v
PgMitm.v
Reliability.v
ToolsProps.v
HarnessProps.v
ReliabilityProps.v
