(* ===== verification/Prelude.v ===== *)
(** * A verification of bitcoin-processing

    bitcoin-processing is a gateway between a client (an exchange) and a Bitcoin
    node: it makes addresses, watches the transactions that pay them, sends
    withdrawals, and reports everything that happens as numbered events. Three
    components run concurrently: the wallet (wallet/), whose only goroutine makes all
    changes of transactions; the event broker (events/), whose goroutine delivers
    the stored events by HTTP callback and to websocket subscribers; and the API server
    (api/), whose handlers call the wallet's methods. They share the database
    (storage/), which the program also uses to survive being killed: a lock is
    committed before each payment and each callback, and released with their result.

    ** Files and the code they model

    - Prelude: fixed-width integers, decimal text, lists; Go: errors, [outcome] (a
      value, an error or a panic), JSON values and their text; Json: the JSON
      parser and the decoding of structs as encoding/json does it; JsonText: what is
      printed is parsed back; Util: util/.
    - Bitcoin: bitcoin/formats.go, fee.go; TxTypes: wallet/types/; EventTypes:
      events/types.go with the unmarshalers that wallet/ registers.
    - World: the state (heap of [types.Transaction] objects, PostgreSQL tables of
      tools/init-db.sql with the transaction in progress, in-memory storages, the
      fields of wallet and broker, and the trace of everything sent, each with
      the tables as committed at that moment) and the parameters [Env]; Effects: the
      monad [M], SQL statements, and the rules of [wp]; Storage: storage/storage.go, and
      how an invariant of the tables goes through statements ([Inv], [Keeps]).
    - WalletStorage: the interface [Storage] of wallet/storage.go, and what an
      implementation promises for an invariant ([StorageKeeps]); PgWallet:
      postgresstorage.go; MemWallet: memorystorage.go. EventStorage: the same for
      events/. PgInvariants proves the promises once for any invariant that the
      SQL statements keep; WellFormed instantiates it with the well-formedness of
      the tables; PgSpec says what the statements do when they succeed (Storage, at its end, what
      they do on a server that does not fail). Ledger: an abstract wallet storage, its
      commands with their replies and next states; MemLedger and PgLedger: the two
      implementations refine it (class [Refines]). EventLog: the same for the two event
      storages, with a log that is a function of the commands (class [RefinesLog]).
    - Broadcaster: events/broadcaster.go; Broker: events/broker.go,
      httpcallback.go, mute.go, integrity.go, websocket.go, dbtransaction.go.
    - NodeAPI: the interface of the node with the laws the wallet relies on; Rpc:
      bitcoin/nodeapi/rpc.go, with a proof that it satisfies these laws; SendLock: the
      interleavings of calls that its mutex allows.
    - Interleave: the wallet's transactions, those of handlers that create accounts, and
      the broker's reads beside each other, a step per statement.
    - WalletBase: wallet.go, accounts.go, info.go, integrity.go, hotwallet.go,
      coldwallet.go, notify.go, dbtransaction.go; Withdraw: withdraw.go with the
      notifications of updates.go and the status change of pending.go; Pending:
      the rest of pending.go; Updates: the rest of updates.go, with the main loop.
    - Api: api/http.go and api/websocket.go, from the body to the answer. Client:
      api/client/ and util/urljoin.go, with the transport as an interface
      ([ClientTransport]) that [ServedBy] implements by the handlers of Api.
    - Settings: settings/, over viper as a class; Program: api/server.go, main.go's use of the settings and
      componentrunner.go of cmd/bitcoin-processing; Cli: cmd/bitcoin-processing-client
      and util/prettyprint.go, command by command.
    - WalletKeeps, ApiKeeps (with the broker): every operation keeps an invariant that the
      storage and the interface of the node keep; System: the whole program as any
      sequence of handlers with crashes and restarts, and the invariant theorem.
    - NotifySpec, WithdrawSpec, PendingSpec, UpdatesSpec, WithdrawSafety: what
      notifications, withdrawals, updates of pending withdrawals and updates from the node
      do; TestEnv: concrete instances of all parameters, in which the witnesses
      are evaluated.

    - Testing: the test process of integrationtests/, a monad on its state over [World];
      Harness, Regtest, Processing: testenv/ (waiting, listeners, containers, nodes, the
      server under test); Checkers: checkers.go and util.go, what a client may expect;
      DepositTests, WithdrawTests, EventTests, Reliability: the test functions; PgMitm:
      testenv/pgmitm/, the proxy that makes the database fail; Tools: tools/racer.go, the
      auto-paying proxy, the settings mock. JsonIndent: indented JSON is parsed back.

    A Go function is a function to [M] (of the test process, to [T]); a method that is called on a wallet or
    storage bound to a database transaction takes the executor ([OnDB] or [OnTx]).
    The body of a closure or of a loop is a definition of its own, named after it.

    ** What the theorems show

    - Safety (SafetyProps): in every run with arbitrary failures of the database,
      crashes and restarts, no request that can move money is sent and no callback is
      posted unless the committed tables hold the corresponding lock; a payment
      ends recorded with the lock released, or with the lock held; a locked start is
      refused; the tables stay well-formed.
    - Notifications (NotifyProps): one event per confirmation, in order, none twice.
    - Storage (StorageProps): atomic transactions, a bounded retry loop, what storing
      a transaction does and that it is read back.
    - Refinement (LedgerProps, EventLog): both wallet storages behave as the abstract ledger,
      both event storages as the abstract log, on every sequence of admissible operations. Types (TypeProps): every transaction in memory
      and in the tables is well-typed, and its JSON form decodes to it.
    - Updates from the node (UpdatesProps): the last seen block never passes a deposit that
      is not recorded. Accounts (AccountProps): an address is handed out only with its
      account and event.
    - Pending withdrawals (PendingProps), withdrawals and updates (WithdrawProps).
    - Event delivery (EventProps): listing, HTTP callbacks in order, websocket broadcasts;
      Delivery: a client that refuses finitely often gets every event; ClientEvents: a
      websocket session from subscription to the notifications that are read.
      InterleaveProps: whatever the order of the statements, the callback skips no event,
      and a websocket subscriber can miss one.
    - The client composed with the server: a withdrawal through both is the wallet's
      (ClientProps), so is every other call, one of which hides the server's error
      (ClientEvents, client_calls); the command line (CliProps).
    - The node's client (RpcProps, SendLock): money is requested last and once, fees are
      exact, the fee rate cannot be overwritten by another payment.
    - The program (ProgramProps): where a setting comes from; the component runner comes to
      its end.

    - The tests (AcceptanceProps, through Acceptance): whatever the transaction, the
      notifications that the wallet stores pass the tests' oracles of their stage, as the
      callback receives them and as a websocket listener reads them; HarnessProps: waiting
      ends after at most 120 polls, a block is mined after the mempool had the transaction,
      the step that makes a withdrawal passes when the wallet accepts it, and the test
      functions that make accounts pass when they are run against the program, from the Go
      client through the server and the broker to the listener; ReliabilityProps:
      a case closes exactly the connections that it is to close; ToolsProps: the database
      proxy relays in order, the racer's addresses are never shared, the auto-paying proxy
      is transparent.

    ** Parameters, bounds and fuel

    Parameters are code outside the repository: shopspring/decimal, btcutil, gofrs/uuid,
    rpcclient, chainhash, net/http, net/url, viper, cobra, the docker client, os/exec, and the environment's choices ([Env]: which
    statement fails and whether it took effect, the order of unordered rows and of
    equal elements in sort.Slice, the drawn UUIDs); their laws are the classes named
    [...Laws]. No definition needs fuel except the JSON parser, whose fuel is the
    length of the text plus one: each call consumes a character; and the test
    that reads messages up to a number ([messages_to]), whose number is not bounded. What
    happens while a test waits ([os_wait], [mitm_traffic]) is a parameter too. [mainLoop] and [run]
    recurse on the list of what happens. Machine integers are [Z] with the
    wrap-around written out; the amounts of theorems on sums are bounded by
    [amount_bound] (2^61), far above the supply of 21 million bitcoins.

    ** What is not modelled

    Goroutines of the wallet and the broker are interleaved at the level of handlers;
    statement by statement only where they meet in the events (Interleave) and in the
    node's fee rate (SendLock). A value of type interface{} (a metainfo) keeps its numbers as
    literals and its keys in order, where encoding/json goes through float64 and a
    map. Left out: logging and metrics, the HTTP server of net/http, the
    parsing of the command line by cobra, the closing handshake of websockets.
    Of the tests: the goroutines that copy the containers' logs, temporary files, the
    capacity of the queues; the order in which a map is ranged over is the same each time
    ([os_map_order]); a call of a test is one step, though the reliability tests make a
    withdrawal while its statements fail.

    ** Plan

    What could still be added: the test functions of deposits and withdrawals run against
    the program as those of accounts are, with a node whose blocks follow its requests;
    the statements of a withdrawal interleaved with those of the main loop, as Interleave
    does for the events.
*)
From Stdlib Require Import DecimalString DecimalZ DecimalN Ascii.
From Stdlib Require Export ZArith Lia.
From stdpp Require Export prelude gmap strings sorting.
From stdpp Require Export list.

#[export] Set Default Goal Selector "!".
Global Open Scope Z_scope.

(** Go's fixed-width integers are values of [Z] kept in range by wrapping. *)
Section Words.

(** [uint64(z)] *)
Definition u64 (z : Z) : Z := z mod 2 ^ 64.

(** [int64(z)]: two's complement reinterpretation of the low 64 bits *)
Definition i64 (z : Z) : Z := (z + 2 ^ 63) mod 2 ^ 64 - 2 ^ 63.

Definition is_u64 (z : Z) : Prop := 0 <= z < 2 ^ 64.
Definition is_i64 (z : Z) : Prop := - 2 ^ 63 <= z < 2 ^ 63.

#[global] Instance is_u64_dec z : Decision (is_u64 z).
Proof. unfold is_u64. apply _. Defined.
#[global] Instance is_i64_dec z : Decision (is_i64 z).
Proof. unfold is_i64. apply _. Defined.

Lemma u64_range z : is_u64 (u64 z).
Proof. unfold is_u64, u64. apply Z.mod_pos_bound. lia. Qed.

Lemma i64_range z : is_i64 (i64 z).
Proof.
  unfold is_i64, i64. pose proof (Z.mod_pos_bound (z + 2 ^ 63) (2 ^ 64)). lia.
Qed.

Lemma u64_small z : is_u64 z -> u64 z = z.
Proof. unfold is_u64, u64. apply Z.mod_small. Qed.

Lemma i64_small z : is_i64 z -> i64 z = z.
Proof. unfold is_i64, i64. intros. rewrite Z.mod_small; lia. Qed.

(** Two representations of the same 64 bits. *)
Lemma u64_congr a b : a mod 2 ^ 64 = b mod 2 ^ 64 -> u64 a = u64 b.
Proof. exact (fun H => H). Qed.

Lemma u64_i64 z : u64 (i64 z) = u64 z.
Proof.
  unfold u64, i64. rewrite Zminus_mod_idemp_l. f_equal. lia.
Qed.

Lemma i64_u64 z : i64 (u64 z) = i64 z.
Proof. unfold u64, i64. rewrite Zplus_mod_idemp_l. reflexivity. Qed.

Lemma i64_neg_iff z : is_u64 z -> (i64 z < 0 <-> 2 ^ 63 <= z).
Proof.
  unfold is_u64, i64. intros Hz. destruct (decide (z < 2 ^ 63)).
  - rewrite Z.mod_small; lia.
  - replace (z + 2 ^ 63) with (z - 2 ^ 63 + 1 * 2 ^ 64) by lia.
    rewrite Z.mod_add by lia. rewrite Z.mod_small; lia.
Qed.

End Words.

(** ** Go's [strconv] on decimal numbers *)
Section Strconv.

(** [strconv.Itoa] and, on unsigned values, [strconv.FormatUint(_, 10)] *)
Definition itoa (z : Z) : string := NilZero.string_of_int (Z.to_int z).

(** [strconv.ParseUint(s, 10, 64)]: digits only, and a range check *)
Definition parse_uint64 (s : string) : option Z :=
  d ← NilZero.uint_of_string s;
  let z := Z.of_uint d in
  if decide (z < 2 ^ 64) then Some z else None.

(** [strconv.Atoi]: an optional sign and digits, and a range check *)
Definition atoi (s : string) : option Z :=
  z ← match s with
      | String "+"%char s' => d ← NilZero.uint_of_string s'; Some (Z.of_uint d)
      | _ => d ← NilZero.int_of_string s; Some (Z.of_int d)
      end;
  if decide (is_i64 z) then Some z else None.

Lemma to_int_not_nil z :
  Z.to_int z <> Decimal.Pos Decimal.Nil /\ Z.to_int z <> Decimal.Neg Decimal.Nil.
Proof.
  pose proof (DecimalZ.of_to z) as H.
  split; intros E; rewrite E in H; simpl in H; subst z; discriminate E.
Qed.

Lemma int_of_string_itoa z : NilZero.int_of_string (itoa z) = Some (Z.to_int z).
Proof. apply NilZero.isi; apply to_int_not_nil. Qed.

Lemma itoa_inj z z' : itoa z = itoa z' -> z = z'.
Proof.
  intros H. apply (f_equal NilZero.int_of_string) in H.
  rewrite !int_of_string_itoa in H. simplify_eq.
  apply (f_equal Z.of_int) in H. rewrite !DecimalZ.of_to in H. exact H.
Qed.

Lemma string_of_uint_no_plus d s : NilZero.string_of_uint d <> String "+"%char s.
Proof. destruct d; simpl; discriminate. Qed.

Lemma itoa_no_plus z s : itoa z <> String "+"%char s.
Proof.
  unfold itoa. destruct (Z.to_int z); simpl;
    [apply string_of_uint_no_plus | discriminate].
Qed.

Lemma atoi_itoa z : is_i64 z -> atoi (itoa z) = Some z.
Proof.
  intros Hz. unfold atoi.
  assert (Hint : (d ← NilZero.int_of_string (itoa z); Some (Z.of_int d)) = Some z).
  { rewrite int_of_string_itoa. simpl. f_equal. apply DecimalZ.of_to. }
  pose proof (itoa_no_plus z) as Hplus.
  destruct (itoa z) as [|[[] [] [] [] [] [] [] []] s];
    try (exfalso; eapply Hplus; reflexivity);
    rewrite Hint; simpl; rewrite decide_True by done; done.
Qed.

Lemma itoa_nonneg z : 0 <= z -> itoa z = NilZero.string_of_uint (N.to_uint (Z.to_N z)).
Proof. intros Hz. unfold itoa. destruct z; [done | done | lia]. Qed.

Lemma to_uint_not_nil n : N.to_uint n <> Decimal.Nil.
Proof.
  intros E. pose proof (DecimalN.Unsigned.of_to n) as H. rewrite E in H.
  simpl in H. subst n. discriminate E.
Qed.

Lemma parse_uint64_itoa z : is_u64 z -> parse_uint64 (itoa z) = Some z.
Proof.
  intros [Hz Hlt]. unfold parse_uint64. rewrite itoa_nonneg by lia.
  rewrite NilZero.usu by apply to_uint_not_nil. simpl.
  assert (Z.of_uint (N.to_uint (Z.to_N z)) = z) as ->.
  { unfold Z.of_uint. fold (N.of_uint (N.to_uint (Z.to_N z))).
    change (Pos.of_uint (N.to_uint (Z.to_N z))) with (N.of_uint (N.to_uint (Z.to_N z))).
    rewrite DecimalN.Unsigned.of_to. lia. }
  by rewrite decide_True.
Qed.

Lemma string_of_uint_nonempty d : NilZero.string_of_uint d <> EmptyString.
Proof. destruct d; discriminate. Qed.

Lemma itoa_nonempty z : itoa z <> EmptyString.
Proof.
  unfold itoa. destruct (Z.to_int z); simpl;
    [apply string_of_uint_nonempty | discriminate].
Qed.

End Strconv.

(** ** Automation shared by the components *)

(** Split a conjunction in the goal and the hypotheses, and close what is closed. *)
Ltac split_all := repeat match goal with
  | H : _ /\ _ |- _ => destruct H
  | |- _ /\ _ => split
  end.

(** Expose a [match] scrutinee of the goal with its equation. *)
Ltac case_scrut := match goal with
  | |- context [match ?x with _ => _ end] => destruct x eqn:?
  end.

(** The development's lemma base: word arithmetic and list facts. *)
Create HintDb s2p discriminated.
#[export] Hint Resolve u64_range i64_range itoa_nonempty : s2p.
Create Rewrite HintDb words.
#[export] Hint Rewrite u64_i64 i64_u64 : words.

(** ** Lists *)
Section Lists.
Context {A : Type}.

(** The integers [from, from+1, ..., to], empty when [to < from]:
    the iterations of [for i := from; i <= to; i++]. *)
Definition zrange (from to : Z) : list Z := seqZ from (to - from + 1).

Lemma zrange_empty from to : to < from -> zrange from to = [].
Proof. intros. unfold zrange. apply seqZ_nil. lia. Qed.

Lemma zrange_cons from to :
  from <= to -> zrange from to = from :: zrange (from + 1) to.
Proof.
  intros. unfold zrange. rewrite seqZ_cons by lia. repeat f_equal; lia.
Qed.

Lemma elem_of_zrange from to i : i ∈ zrange from to <-> from <= i <= to.
Proof. unfold zrange. rewrite elem_of_seqZ. lia. Qed.

(** The first element that satisfies a test. *)
Fixpoint find_first (p : A -> bool) (l : list A) : option A :=
  match l with
  | [] => None
  | x :: l' => if p x then Some x else find_first p l'
  end.

Lemma find_first_Some p l x : find_first p l = Some x -> x ∈ l /\ p x = true.
Proof.
  induction l as [|y l IH]; simpl; [done|].
  destruct (p y) eqn:E; intros H; simplify_eq.
  - split; [left | done].
  - destruct (IH H). split; [by right | done].
Qed.

Lemma find_first_None p l : find_first p l = None <-> forall x, x ∈ l -> p x = false.
Proof.
  induction l as [|y l IH]; simpl.
  - split; [|done]. intros _ x Hx. set_solver.
  - destruct (p y) eqn:E.
    + split; [done|]. intros H. rewrite H in E; [done | left].
    + rewrite IH. setoid_rewrite elem_of_cons. split; [|by auto].
      intros H x [->|Hx]; [done | by apply H].
Qed.

End Lists.

(** ** Enumerations with string names
    The program keeps a Go map from the values of an enumeration to their
    names and builds the inverse map at start-up. *)
Section Enum.
Context {T : Type} `{EqDecision T}.

Definition enum_name (names : list (T * string)) (t : T) : option string :=
  snd <$> find_first (fun p => bool_decide (p.1 = t)) names.

Definition enum_inverse (names : list (T * string)) : gmap string T :=
  list_to_map (prod_swap <$> names).

Lemma enum_inverse_lookup names s t :
  NoDup (snd <$> names) -> enum_inverse names !! s = Some t <-> (t, s) ∈ names.
Proof.
  intros Hnd. unfold enum_inverse.
  rewrite <- elem_of_list_to_map.
  - rewrite list_elem_of_fmap. split.
    + intros ([t' s'] & ? & ?). by simplify_eq/=.
    + intros. by exists (t, s).
  - rewrite <- list_fmap_compose. erewrite list_fmap_ext; [exact Hnd|].
    by intros ? [] ?.
Qed.

Lemma enum_name_elem names t s : enum_name names t = Some s -> (t, s) ∈ names.
Proof.
  unfold enum_name. destruct (find_first _ _) as [[t' s']|] eqn:E; [|done].
  intros [= <-]. apply find_first_Some in E as [Hin Ht%bool_decide_eq_true].
  by simplify_eq/=.
Qed.

Lemma enum_name_inverse names t s :
  NoDup (snd <$> names) -> enum_name names t = Some s ->
  enum_inverse names !! s = Some t.
Proof. intros ? ?%enum_name_elem. by apply enum_inverse_lookup. Qed.

Lemma enum_inverse_name names t s :
  NoDup (fst <$> names) -> NoDup (snd <$> names) ->
  enum_inverse names !! s = Some t -> enum_name names t = Some s.
Proof.
  intros Hf Hs Hin%enum_inverse_lookup; [|done]. unfold enum_name.
  destruct (find_first _ _) as [[t' s']|] eqn:E.
  - apply find_first_Some in E as [Hin' Ht%bool_decide_eq_true].
    simplify_eq/=. f_equal.
    apply list_elem_of_lookup in Hin as [i Hi], Hin' as [j Hj].
    assert (i = j) as ->; [|by simplify_eq].
    eapply (NoDup_lookup _ _ _ t Hf); rewrite list_lookup_fmap;
      [by rewrite Hi | by rewrite Hj].
  - rewrite find_first_None in E. specialize (E _ Hin).
    simpl in E. by rewrite bool_decide_eq_false in E.
Qed.

End Enum.

(** ** Sums *)
Definition sum_Z : list Z -> Z := foldr Z.add 0.

Lemma sum_Z_app l k : sum_Z (l ++ k) = sum_Z l + sum_Z k.
Proof. induction l as [|x l IH]; simpl; [done|]. rewrite IH. lia. Qed.

Lemma sum_Z_nonneg l : Forall (fun x => 0 <= x) l -> 0 <= sum_Z l.
Proof. induction 1; simpl; lia. Qed.

#[export] Instance sum_Z_perm : Proper ((≡ₚ) ==> eq) sum_Z.
Proof. induction 1; simpl; lia. Qed.

Lemma sum_Z_insert l i x y :
  l !! i = Some x -> sum_Z (<[i := y]> l) = sum_Z l - x + y.
Proof.
  revert i. induction l as [|z l IH]; intros [|i] H; simplify_eq/=; [lia|].
  rewrite (IH _ H). lia.
Qed.

(** ** Sorted lists *)
Lemma sorted_filter {A} (R : A -> A -> Prop) (P : A -> Prop) `{!forall x, Decision (P x)} l :
  StronglySorted R l -> StronglySorted R (filter P l).
Proof.
  induction 1 as [|x l Hl IH Hx]; [constructor|]. rewrite filter_cons. case_decide; [|done].
  constructor; [done|]. rewrite Forall_forall in Hx |- *.
  intros y [_ Hy]%list_elem_of_filter. by apply Hx.
Qed.

Lemma filter_all {A} (P : A -> Prop) `{!forall x, Decision (P x)} l :
  Forall P l -> filter P l = l.
Proof. induction 1 as [|x l Hx _ IH]; [done|]. by rewrite filter_cons_True, IH. Qed.

Lemma filter_none {A} (P : A -> Prop) `{!forall x, Decision (P x)} l :
  Forall (fun x => ~ P x) l -> filter P l = [].
Proof. induction 1 as [|x l Hx _ IH]; [done|]. by rewrite filter_cons_False. Qed.

Lemma sorted_impl {A} (R R' : A -> A -> Prop) l :
  (forall x y, R x y -> R' x y) -> StronglySorted R l -> StronglySorted R' l.
Proof.
  intros HR. induction 1 as [|x l Hl IH Hx]; constructor; [done|].
  apply (Forall_impl _ _ _ Hx). apply HR.
Qed.

Lemma sorted_fmap {A B} (R : B -> B -> Prop) (f : A -> B) l :
  StronglySorted R (f <$> l) <-> StronglySorted (fun x y => R (f x) (f y)) l.
Proof.
  induction l as [|x l IH]; simpl; [split; constructor|].
  split; inversion 1 as [|? ? Hs Hall]; subst; constructor; try by apply IH.
  - by rewrite Forall_fmap in Hall.
  - by rewrite Forall_fmap.
Qed.

(** ** Sorting by an integer key (SQL's ORDER BY) *)
Section OrderBy.
Context {A : Type} (key : A -> Z).

Fixpoint order_insert (x : A) (l : list A) : list A :=
  match l with
  | [] => [x]
  | y :: l' => if decide (key x <= key y) then x :: l else y :: order_insert x l'
  end.

Definition order_by (l : list A) : list A := foldr order_insert [] l.

Definition key_sorted : list A -> Prop := StronglySorted (fun a b => key a <= key b).

Lemma order_insert_perm x l : order_insert x l ≡ₚ x :: l.
Proof.
  induction l as [|y l IH]; simpl; [done|]. case_decide; [done|].
  rewrite IH. by constructor.
Qed.

Lemma order_by_perm l : order_by l ≡ₚ l.
Proof. induction l as [|x l IH]; simpl; [done|]. by rewrite order_insert_perm, IH. Qed.

Lemma order_insert_sorted x l : key_sorted l -> key_sorted (order_insert x l).
Proof.
  induction 1 as [|y l Hl IH Hy]; simpl; [repeat constructor|].
  case_decide as Hxy.
  - constructor; [by constructor|]. constructor; [done|].
    apply (Forall_impl _ _ _ Hy); simpl; lia.
  - constructor; [done|]. rewrite order_insert_perm. constructor; [lia | done].
Qed.

Lemma order_by_sorted l : key_sorted (order_by l).
Proof. induction l; simpl; [constructor | by apply order_insert_sorted]. Qed.

Lemma order_by_id l : key_sorted l -> order_by l = l.
Proof.
  induction 1 as [|x l Hl IH Hx]; simpl; [done|]. rewrite IH.
  destruct l as [|y l]; simpl; [done|].
  rewrite decide_True; [done|]. by inversion Hx.
Qed.

End OrderBy.
