(* ===== verification/Go.v ===== *)
(** * Values of the Go program

    The Go types that several components use: errors, results with an error or
    a panic, UUIDs, [float64], and the JSON values that [interface{}] fields
    and [encoding/json] exchange. *)
From Stdlib Require Import SpecFloat Ascii.
From S2P Require Import Prelude.

(** [uuid.UUID] is an array of 16 bytes; it is kept as the number they spell. *)
Abbreviation UUID := N.
Definition uuid_Nil : UUID := 0%N.

(** IEEE binary64 *)
Abbreviation float64 := spec_float.

(** [x < 0] and [x > 0] on [float64]; both are false on NaN *)
Definition float_lt0 (x : float64) : bool := SFltb x (S754_zero false).
Definition float_gt0 (x : float64) : bool := SFltb (S754_zero false) x.

(** ** Errors
    [error] values that the code compares against or inspects have a
    constructor of their own; the others carry their message. *)
Inductive error : Type :=
| ErrMsg (msg : string)                       (* errors.New, fmt.Errorf *)
| ErrWrap (prefix : string) (err : error)     (* fmt.Errorf("prefix: %s", err) *)
| ErrNoRows                                   (* sql.ErrNoRows *)
| ErrTxDone                                   (* sql.ErrTxDone *)
| ErrDB                                       (* the connection to the DB failed *)
| ErrUnique                                   (* unique_violation (23505) *)
| ErrUint64HighBit                            (* database/sql: uint64 >= 1<<63 *)
| ErrJSON                                     (* encoding/json *)
| ErrJSONRPC (code : Z) (msg : string)        (* *nodeapi.JSONRPCError *)
| ErrTransport                                (* net/http: request failed *)
| ErrHotWalletAddressNotGeneratedYet
| ErrNoTxWithSuchID (id : UUID)
| ErrNoTxWithSuchTxHashAndDirection
| ErrAlreadyMuted
| ErrNoSuchEvent.

#[export] Instance error_eq_dec : EqDecision error.
Proof. solve_decision. Defined.

(** The ways a Go call can end: with a value and a nil error, with a non-nil
    error, or with a panic that unwinds the stack. *)
Inductive outcome (A : Type) : Type :=
| Ok (a : A)
| Err (e : error)
| Panic (msg : string).
Arguments Ok {A} a.
Arguments Err {A} e.
Arguments Panic {A} msg.

#[export] Instance outcome_eq_dec `{EqDecision A} : EqDecision (outcome A).
Proof. solve_decision. Defined.

#[export] Instance outcome_ret : MRet outcome := @Ok.
#[export] Instance outcome_bind : MBind outcome := fun A B f m =>
  match m with Ok a => f a | Err e => Err e | Panic p => Panic p end.
#[export] Instance outcome_fmap : FMap outcome := fun A B f m => m ≫= (Ok ∘ f).

Definition of_option {A} (e : error) (o : option A) : outcome A :=
  match o with Some a => Ok a | None => Err e end.

Definition is_ok {A} (r : outcome A) : Prop := match r with Ok _ => True | _ => False end.

#[export] Instance is_ok_dec {A} (r : outcome A) : Decision (is_ok r).
Proof. destruct r; simpl; apply _. Defined.

Lemma outcome_bind_Ok {A B} (m : outcome A) (f : A -> outcome B) b :
  m ≫= f = Ok b <-> exists a, m = Ok a /\ f a = Ok b.
Proof. destruct m; simpl; naive_solver. Qed.

Lemma of_option_Ok {A} e (o : option A) a : of_option e o = Ok a <-> o = Some a.
Proof. destruct o; simpl; naive_solver. Qed.

(** ** JSON
    Numbers keep their literal, object fields their order. *)
Inductive json : Type :=
| JNull
| JBool (b : bool)
| JNum (literal : string)
| JStr (s : string)
| JArr (l : list json)
| JObj (fields : list (string * json)).

Section Json.

(** [json.Unmarshal(b, &s)] for [var s string]: null leaves the zero value. *)
Definition unmarshal_string (j : json) : outcome string :=
  match j with JStr s => Ok s | JNull => Ok "" | _ => Err ErrJSON end.

(** [json.Unmarshal(b, &n)] for [var n int] *)
Definition unmarshal_int (j : json) : outcome Z :=
  match j with
  | JNum lit => of_option ErrJSON (atoi lit)
  | JNull => Ok 0
  | _ => Err ErrJSON
  end.

(** [m[key] = v] on a decoded object *)
Fixpoint json_set (key : string) (v : json) (fields : list (string * json))
    : list (string * json) :=
  match fields with
  | [] => [(key, v)]
  | (k, w) :: rest =>
      if bool_decide (k = key) then (k, v) :: rest else (k, w) :: json_set key v rest
  end.

(** [m[key]] *)
Definition json_get (key : string) (fields : list (string * json)) : option json :=
  snd <$> find_first (fun p => bool_decide (p.1 = key)) fields.

Lemma json_get_set_eq key v fields : json_get key (json_set key v fields) = Some v.
Proof.
  induction fields as [|[k w] fields IH]; unfold json_get in *; simpl.
  - by rewrite bool_decide_eq_true_2.
  - destruct (bool_decide (k = key)) eqn:E; simpl; rewrite E; [done | exact IH].
Qed.

Lemma json_get_set_ne key key' v fields :
  key <> key' -> json_get key' (json_set key v fields) = json_get key' fields.
Proof.
  intros Hne. induction fields as [|[k w] fields IH]; unfold json_get in *; simpl.
  - by rewrite bool_decide_eq_false_2.
  - destruct (bool_decide (k = key)) eqn:E; simpl;
      destruct (bool_decide (k = key')) eqn:E'; simpl; try done.
    apply bool_decide_eq_true in E, E'. congruence.
Qed.

(** A struct's fields as decoded by [encoding/json], missing fields null *)
Definition json_field (key : string) (j : json) : json :=
  match j with JObj fields => default JNull (json_get key fields) | _ => JNull end.

(** The text [json.Marshal] produces: quotes, backslashes, control characters
    and the HTML-sensitive ones are escaped, and two separators. Strings are taken
    to be valid UTF-8. *)
Definition hex_digit (n : nat) : string :=
  default "0" (["0";"1";"2";"3";"4";"5";"6";"7";"8";"9";"a";"b";"c";"d";"e";"f"] !! n).

Definition escape_char (c : ascii) : string :=
  let n := nat_of_ascii c in
  if Nat.eqb n 34 then String (ascii_of_nat 92) (String c "")
  else if Nat.eqb n 92 then String c (String c "")
  else if Nat.eqb n 10 then String (ascii_of_nat 92) "n"
  else if Nat.eqb n 13 then String (ascii_of_nat 92) "r"
  else if Nat.eqb n 9 then String (ascii_of_nat 92) "t"
  else if Nat.ltb n 32 || Nat.eqb n 60 || Nat.eqb n 62 || Nat.eqb n 38 then
    String (ascii_of_nat 92)
      ("u00" +:+ hex_digit (Nat.div n 16) +:+ hex_digit (Nat.modulo n 16))
  else String c "".

(** The line and paragraph separators U+2028 and U+2029, in UTF-8 *)
Definition is_separator (a b c : ascii) : bool :=
  Nat.eqb (nat_of_ascii a) 226 && Nat.eqb (nat_of_ascii b) 128 &&
  (Nat.eqb (nat_of_ascii c) 168 || Nat.eqb (nat_of_ascii c) 169).

Fixpoint escape (s : string) : string :=
  match s with
  | String a (String b (String c s') as t) =>
      if is_separator a b c then
        String (ascii_of_nat 92) ("u202" +:+ hex_digit (nat_of_ascii c - 160) +:+ escape s')
      else escape_char a +:+ escape t
  | String a s' => escape_char a +:+ escape s'
  | EmptyString => ""
  end.

Definition quote (s : string) : string :=
  String (ascii_of_nat 34) (escape s +:+ String (ascii_of_nat 34) "").

Fixpoint commas (l : list string) : string :=
  match l with [] => "" | [s] => s | s :: l' => s +:+ "," +:+ commas l' end.

Fixpoint json_text (j : json) : string :=
  match j with
  | JNull => "null"
  | JBool b => if b then "true" else "false"
  | JNum lit => lit
  | JStr s => quote s
  | JArr l => "[" +:+ commas (json_text <$> l) +:+ "]"
  | JObj fields =>
      "{" +:+ commas ((fun kv => quote kv.1 +:+ ":" +:+ json_text kv.2) <$> fields) +:+ "}"
  end.

Lemma json_text_obj fields : json_text (JObj fields) <> "".
Proof. done. Qed.

End Json.

#[export] Hint Rewrite @json_get_set_eq : words.
