(* ===== verification/Json.v ===== *)
(** * encoding/json: parsing text, and decoding objects into structs

    The part of the standard library behind [json.Unmarshal] and
    [json.NewDecoder(r).Decode] that the HTTP interfaces rely on. Text is taken to
    be valid UTF-8; an object keeps its keys in order. *)
From Stdlib Require Import SpecFloat Ascii.
From S2P Require Import Prelude.
From S2P Require Import Go.
Local Open Scope Z_scope.

(** ** Lexical elements *)
Section Lexer.

Definition code (c : ascii) : nat := nat_of_ascii c.

Definition is_space (c : ascii) : bool :=
  let n := code c in Nat.eqb n 32 || Nat.eqb n 9 || Nat.eqb n 10 || Nat.eqb n 13.

Fixpoint skip_space (s : string) : string :=
  match s with
  | String c s' => if is_space c then skip_space s' else s
  | EmptyString => ""
  end.

Definition digit_of (c : ascii) : option Z :=
  let n := Z.of_nat (code c) in
  if decide (48 <= n /\ n <= 57) then Some (n - 48) else None.

Definition hex_value (c : ascii) : option nat :=
  let n := code c in
  if Nat.leb 48 n && Nat.leb n 57 then Some (n - 48)%nat
  else if Nat.leb 97 n && Nat.leb n 102 then Some (n - 87)%nat
  else if Nat.leb 65 n && Nat.leb n 70 then Some (n - 55)%nat
  else None.

(** [s] without the prefix [p] *)
Fixpoint strip (p s : string) : option string :=
  match p, s with
  | EmptyString, _ => Some s
  | String a p', String b s' => if decide (a = b) then strip p' s' else None
  | _, EmptyString => None
  end.

(** Digits at the head of [s], and the rest *)
Fixpoint span_digits (s : string) : string * string :=
  match s with
  | String c s' =>
      match digit_of c with
      | Some _ => let '(d, r) := span_digits s' in (String c d, r)
      | None => ("", s)
      end
  | EmptyString => ("", "")
  end.

(** A number literal: -?(0|[1-9][0-9]-)(.[0-9]+)?([eE][+-]?[0-9]+)? *)
Definition scan_number (s : string) : option (string * string) :=
  let '(sg, s) := match strip "-" s with Some s' => ("-", s') | None => ("", s) end in
  let '(d, s) := span_digits s in
  let leading_zero := match d with String "0"%char (String _ _) => true | _ => false end in
  if decide (d = "" \/ leading_zero = true) then None else
  '(f, s) ← match strip "." s with
            | Some s' => let '(d, r) := span_digits s' in
                         if decide (d = "") then None else Some ("." +:+ d, r)
            | None => Some ("", s)
            end;
  '(e, s) ← match s with
            | String c s' =>
                if decide (c = "e"%char \/ c = "E"%char) then
                  let '(g, s') :=
                    match s' with
                    | String "+"%char r => ("+", r)
                    | String "-"%char r => ("-", r)
                    | _ => ("", s')
                    end in
                  let '(d, r) := span_digits s' in
                  if decide (d = "") then None else Some (String c (g +:+ d), r)
                else Some ("", s)
            | EmptyString => Some ("", s)
            end;
  Some (sg +:+ d +:+ f +:+ e, s).

Definition byte (n : Z) : string := String (ascii_of_nat (Z.to_nat n)) "".

(** The UTF-8 form of a code point *)
Definition utf8 (n : Z) : string :=
  if n <? 128 then byte n
  else if n <? 2048 then byte (192 + n / 64) +:+ byte (128 + n mod 64)
  else if n <? 65536 then
    byte (224 + n / 4096) +:+ byte (128 + (n / 64) mod 64) +:+ byte (128 + n mod 64)
  else byte (240 + n / 262144) +:+ byte (128 + (n / 4096) mod 64) +:+
       byte (128 + (n / 64) mod 64) +:+ byte (128 + n mod 64).

Definition hex4 (s : string) : option (Z * string) :=
  match s with
  | String a (String b (String c (String d r))) =>
      x ← hex_value a; y ← hex_value b; z ← hex_value c; t ← hex_value d;
      Some (((Z.of_nat x * 16 + Z.of_nat y) * 16 + Z.of_nat z) * 16 + Z.of_nat t, r)
  | _ => None
  end.

Definition simple_escape (c : ascii) : option string :=
  let n := code c in
  if Nat.eqb n 34 || Nat.eqb n 92 || Nat.eqb n 47 then Some (String c "")
  else if Nat.eqb n 98 then Some (byte 8)
  else if Nat.eqb n 102 then Some (byte 12)
  else if Nat.eqb n 110 then Some (byte 10)
  else if Nat.eqb n 114 then Some (byte 13)
  else if Nat.eqb n 116 then Some (byte 9)
  else None.

(** An escaped code point: a surrogate pair makes one, a lone surrogate is replaced. *)
Definition scan_unicode (s : string) : option (string * string) :=
  '(u, r) ← hex4 s;
  let lone := Some (utf8 65533, r) in
  if (55296 <=? u) && (u <=? 57343) then
    match strip (byte 92 +:+ "u") r with
    | Some r' =>
        match hex4 r' with
        | Some (v, r'') =>
            if (u <=? 56319) && (56320 <=? v) && (v <=? 57343)
            then Some (utf8 (65536 + (u - 55296) * 1024 + (v - 56320)), r'')
            else lone
        | None => lone
        end
    | None => lone
    end
  else Some (utf8 u, r).

(** The rest of a string literal after its opening quote *)
Fixpoint scan_string (fuel : nat) (s : string) : option (string * string) :=
  match fuel, s with
  | S fuel', String c s' =>
      if Nat.eqb (code c) 34 then Some ("", s')
      else if Nat.ltb (code c) 32 then None
      else
        '(chunk, rest) ←
          (if Nat.eqb (code c) 92 then
             match s' with
             | String e r =>
                 if Nat.eqb (code e) 117 then scan_unicode r
                 else t ← simple_escape e; Some (t, r)
             | EmptyString => None
             end
           else Some (String c "", s'));
        '(text, rest) ← scan_string fuel' rest;
        Some (chunk +:+ text, rest)
  | _, _ => None
  end.

End Lexer.

(** ** Values
    The fuel bounds the number of values and characters: the length of the text
    is enough. *)
Section Parser.

Definition dquote : ascii := ascii_of_nat 34.

(** After "[" or a comma: the elements to the closing bracket *)
Fixpoint parse_value (fuel : nat) (s : string) : option (json * string) :=
  match fuel with
  | O => None
  | S fuel' =>
      let fix elements (n : nat) (s : string) : option (list json * string) :=
        match n with
        | O => None
        | S n' =>
            '(j, r) ← parse_value fuel' s;
            match skip_space r with
            | String ","%char r' => '(l, r'') ← elements n' r'; Some (j :: l, r'')
            | String "]"%char r' => Some ([j], r')
            | _ => None
            end
        end in
      let fix members (n : nat) (s : string) : option (list (string * json) * string) :=
        match n with
        | O => None
        | S n' =>
            match skip_space s with
            | String q r =>
                if decide (q = dquote) then
                  '(key, r) ← scan_string (S (String.length r)) r;
                  match skip_space r with
                  | String ":"%char r =>
                      '(j, r) ← parse_value fuel' r;
                      match skip_space r with
                      | String ","%char r' => '(l, r'') ← members n' r'; Some ((key, j) :: l, r'')
                      | String "}"%char r' => Some ([(key, j)], r')
                      | _ => None
                      end
                  | _ => None
                  end
                else None
            | EmptyString => None
            end
        end in
      let s := skip_space s in
      match s with
      | EmptyString => None
      | String c r =>
          if decide (c = dquote) then '(t, r) ← scan_string (S (String.length r)) r; Some (JStr t, r)
          else if decide (c = "["%char) then
            match skip_space r with
            | String "]"%char r' => Some (JArr [], r')
            | _ => '(l, r') ← elements fuel' r; Some (JArr l, r')
            end
          else if decide (c = "{"%char) then
            match skip_space r with
            | String "}"%char r' => Some (JObj [], r')
            | _ => '(l, r') ← members fuel' r; Some (JObj l, r')
            end
          else
            match strip "null" s, strip "true" s, strip "false" s with
            | Some r', _, _ => Some (JNull, r')
            | _, Some r', _ => Some (JBool true, r')
            | _, _, Some r' => Some (JBool false, r')
            | _, _, _ => '(lit, r') ← scan_number s; Some (JNum lit, r')
            end
      end
  end.

(** [Decode]: the first value of the text *)
Definition parse_first (s : string) : option json :=
  '(j, _) ← parse_value (S (String.length s)) s; Some j.

(** [Unmarshal]: the whole text is one value *)
Definition parse_json (s : string) : option json :=
  '(j, r) ← parse_value (S (String.length s)) s;
  if decide (skip_space r = "") then Some j else None.

End Parser.

(** ** Decoding into structs *)
Section Structs.

Definition lower (c : ascii) : ascii :=
  let n := code c in
  if Nat.leb 65 n && Nat.leb n 90 then ascii_of_nat (n + 32) else c.

Fixpoint lower_string (s : string) : string :=
  match s with EmptyString => "" | String c s' => String (lower c) (lower_string s') end.

(** The value of a struct's field [name]: keys match in any case, the last one wins. *)
Definition struct_field_opt (name : string) (j : json) : option json :=
  match j with
  | JObj fields =>
      snd <$> find_first
        (fun p => bool_decide (lower_string p.1 = lower_string name)) (reverse fields)
  | _ => None
  end.

Definition struct_field (name : string) (j : json) : json :=
  default JNull (struct_field_opt name j).

(** A field whose type has its own [UnmarshalJSON]: an absent one keeps its zero. *)
Definition field_with {A} (zero : A) (dec : json -> outcome A) (name : string) (j : json)
    : outcome A :=
  match struct_field_opt name j with None => Ok zero | Some v => dec v end.

Definition is_struct (j : json) : outcome unit :=
  match j with JObj _ | JNull => Ok tt | _ => Err ErrJSON end.

Definition unmarshal_bool (j : json) : outcome bool :=
  match j with JBool b => Ok b | JNull => Ok false | _ => Err ErrJSON end.

(** A pointer field: null is nil. *)
Definition unmarshal_ptr {A} (dec : json -> outcome A) (j : json) : outcome (option A) :=
  match j with JNull => Ok None | _ => a ← dec j; Ok (Some a) end.

Definition unmarshal_uint64 (j : json) : outcome Z :=
  match j with
  | JNum lit => of_option ErrJSON (parse_uint64 lit)
  | JNull => Ok 0
  | _ => Err ErrJSON
  end.

(** The leading digits of [s]: their value after [acc], their count, the rest *)
Fixpoint take_digits (s : string) (acc count : Z) : Z * Z * string :=
  match s with
  | EmptyString => (acc, count, s)
  | String c s' =>
      match digit_of c with
      | Some d => take_digits s' (acc * 10 + d) (count + 1)
      | None => (acc, count, s)
      end
  end.

(** The [float64] nearest to [m * 10 ^ e] *)
Definition float_of_decimal (negative : bool) (m e : Z) : float64 :=
  let pos z := match z with Zpos p => S754_finite false p 0 | _ => S754_zero false end in
  let x := if decide (m = 0) then S754_zero false
           else if decide (0 <= e) then binary_normalize 53 1024 (m * 10 ^ e) 0 false
           else SFdiv 53 1024 (pos m) (pos (10 ^ (- e))) in
  if negative then SFopp x else x.

(** [strconv.ParseFloat(lit, 64)] on a JSON number; out of range is an error *)
Definition parse_float (lit : string) : option float64 :=
  let '(negative, s) :=
    match strip "-" lit with Some s' => (true, s') | None => (false, lit) end in
  let '(m, n, s) := take_digits s 0 0 in
  let '(m, k, s) :=
    match strip "." s with Some s' => take_digits s' m 0 | None => (m, 0, s) end in
  let exponent (s : string) :=
    match s with
    | String "-"%char s' => let '(e, c, r) := take_digits s' 0 0 in (- e, c, r)
    | String "+"%char s' => take_digits s' 0 0
    | _ => take_digits s 0 0
    end in
  let '(e, c, s) :=
    match s with
    | String "e"%char s' | String "E"%char s' => exponent s'
    | _ => (0, 1, s)
    end in
  if decide (n = 0 \/ c = 0 \/ s <> "") then None
  else match float_of_decimal negative m (e - k) with
       | S754_infinity _ | S754_nan => None
       | x => Some x
       end.

Definition unmarshal_float (j : json) : outcome float64 :=
  match j with
  | JNum lit => of_option ErrJSON (parse_float lit)
  | JNull => Ok (S754_zero false)
  | _ => Err ErrJSON
  end.

End Structs.
