(* ===== verification/JsonText.v ===== *)
(** * encoding/json: what is printed is parsed back

    [parse_value] on the text of a value, followed by anything that can follow a
    value, gives the value and what follows. Numbers are kept as literals, so the
    literals of a value have to be ones that the grammar accepts. *)
From Stdlib Require Import Ascii DecimalString DecimalZ DecimalPos DecimalFacts.
From S2P Require Import Prelude.
From S2P Require Import Go.
From S2P Require Import Json.
Local Open Scope Z_scope.

(** ** Strings *)
Section Strings.

Lemma string_app_nil (s : string) : s +:+ "" = s.
Proof. induction s as [|c s IH]; [done|]. exact (f_equal (String c) IH). Qed.

Lemma string_app_assoc (a b c : string) : (a +:+ b) +:+ c = a +:+ (b +:+ c).
Proof. induction a as [|x a IH]; [done|]. exact (f_equal (String x) IH). Qed.

Lemma string_length_app (a b : string) :
  String.length (a +:+ b) = (String.length a + String.length b)%nat.
Proof. induction a as [|x a IH]; [done|]. exact (f_equal S IH). Qed.

Lemma string_cons_app c (s t : string) : String c s +:+ t = String c (s +:+ t).
Proof. reflexivity. Qed.

(** One escaped character is read as the character. *)
Lemma scan_escape_char c fuel t :
  scan_string (S fuel) (escape_char c +:+ t) =
  '(text, rest) ← scan_string fuel t; Some (String c text, rest).
Proof.
  destruct c as [[] [] [] [] [] [] [] []]; reflexivity.
Qed.

Lemma scan_separator a b c fuel t :
  is_separator a b c = true ->
  scan_string (S fuel)
    (String (ascii_of_nat 92) ("u202" +:+ hex_digit (nat_of_ascii c - 160) +:+ t)) =
  '(text, rest) ← scan_string fuel t; Some (String a (String b (String c text)), rest).
Proof.
  unfold is_separator. rewrite !andb_true_iff, orb_true_iff, !Nat.eqb_eq.
  intros [[Ha Hb] Hc].
  assert (forall x n, nat_of_ascii x = n -> x = ascii_of_nat n) as Hx
    by (intros x n <-; by rewrite ascii_nat_embedding).
  apply Hx in Ha as ->. apply Hx in Hb as ->. destruct Hc as [->%Hx | ->%Hx]; reflexivity.
Qed.

Lemma scan_quote fuel t : scan_string (S fuel) (String dquote t) = Some ("", t).
Proof. reflexivity. Qed.

(** The induction that follows [escape] *)
Lemma escape_ind (P : string -> Prop) :
  P "" ->
  (forall a s, escape (String a s) = escape_char a +:+ escape s -> P s -> P (String a s)) ->
  (forall a b c s, is_separator a b c = true -> P s -> P (String a (String b (String c s)))) ->
  forall s, P s.
Proof.
  intros H0 H1 H3 s. remember (String.length s) as n eqn:Hn.
  assert (String.length s <= n)%nat as Hle by lia. clear Hn. revert s Hle.
  induction n as [|n IH]; intros [|a s] Hle; simpl in Hle; try lia; try exact H0.
  destruct s as [|b [|c s]]; [apply H1; [done|]; apply IH; simpl in *; lia.. |].
  destruct (is_separator a b c) eqn:Hs.
  - apply H3; [done|]. apply IH. simpl in Hle. lia.
  - apply H1; [simpl; by rewrite Hs|]. apply IH. simpl in Hle |- *. lia.
Qed.

Lemma escape_separator a b c s :
  is_separator a b c = true ->
  escape (String a (String b (String c s))) =
  String (ascii_of_nat 92) ("u202" +:+ hex_digit (nat_of_ascii c - 160) +:+ escape s).
Proof. intros H. simpl. by rewrite H. Qed.

(** A quoted string is read back, with fuel for its characters. *)
Lemma scan_escape s fuel rest :
  (String.length s < fuel)%nat ->
  scan_string fuel (escape s +:+ String dquote rest) = Some (s, rest).
Proof.
  revert fuel. induction s as [| a s Hs IH | a b c s Hs IH] using escape_ind; intros fuel Hf;
    (destruct fuel as [|fuel]; [simpl in Hf; lia|]).
  - apply scan_quote.
  - rewrite Hs, string_app_assoc, scan_escape_char, IH by (simpl in Hf; lia). done.
  - rewrite escape_separator by done.
    change ((String (ascii_of_nat 92)
               ("u202" +:+ hex_digit (nat_of_ascii c - 160) +:+ escape s)) +:+ String dquote rest)
      with (String (ascii_of_nat 92)
              (("u202" +:+ hex_digit (nat_of_ascii c - 160) +:+ escape s) +:+ String dquote rest)).
    rewrite !string_app_assoc, (scan_separator a b), IH by (done || simpl in Hf; lia). done.
Qed.

Lemma length_escape_char c : (1 <= String.length (escape_char c))%nat.
Proof. destruct c as [[] [] [] [] [] [] [] []]; vm_compute; lia. Qed.

(** The text of a string is at least as long as the string, up to the separators. *)
Lemma length_escape s : (String.length s <= String.length (escape s))%nat.
Proof.
  induction s as [| a s Hs IH | a b c s Hs IH] using escape_ind; [done| |].
  - rewrite Hs, string_length_app. pose proof (length_escape_char a). simpl. lia.
  - rewrite escape_separator by done. simpl. rewrite ?string_length_app. simpl. lia.
Qed.

End Strings.

(** ** Numbers *)
Section Numbers.

(** A literal of the grammar *)
Definition number_ok (lit : string) : bool :=
  bool_decide (scan_number lit = Some (lit, "")).

(** What can follow a value: nothing that a number literal could go on with *)
Definition stops (rest : string) : Prop :=
  match rest with
  | EmptyString => True
  | String c _ => digit_of c = None /\ c ∉ ["."%char; "e"%char; "E"%char; "-"%char]
  end.

Lemma span_digits_app s rest d r :
  stops rest -> span_digits s = (d, r) -> span_digits (s +:+ rest) = (d, r +:+ rest).
Proof.
  intros Hrest. revert d r. induction s as [|c s IH]; intros d r; simpl.
  - intros [= <- <-]. destruct rest as [|c rest]; [done|]. destruct Hrest as [Hd _].
    simpl. by rewrite Hd.
  - change (String.append s rest) with (s +:+ rest).
    destruct (digit_of c); [|by intros [= <- <-]].
    destruct (span_digits s) as [d' r']. rewrite (IH d' r') by done. by intros [= <- <-].
Qed.

Lemma strip_char_app c s rest :
  match rest with String x _ => x <> c | EmptyString => True end ->
  strip (String c "") (s +:+ rest) =
  match strip (String c "") s with Some s' => Some (s' +:+ rest) | None => None end.
Proof.
  intros Hne. destruct s as [|x s]; simpl.
  - destruct rest as [|x rest]; [done|]. simpl. by rewrite decide_False.
  - change (String.append s rest) with (s +:+ rest). by case_decide.
Qed.

Lemma stops_char c rest :
  stops rest -> c ∈ ["."%char; "e"%char; "E"%char; "-"%char] ->
  match rest with String x _ => x <> c | EmptyString => True end.
Proof. destruct rest; [done|]. by intros [_ H] Hc ->. Qed.

(** The optional parts of a literal *)
Definition scan_fraction (s : string) : option (string * string) :=
  match strip "." s with
  | Some s' => let '(d, r) := span_digits s' in
               if decide (d = "") then None else Some ("." +:+ d, r)
  | None => Some ("", s)
  end.

Definition scan_exponent (s : string) : option (string * string) :=
  match s with
  | String c s' =>
      if decide (c = "e"%char \/ c = "E"%char) then
        let '(g, s') :=
          match s' with
          | String "+"%char r => ("+", r)
          | String "-"%char r => ("-", r)
          | _ => ("", s')
          end in
        let '(d, r) := span_digits s' in
        if decide (d = "") then None else Some (String c (g +:+ d), r)
      else Some ("", s)
  | EmptyString => Some ("", s)
  end.

Lemma scan_number_parts s :
  scan_number s =
  let '(sg, s) := match strip "-" s with Some s' => ("-", s') | None => ("", s) end in
  let '(d, s) := span_digits s in
  let leading_zero := match d with String "0"%char (String _ _) => true | _ => false end in
  if decide (d = "" \/ leading_zero = true) then None else
  '(f, s) ← scan_fraction s;
  '(e, s) ← scan_exponent s;
  Some (sg +:+ d +:+ f +:+ e, s).
Proof. reflexivity. Qed.

Lemma scan_fraction_app s rest f r :
  stops rest -> scan_fraction s = Some (f, r) -> scan_fraction (s +:+ rest) = Some (f, r +:+ rest).
Proof.
  intros Hrest. unfold scan_fraction.
  rewrite strip_char_app by (apply stops_char; [done | by left]).
  destruct (strip "." s) as [s'|]; [|by intros [= <- <-]].
  destruct (span_digits s') as [d r'] eqn:Hd.
  rewrite (span_digits_app _ _ _ _ Hrest Hd). case_decide; [done|]. by intros [= <- <-].
Qed.

Lemma scan_exponent_app s rest e r :
  stops rest -> scan_exponent s = Some (e, r) -> scan_exponent (s +:+ rest) = Some (e, r +:+ rest).
Proof.
  intros Hrest. unfold scan_exponent. destruct s as [|c s]; simpl.
  - intros [= <- <-]. destruct rest as [|c rest]; [done|].
    destruct Hrest as [_ Hc]. change (String.append "" (String c rest)) with (String c rest).
    cbv iota. rewrite decide_False; [done|]. intros [-> | ->]; apply Hc; set_solver.
  - change (String.append s rest) with (s +:+ rest). case_decide; [|by intros [= <- <-]].
    destruct s as [|g s]; [simpl; done|].
    assert (Hsplit : forall x y, span_digits x = y -> stops rest ->
      span_digits (x +:+ rest) = (y.1, y.2 +:+ rest)).
    { intros x [d' r'] Hx Hr. by apply span_digits_app. }
    set (p := match String g s with
              | String "+"%char r => ("+", r) | String "-"%char r => ("-", r)
              | _ => ("", String g s) end).
    assert (match String g s +:+ rest with
            | String "+"%char r => ("+", r) | String "-"%char r => ("-", r)
            | _ => ("", String g s +:+ rest) end = (p.1, p.2 +:+ rest)) as ->.
    { subst p. by destruct g as [[] [] [] [] [] [] [] []]. }
    destruct p as [sg s1]. simpl. destruct (span_digits s1) as [d r'] eqn:Hd.
    rewrite (span_digits_app _ _ _ _ Hrest Hd). case_decide; [done|]. by intros [= <- <-].
Qed.

Lemma scan_number_app lit rest :
  number_ok lit = true -> stops rest -> scan_number (lit +:+ rest) = Some (lit, rest).
Proof.
  unfold number_ok. rewrite bool_decide_eq_true. intros Hlit Hrest.
  enough (forall s l r, scan_number s = Some (l, r) -> scan_number (s +:+ rest) = Some (l, r +:+ rest))
    as H by (by rewrite (H _ _ _ Hlit)).
  intros s l r. rewrite !scan_number_parts.
  rewrite (strip_char_app "-"%char) by (apply stops_char; [done | set_solver]).
  assert (exists sg s1, match strip "-" s with Some s' => ("-", s') | None => ("", s) end = (sg, s1) /\
    match match strip "-" s with Some s' => Some (s' +:+ rest) | None => None end with
    | Some s' => ("-", s') | None => ("", s +:+ rest) end = (sg, s1 +:+ rest)) as (sg & s1 & -> & ->)
    by (destruct (strip "-" s); by do 2 eexists).
  destruct (span_digits s1) as [d r1] eqn:Hd. rewrite (span_digits_app _ _ _ _ Hrest Hd).
  lazy beta iota zeta. case_decide; [done|]. destruct (scan_fraction r1) as [[f r2]|] eqn:Hf; [|done].
  rewrite (scan_fraction_app _ _ _ _ Hrest Hf). simpl.
  destruct (scan_exponent r2) as [[e r3]|] eqn:He; [|done].
  rewrite (scan_exponent_app _ _ _ _ Hrest He). simpl. by intros [= <- <-].
Qed.

(** ** The literals that the program prints *)
Lemma span_digits_uint d : span_digits (NilEmpty.string_of_uint d) = (NilEmpty.string_of_uint d, "").
Proof. induction d as [|d IH|d IH|d IH|d IH|d IH|d IH|d IH|d IH|d IH|d IH]; simpl; [done|..]; by rewrite IH. Qed.

Lemma to_uint_no_zero p d : Pos.to_uint p = Decimal.D0 d -> False.
Proof.
  intros H. pose proof (DecimalPos.Unsigned.to_uint_nonnil p) as Hn.
  pose proof (DecimalPos.Unsigned.to_of (Pos.to_uint p)) as Hu.
  rewrite DecimalPos.Unsigned.of_to in Hu. simpl in Hu. rewrite H in Hu.
  assert (Hlen : forall u, (Decimal.nb_digits (Decimal.nzhead u) <= Decimal.nb_digits u)%nat).
  { induction u; simpl; lia. }
  unfold Decimal.unorm in Hu. simpl in Hu. specialize (Hlen d).
  destruct (Decimal.nzhead d) eqn:Hd; try congruence;
    apply (f_equal Decimal.nb_digits) in Hu; simpl in Hu, Hlen; try lia.
  injection Hu. intros. destruct d; simpl in *; try discriminate; try lia.
  pose proof (DecimalPos.Unsigned.of_to p) as Hp. rewrite H in Hp. simpl in Hp. discriminate.
Qed.

Lemma scan_number_uint p :
  scan_number (NilEmpty.string_of_uint (Pos.to_uint p)) =
  Some (NilEmpty.string_of_uint (Pos.to_uint p), "").
Proof.
  rewrite scan_number_parts.
  pose proof (DecimalPos.Unsigned.to_uint_nonnil p) as Hn. pose proof (to_uint_no_zero p) as H0.
  assert (strip "-" (NilEmpty.string_of_uint (Pos.to_uint p)) = None) as ->
    by (destruct (Pos.to_uint p); done).
  cbv iota beta. rewrite span_digits_uint. cbv zeta iota beta.
  rewrite decide_False.
  - simpl. by rewrite !string_app_nil.
  - destruct (Pos.to_uint p) as [|d|d|d|d|d|d|d|d|d|d]; simpl; try (intros [? | ?]; discriminate);
      [done|]. destruct (H0 d eq_refl).
Qed.

Lemma number_ok_itoa z : number_ok (itoa z) = true.
Proof.
  unfold number_ok. rewrite bool_decide_eq_true. unfold itoa.
  assert (forall p, NilZero.string_of_uint (Pos.to_uint p) = NilEmpty.string_of_uint (Pos.to_uint p)) as Hz.
  { intros p. pose proof (DecimalPos.Unsigned.to_uint_nonnil p). by destruct (Pos.to_uint p). }
  destruct z as [|p|p]; simpl; [done | rewrite Hz; apply scan_number_uint |].
  pose proof (scan_number_uint p) as H. rewrite Hz. rewrite scan_number_parts in H |- *.
  pose proof (DecimalPos.Unsigned.to_uint_nonnil p) as Hn.
  assert (strip "-" (NilEmpty.string_of_uint (Pos.to_uint p)) = None) as Hm
    by (destruct (Pos.to_uint p); done).
  rewrite Hm in H.
  assert (forall x, strip "-" (String "-"%char x) = Some x) as -> by done.
  cbv iota beta in H |- *. rewrite span_digits_uint in *. cbv zeta iota beta in H |- *.
  case_decide; [done|]. simpl in H |- *. by rewrite !string_app_nil.
Qed.

End Numbers.

(** ** Values *)
Section Values.

Lemma json_nested_ind (P : json -> Prop) :
  P JNull -> (forall b, P (JBool b)) -> (forall lit, P (JNum lit)) -> (forall s, P (JStr s)) ->
  (forall l, Forall P l -> P (JArr l)) ->
  (forall fields, Forall (fun kv => P kv.2) fields -> P (JObj fields)) ->
  forall j, P j.
Proof.
  intros Hnull Hbool Hnum Hstr Harr Hobj.
  refine (fix go j := match j return P j with
    | JNull => Hnull | JBool b => Hbool b | JNum lit => Hnum lit | JStr s => Hstr s
    | JArr l => Harr l _
    | JObj fields => Hobj fields _
    end).
  - induction l as [|x l IH]; constructor; [apply go | exact IH].
  - induction fields as [|kv fields IH]; constructor; [apply go | exact IH].
Defined.

(** Every number of the value is a literal of the grammar. *)
Fixpoint json_ok (j : json) : bool :=
  match j with
  | JNum lit => number_ok lit
  | JArr l => forallb json_ok l
  | JObj fields => forallb (fun kv => json_ok kv.2) fields
  | _ => true
  end.

(** The loops of [parse_value] *)
Definition parse_elements (parse : string -> option (json * string)) :=
  fix elements (n : nat) (s : string) : option (list json * string) :=
    match n with
    | O => None
    | S n' =>
        '(j, r) ← parse s;
        match skip_space r with
        | String ","%char r' => '(l, r'') ← elements n' r'; Some (j :: l, r'')
        | String "]"%char r' => Some ([j], r')
        | _ => None
        end
    end.

Definition parse_members (parse : string -> option (json * string)) :=
  fix members (n : nat) (s : string) : option (list (string * json) * string) :=
    match n with
    | O => None
    | S n' =>
        match skip_space s with
        | String q r =>
            if decide (q = dquote) then
              '(key, r) ← scan_string (S (String.length r)) r;
              match skip_space r with
              | String ":"%char r =>
                  '(j, r) ← parse r;
                  match skip_space r with
                  | String ","%char r' => '(l, r'') ← members n' r'; Some ((key, j) :: l, r'')
                  | String "}"%char r' => Some ([(key, j)], r')
                  | _ => None
                  end
              | _ => None
              end
            else None
        | EmptyString => None
        end
    end.

Lemma parse_value_S fuel s :
  parse_value (S fuel) s =
  match skip_space s with
  | EmptyString => None
  | String c r =>
      if decide (c = dquote) then '(t, r) ← scan_string (S (String.length r)) r; Some (JStr t, r)
      else if decide (c = "["%char) then
        match skip_space r with
        | String "]"%char r' => Some (JArr [], r')
        | _ => '(l, r') ← parse_elements (parse_value fuel) fuel r; Some (JArr l, r')
        end
      else if decide (c = "{"%char) then
        match skip_space r with
        | String "}"%char r' => Some (JObj [], r')
        | _ => '(l, r') ← parse_members (parse_value fuel) fuel r; Some (JObj l, r')
        end
      else
        let s := skip_space s in
        match strip "null" s, strip "true" s, strip "false" s with
        | Some r', _, _ => Some (JNull, r')
        | _, Some r', _ => Some (JBool true, r')
        | _, _, Some r' => Some (JBool false, r')
        | _, _, _ => '(lit, r') ← scan_number s; Some (JNum lit, r')
        end
  end.
Proof. reflexivity. Qed.

(** The first character of a value's text *)
Definition starts_value (s : string) : Prop :=
  match s with
  | EmptyString => False
  | String c _ => is_space c = false /\ c <> "]"%char /\ c <> "}"%char
  end.

Lemma number_head lit :
  number_ok lit = true ->
  exists c t, lit = String c t /\ is_space c = false /\
    c ∉ [dquote; "["%char; "{"%char; "n"%char; "t"%char; "f"%char; "]"%char; "}"%char].
Proof.
  unfold number_ok. rewrite bool_decide_eq_true, scan_number_parts. destruct lit as [|c t]; [done|].
  intros H. exists c, t. split; [done|].
  destruct (decide (c = "-"%char)) as [->|Hne]; [by split; [|apply (bool_decide_unpack _)]|].
  assert (is_Some (digit_of c)) as [d Hd].
  { simpl in H. rewrite decide_False in H by congruence. simpl in H.
    destruct (digit_of c); [by eexists | done]. }
  clear H Hne. destruct c as [[] [] [] [] [] [] [] []]; vm_compute in Hd; try discriminate;
    by split; [|apply (bool_decide_unpack _)].
Qed.

Lemma text_starts_value j : json_ok j = true -> starts_value (json_text j).
Proof.
  destruct j as [|[]|lit|s|l|fields]; intros Hok; try by vm_compute.
  destruct (number_head lit Hok) as (c & t & -> & Hs & Hc).
  simpl. split; [done|]. split; intros ->; apply Hc; apply (bool_decide_unpack _); by vm_compute.
Qed.

Lemma starts_value_app s rest : starts_value s -> starts_value (s +:+ rest).
Proof. by destruct s. Qed.

Lemma skip_space_starts s : starts_value s -> skip_space s = s.
Proof. destruct s; [done|]. simpl. by intros [-> _]. Qed.

Lemma stops_delimiter c rest : c ∈ [","%char; "]"%char; "}"%char; ":"%char] -> stops (String c rest).
Proof.
  rewrite !elem_of_cons, elem_of_nil. intros [-> | [-> | [-> | [-> | []]]]];
    (split; [done|]); by apply (bool_decide_unpack _).
Qed.

Lemma length_text_pos j : json_ok j = true -> (1 <= String.length (json_text j))%nat.
Proof. intros H%text_starts_value. destruct (json_text j); [done | simpl; lia]. Qed.

Lemma skip_delimiter c t : is_space c = false -> skip_space (String c t) = String c t.
Proof. simpl. by intros ->. Qed.

(** [parse] reads the value [j] wherever its text stands. *)
Definition reads_text (parse : string -> option (json * string)) (j : json) : Prop :=
  forall rest, stops rest -> parse (json_text j +:+ rest) = Some (j, rest).

Lemma parse_elements_S parse n s :
  parse_elements parse (S n) s =
  '(j, r) ← parse s;
  match skip_space r with
  | String ","%char r' => '(l, r'') ← parse_elements parse n r'; Some (j :: l, r'')
  | String "]"%char r' => Some ([j], r')
  | _ => None
  end.
Proof. reflexivity. Qed.

Lemma parse_members_S parse n s :
  parse_members parse (S n) s =
  match skip_space s with
  | String q r =>
      if decide (q = dquote) then
        '(key, r) ← scan_string (S (String.length r)) r;
        match skip_space r with
        | String ":"%char r =>
            '(j, r) ← parse r;
            match skip_space r with
            | String ","%char r' => '(l, r'') ← parse_members parse n r'; Some ((key, j) :: l, r'')
            | String "}"%char r' => Some ([(key, j)], r')
            | _ => None
            end
        | _ => None
        end
      else None
  | EmptyString => None
  end.
Proof. reflexivity. Qed.

Lemma parse_elements_text parse l n rest :
  l <> [] -> Forall (reads_text parse) l -> (length l <= n)%nat ->
  parse_elements parse n (commas (json_text <$> l) +:+ String "]"%char rest) = Some (l, rest).
Proof.
  revert n. induction l as [|j l IH]; intros n Hne Hl Hn; [done|].
  apply Forall_cons in Hl as [Hj Hl]. destruct n as [|n]; [simpl in Hn; lia|].
  destruct l as [|j' l].
  - simpl. rewrite Hj by (apply stops_delimiter, (bool_decide_unpack _); by vm_compute). done.
  - change (commas (json_text <$> j :: j' :: l))
      with (json_text j +:+ String ","%char (commas (json_text <$> j' :: l))).
    set (t := commas (json_text <$> j' :: l)) in *. clearbody t. rewrite string_app_assoc, parse_elements_S.
    rewrite Hj by (apply stops_delimiter, (bool_decide_unpack _); by vm_compute).
    rewrite string_cons_app.
    cbn [mbind option_bind]. rewrite skip_delimiter by done. cbv iota beta.
    rewrite IH; [done | done | done |].
    simpl in Hn |- *. lia.
Qed.

Definition member_text (kv : string * json) : string := quote kv.1 +:+ ":" +:+ json_text kv.2.

Lemma parse_quoted k t :
  scan_string (S (String.length (escape k +:+ String dquote t))) (escape k +:+ String dquote t) =
  Some (k, t).
Proof.
  apply scan_escape. rewrite string_length_app. pose proof (length_escape k). simpl. lia.
Qed.

Lemma quote_app k t : quote k +:+ t = String dquote (escape k +:+ String dquote t).
Proof.
  unfold quote. rewrite string_cons_app, string_app_assoc, string_cons_app. reflexivity.
Qed.

Lemma parse_member_step parse n k t :
  parse_members parse (S n) (quote k +:+ String ":"%char t) =
  '(j, r) ← parse t;
  match skip_space r with
  | String ","%char r' => '(l, r'') ← parse_members parse n r'; Some ((k, j) :: l, r'')
  | String "}"%char r' => Some ([(k, j)], r')
  | _ => None
  end.
Proof.
  rewrite quote_app, parse_members_S, skip_delimiter by done. cbv beta iota.
  rewrite decide_True by done. rewrite parse_quoted. cbn [mbind option_bind].
  rewrite skip_delimiter by done. reflexivity.
Qed.

Lemma parse_members_text parse fields n rest :
  fields <> [] -> Forall (fun kv => reads_text parse kv.2) fields -> (length fields <= n)%nat ->
  parse_members parse n (commas (member_text <$> fields) +:+ String "}"%char rest) =
  Some (fields, rest).
Proof.
  revert n. induction fields as [|[k j] fields IH]; intros n Hne Hl Hn; [done|].
  apply Forall_cons in Hl as [Hj Hl]. destruct n as [|n]; [simpl in Hn; lia|]. simpl in Hj.
  destruct fields as [|kv fields].
  - change (commas (member_text <$> [(k, j)])) with (quote k +:+ String ":"%char (json_text j)).
    rewrite string_app_assoc, string_cons_app, parse_member_step.
    rewrite Hj by (apply stops_delimiter, (bool_decide_unpack _); by vm_compute). reflexivity.
  - change (commas (member_text <$> (k, j) :: kv :: fields))
      with ((quote k +:+ String ":"%char (json_text j)) +:+
            String ","%char (commas (member_text <$> kv :: fields))).
    set (t := commas (member_text <$> kv :: fields)) in *. clearbody t.
    rewrite !string_app_assoc, !string_cons_app, parse_member_step.
    rewrite Hj by (apply stops_delimiter, (bool_decide_unpack _); by vm_compute).
    cbn [mbind option_bind]. rewrite skip_delimiter by done. cbv iota beta.
    rewrite IH; [done | done | done |]. simpl in Hn |- *. lia.
Qed.

Lemma commas_bounds l :
  Forall (fun s => 1 <= String.length s)%nat l ->
  (length l <= String.length (commas l))%nat /\
  Forall (fun s => String.length s <= String.length (commas l))%nat l.
Proof.
  induction l as [|s l IH]; intros Hl; [by split|]. apply Forall_cons in Hl as [Hs Hl].
  destruct (IH Hl) as [Hlen Hall]. destruct l as [|s' l].
  - split; [exact Hs|]. by constructor.
  - change (commas (s :: s' :: l)) with (s +:+ String ","%char (commas (s' :: l))).
    rewrite string_length_app. simpl String.length. split; [simpl in *; lia|].
    constructor; [lia|]. apply (Forall_impl _ _ _ Hall). simpl. lia.
Qed.

(** The texts of the parts of a value are shorter than its own. *)
Lemma parts_read {A} (f : A -> json) (g : A -> string) l fuel :
  (String.length (commas (g <$> l)) < fuel)%nat ->
  (forall a, a ∈ l -> String.length (json_text (f a)) <= String.length (g a))%nat ->
  (forall a, a ∈ l -> 1 <= String.length (g a))%nat ->
  (forall a, a ∈ l -> forall fuel, (String.length (json_text (f a)) < fuel)%nat ->
     reads_text (parse_value fuel) (f a)) ->
  Forall (fun a => reads_text (parse_value fuel) (f a)) l /\ (length l <= fuel)%nat.
Proof.
  intros Hf Hle Hpos Hread.
  assert (Forall (fun s => 1 <= String.length s)%nat (g <$> l)) as Hg
    by (apply Forall_fmap, Forall_forall; exact Hpos).
  destruct (commas_bounds _ Hg) as [Hlen Hall]. rewrite length_fmap in Hlen. split; [|lia].
  rewrite Forall_fmap, Forall_forall in Hall. apply Forall_forall. intros a Ha.
  apply Hread; [done|]. specialize (Hall a Ha). specialize (Hle a Ha). simpl in Hall. lia.
Qed.

Lemma json_text_arr l : json_text (JArr l) = String "["%char (commas (json_text <$> l) +:+ "]").
Proof. reflexivity. Qed.
Lemma json_text_fields fields :
  json_text (JObj fields) = String "{"%char (commas (member_text <$> fields) +:+ "}").
Proof. reflexivity. Qed.

Lemma commas_starts x l rest : starts_value x -> starts_value (commas (x :: l) +:+ rest).
Proof. intros H. destruct l; [by apply starts_value_app|]. by do 2 apply starts_value_app. Qed.

Lemma forallb_elem {A} (f : A -> bool) l a : forallb f l = true -> a ∈ l -> f a = true.
Proof. rewrite forallb_forall. intros H Ha. by apply H, list_elem_of_In. Qed.

Lemma parse_value_text j fuel :
  json_ok j = true -> (String.length (json_text j) < fuel)%nat -> reads_text (parse_value fuel) j.
Proof.
  revert fuel. induction j as [|b|lit|s|l IH|fields IH] using json_nested_ind;
    intros [|fuel] Hok Hf rest Hrest; try (simpl in Hf; lia).
  - reflexivity.
  - by destruct b.
  - cbn [json_text json_ok] in *. destruct (number_head lit Hok) as (c & t & Hlit & Hs & Hc).
    rewrite parse_value_S, (skip_space_starts (lit +:+ rest)).
    2: { apply starts_value_app, (text_starts_value (JNum lit)). exact Hok. }
    rewrite Hlit, string_cons_app at 1. cbv beta iota zeta.
    rewrite !decide_False by (intros ->; apply Hc; apply (bool_decide_unpack _); by vm_compute).
    assert (Hne : forall x p, x ∈ ["n"%char; "t"%char; "f"%char] -> strip (String x p) (lit +:+ rest) = None).
    { intros x p Hx. rewrite Hlit. simpl. rewrite decide_False; [done|]. intros <-. apply Hc.
      clear -Hx. set_solver. }
    rewrite !Hne by (apply (bool_decide_unpack _); by vm_compute).
    by rewrite scan_number_app.
  - cbn [json_text]. rewrite quote_app, parse_value_S, skip_delimiter by done. cbv beta iota zeta.
    rewrite decide_True by done. by rewrite parse_quoted.
  - rewrite json_text_arr in *. rewrite string_cons_app, parse_value_S, skip_delimiter by done.
    cbv beta iota. rewrite decide_False, decide_True by done.
    destruct l as [|j l]; [reflexivity|]. set (parts := j :: l) in *.
    assert (Hst : starts_value (commas (json_text <$> parts) +:+ "]" +:+ rest)).
    { apply commas_starts, text_starts_value. cbn [json_ok] in Hok.
      apply (forallb_elem _ _ _ Hok). by left. }
    rewrite string_app_assoc, (skip_space_starts _ Hst).
    destruct (parts_read id json_text parts fuel) as [Hall Hlen].
    + cbn [String.length] in Hf. rewrite string_length_app in Hf. lia.
    + done.
    + intros a Ha. apply length_text_pos. by apply (forallb_elem _ _ _ Hok).
    + intros a Ha fuel' Hf'. rewrite Forall_forall in IH. apply IH; [done | | done].
      by apply (forallb_elem _ _ _ Hok).
    + assert (Hp := parse_elements_text (parse_value fuel) parts fuel rest ltac:(done) Hall Hlen).
      change ("]" +:+ rest) with (String "]"%char rest) in *.
      destruct (commas (json_text <$> parts) +:+ String "]"%char rest) as [|c t]; [done|].
      destruct Hst as (_ & Hc & _).
      assert (match String c t with String "]"%char r' => Some (JArr [], r')
              | _ => '(l0, r') ← parse_elements (parse_value fuel) fuel (String c t); Some (JArr l0, r')
              end = Some (JArr parts, rest)); [|done].
      rewrite Hp. by destruct c as [[] [] [] [] [] [] [] []].
  - rewrite json_text_fields in *. rewrite string_cons_app, parse_value_S, skip_delimiter by done.
    cbv beta iota. rewrite !decide_False, decide_True by done.
    destruct fields as [|kv fields]; [reflexivity|]. set (parts := kv :: fields) in *.
    assert (Hq : forall kv, String.length (member_text kv) =
      (2 + String.length (escape kv.1) + 1 + String.length (json_text kv.2))%nat).
    { intros [k j]. unfold member_text, quote. simpl. rewrite !string_length_app. simpl. lia. }
    assert (Hst : starts_value (commas (member_text <$> parts) +:+ "}" +:+ rest)).
    { by apply commas_starts. }
    rewrite string_app_assoc, (skip_space_starts _ Hst).
    destruct (parts_read snd member_text parts fuel) as [Hall Hlen].
    + cbn [String.length] in Hf. rewrite string_length_app in Hf. lia.
    + intros a _. rewrite Hq. lia.
    + intros a _. rewrite Hq. lia.
    + intros a Ha fuel' Hf'. rewrite Forall_forall in IH. apply IH; [done | | done].
      by apply (forallb_elem (fun kv => json_ok kv.2) _ _ Hok).
    + assert (Hp := parse_members_text (parse_value fuel) parts fuel rest ltac:(done) Hall Hlen).
      change ("}" +:+ rest) with (String "}"%char rest) in *.
      destruct (commas (member_text <$> parts) +:+ String "}"%char rest) as [|c t]; [done|].
      destruct Hst as (_ & _ & Hc).
      assert (match String c t with String "}"%char r' => Some (JObj [], r')
              | _ => '(l0, r') ← parse_members (parse_value fuel) fuel (String c t); Some (JObj l0, r')
              end = Some (JObj parts, rest)); [|done].
      rewrite Hp. by destruct c as [[] [] [] [] [] [] [] []].
Qed.

(** [Unmarshal] and [Decode] read what [Marshal] wrote. *)
Lemma parse_json_text j : json_ok j = true -> parse_json (json_text j) = Some j.
Proof.
  intros Hok. unfold parse_json. rewrite <- (string_app_nil (json_text j)) at 2.
  rewrite parse_value_text; [done | done | lia | done].
Qed.

Lemma parse_first_text j rest :
  json_ok j = true -> stops rest -> parse_first (json_text j +:+ rest) = Some j.
Proof.
  intros Hok Hr. unfold parse_first.
  rewrite parse_value_text; [done | done | rewrite string_length_app; lia | done].
Qed.

Lemma parse_first_whole j : json_ok j = true -> parse_first (json_text j) = Some j.
Proof. intros Hok. rewrite <- (string_app_nil (json_text j)). by apply parse_first_text. Qed.

End Values.
