(* ===== verification/Util.v ===== *)
(** * util: the helpers of util/abs.go and util/minmax.go on machine integers *)
From S2P Require Import Prelude.

Section MinMax.

(** [-x] on [int64] *)
Definition neg64 (x : Z) : Z := i64 (- x).

Definition Abs64 (x : Z) : Z := if decide (x < 0) then neg64 x else x.

Definition Min (a b : Z) : Z := if decide (a < b) then a else b.
Definition Max (a b : Z) : Z := if decide (a > b) then a else b.
Definition Min64 (a b : Z) : Z := if decide (a < b) then a else b.
Definition Max64 (a b : Z) : Z := if decide (a > b) then a else b.

Lemma Min_min a b : Min a b = Z.min a b.
Proof. unfold Min. case_decide; lia. Qed.
Lemma Max_max a b : Max a b = Z.max a b.
Proof. unfold Max. case_decide; lia. Qed.
Lemma Min64_min a b : Min64 a b = Z.min a b.
Proof. unfold Min64. case_decide; lia. Qed.
Lemma Max64_max a b : Max64 a b = Z.max a b.
Proof. unfold Max64. case_decide; lia. Qed.

Lemma Abs64_abs x : is_i64 x -> x <> - 2 ^ 63 -> Abs64 x = Z.abs x.
Proof.
  unfold is_i64, Abs64, neg64. intros. case_decide; [|lia].
  rewrite i64_small; [lia | unfold is_i64; lia].
Qed.

(** The one value whose absolute value does not fit wraps to itself. *)
Lemma Abs64_min : Abs64 (- 2 ^ 63) = - 2 ^ 63.
Proof. reflexivity. Qed.

End MinMax.

#[export] Hint Rewrite Min_min Max_max Min64_min Max64_max : words.
