(* ===== verification/Bitcoin.v ===== *)
(** * bitcoin: amounts (bitcoin/formats.go) and fee types (bitcoin/fee.go) *)
From Stdlib Require Import QArith SpecFloat.
From S2P Require Import Prelude.
From S2P Require Import Go.
Local Open Scope Z_scope.

(** ** The decimal library
    [BTCAmount] converts through github.com/shopspring/decimal, which is not
    part of the repository: its type and operations are a parameter, and
    [DecimalLaws] states what its documentation promises. [dec_NewFromFloat]
    is [None] where the library panics (NaN and infinities). *)
Class DecimalLib := {
  decimal : Type;
  dec_New : Z -> Z -> decimal;                  (* New(value int64, exp int32) *)
  dec_String : decimal -> string;
  dec_Float64 : decimal -> float64 * bool;      (* nearest float64, and whether exact *)
  dec_NewFromFloat : float64 -> option decimal;
  dec_NewFromString : string -> option decimal;
  dec_Mul : decimal -> decimal -> decimal;
  dec_IntPart : decimal -> Z;
}.

Class DecimalLaws (D : DecimalLib) := {
  dec_val : decimal -> Q;
  dec_val_New : forall v e, dec_val (dec_New v e) == inject_Z v * Qpower 10 e;
  dec_val_Mul : forall a b, dec_val (dec_Mul a b) == dec_val a * dec_val b;
  dec_NewFromString_String : forall d,
    exists d', dec_NewFromString (dec_String d) = Some d' /\ dec_val d' == dec_val d;
  dec_IntPart_int : forall d z, dec_val d == inject_Z z -> is_i64 z -> dec_IntPart d = z;
}.

(** ** Amounts: bitcoin/formats.go *)
Section BTCAmount.
Context {D : DecimalLib}.

(** [BTCAmount] is a [uint64] number of satoshi. *)
Definition BTCAmount : Type := Z.

Definition satoshiInBTCDecimal : decimal := dec_New 1 8.

Definition ToStringedFloat (amount : BTCAmount) : string :=
  dec_String (dec_New (i64 amount) (-8)).

(** The non-exact branch only logs. *)
Definition Float64 (amount : BTCAmount) : float64 :=
  let '(amountFloat, exact) := dec_Float64 (dec_New (i64 amount) (-8)) in amountFloat.

Definition ToBTC (amount : BTCAmount) : float64 := Float64 amount.

Definition BTCAmount_String (amount : BTCAmount) : string := ToStringedFloat amount.

Definition BTCAmount_MarshalJSON (amount : BTCAmount) : json := JStr (ToStringedFloat amount).

Definition BTCAmountFromFloat (amountF64 : float64) : outcome BTCAmount :=
  match dec_NewFromFloat amountF64 with
  | Some d => Ok (u64 (dec_IntPart (dec_Mul d satoshiInBTCDecimal)))
  | None => Panic "Cannot create a Decimal from a non-finite float"
  end.

Definition BTCAmountFromStringedFloat (amountSF : string) : outcome BTCAmount :=
  match dec_NewFromString amountSF with
  | None => Err (ErrMsg "can't convert to decimal")
  | Some amountDecimal =>
      Ok (u64 (dec_IntPart (dec_Mul amountDecimal satoshiInBTCDecimal)))
  end.

Definition BTCAmount_UnmarshalJSON (b : json) : outcome BTCAmount :=
  j ← unmarshal_string b; BTCAmountFromStringedFloat j.

Definition Must (r : outcome BTCAmount) : outcome BTCAmount :=
  match r with Err e => Panic "error" | r => r end.

Context {L : DecimalLaws D}.

Lemma satoshi_scaling v :
  inject_Z v * Qpower 10 (-8) * (inject_Z 1 * Qpower 10 8) == inject_Z v.
Proof.
  rewrite (Qmult_comm (inject_Z 1)), Qmult_1_r, <- Qmult_assoc.
  assert (Qpower 10 (-8) * Qpower 10 8 == 1)%Q as -> by reflexivity.
  apply Qmult_1_r.
Qed.

(** The value printed and read back are the same satoshi, also for the amounts
    of 2^63 satoshi and more, which print as negative numbers. *)
Lemma FromStringedFloat_ToStringedFloat amount :
  is_u64 amount -> BTCAmountFromStringedFloat (ToStringedFloat amount) = Ok amount.
Proof.
  intros Ha. unfold BTCAmountFromStringedFloat, ToStringedFloat.
  destruct (dec_NewFromString_String (dec_New (i64 amount) (-8))) as (d' & -> & Hd').
  erewrite (dec_IntPart_int _ (i64 amount)).
  - rewrite u64_i64, u64_small by done. done.
  - rewrite dec_val_Mul, Hd', dec_val_New. unfold satoshiInBTCDecimal.
    rewrite dec_val_New. apply satoshi_scaling.
  - apply i64_range.
Qed.

End BTCAmount.

(** ** Fee types: bitcoin/fee.go *)
Section Fee.

Definition MinimalFeeRate : Z := 1000.

Inductive FeeType := InvalidFee | PerKBRateFee | FixedFee.

#[global] Instance FeeType_eq_dec : EqDecision FeeType.
Proof. solve_decision. Defined.

Definition feeTypeToStringMap : list (FeeType * string) :=
  [ (FixedFee, "fixed"); (PerKBRateFee, "per-kb-rate"); (InvalidFee, "invalid") ].

(** filled by [init] *)
Definition stringToFeeTypeMap : gmap string FeeType := enum_inverse feeTypeToStringMap.

Definition FeeType_String (ft : FeeType) : string :=
  default "invalid" (enum_name feeTypeToStringMap ft).

Definition FeeTypeFromString (feeTypeStr : string) : outcome FeeType :=
  match stringToFeeTypeMap !! feeTypeStr with
  | Some ft => Ok ft
  | None => Err (ErrMsg ("Failed to convert string '" +:+ feeTypeStr +:+ "' to fee type"))
  end.

Definition FeeType_MarshalJSON (ft : FeeType) : json := JStr (FeeType_String ft).

Definition FeeType_UnmarshalJSON (b : json) : outcome FeeType :=
  j ← unmarshal_string b; FeeTypeFromString j.

Lemma FeeTypeFromString_String ft : FeeTypeFromString (FeeType_String ft) = Ok ft.
Proof. by destruct ft. Qed.

Lemma FeeTypeFromString_Ok s ft : FeeTypeFromString s = Ok ft -> s = FeeType_String ft.
Proof.
  unfold FeeTypeFromString. destruct (stringToFeeTypeMap !! s) eqn:E; [|done].
  intros [= <-]. unfold FeeType_String.
  erewrite enum_inverse_name; [done | ..]; [| |exact E];
    apply (bool_decide_unpack _); vm_compute; done.
Qed.

End Fee.
