(* ===== verification/TxTypes.v ===== *)
(** * wallet/types: transactions, their status and direction, notifications

    Models transaction_status.go, transaction_direction.go, transactions.go and
    notification.go of src/wallet/types. *)
From Stdlib Require Import SpecFloat.
From S2P Require Import Prelude.
From S2P Require Import Go.
From S2P Require Import Util.
From S2P Require Import Bitcoin.
Local Open Scope Z_scope.

(** ** Third-party conversions
    [btcutil.NewAmount] ([None] on NaN and infinities), [btcutil.Amount.ToBTC]
    and the text form of a gofrs UUID are parameters. *)
Class BtcUtil := {
  NewAmount : float64 -> option Z;
  Amount_ToBTC : Z -> float64;
}.

Class UuidLib := {
  uuid_String : UUID -> string;
  uuid_UnmarshalText : string -> option UUID;
}.

Class UuidLaws (U : UuidLib) := {
  uuid_text_roundtrip : forall id, uuid_UnmarshalText (uuid_String id) = Some id;
}.

(** ** Direction: transaction_direction.go *)
Section Direction.

Inductive TransactionDirection :=
| IncomingDirection | OutgoingDirection | UnknownDirection | InvalidDirection.

#[global] Instance TransactionDirection_eq_dec : EqDecision TransactionDirection.
Proof. solve_decision. Defined.

Definition transactionDirectionToStringMap : list (TransactionDirection * string) :=
  [ (IncomingDirection, "incoming"); (OutgoingDirection, "outgoing");
    (UnknownDirection, "unknown") ].

(** filled by [init] *)
Definition stringToTransactionDirectionMap : gmap string TransactionDirection :=
  enum_inverse transactionDirectionToStringMap.

Definition Direction_String (td : TransactionDirection) : string :=
  default "invalid" (enum_name transactionDirectionToStringMap td).

Definition TransactionDirectionFromString (s : string) : outcome TransactionDirection :=
  match stringToTransactionDirectionMap !! s with
  | Some td => Ok td
  | None => Err (ErrMsg ("Invalid transaction direction: " +:+ s))
  end.

Definition Direction_MarshalJSON (td : TransactionDirection) : json := JStr (Direction_String td).

Definition Direction_UnmarshalJSON (b : json) : outcome TransactionDirection :=
  j ← unmarshal_string b; TransactionDirectionFromString j.

Definition ToCoinpaymentsLikeType (td : TransactionDirection) : string :=
  match td with
  | IncomingDirection => "deposit"
  | OutgoingDirection => "withdrawal"
  | _ => "unknown"
  end.

(** [InvalidDirection] has no name to read back. *)
Lemma DirectionFromString_String td :
  TransactionDirectionFromString (Direction_String td) = Ok td <-> td <> InvalidDirection.
Proof. by destruct td. Qed.

End Direction.

(** ** Status: transaction_status.go *)
Section Status.

Inductive TransactionStatus :=
| NewTransaction
| ConfirmedTransaction
| FullyConfirmedTransaction
| PendingTransaction
| PendingColdStorageTransaction
| PendingManualConfirmationTransaction
| CancelledTransaction
| InvalidTransaction.

#[global] Instance TransactionStatus_eq_dec : EqDecision TransactionStatus.
Proof. solve_decision. Defined.

(** [int(ts)]: the constants are numbered by iota *)
Definition status_int (ts : TransactionStatus) : Z :=
  match ts with
  | NewTransaction => 0
  | ConfirmedTransaction => 1
  | FullyConfirmedTransaction => 2
  | PendingTransaction => 3
  | PendingColdStorageTransaction => 4
  | PendingManualConfirmationTransaction => 5
  | CancelledTransaction => 6
  | InvalidTransaction => 7
  end.

Definition transactionStatusToStringMap : list (TransactionStatus * string) :=
  [ (NewTransaction, "new");
    (ConfirmedTransaction, "confirmed");
    (FullyConfirmedTransaction, "fully-confirmed");
    (PendingTransaction, "pending");
    (PendingColdStorageTransaction, "pending-cold-storage");
    (PendingManualConfirmationTransaction, "pending-manual-confirmation");
    (CancelledTransaction, "cancelled") ].

(** filled by [init] *)
Definition stringToTransactionStatusMap : gmap string TransactionStatus :=
  enum_inverse transactionStatusToStringMap.

Definition Status_String (ts : TransactionStatus) : string :=
  default "invalid" (enum_name transactionStatusToStringMap ts).

Definition TransactionStatusFromString (s : string) : outcome TransactionStatus :=
  match stringToTransactionStatusMap !! s with
  | Some ts => Ok ts
  | None => Err (ErrMsg ("Invalid transaction status: " +:+ s))
  end.

Definition Status_MarshalJSON (ts : TransactionStatus) : json := JStr (Status_String ts).

Definition Status_UnmarshalJSON (b : json) : outcome TransactionStatus :=
  j ← unmarshal_string b; TransactionStatusFromString j.

Definition ToCoinpaymentsLikeCode (ts : TransactionStatus) : Z :=
  if decide (ts = FullyConfirmedTransaction) then 100
  else if decide (status_int ts < 100) then status_int ts
  else 99.

Lemma StatusFromString_String ts :
  TransactionStatusFromString (Status_String ts) = Ok ts <-> ts <> InvalidTransaction.
Proof. by destruct ts. Qed.

Lemma Status_String_inj ts ts' : Status_String ts = Status_String ts' -> ts = ts'.
Proof. by destruct ts, ts'. Qed.

End Status.

(** ** Transactions: transactions.go *)
Record Transaction := mkTransaction {
  tx_ID : UUID;
  tx_Hash : string;
  tx_BlockHash : string;
  tx_Confirmations : Z;
  tx_Address : string;
  tx_Direction : TransactionDirection;
  tx_Status : TransactionStatus;
  tx_Amount : BTCAmount;
  tx_Metainfo : json;
  tx_Fee : BTCAmount;
  tx_FeeType : FeeType;
  tx_ColdStorage : bool;
  tx_Fresh : bool;
  tx_ReportedConfirmations : Z;
}.

(** Field assignments [tx.F = v] *)
Section Setters.
Implicit Type tx : Transaction.

Definition set_ID v tx : Transaction :=
  mkTransaction v (tx_Hash tx) (tx_BlockHash tx) (tx_Confirmations tx) (tx_Address tx)
    (tx_Direction tx) (tx_Status tx) (tx_Amount tx) (tx_Metainfo tx)
    (tx_Fee tx) (tx_FeeType tx) (tx_ColdStorage tx) (tx_Fresh tx)
    (tx_ReportedConfirmations tx).
Definition set_Hash v tx : Transaction :=
  mkTransaction (tx_ID tx) v (tx_BlockHash tx) (tx_Confirmations tx) (tx_Address tx)
    (tx_Direction tx) (tx_Status tx) (tx_Amount tx) (tx_Metainfo tx)
    (tx_Fee tx) (tx_FeeType tx) (tx_ColdStorage tx) (tx_Fresh tx)
    (tx_ReportedConfirmations tx).
Definition set_BlockHash v tx : Transaction :=
  mkTransaction (tx_ID tx) (tx_Hash tx) v (tx_Confirmations tx) (tx_Address tx)
    (tx_Direction tx) (tx_Status tx) (tx_Amount tx) (tx_Metainfo tx)
    (tx_Fee tx) (tx_FeeType tx) (tx_ColdStorage tx) (tx_Fresh tx)
    (tx_ReportedConfirmations tx).
Definition set_Confirmations v tx : Transaction :=
  mkTransaction (tx_ID tx) (tx_Hash tx) (tx_BlockHash tx) v (tx_Address tx)
    (tx_Direction tx) (tx_Status tx) (tx_Amount tx) (tx_Metainfo tx)
    (tx_Fee tx) (tx_FeeType tx) (tx_ColdStorage tx) (tx_Fresh tx)
    (tx_ReportedConfirmations tx).
Definition set_Direction v tx : Transaction :=
  mkTransaction (tx_ID tx) (tx_Hash tx) (tx_BlockHash tx) (tx_Confirmations tx)
    (tx_Address tx) v (tx_Status tx) (tx_Amount tx) (tx_Metainfo tx)
    (tx_Fee tx) (tx_FeeType tx) (tx_ColdStorage tx) (tx_Fresh tx)
    (tx_ReportedConfirmations tx).
Definition set_Status v tx : Transaction :=
  mkTransaction (tx_ID tx) (tx_Hash tx) (tx_BlockHash tx) (tx_Confirmations tx)
    (tx_Address tx) (tx_Direction tx) v (tx_Amount tx) (tx_Metainfo tx)
    (tx_Fee tx) (tx_FeeType tx) (tx_ColdStorage tx) (tx_Fresh tx)
    (tx_ReportedConfirmations tx).
Definition set_Amount v tx : Transaction :=
  mkTransaction (tx_ID tx) (tx_Hash tx) (tx_BlockHash tx) (tx_Confirmations tx)
    (tx_Address tx) (tx_Direction tx) (tx_Status tx) v (tx_Metainfo tx)
    (tx_Fee tx) (tx_FeeType tx) (tx_ColdStorage tx) (tx_Fresh tx)
    (tx_ReportedConfirmations tx).
Definition set_Metainfo v tx : Transaction :=
  mkTransaction (tx_ID tx) (tx_Hash tx) (tx_BlockHash tx) (tx_Confirmations tx)
    (tx_Address tx) (tx_Direction tx) (tx_Status tx) (tx_Amount tx) v
    (tx_Fee tx) (tx_FeeType tx) (tx_ColdStorage tx) (tx_Fresh tx)
    (tx_ReportedConfirmations tx).
Definition set_Fee v tx : Transaction :=
  mkTransaction (tx_ID tx) (tx_Hash tx) (tx_BlockHash tx) (tx_Confirmations tx)
    (tx_Address tx) (tx_Direction tx) (tx_Status tx) (tx_Amount tx)
    (tx_Metainfo tx) v (tx_FeeType tx) (tx_ColdStorage tx) (tx_Fresh tx)
    (tx_ReportedConfirmations tx).
Definition set_ReportedConfirmations v tx : Transaction :=
  mkTransaction (tx_ID tx) (tx_Hash tx) (tx_BlockHash tx) (tx_Confirmations tx)
    (tx_Address tx) (tx_Direction tx) (tx_Status tx) (tx_Amount tx)
    (tx_Metainfo tx) (tx_Fee tx) (tx_FeeType tx) (tx_ColdStorage tx)
    (tx_Fresh tx) v.

End Setters.

(** The part of btcjson's result structures that the code reads. *)
Record ListTransactionsResult := mkListTransactionsResult {
  lt_Category : string;
  lt_TxID : string;
  lt_BlockHash : string;
  lt_Confirmations : Z;
  lt_Address : string;
  lt_Amount : float64;
}.

Record GetTransactionResult := mkGetTransactionResult {
  gt_TxID : string;
  gt_BlockHash : string;
  gt_Confirmations : Z;
  gt_Hex : string;
}.

Definition other_hash_panic : string := "Tx update called for transaction with other hash".

(** [tx.Update(other)] *)
Definition Update (tx other : Transaction) : outcome Transaction :=
  if decide (tx_Hash tx <> "" /\ tx_Hash tx <> tx_Hash other) then Panic other_hash_panic
  else Ok (set_Status (tx_Status other) $ set_Confirmations (tx_Confirmations other) $
           set_BlockHash (tx_BlockHash other) $ set_Hash (tx_Hash other) tx).

(** [tx.UpdateFromFullTxInfo(other)] *)
Definition UpdateFromFullTxInfo (tx : Transaction) (other : GetTransactionResult)
    : outcome Transaction :=
  if decide (tx_Hash tx <> "" /\ tx_Hash tx <> gt_TxID other) then Panic other_hash_panic
  else Ok (set_Confirmations (gt_Confirmations other) $
           set_BlockHash (gt_BlockHash other) tx).

Definition NewTransactionFromBTCJSON `{BtcUtil} (t : ListTransactionsResult) : Transaction :=
  let direction :=
    if decide (lt_Category t = "receive") then IncomingDirection
    else if decide (lt_Category t = "send") then OutgoingDirection
    else UnknownDirection in
  (* an amount whose sign does not fit the direction is only logged *)
  let amount :=
    match NewAmount (lt_Amount t) with
    | None => 0
    | Some btcutilAmount => u64 (Abs64 btcutilAmount)
    end in
  {| tx_ID := uuid_Nil;
     tx_Hash := lt_TxID t;
     tx_BlockHash := lt_BlockHash t;
     tx_Confirmations := lt_Confirmations t;
     tx_Address := lt_Address t;
     tx_Direction := direction;
     tx_Status := NewTransaction;
     tx_Amount := amount;
     tx_Metainfo := JNull;
     tx_Fee := 0;
     tx_FeeType := InvalidFee;
     tx_ColdStorage := false;
     tx_Fresh := true;
     tx_ReportedConfirmations := -1 |}.

(** ** Notifications: notification.go
    [TxNotification] embeds [Transaction]; in its JSON form the field "status"
    is the notification's own code, which hides the transaction's. *)
Record TxNotification := mkTxNotification {
  tn_Transaction : Transaction;
  tn_StatusCode : Z;
  tn_StatusStr : string;
  tn_IpnType : string;
  tn_Currency : string;
  tn_IpnID : string;
  tn_Seq : Z;
}.

Section NotificationJSON.
Context {D : DecimalLib} {U : UuidLib}.

Definition Transaction_MarshalJSON (tx : Transaction) : json :=
  JObj [ ("id", JStr (uuid_String (tx_ID tx)));
         ("hash", JStr (tx_Hash tx));
         ("blockhash", JStr (tx_BlockHash tx));
         ("confirmations", JNum (itoa (tx_Confirmations tx)));
         ("address", JStr (tx_Address tx));
         ("direction", Direction_MarshalJSON (tx_Direction tx));
         ("status", Status_MarshalJSON (tx_Status tx));
         ("amount", BTCAmount_MarshalJSON (tx_Amount tx));
         ("metainfo", tx_Metainfo tx);
         ("fee", BTCAmount_MarshalJSON (tx_Fee tx));
         ("fee_type", FeeType_MarshalJSON (tx_FeeType tx));
         ("cold_storage", JBool (tx_ColdStorage tx)) ].

Definition TxNotification_MarshalJSON (n : TxNotification) : json :=
  let tx := tn_Transaction n in
  JObj ([ ("id", JStr (uuid_String (tx_ID tx)));
          ("hash", JStr (tx_Hash tx));
          ("blockhash", JStr (tx_BlockHash tx));
          ("confirmations", JNum (itoa (tx_Confirmations tx)));
          ("address", JStr (tx_Address tx));
          ("direction", Direction_MarshalJSON (tx_Direction tx));
          ("amount", BTCAmount_MarshalJSON (tx_Amount tx));
          ("metainfo", tx_Metainfo tx);
          ("fee", BTCAmount_MarshalJSON (tx_Fee tx));
          ("fee_type", FeeType_MarshalJSON (tx_FeeType tx));
          ("cold_storage", JBool (tx_ColdStorage tx));
          ("status", JNum (itoa (tn_StatusCode n)));
          ("status_name", JStr (tn_StatusStr n));
          ("ipn_type", JStr (tn_IpnType n));
          ("currency", JStr (tn_Currency n));
          ("ipn_id", JStr (tn_IpnID n)) ] ++
        (if decide (tn_Seq n = 0) then [] else [("seq", JNum (itoa (tn_Seq n)))])).

End NotificationJSON.

(** ** Lemmas on field assignments *)
Section TxLemmas.
Implicit Type tx : Transaction.

Lemma Update_Ok tx other tx' :
  Update tx other = Ok tx' ->
  tx' = set_Status (tx_Status other) (set_Confirmations (tx_Confirmations other)
          (set_BlockHash (tx_BlockHash other) (set_Hash (tx_Hash other) tx))) /\
  (tx_Hash tx = "" \/ tx_Hash tx = tx_Hash other).
Proof.
  unfold Update. case_decide as Hd; [done|]. intros [= <-]. split; [done|].
  destruct (decide (tx_Hash tx = "")); [by left|].
  destruct (decide (tx_Hash tx = tx_Hash other)); [by right|]. by destruct Hd.
Qed.

Lemma set_Status_same tx : set_Status (tx_Status tx) tx = tx.
Proof. by destruct tx. Qed.

End TxLemmas.
