(* ===== verification/EventTypes.v ===== *)
(** * events: event types, notifications and their JSON form (events/types.go)

    Also the account record of wallet/accounts.go and the unmarshalers that
    wallet/accounts.go and wallet/notify.go register, because events carry
    accounts and transaction notifications as their data. *)
From S2P Require Import Prelude.
From S2P Require Import Go.
From S2P Require Import Json.
From S2P Require Import Bitcoin.
From S2P Require Import TxTypes.
Local Open Scope Z_scope.

(** ** Event types *)
Section EventTypeSec.

Inductive EventType :=
| NewAddressEvent
| NewIncomingTxEvent
| IncomingTxConfirmedEvent
| NewOutgoingTxEvent
| OutgoingTxConfirmedEvent
| PendingStatusUpdatedEvent
| PendingTxCancelledEvent
| InvalidEvent.

#[global] Instance EventType_eq_dec : EqDecision EventType.
Proof. solve_decision. Defined.

Definition eventTypeToStringMap : list (EventType * string) :=
  [ (NewAddressEvent, "new-address");
    (NewIncomingTxEvent, "new-incoming-tx");
    (IncomingTxConfirmedEvent, "incoming-tx-confirmed");
    (NewOutgoingTxEvent, "new-outgoing-tx");
    (OutgoingTxConfirmedEvent, "outgoing-tx-confirmed");
    (PendingStatusUpdatedEvent, "tx-pending-status-updated");
    (PendingTxCancelledEvent, "pending-tx-cancelled") ].

(** filled by [init] *)
Definition stringToEventTypeMap : gmap string EventType := enum_inverse eventTypeToStringMap.

Definition EventType_String (et : EventType) : string :=
  default "invalid" (enum_name eventTypeToStringMap et).

Definition EventTypeFromString (s : string) : outcome EventType :=
  match stringToEventTypeMap !! s with
  | Some et => Ok et
  | None => Err (ErrMsg ("Failed to convert string '" +:+ s +:+ "' to event type"))
  end.

Definition EventType_MarshalJSON (et : EventType) : json := JStr (EventType_String et).

Definition EventType_UnmarshalJSON (b : json) : outcome EventType :=
  j ← unmarshal_string b; EventTypeFromString j.

Lemma EventTypeFromString_String et :
  EventTypeFromString (EventType_String et) = Ok et <-> et <> InvalidEvent.
Proof. by destruct et. Qed.

End EventTypeSec.

(** ** Event data
    [Account.Metainfo] is a Go map: a JSON object, or [JNull] for a nil map. *)
Record Account := mkAccount { acc_Address : string; acc_Metainfo : json }.

(** The values that the [Data interface{}] field of an event holds. *)
Inductive EventData :=
| DataAccount (a : Account)              (* *wallet.Account *)
| DataTxNotification (n : TxNotification)    (* types.TxNotification *)
| DataTxNotificationPtr (n : TxNotification) (* *types.TxNotification *)
| DataGeneric (j : json).                (* decoded into interface{} *)

Record Notification := mkNotification { n_Type : EventType; n_Data : EventData }.

Record NotificationWithSeq := mkNotificationWithSeq {
  ns_Notification : Notification;
  ns_Seq : Z;
}.

Definition ns_Type (n : NotificationWithSeq) : EventType := n_Type (ns_Notification n).
Definition ns_Data (n : NotificationWithSeq) : EventData := n_Data (ns_Notification n).

Section EventJSON.
Context {D : DecimalLib} {U : UuidLib}.

Definition Account_MarshalJSON (a : Account) : json :=
  JObj [ ("address", JStr (acc_Address a)); ("metainfo", acc_Metainfo a) ].

Definition EventData_MarshalJSON (d : EventData) : json :=
  match d with
  | DataAccount a => Account_MarshalJSON a
  | DataTxNotification n | DataTxNotificationPtr n => TxNotification_MarshalJSON n
  | DataGeneric j => j
  end.

(** Decoding one struct field: an absent one keeps its zero value. *)
Definition field_or {A} (zero : A) (dec : json -> outcome A) (key : string)
    (fields : list (string * json)) : outcome A :=
  match json_get key fields with None => Ok zero | Some j => dec j end.

(** [json.Unmarshal(b, &m)] for a Go map *)
Definition unmarshal_map (j : json) : outcome json :=
  match j with JObj _ | JNull => Ok j | _ => Err ErrJSON end.

(** The JSON form of a value of a Go map type. *)
Definition is_go_map (j : json) : Prop := unmarshal_map j = Ok j.

Definition unmarshal_uuid (j : json) : outcome UUID :=
  match j with
  | JStr s => of_option ErrJSON (uuid_UnmarshalText s)
  | JNull => Ok uuid_Nil
  | _ => Err ErrJSON
  end.

Definition unmarshal_object (j : json) : outcome (list (string * json)) :=
  match j with JObj fields => Ok fields | JNull => Ok [] | _ => Err ErrJSON end.

Definition Account_UnmarshalJSON (b : json) : outcome Account :=
  fields ← unmarshal_object b;
  address ← field_or "" unmarshal_string "address" fields;
  metainfo ← field_or JNull unmarshal_map "metainfo" fields;
  Ok (mkAccount address metainfo).

Definition Transaction_UnmarshalFields (fields : list (string * json)) : outcome Transaction :=
  id ← field_or uuid_Nil unmarshal_uuid "id" fields;
  hash ← field_or "" unmarshal_string "hash" fields;
  blockhash ← field_or "" unmarshal_string "blockhash" fields;
  confirmations ← field_or 0 unmarshal_int "confirmations" fields;
  address ← field_or "" unmarshal_string "address" fields;
  direction ← field_or IncomingDirection Direction_UnmarshalJSON "direction" fields;
  amount ← field_or 0 BTCAmount_UnmarshalJSON "amount" fields;
  metainfo ← field_or JNull Ok "metainfo" fields;
  fee ← field_or 0 BTCAmount_UnmarshalJSON "fee" fields;
  fee_type ← field_or InvalidFee FeeType_UnmarshalJSON "fee_type" fields;
  cold_storage ← field_or false unmarshal_bool "cold_storage" fields;
  Ok {| tx_ID := id; tx_Hash := hash; tx_BlockHash := blockhash;
        tx_Confirmations := confirmations; tx_Address := address;
        tx_Direction := direction; tx_Status := NewTransaction; tx_Amount := amount;
        tx_Metainfo := metainfo; tx_Fee := fee; tx_FeeType := fee_type;
        tx_ColdStorage := cold_storage; tx_Fresh := false;
        tx_ReportedConfirmations := 0 |}.

Definition Transaction_UnmarshalJSON (b : json) : outcome Transaction :=
  fields ← unmarshal_object b;
  tx ← Transaction_UnmarshalFields fields;
  status ← field_or NewTransaction Status_UnmarshalJSON "status" fields;
  Ok (set_Status status tx).

Definition TxNotification_UnmarshalJSON (b : json) : outcome TxNotification :=
  fields ← unmarshal_object b;
  tx ← Transaction_UnmarshalFields fields;
  status ← field_or 0 unmarshal_int "status" fields;
  status_name ← field_or "" unmarshal_string "status_name" fields;
  ipn_type ← field_or "" unmarshal_string "ipn_type" fields;
  currency ← field_or "" unmarshal_string "currency" fields;
  ipn_id ← field_or "" unmarshal_string "ipn_id" fields;
  seq ← field_or 0 unmarshal_int "seq" fields;
  Ok (mkTxNotification tx status status_name ipn_type currency ipn_id seq).

(** The registry after every package's [init]. *)
Definition notificationUnmarshalers (et : EventType) : option (json -> outcome EventData) :=
  match et with
  | NewAddressEvent => Some (fun b => DataAccount <$> Account_UnmarshalJSON b)
  | NewIncomingTxEvent | IncomingTxConfirmedEvent | NewOutgoingTxEvent
  | OutgoingTxConfirmedEvent | PendingStatusUpdatedEvent | PendingTxCancelledEvent =>
      Some (fun b => DataTxNotificationPtr <$> TxNotification_UnmarshalJSON b)
  | InvalidEvent => None
  end.

(** The [UnmarshalJSON] method of [genericNodificationData] *)
Definition genericNotificationData_UnmarshalJSON (et : EventType) (b : json)
    : outcome EventData :=
  match notificationUnmarshalers et with
  | None => Ok (DataGeneric b)
  | Some unmarshaler => unmarshaler b
  end.

(** The [UnmarshalJSON] method of [NotificationWithSeq]; without a "data" field the inner
    unmarshaler is not called and the data stay nil. *)
Definition NotificationWithSeq_UnmarshalJSON (b : json) : outcome NotificationWithSeq :=
  fields ← unmarshal_object b;
  type ← field_or NewAddressEvent EventType_UnmarshalJSON "type" fields;
  seq ← field_or 0 unmarshal_int "seq" fields;
  data ← field_or (DataGeneric JNull) (genericNotificationData_UnmarshalJSON type)
           "data" fields;
  Ok (mkNotificationWithSeq (mkNotification type data) seq).

Definition NotificationWithSeq_MarshalJSON (n : NotificationWithSeq) : json :=
  JObj [ ("type", EventType_MarshalJSON (ns_Type n));
         ("data", EventData_MarshalJSON (ns_Data n));
         ("seq", JNum (itoa (ns_Seq n))) ].

End EventJSON.

(** ** Reading back a stored transaction notification *)
Create HintDb json discriminated.

Section EventRoundtrip.
Context {D : DecimalLib} {L : DecimalLaws D} {U : UuidLib} {UL : UuidLaws U}.

Lemma unmarshal_int_itoa z : is_i64 z -> unmarshal_int (JNum (itoa z)) = Ok z.
Proof. intros. simpl. by rewrite atoi_itoa. Qed.

Definition tx_in_range (tx : Transaction) : Prop :=
  is_i64 (tx_Confirmations tx) /\ is_u64 (tx_Amount tx) /\ is_u64 (tx_Fee tx) /\
  tx_Direction tx <> InvalidDirection.

(** What a transaction keeps through its JSON form: everything but the status
    (hidden by the notification's own) and the two fields marked "-". *)
Definition json_visible (tx : Transaction) : Transaction :=
  {| tx_ID := tx_ID tx; tx_Hash := tx_Hash tx; tx_BlockHash := tx_BlockHash tx;
     tx_Confirmations := tx_Confirmations tx; tx_Address := tx_Address tx;
     tx_Direction := tx_Direction tx; tx_Status := NewTransaction;
     tx_Amount := tx_Amount tx; tx_Metainfo := tx_Metainfo tx; tx_Fee := tx_Fee tx;
     tx_FeeType := tx_FeeType tx; tx_ColdStorage := tx_ColdStorage tx;
     tx_Fresh := false; tx_ReportedConfirmations := 0 |}.

Lemma Direction_json_roundtrip td :
  td <> InvalidDirection -> Direction_UnmarshalJSON (Direction_MarshalJSON td) = Ok td.
Proof. intros. by apply DirectionFromString_String. Qed.

Lemma BTCAmount_json_roundtrip a :
  is_u64 a -> BTCAmount_UnmarshalJSON (BTCAmount_MarshalJSON a) = Ok a.
Proof. intros. by apply FromStringedFloat_ToStringedFloat. Qed.

Lemma FeeType_json_roundtrip ft : FeeType_UnmarshalJSON (FeeType_MarshalJSON ft) = Ok ft.
Proof. apply FeeTypeFromString_String. Qed.

Lemma uuid_json_roundtrip id : unmarshal_uuid (JStr (uuid_String id)) = Ok id.
Proof. simpl. by rewrite uuid_text_roundtrip. Qed.

(** One decoded field of a literal object. *)
Lemma field_or_get {A} (zero : A) dec key fields j a :
  json_get key fields = Some j -> dec j = Ok a -> field_or zero dec key fields = Ok a.
Proof. unfold field_or. by intros -> ->. Qed.

Lemma field_or_absent {A} (zero : A) dec key fields :
  json_get key fields = None -> field_or zero dec key fields = Ok zero.
Proof. unfold field_or. by intros ->. Qed.

Hint Resolve unmarshal_int_itoa Direction_json_roundtrip BTCAmount_json_roundtrip
  FeeType_json_roundtrip uuid_json_roundtrip : json.

(** Decode the next field of a literal object. *)
Ltac decode_field :=
  erewrite field_or_get; [| reflexivity | solve [reflexivity | eauto with json]];
  cbv beta iota delta [mbind outcome_bind].

(** What a transaction keeps through its own JSON form: everything but the two fields
    marked "-". *)
Definition without_hidden_fields (tx : Transaction) : Transaction :=
  set_Status (tx_Status tx) (json_visible tx).

Lemma transaction_json_roundtrip tx :
  tx_in_range tx -> tx_Status tx <> InvalidTransaction ->
  Transaction_UnmarshalJSON (Transaction_MarshalJSON tx) = Ok (without_hidden_fields tx).
Proof.
  intros (Hc & Ha & Hf & Hd) Hs%StatusFromString_String.
  unfold Transaction_UnmarshalJSON, Transaction_MarshalJSON, unmarshal_object.
  cbv beta iota delta [mbind outcome_bind]. unfold Transaction_UnmarshalFields.
  do 11 decode_field. cbv beta iota delta [mbind outcome_bind].
  erewrite field_or_get; [|reflexivity|exact Hs]. reflexivity.
Qed.

Definition notification_in_range (n : TxNotification) : Prop :=
  tx_in_range (tn_Transaction n) /\ is_i64 (tn_StatusCode n) /\ is_i64 (tn_Seq n).

Lemma notification_json_roundtrip n :
  notification_in_range n ->
  TxNotification_UnmarshalJSON (TxNotification_MarshalJSON n) =
    Ok (mkTxNotification (json_visible (tn_Transaction n)) (tn_StatusCode n)
          (tn_StatusStr n) (tn_IpnType n) (tn_Currency n) (tn_IpnID n) (tn_Seq n)).
Proof.
  intros ((Hc & Ha & Hf & Hd) & Hsc & Hseq).
  unfold TxNotification_UnmarshalJSON, TxNotification_MarshalJSON, unmarshal_object.
  cbv beta iota delta [mbind outcome_bind]. unfold Transaction_UnmarshalFields.
  do 11 decode_field. cbv beta iota delta [mbind outcome_bind].
  do 5 decode_field. case_decide as Hz.
  - rewrite field_or_absent by reflexivity. simpl. rewrite Hz. reflexivity.
  - decode_field. reflexivity.
Qed.

End EventRoundtrip.
