(* ===== verification/World.v ===== *)
(** * The state of a running bitcoin-processing and its effects

    One record holds what the Go code can observe and change: the heap of
    [types.Transaction] objects (pointers are shared, and survive a database
    rollback), the PostgreSQL tables of tools/init-db.sql with the open
    transaction, the in-memory storages, the wallet's and the event broker's
    own fields, and the requests sent to other systems. A Go function is a
    function on that state that ends with a value, an error or a panic. *)
From S2P Require Import Prelude.
From S2P Require Import Go.
From S2P Require Import Bitcoin.
From S2P Require Import TxTypes.
From S2P Require Import EventTypes.
Local Open Scope Z_scope.

(** ** PostgreSQL tables (tools/init-db.sql) *)
Record TxRow := mkTxRow {
  r_id : UUID;
  r_hash : string;
  r_block_hash : string;
  r_confirmations : Z;
  r_address : string;
  r_direction : string;
  r_status : string;
  r_amount : Z;
  r_metainfo : option json;
  r_fee : Z;
  r_fee_type : string;
  r_cold_storage : bool;
  r_reported_confirmations : Z;
}.

Record EventRow := mkEventRow { er_seq : Z; er_type : string; er_data : json }.

Record DB := mkDB {
  db_transactions : list TxRow;
  db_accounts : list (string * json);
  db_metadata : gmap string string;
  db_events : list EventRow;
  db_muted : list UUID;
}.

(** ** In-memory storages (testing only): wallet/memorystorage.go and
    events/memorystorage.go. Transactions are pointers into the heap. *)
Abbreviation loc := nat (only parsing).

Record InMemoryWalletStorage := mkMemWallet {
  mw_lastSeenBlockHash : string;
  mw_accounts : list Account;
  mw_transactions : list loc;
  mw_hotWalletAddress : string;
  mw_moneyRequiredFromColdStorage : Z;
  mw_walletOperationLock : string;
  mw_hotWalletAddressWasSet : bool;
}.

Record InMemoryEventStorage := mkMemEvents {
  me_events : list NotificationWithSeq;
  me_lastHTTPSentSeq : Z;
  me_httpCallbackOperation : string;
}.

(** ** The wallet's own fields (walletData in wallet/wallet.go)
    The two trigger channels hold only units: their state is how many are
    queued. [wp_timers] are the delays of the pending [time.AfterFunc] calls of
    [schedulePendingTxUpdate], in seconds. *)
Record WalletProc := mkWalletProc {
  wp_hotWalletAddress : string;
  wp_coldWalletAddress : string;
  wp_manualConfirmationCount : Z;       (* txnsWaitingManualConfirmationCount *)
  wp_blockchainConfirmationCount : Z;   (* txnsWaitingBlockchainConfirmationCount *)
  wp_externalTxNotifications : nat;
  wp_pendingTxUpdateTrigger : nat;
  wp_timers : list Z;
}.

(** ** The event broker's fields (eventBrokerData in events/broker.go)
    Delays are in seconds; [bp_timers] are the pending [time.AfterFunc] calls. *)
Inductive BrokerTimer :=
| TimerSend (delay : Z)    (* triggerHTTPNotificationSending *)
| TimerRetry (delay : Z)   (* triggerHTTPNotificationRetry *)
| TimerWS (delay : Z).     (* triggerWSNotificationSending *)

(** A subscriber's Go channel: the batches queued in it, and whether it is
    closed. What a closed channel holds can still be received. *)
Record Channel := mkChannel {
  ch_queue : list (list NotificationWithSeq);
  ch_closed : bool;
}.

Record BrokerProc := mkBrokerProc {
  bp_wsNotificationTrigger : nat;
  bp_httpCallbackNotificationTrigger : list bool;
  bp_httpCallbackIsRetrying : bool;
  bp_httpCallbackRetryingSeq : Z;
  bp_httpCallbackRetries : Z;
  bp_httpCallbackRetryDelay : Z;
  bp_timers : list BrokerTimer;
  bp_subs : gmap nat Z;           (* eventBroadcaster.subs: the next seq of each channel *)
  bp_chans : gmap nat Channel;    (* every channel ever made *)
  bp_minSeq : Z;
}.

(** ** Interactions with other systems
    Each is recorded with the database as committed at that moment, so that
    what a crash would find afterwards can be stated. *)
Inductive value :=                                  (* an argument of a JSON-RPC request *)
| VNull
| VBool (b : bool)
| VStr (s : string)
| VInt (z : Z)
| VFloat (f : float64)
| VNumber (literal : string)                        (* json.Number *)
| VList (l : list value)
| VMap (fields : list (string * value)).            (* a struct, or a map sorted by key *)

Inductive Act :=
| ARequest (method : string) (params : list value)  (* JSON-RPC to the Bitcoin node *)
| APost (body : json)                               (* HTTP callback *)
| ASleep (seconds : Z)                              (* time.Sleep *)
| ACommit.                                          (* the committed tables changed *)

Record World := mkWorld {
  heap : list Transaction;
  committed : DB;
  inflight : option DB;
  events_seq : Z;               (* the SERIAL sequence of events.seq *)
  sql_count : nat;
  uuid_count : nat;
  mem_wallet : InMemoryWalletStorage;
  mem_events : InMemoryEventStorage;
  wallet_proc : WalletProc;
  broker_proc : BrokerProc;
  trace : list (Act * DB);      (* most recent first *)
}.

Section Setters.

Definition set_heap h w := mkWorld h (committed w) (inflight w) (events_seq w)
  (sql_count w) (uuid_count w) (mem_wallet w) (mem_events w) (wallet_proc w)
  (broker_proc w) (trace w).
Definition set_committed d w := mkWorld (heap w) d (inflight w) (events_seq w)
  (sql_count w) (uuid_count w) (mem_wallet w) (mem_events w) (wallet_proc w)
  (broker_proc w) (trace w).
Definition set_inflight d w := mkWorld (heap w) (committed w) d (events_seq w)
  (sql_count w) (uuid_count w) (mem_wallet w) (mem_events w) (wallet_proc w)
  (broker_proc w) (trace w).
Definition set_events_seq n w := mkWorld (heap w) (committed w) (inflight w) n
  (sql_count w) (uuid_count w) (mem_wallet w) (mem_events w) (wallet_proc w)
  (broker_proc w) (trace w).
Definition set_sql_count n w := mkWorld (heap w) (committed w) (inflight w) (events_seq w)
  n (uuid_count w) (mem_wallet w) (mem_events w) (wallet_proc w)
  (broker_proc w) (trace w).
Definition set_uuid_count n w := mkWorld (heap w) (committed w) (inflight w) (events_seq w)
  (sql_count w) n (mem_wallet w) (mem_events w) (wallet_proc w)
  (broker_proc w) (trace w).
Definition set_mem_wallet m w := mkWorld (heap w) (committed w) (inflight w) (events_seq w)
  (sql_count w) (uuid_count w) m (mem_events w) (wallet_proc w)
  (broker_proc w) (trace w).
Definition set_mem_events m w := mkWorld (heap w) (committed w) (inflight w) (events_seq w)
  (sql_count w) (uuid_count w) (mem_wallet w) m (wallet_proc w)
  (broker_proc w) (trace w).
Definition set_wallet_proc p w := mkWorld (heap w) (committed w) (inflight w) (events_seq w)
  (sql_count w) (uuid_count w) (mem_wallet w) (mem_events w) p
  (broker_proc w) (trace w).
Definition set_broker_proc p w := mkWorld (heap w) (committed w) (inflight w) (events_seq w)
  (sql_count w) (uuid_count w) (mem_wallet w) (mem_events w) (wallet_proc w)
  p (trace w).
Definition set_trace t w := mkWorld (heap w) (committed w) (inflight w) (events_seq w)
  (sql_count w) (uuid_count w) (mem_wallet w) (mem_events w) (wallet_proc w)
  (broker_proc w) t.

End Setters.

(** ** The environment
    What the program meets and does not decide: the third-party conversions,
    whether the n-th SQL statement (or BEGIN, COMMIT) reaches the server
    ([FaultBefore] if not, [FaultAfter] if it took effect but the reply was
    lost), the order in which an unordered SELECT returns its rows, the order
    [sort.Slice] leaves equal elements in, and the UUIDs drawn by [NewV4]. *)
Inductive fault := NoFault | FaultBefore | FaultAfter.

#[export] Instance fault_eq_dec : EqDecision fault.
Proof. solve_decision. Defined.

Class Env := {
  env_decimal :: DecimalLib;
  env_btcutil :: BtcUtil;
  env_uuidlib :: UuidLib;
  env_fault : nat -> fault;
  env_scan : forall {A : Type}, nat -> list A -> list A;
  env_sort : forall {A : Type}, (A -> A -> bool) -> list A -> list A;
  env_uuid : nat -> UUID;
}.

Class EnvLaws (E : Env) := {
  env_scan_perm : forall {A : Type} n (l : list A), env_scan n l ≡ₚ l;
  env_sort_perm : forall {A : Type} less (l : list A), env_sort less l ≡ₚ l;
  env_sort_sorted : forall {A : Type} (key : A -> Z) (l : list A),
    StronglySorted (fun a b => key a <= key b)
      (env_sort (fun a b => bool_decide (key a < key b)) l);
  env_uuid_nonnil : forall n, env_uuid n <> uuid_Nil;
}.
