(* ===== verification/Effects.v ===== *)
(** * Effectful Go functions: the monad, SQL statements, and how to reason on them *)
From S2P Require Import Prelude.
From S2P Require Import Go.
From S2P Require Import Bitcoin.
From S2P Require Import TxTypes.
From S2P Require Import EventTypes.
From S2P Require Import World.
Local Open Scope Z_scope.

(** ** The monad *)
Definition M (A : Type) : Type := World -> outcome A * World.

#[export] Instance M_ret : MRet M := fun A a w => (Ok a, w).
#[export] Instance M_bind : MBind M := fun A B f m w =>
  match m w with
  | (Ok a, w') => f a w'
  | (Err e, w') => (Err e, w')
  | (Panic p, w') => (Panic p, w')
  end.

Definition throw {A} (e : error) : M A := fun w => (Err e, w).
Definition panic {A} (msg : string) : M A := fun w => (Panic msg, w).
Definition lift {A} (r : outcome A) : M A := fun w => (r, w).
Definition gets {A} (f : World -> A) : M A := fun w => (Ok (f w), w).
Definition modify (f : World -> World) : M unit := fun w => (Ok tt, f w).

(** [r, err := m]: the error is a value that the caller inspects. A panic unwinds. *)
Definition try {A} (m : M A) : M (A + error) := fun w =>
  match m w with
  | (Ok a, w') => (Ok (inl a), w')
  | (Err e, w') => (Ok (inr e), w')
  | (Panic p, w') => (Panic p, w')
  end.

(** [for _, x := range l { body }] where the body may return an error *)
Fixpoint forM_ {A} (l : list A) (body : A -> M unit) : M unit :=
  match l with
  | [] => mret tt
  | x :: l' => body x ;; forM_ l' body
  end.

Fixpoint mapM_list {A B} (f : A -> M B) (l : list A) : M (list B) :=
  match l with
  | [] => mret []
  | x :: l' => y ← f x; ys ← mapM_list f l'; mret (y :: ys)
  end.

(** ** The heap of transactions *)
Definition nil_deref : string := "invalid memory address or nil pointer dereference".

Definition load (l : loc) : M Transaction := fun w =>
  match heap w !! l with Some tx => (Ok tx, w) | None => (Panic nil_deref, w) end.

Definition store (l : loc) (tx : Transaction) : M unit :=
  modify (fun w => set_heap (<[l := tx]> (heap w)) w).

Definition alloc (tx : Transaction) : M loc := fun w =>
  (Ok (length (heap w)), set_heap (heap w ++ [tx]) w).

(** Apply an assignment to the object that [l] points to. *)
Definition update_at (l : loc) (f : Transaction -> Transaction) : M unit :=
  tx ← load l; store l (f tx).

(** ** Interactions *)
Definition log_act (a : Act) : M unit :=
  modify (fun w => set_trace ((a, committed w) :: trace w) w).

(** The loop of the two functions that persist a result: try [f]; on an error
    panic if no retries are left, else sleep and try again, a second longer. *)
Fixpoint retry_loop (retries : nat) (interval : Z) (msg : string) (f : M unit) : M unit :=
  r ← try f;
  match r with
  | inl _ => mret tt
  | inr _ =>
      match retries with
      | O => panic msg
      | S retries' =>
          log_act (ASleep interval) ;; retry_loop retries' (interval + 1) msg f
      end
  end.

(** ** SQL
    A statement runs on the connection pool ([OnDB]) or in the transaction in
    progress ([OnTx]). *)
Inductive Exec := OnDB | OnTx.

Definition target (ex : Exec) (w : World) : option DB :=
  match ex with OnDB => Some (committed w) | OnTx => inflight w end.

Definition put_db (ex : Exec) (d : DB) (w : World) : World :=
  match ex with
  | OnDB => set_trace ((ACommit, d) :: trace w) (set_committed d w)
  | OnTx => set_inflight (Some d) w
  end.

Section SQL.
Context {E : Env}.

Definition next_fault : M (nat * fault) := fun w =>
  (Ok (sql_count w, env_fault (sql_count w)), set_sql_count (S (sql_count w)) w).

(** [Exec]: a statement that changes the tables *)
Definition sql_exec (ex : Exec) (stmt : DB -> outcome DB) : M unit :=
  '(_, flt) ← next_fault;
  od ← gets (target ex);
  match od with
  | None => throw ErrTxDone
  | Some d =>
      if decide (flt = FaultBefore) then throw ErrDB else
      match stmt d with
      | Ok d' =>
          modify (put_db ex d') ;;
          (if decide (flt = FaultAfter) then throw ErrDB else mret tt)
      | Err e => if decide (flt = FaultAfter) then throw ErrDB else throw e
      | Panic p => panic p
      end
  end.

(** [Query]: the rows come in no particular order *)
Definition sql_query {A} (ex : Exec) (q : DB -> list A) : M (list A) :=
  '(n, flt) ← next_fault;
  od ← gets (target ex);
  match od with
  | None => throw ErrTxDone
  | Some d => if decide (flt = NoFault) then mret (env_scan n (q d)) else throw ErrDB
  end.

(** [Query] with an ORDER BY *)
Definition sql_query_ordered {A} (ex : Exec) (q : DB -> list A) : M (list A) :=
  '(n, flt) ← next_fault;
  od ← gets (target ex);
  match od with
  | None => throw ErrTxDone
  | Some d => if decide (flt = NoFault) then mret (q d) else throw ErrDB
  end.

(** [QueryRow]: the first row, or [sql.ErrNoRows] *)
Definition sql_query_row {A} (ex : Exec) (q : DB -> list A) : M A :=
  rows ← sql_query ex q;
  match rows with [] => throw ErrNoRows | r :: _ => mret r end.

Definition sql_begin : M unit :=
  '(_, flt) ← next_fault;
  if decide (flt = NoFault) then modify (fun w => set_inflight (Some (committed w)) w)
  else throw ErrDB.

(** The lost reply of a COMMIT reports an error for a transaction that took effect. *)
Definition sql_commit : M unit :=
  '(_, flt) ← next_fault;
  od ← gets inflight;
  modify (set_inflight None) ;;
  match od with
  | None => throw ErrTxDone
  | Some d =>
      if decide (flt = FaultBefore) then throw ErrDB else
      modify (put_db OnDB d) ;;
      (if decide (flt = FaultAfter) then throw ErrDB else mret tt)
  end.

(** A failed ROLLBACK is only logged; the server drops the transaction anyway. *)
Definition sql_rollback : M unit :=
  next_fault ;; modify (set_inflight None).

(** [uuid.Must(uuid.NewV4())] *)
Definition uuid_NewV4 : M UUID := fun w =>
  (Ok (env_uuid (uuid_count w)), set_uuid_count (S (uuid_count w)) w).

End SQL.

(** ** Reasoning
    [wp m Q w]: running [m] from [w] ends with an outcome and a world in [Q]. *)
Definition wp {A} (m : M A) (Q : outcome A -> World -> Prop) (w : World) : Prop :=
  Q (m w).1 (m w).2.

Section WP.

Lemma wp_mono {A} (m : M A) (Q Q' : outcome A -> World -> Prop) w :
  wp m Q w -> (forall r w', Q r w' -> Q' r w') -> wp m Q' w.
Proof. unfold wp. auto. Qed.

Lemma wp_bind {A B} (m : M A) (f : A -> M B) Q w :
  wp m (fun r w' => match r with
                    | Ok a => wp (f a) Q w'
                    | Err e => Q (Err e) w'
                    | Panic p => Q (Panic p) w'
                    end) w -> wp (m ≫= f) Q w.
Proof.
  unfold wp, mbind, M_bind. destruct (m w) as [[a|e|p] w']; simpl; done.
Qed.

Lemma bind_Ok {A B} (m : M A) (f : A -> M B) a w w1 :
  m w = (Ok a, w1) -> (m ≫= f) w = f a w1.
Proof. unfold mbind, M_bind. by intros ->. Qed.

Lemma load_eq l tx w : heap w !! l = Some tx -> load l w = (Ok tx, w).
Proof. unfold load. by intros ->. Qed.

Lemma wp_ret {A} (a : A) (Q : outcome A -> World -> Prop) w : Q (Ok a) w -> wp (mret a) Q w.
Proof. done. Qed.
Lemma wp_throw {A} e (Q : outcome A -> World -> Prop) w : Q (Err e) w -> wp (throw e) Q w.
Proof. done. Qed.
Lemma wp_panic {A} p (Q : outcome A -> World -> Prop) w : Q (Panic p) w -> wp (panic p) Q w.
Proof. done. Qed.
Lemma wp_lift {A} r (Q : outcome A -> World -> Prop) w : Q r w -> wp (lift r) Q w.
Proof. done. Qed.
Lemma wp_gets {A} (f : World -> A) Q w : Q (Ok (f w)) w -> wp (gets f) Q w.
Proof. done. Qed.
Lemma wp_modify f (Q : outcome unit -> World -> Prop) w : Q (Ok tt) (f w) -> wp (modify f) Q w.
Proof. done. Qed.

Lemma wp_try {A} (m : M A) Q w :
  wp m (fun r w' => match r with
                    | Ok a => Q (Ok (inl a)) w'
                    | Err e => Q (Ok (inr e)) w'
                    | Panic p => Q (Panic p) w'
                    end) w -> wp (try m) Q w.
Proof. unfold wp, try. destruct (m w) as [[]]; done. Qed.

Lemma wp_load l (Q : outcome Transaction -> World -> Prop) w :
  match heap w !! l with Some tx => Q (Ok tx) w | None => Q (Panic nil_deref) w end ->
  wp (load l) Q w.
Proof. unfold wp, load. by destruct (heap w !! l). Qed.

Lemma wp_run {A} (m : M A) (Q : outcome A -> World -> Prop) w r w' :
  m w = (r, w') -> wp m Q w -> Q r w'.
Proof. unfold wp. by intros ->. Qed.

End WP.

(** Prove a fact about the world [w'] that a run [Hrun : m w = (r, w')] leaves by
    reasoning on [wp m]. *)
Ltac by_wp Hrun :=
  match type of Hrun with
  | ?m ?w = (?r, ?w') =>
      pattern w';
      match goal with
      | |- ?P w' =>
          refine (wp_run m (fun r0 w0 => r0 = r -> P w0) w r w' Hrun _ eq_refl); cbv beta
      end
  end.
