(* ===== verification/Storage.v ===== *)
(** * storage/storage.go: metadata rows and database transactions

    [GetMeta], [SetMeta] and [MakeTransactIfAvailable], with the reasoning rules
    that the storages and the wallet share: what a statement can do under any
    fault, what it does without faults, and how an invariant of the tables goes
    through statements and transactions. The last section has the
    rules for the runs in which no statement fails. *)
From S2P Require Import Prelude.
From S2P Require Import Go.
From S2P Require Import Bitcoin.
From S2P Require Import TxTypes.
From S2P Require Import EventTypes.
From S2P Require Import World.
From S2P Require Import Effects.
Local Open Scope Z_scope.

(** [storage.Open] selects the backend: [Some false] is a nil [*sql.DB] (in
    memory), [Some true] a PostgreSQL connection whose opening and ping
    succeeded or not ([pg_reachable]). *)
Definition Open (storageType : string) (pg_reachable : bool) : outcome bool :=
  if decide (storageType = "") then Panic "Error: setting storage.type is required"
  else if decide (storageType = "memory") then Ok false
  else if decide (storageType = "postgres") then
    if pg_reachable then Ok true else Panic "database connection failed"
  else Panic ("Error: unsupported storage type " +:+ storageType).

Section Meta.
Context {E : Env}.

Definition select_meta (name : string) (d : DB) : list string :=
  option_list (db_metadata d !! name).

Definition upsert_meta (name value : string) (d : DB) : outcome DB :=
  Ok (mkDB (db_transactions d) (db_accounts d) (<[name := value]> (db_metadata d))
        (db_events d) (db_muted d)).

Definition GetMeta (e : Exec) (name defaultVal : string) : M string :=
  r ← try (sql_query_row e (select_meta name));
  match r with
  | inl result => mret result
  | inr ErrNoRows => mret defaultVal
  | inr err => throw err
  end.

Definition SetMeta (e : Exec) (name value : string) : M unit :=
  sql_exec e (upsert_meta name value).

(** Commit when the body succeeds; the deferred rollback runs for an error
    and for a panic. *)
Definition in_transaction {A} (body : M A) : M A := fun w =>
  match body w with
  | (Ok a, w') => (sql_commit ;; mret a) w'
  | (Err e, w') => (Err e, (sql_rollback w').2)
  | (Panic p, w') => (Panic p, (sql_rollback w').2)
  end.

(** [db] tells whether there is a database (the [sql.DB] pointer is not nil).
    What the Go closure leaves in captured variables is its result here. *)
Definition MakeTransactIfAvailable {A} (db : bool) (f : Exec -> M A) : M A :=
  if db then sql_begin ;; in_transaction (f OnTx) else f OnDB.

End Meta.

(** ** Statements under arbitrary faults *)
Definition bump_sql (w : World) : World := set_sql_count (S (sql_count w)) w.

Section SQLRules.
Context {E : Env}.

Lemma wp_sql_exec ex stmt Q w :
  (target ex w = None -> Q (Err ErrTxDone) (bump_sql w)) ->
  (forall d, target ex w = Some d ->
     Q (Err ErrDB) (bump_sql w) /\
     match stmt d with
     | Ok d' => Q (Ok tt) (put_db ex d' (bump_sql w)) /\
                Q (Err ErrDB) (put_db ex d' (bump_sql w))
     | Err e => Q (Err e) (bump_sql w)
     | Panic p => Q (Panic p) (bump_sql w)
     end) ->
  wp (sql_exec ex stmt) Q w.
Proof.
  intros Hnone Hsome. unfold wp, sql_exec, mbind, M_bind, next_fault, gets.
  change (target ex (set_sql_count (S (sql_count w)) w)) with (target ex (bump_sql w)).
  assert (target ex (bump_sql w) = target ex w) as -> by by destruct ex.
  destruct (target ex w) as [d|]; [|by apply Hnone].
  destruct (Hsome d eq_refl) as [HF HS].
  case_decide; [exact HF|]. destruct (stmt d); simpl.
  - destruct HS. by case_decide.
  - by case_decide.
  - exact HS.
Qed.

Lemma wp_sql_query {A} ex (q : DB -> list A) Q w :
  (target ex w = None -> Q (Err ErrTxDone) (bump_sql w)) ->
  (forall d, target ex w = Some d ->
     Q (Err ErrDB) (bump_sql w) /\ Q (Ok (env_scan (sql_count w) (q d))) (bump_sql w)) ->
  wp (sql_query ex q) Q w.
Proof.
  intros Hnone Hsome. unfold wp, sql_query, mbind, M_bind, next_fault, gets.
  change (target ex (set_sql_count (S (sql_count w)) w)) with (target ex (bump_sql w)).
  assert (target ex (bump_sql w) = target ex w) as -> by by destruct ex.
  destruct (target ex w) as [d|]; [|by apply Hnone].
  destruct (Hsome d eq_refl). by case_decide.
Qed.

Lemma wp_sql_query_ordered {A} ex (q : DB -> list A) Q w :
  (target ex w = None -> Q (Err ErrTxDone) (bump_sql w)) ->
  (forall d, target ex w = Some d ->
     Q (Err ErrDB) (bump_sql w) /\ Q (Ok (q d)) (bump_sql w)) ->
  wp (sql_query_ordered ex q) Q w.
Proof.
  intros Hnone Hsome. unfold wp, sql_query_ordered, mbind, M_bind, next_fault, gets.
  change (target ex (set_sql_count (S (sql_count w)) w)) with (target ex (bump_sql w)).
  assert (target ex (bump_sql w) = target ex w) as -> by by destruct ex.
  destruct (target ex w) as [d|]; [|by apply Hnone].
  destruct (Hsome d eq_refl). by case_decide.
Qed.

Lemma wp_sql_query_row {A} `{!EnvLaws E} ex (q : DB -> list A) Q w :
  (forall e, e <> ErrNoRows -> Q (Err e) (bump_sql w)) ->
  (forall d, target ex w = Some d ->
     (q d = [] -> Q (Err ErrNoRows) (bump_sql w)) /\
     (forall r, r ∈ q d -> Q (Ok r) (bump_sql w))) ->
  wp (sql_query_row ex q) Q w.
Proof.
  intros He Hsome. apply wp_bind, wp_sql_query; [by intros; apply He|].
  intros d Hd. destruct (Hsome d Hd) as [Hnil Hcons]. split; [by apply He|].
  pose proof (env_scan_perm (sql_count w) (q d)) as Hp.
  destruct (env_scan (sql_count w) (q d)) as [|r rows] eqn:Er.
  - apply wp_throw, Hnil. by apply Permutation_nil.
  - apply wp_ret, Hcons. rewrite <- Hp. left.
Qed.

Lemma wp_sql_begin Q w :
  Q (Err ErrDB) (bump_sql w) ->
  Q (Ok tt) (set_inflight (Some (committed w)) (bump_sql w)) ->
  wp sql_begin Q w.
Proof. intros. unfold wp, sql_begin, mbind, M_bind, next_fault. by case_decide. Qed.

Lemma wp_sql_commit Q w :
  (forall e, Q (Err e) (set_inflight None (bump_sql w))) ->
  (forall d, inflight w = Some d ->
     Q (Ok tt) (put_db OnDB d (set_inflight None (bump_sql w))) /\
     Q (Err ErrDB) (put_db OnDB d (set_inflight None (bump_sql w)))) ->
  wp sql_commit Q w.
Proof.
  intros He Hd. unfold wp, sql_commit, mbind, M_bind, next_fault, gets, modify.
  change (inflight (set_sql_count (S (sql_count w)) w)) with (inflight w).
  destruct (inflight w) as [d|]; [|apply He].
  destruct (Hd d eq_refl). case_decide; [apply He|]. by case_decide.
Qed.

(** A transaction: the body runs on a copy of the tables, which replaces them
    only when the body succeeds and the commit takes effect. *)
Lemma wp_transaction {A} (f : Exec -> M A) Q w :
  Q (Err ErrDB) (bump_sql w) ->
  wp (f OnTx) (fun r w' =>
    match r with
    | Ok a =>
        (forall e, Q (Err e) (set_inflight None (bump_sql w'))) /\
        (forall d, inflight w' = Some d ->
           Q (Ok a) (put_db OnDB d (set_inflight None (bump_sql w'))) /\
           Q (Err ErrDB) (put_db OnDB d (set_inflight None (bump_sql w'))))
    | Err e => Q (Err e) (set_inflight None (bump_sql w'))
    | Panic p => Q (Panic p) (set_inflight None (bump_sql w'))
    end) (set_inflight (Some (committed w)) (bump_sql w)) ->
  wp (MakeTransactIfAvailable true f) Q w.
Proof.
  intros Hb Hf. unfold MakeTransactIfAvailable.
  apply wp_bind, wp_sql_begin; [exact Hb|].
  unfold wp, in_transaction in *. destruct (f OnTx _) as [[a|e|p] w']; simpl in Hf.
  - destruct Hf. by apply wp_bind, wp_sql_commit.
  - exact Hf.
  - exact Hf.
Qed.

Lemma wp_GetMeta `{!EnvLaws E} ex name dflt Q w :
  (forall e, Q (Err e) (bump_sql w)) ->
  (forall d, target ex w = Some d -> Q (Ok (default dflt (db_metadata d !! name))) (bump_sql w)) ->
  wp (GetMeta ex name dflt) Q w.
Proof.
  intros He Hd. apply wp_bind, wp_try, wp_sql_query_row.
  - intros e Hne. destruct e; try apply He. done.
  - unfold select_meta. intros d Ht. specialize (Hd d Ht).
    destruct (db_metadata d !! name); simpl in *; split.
    + done.
    + intros r. rewrite list_elem_of_singleton. by intros ->.
    + intros _. exact Hd.
    + intros r. by rewrite elem_of_nil.
Qed.

End SQLRules.

(** ** Invariants
    [Keeps I m]: the world predicate [I] survives [m], however it ends. *)
Class Keeps (I : World -> Prop) {A} (m : M A) : Prop :=
  keeps : forall w, I w -> I (m w).2.

Section KeepsRules.
Context (I : World -> Prop).

Lemma keeps_wp {A} (m : M A) : (forall w, I w -> wp m (fun _ w' => I w') w) -> Keeps I m.
Proof. done. Qed.

Lemma keeps_ret {A} (a : A) : Keeps I (mret a).
Proof. by intros w ?. Qed.
Lemma keeps_throw {A} e : Keeps I (@throw A e).
Proof. by intros w ?. Qed.
Lemma keeps_panic {A} p : Keeps I (@panic A p).
Proof. by intros w ?. Qed.
Lemma keeps_lift {A} (r : outcome A) : Keeps I (lift r).
Proof. by intros w ?. Qed.
Lemma keeps_gets {A} (f : World -> A) : Keeps I (gets f).
Proof. by intros w ?. Qed.
Lemma keeps_load l : Keeps I (load l).
Proof. intros w ?. unfold load. by destruct (heap w !! l). Qed.

Lemma keeps_bind {A B} (m : M A) (f : A -> M B) :
  Keeps I m -> (forall a, Keeps I (f a)) -> Keeps I (m ≫= f).
Proof.
  intros Hm Hf w Hw. specialize (Hm w Hw). unfold mbind, M_bind.
  destruct (m w) as [[a|e|p] w']; [by apply Hf | done | done].
Qed.

Lemma keeps_try {A} (m : M A) : Keeps I m -> Keeps I (try m).
Proof.
  intros Hm w Hw. specialize (Hm w Hw). unfold try. by destruct (m w) as [[] ?].
Qed.

Lemma keeps_forM {A} (l : list A) (body : A -> M unit) :
  (forall x, Keeps I (body x)) -> Keeps I (forM_ l body).
Proof.
  intros Hb. induction l; simpl; [apply keeps_ret|]. by apply keeps_bind.
Qed.

Lemma keeps_mapM {A B} (f : A -> M B) (l : list A) :
  (forall x, Keeps I (f x)) -> Keeps I (mapM_list f l).
Proof.
  intros Hf. induction l; simpl; [apply keeps_ret|].
  apply keeps_bind; [done|]. intros. apply keeps_bind; [done|].
  intros. apply keeps_ret.
Qed.

End KeepsRules.

Create HintDb keeps discriminated.
#[export] Hint Resolve keeps_ret keeps_throw keeps_panic keeps_lift keeps_gets keeps_load : keeps.

(** Take a program apart along its binds, tries, loops and branches. *)
Ltac keeps_step := match goal with
  | |- Keeps _ (let _ := _ in _) => cbv zeta
  | |- Keeps _ (_ ≫= _) => apply keeps_bind
  | |- Keeps _ (try _) => apply keeps_try
  | |- Keeps _ (forM_ _ _) => apply keeps_forM
  | |- Keeps _ (mapM_list _ _) => apply keeps_mapM
  | |- Keeps _ (match ?x with _ => _ end) => destruct x
  | |- Keeps _ _ => solve [eauto with keeps]
  | |- forall _, _ => intro
  end.
Ltac solve_keeps := repeat keeps_step.

(** ** Invariants of the tables, of the trace and of the heap
    What an invariant asks of the committed tables, of the transaction in
    progress (both also see the next value of the events sequence, which
    statements draw from outside any transaction), of the interactions so far,
    each with the tables as committed at that moment, and of every
    [types.Transaction] object. *)
Record Inv := mkInv {
  iv_committed : Z -> DB -> Prop;
  iv_inflight : Z -> DB -> Prop;
  iv_trace : list (Act * DB) -> Prop;
  iv_ok : Transaction -> Prop;
}.

Definition holds (I : Inv) (w : World) : Prop :=
  iv_committed I (events_seq w) (committed w) /\
  (forall d, inflight w = Some d -> iv_inflight I (events_seq w) d) /\
  iv_trace I (trace w) /\
  Forall (iv_ok I) (heap w).

(** What the invariant asks of the tables a statement runs on. *)
Definition iv_on (I : Inv) (ex : Exec) : Z -> DB -> Prop :=
  match ex with OnDB => iv_committed I | OnTx => iv_inflight I end.

(** The invariant allows an interaction while the committed tables are [d]. *)
Definition allows (I : Inv) (a : Act) (d : DB) : Prop :=
  forall t, iv_trace I t -> iv_trace I ((a, d) :: t).

(** A statement run by [ex] respects the invariant. *)
Definition stmt_ok (I : Inv) (ex : Exec) (stmt : DB -> outcome DB) : Prop :=
  forall s d d', iv_on I ex s d -> stmt d = Ok d' ->
    iv_on I ex s d' /\ (ex = OnDB -> allows I ACommit d').

(** The executors an invariant is for: all, or only those in a transaction. *)
Definition any_exec (_ : Exec) : Prop := True.
Definition tx_only (ex : Exec) : Prop := ex = OnTx.
Lemma any_exec_all ex : any_exec ex.
Proof. exact I. Qed.
Lemma tx_only_tx : tx_only OnTx.
Proof. reflexivity. Qed.
#[export] Hint Resolve any_exec_all tx_only_tx : keeps.

(** The invariant survives the beginning and the end of transactions. *)
Class Coherent (I : Inv) : Prop := {
  coherent_begin s d : iv_committed I s d -> iv_inflight I s d;
  coherent_commit s d : iv_inflight I s d -> iv_committed I s d;
  coherent_trace s d : iv_committed I s d -> allows I ACommit d;
}.

(** The invariant allows an interaction at any time. *)
Class Allowed (I : Inv) (a : Act) : Prop :=
  allowed : forall s d, iv_committed I s d -> allows I a d.

(** Worlds that agree on what [holds] reads. *)
Definition same_tables (w w' : World) : Prop :=
  committed w' = committed w /\ inflight w' = inflight w /\ events_seq w' = events_seq w /\
  heap w' = heap w /\ trace w' = trace w.

Section TableInvariants.
Context {E : Env} (I : Inv).

Lemma holds_same w w' : same_tables w w' -> holds I w -> holds I w'.
Proof. unfold same_tables, holds. by intros (-> & -> & -> & -> & ->). Qed.

Lemma holds_target ex w d : holds I w -> target ex w = Some d -> iv_on I ex (events_seq w) d.
Proof. intros (Hc & Hi & _). destruct ex; simpl; [by intros [= <-] | apply Hi]. Qed.

Lemma holds_put ex w d :
  holds I w -> iv_on I ex (events_seq w) d -> (ex = OnDB -> allows I ACommit d) ->
  holds I (put_db ex d w).
Proof.
  intros (Hc & Hi & Ht & Hh) Hd Ha. destruct ex; split_and!; simpl; try done.
  - by apply Ha.
  - by intros ? [= <-].
Qed.

Lemma keeps_modify_same f : (forall w, same_tables w (f w)) -> Keeps (holds I) (modify f).
Proof. intros Hf w. apply holds_same, Hf. Qed.

(** A loaded object satisfies [iv_ok]. *)
Lemma keeps_load_bind {A} l (f : Transaction -> M A) :
  (forall tx, iv_ok I tx -> Keeps (holds I) (f tx)) -> Keeps (holds I) (load l ≫= f).
Proof.
  intros Hf w Hw. unfold mbind, M_bind, load. destruct (heap w !! l) as [tx|] eqn:Hl; [|done].
  apply Hf; [|done]. destruct Hw as (_ & _ & _ & Hh). eapply Forall_lookup_1; eauto.
Qed.

Lemma keeps_store l tx : iv_ok I tx -> Keeps (holds I) (store l tx).
Proof.
  intros Htx w (Hc & Hi & Ht & Hh). split_and!; simpl; auto. by apply Forall_insert.
Qed.

Lemma keeps_alloc tx : iv_ok I tx -> Keeps (holds I) (alloc tx).
Proof.
  intros Htx w (Hc & Hi & Ht & Hh). split_and!; simpl; auto.
  by apply Forall_app_2, Forall_singleton.
Qed.

Lemma keeps_update_at l f :
  (forall tx, iv_ok I tx -> iv_ok I (f tx)) -> Keeps (holds I) (update_at l f).
Proof. intros Hf. apply keeps_load_bind. intros tx Htx. by apply keeps_store, Hf. Qed.

Lemma keeps_log_act a : Allowed I a -> Keeps (holds I) (log_act a).
Proof.
  intros Ha w (Hc & Hi & Ht & Hh). split_and!; simpl; try done. by eapply Ha.
Qed.

Lemma keeps_uuid : Keeps (holds I) uuid_NewV4.
Proof. intros w. by apply holds_same. Qed.

Lemma keeps_sql_exec ex stmt : stmt_ok I ex stmt -> Keeps (holds I) (sql_exec ex stmt).
Proof.
  intros Hs. apply keeps_wp. intros w Hw. apply wp_sql_exec; [by intros|].
  intros d Hd. split; [done|]. destruct (stmt d) eqn:Es; [|done..].
  destruct (Hs _ _ _ (holds_target _ _ _ Hw Hd) Es). by split; apply holds_put.
Qed.

Lemma keeps_sql_query {A} ex (q : DB -> list A) : Keeps (holds I) (sql_query ex q).
Proof. apply keeps_wp. intros w Hw. apply wp_sql_query; by intros. Qed.
Lemma keeps_sql_query_ordered {A} ex (q : DB -> list A) :
  Keeps (holds I) (sql_query_ordered ex q).
Proof. apply keeps_wp. intros w Hw. apply wp_sql_query_ordered; by intros. Qed.

Lemma keeps_sql_query_row {A} ex (q : DB -> list A) :
  Keeps (holds I) (sql_query_row ex q).
Proof.
  apply keeps_bind; [apply keeps_sql_query|].
  intros []; [apply keeps_throw | apply keeps_ret].
Qed.

(** A row that a query returns is one of those it selects. *)
Lemma keeps_sql_query_row_bind {A B} `{!EnvLaws E} ex (q : DB -> list A) (f : A -> M B) :
  (forall s d r, iv_on I ex s d -> r ∈ q d -> Keeps (holds I) (f r)) ->
  Keeps (holds I) (sql_query_row ex q ≫= f).
Proof.
  intros Hf. apply keeps_wp. intros w Hw. apply wp_bind, wp_sql_query_row; [by intros|].
  intros d Hd. split; [done|]. intros r Hr.
  eapply Hf; [by eapply holds_target | done | done].
Qed.

Lemma keeps_sql_query_bind {A B} `{!EnvLaws E} ex (q : DB -> list A) (f : list A -> M B) :
  (forall s d rows, iv_on I ex s d -> (forall r, r ∈ rows -> r ∈ q d) ->
     Keeps (holds I) (f rows)) ->
  Keeps (holds I) (sql_query ex q ≫= f).
Proof.
  intros Hf. apply keeps_wp. intros w Hw. apply wp_bind, wp_sql_query; [by intros|].
  intros d Hd. split; [done|].
  eapply Hf; [by eapply holds_target | | done].
  intros r. by rewrite env_scan_perm.
Qed.

Lemma keeps_mapM_elem {A B} (f : A -> M B) (l : list A) :
  (forall x, x ∈ l -> Keeps (holds I) (f x)) -> Keeps (holds I) (mapM_list f l).
Proof.
  induction l as [|x l IH]; intros Hf; simpl; [apply keeps_ret|].
  apply keeps_bind; [apply Hf; left|]. intros. apply keeps_bind; [|intros; apply keeps_ret].
  apply IH. intros. apply Hf. by right.
Qed.

Lemma keeps_transaction {A} `{!Coherent I} db (f : Exec -> M A) :
  (forall ex, Keeps (holds I) (f ex)) -> Keeps (holds I) (MakeTransactIfAvailable db f).
Proof.
  intros Hf. destruct db; [|apply Hf].
  apply keeps_wp. intros w (Hc & Hi & Ht & Hh). apply wp_transaction; [done|].
  assert (Hw : holds I (set_inflight (Some (committed w)) (bump_sql w))).
  { split_and!; simpl; try done. intros d [= <-]. by apply coherent_begin. }
  specialize (Hf OnTx _ Hw). unfold wp. destruct (f OnTx _) as [[a|e|p] w'];
    destruct Hf as (Hc' & Hi' & Ht' & Hh').
  - split; [by intros|]. intros d Hd. simpl in Hd.
    apply Hi', coherent_commit in Hd.
    split; (split_and!; simpl; [done | done | | done]); by eapply coherent_trace.
  - done.
  - done.
Qed.

Lemma keeps_retry `{!forall n, Allowed I (ASleep n)} retries interval msg f :
  Keeps (holds I) f -> Keeps (holds I) (retry_loop retries interval msg f).
Proof.
  intros Hf. revert interval. induction retries as [|n IH]; intros interval; simpl;
    (apply keeps_bind; [by apply keeps_try|]; intros []; [apply keeps_ret|]).
  - apply keeps_panic.
  - apply keeps_bind; [by apply keeps_log_act|]. intros. apply IH.
Qed.

End TableInvariants.

#[export] Hint Resolve keeps_uuid
  keeps_sql_query keeps_sql_query_ordered keeps_sql_query_row : keeps.

Section MetaInvariants.
Context {E : Env} (I : Inv).

Lemma keeps_GetMeta e name dflt : Keeps (holds I) (GetMeta e name dflt).
Proof. unfold GetMeta. solve_keeps. Qed.

Lemma keeps_SetMeta e name value :
  stmt_ok I e (upsert_meta name value) -> Keeps (holds I) (SetMeta e name value).
Proof. apply keeps_sql_exec. Qed.

End MetaInvariants.
#[export] Hint Resolve keeps_GetMeta : keeps.

Ltac keeps_step ::= match goal with
  | |- Keeps _ (let _ := _ in _) => cbv zeta
  | |- Keeps _ (load _ ≫= _) => apply keeps_load_bind
  | |- Keeps _ (_ ≫= _) => apply keeps_bind
  | |- Keeps _ (try _) => apply keeps_try
  | |- Keeps _ (forM_ _ _) => apply keeps_forM
  | |- Keeps _ (mapM_list _ _) => apply keeps_mapM
  | |- Keeps _ (retry_loop _ _ _ _) => apply keeps_retry; [intros; apply _|]
  | |- Keeps _ (MakeTransactIfAvailable _ _) => apply keeps_transaction; [apply _|]
  | |- Keeps _ (match ?x with _ => _ end) => destruct x
  | |- Keeps _ _ => solve [eauto with keeps]
  | |- forall _, _ => intro
  end.

Section NoFaults.
Context {E : Env} {EL : EnvLaws E} (no_faults : forall n, env_fault n = NoFault).

Lemma wp_exec ex stmt d d' (Q : outcome unit -> World -> Prop) w :
  target ex w = Some d -> stmt d = Ok d' -> Q (Ok tt) (put_db ex d' (bump_sql w)) ->
  wp (sql_exec ex stmt) Q w.
Proof.
  intros Hd Hs HQ. unfold wp, sql_exec, mbind, M_bind, next_fault, gets.
  change (target ex (set_sql_count (S (sql_count w)) w)) with (target ex (bump_sql w)).
  assert (target ex (bump_sql w) = Some d) as -> by by destruct ex.
  cbv beta iota. rewrite no_faults, decide_False, Hs by done. unfold modify. cbv beta iota.
  rewrite decide_False by done. exact HQ.
Qed.

Lemma wp_exec_err ex stmt d e (Q : outcome unit -> World -> Prop) w :
  target ex w = Some d -> stmt d = Err e -> Q (Err e) (bump_sql w) ->
  wp (sql_exec ex stmt) Q w.
Proof.
  intros Hd Hs HQ. unfold wp, sql_exec, mbind, M_bind, next_fault, gets.
  change (target ex (set_sql_count (S (sql_count w)) w)) with (target ex (bump_sql w)).
  assert (target ex (bump_sql w) = Some d) as -> by by destruct ex.
  cbv beta iota. by rewrite no_faults, decide_False, Hs by done.
Qed.

Lemma wp_query {A} ex (q : DB -> list A) d (Q : outcome (list A) -> World -> Prop) w :
  target ex w = Some d -> (forall rows, rows ≡ₚ q d -> Q (Ok rows) (bump_sql w)) ->
  wp (sql_query ex q) Q w.
Proof.
  intros Hd HQ. unfold wp, sql_query, mbind, M_bind, next_fault, gets.
  change (target ex (set_sql_count (S (sql_count w)) w)) with (target ex (bump_sql w)).
  assert (target ex (bump_sql w) = Some d) as -> by by destruct ex.
  cbv beta iota. rewrite no_faults, decide_True by done. apply HQ, env_scan_perm.
Qed.

Lemma wp_ordered {A} ex (q : DB -> list A) d (Q : outcome (list A) -> World -> Prop) w :
  target ex w = Some d -> Q (Ok (q d)) (bump_sql w) -> wp (sql_query_ordered ex q) Q w.
Proof.
  intros Hd HQ. unfold wp, sql_query_ordered, mbind, M_bind, next_fault, gets.
  change (target ex (set_sql_count (S (sql_count w)) w)) with (target ex (bump_sql w)).
  assert (target ex (bump_sql w) = Some d) as -> by by destruct ex.
  cbv beta iota. by rewrite no_faults, decide_True.
Qed.

Lemma wp_query_row {A} ex (q : DB -> list A) d (Q : outcome A -> World -> Prop) w :
  target ex w = Some d -> (q d = [] -> Q (Err ErrNoRows) (bump_sql w)) ->
  (forall r, r ∈ q d -> Q (Ok r) (bump_sql w)) -> wp (sql_query_row ex q) Q w.
Proof.
  intros Hd Hnil Hcons. apply wp_bind. eapply wp_query; [done|]. intros rows Hrows.
  destruct rows as [|r rows].
  - apply wp_throw, Hnil. by apply Permutation_nil.
  - apply wp_ret, Hcons. rewrite <- Hrows. left.
Qed.

Lemma wp_meta ex name dflt d (Q : outcome string -> World -> Prop) w :
  target ex w = Some d -> Q (Ok (default dflt (db_metadata d !! name))) (bump_sql w) ->
  wp (GetMeta ex name dflt) Q w.
Proof.
  intros Hd HQ. apply wp_bind, wp_try. eapply wp_query_row; [done|..]; unfold select_meta.
  - by destruct (db_metadata d !! name).
  - destruct (db_metadata d !! name); simpl; intros r; [|by rewrite elem_of_nil].
    rewrite list_elem_of_singleton. by intros ->.
Qed.

Lemma begin_eq w : sql_begin w = (Ok tt, set_inflight (Some (committed w)) (bump_sql w)).
Proof.
  unfold sql_begin, mbind, M_bind, next_fault. cbv beta iota. by rewrite no_faults, decide_True.
Qed.

Lemma commit_eq d w :
  inflight w = Some d -> sql_commit w = (Ok tt, put_db OnDB d (set_inflight None (bump_sql w))).
Proof.
  intros Hd. unfold sql_commit, mbind, M_bind, next_fault, gets, modify. cbv beta iota.
  change (inflight (set_sql_count (S (sql_count w)) w)) with (inflight w). rewrite Hd.
  cbv beta iota. rewrite no_faults, !decide_False by done. reflexivity.
Qed.

Lemma wp_commits {A} (f : Exec -> M A) (Q : outcome A -> World -> Prop) w :
  wp (f OnTx) (fun r w' => match r with
    | Ok a => exists d, inflight w' = Some d /\ Q (Ok a) (put_db OnDB d (set_inflight None (bump_sql w')))
    | _ => False
    end) (set_inflight (Some (committed w)) (bump_sql w)) ->
  wp (MakeTransactIfAvailable true f) Q w.
Proof.
  intros Hf. unfold wp, MakeTransactIfAvailable. rewrite (bind_Ok _ _ _ _ _ (begin_eq w)).
  unfold wp, in_transaction in *. destruct (f OnTx _) as [[a|e|p] w']; [|done..].
  destruct Hf as (d & Hd & HQ). cbn [snd] in Hd. by rewrite (bind_Ok _ _ _ _ _ (commit_eq d w' Hd)).
Qed.

End NoFaults.
