(* ===== verification/WalletStorage.v ===== *)
(** * wallet/storage.go: the storage interface of the wallet

    A Go [Storage] value bound to a database transaction by [WithTransaction]
    is the same storage whose statements run in that transaction: every method
    takes the executor. [GetDB] tells whether there is a database. *)
From S2P Require Import Prelude.
From S2P Require Import Go.
From S2P Require Import Bitcoin.
From S2P Require Import TxTypes.
From S2P Require Import EventTypes.
From S2P Require Import World.
From S2P Require Import Effects.
From S2P Require Import Storage.

Class Storage := {
  GetDB : bool;
  GetLastSeenBlockHash : Exec -> M string;
  SetLastSeenBlockHash : Exec -> string -> M unit;
  StoreTransaction : Exec -> loc -> M loc;
  GetTransactionByHash : Exec -> string -> M loc;
  GetTransactionByID : Exec -> UUID -> M loc;
  GetBroadcastedTransactionsWithLessConfirmations : Exec -> Z -> M (list loc);
  GetPendingTransactions : Exec -> M (list loc);
  updateReportedConfirmations : Exec -> loc -> Z -> M unit;
  GetTransactionsWithFilter : Exec -> string -> string -> M (list loc);
  GetAccountByAddress : Exec -> string -> M (option Account);
  StoreAccount : Exec -> Account -> M unit;
  GetHotWalletAddress : Exec -> M string;
  setHotWalletAddress : Exec -> string -> M unit;
  GetMoneyRequiredFromColdStorage : Exec -> M Z;
  SetMoneyRequiredFromColdStorage : Exec -> Z -> M unit;
  LockWallet : Exec -> json -> M unit;
  ClearWallet : Exec -> M unit;
  CheckWalletLock : Exec -> M (bool * string);
}.

(** [NewStorage] chooses by whether there is a database. *)
Definition NewStorage (postgres memory : Storage) (db : bool) : Storage :=
  if db then postgres else memory.

(** ** What a storage promises for an invariant
    The wallet's operations keep an invariant when the storage's do, on the
    executors [exs] the invariant is for. *)
Class StorageKeeps (I : Inv) (exs : Exec -> Prop) (S : Storage) : Prop := {
  keeps_GetLastSeenBlockHash ex : exs ex -> Keeps (holds I) (GetLastSeenBlockHash ex);
  keeps_SetLastSeenBlockHash ex h : exs ex -> Keeps (holds I) (SetLastSeenBlockHash ex h);
  keeps_StoreTransaction ex l : exs ex -> Keeps (holds I) (StoreTransaction ex l);
  keeps_GetTransactionByHash ex h : exs ex -> Keeps (holds I) (GetTransactionByHash ex h);
  keeps_GetTransactionByID ex id : exs ex -> Keeps (holds I) (GetTransactionByID ex id);
  keeps_GetBroadcasted ex c :
    exs ex -> Keeps (holds I) (GetBroadcastedTransactionsWithLessConfirmations ex c);
  keeps_GetPendingTransactions ex : exs ex -> Keeps (holds I) (GetPendingTransactions ex);
  keeps_updateReportedConfirmations ex l c :
    exs ex -> Keeps (holds I) (updateReportedConfirmations ex l c);
  keeps_GetTransactionsWithFilter ex d s :
    exs ex -> Keeps (holds I) (GetTransactionsWithFilter ex d s);
  keeps_GetAccountByAddress ex a : exs ex -> Keeps (holds I) (GetAccountByAddress ex a);
  keeps_StoreAccount ex a :
    exs ex -> is_go_map (acc_Metainfo a) -> Keeps (holds I) (StoreAccount ex a);
  keeps_GetHotWalletAddress ex : exs ex -> Keeps (holds I) (GetHotWalletAddress ex);
  keeps_setHotWalletAddress ex a : exs ex -> Keeps (holds I) (setHotWalletAddress ex a);
  keeps_GetMoneyRequired ex : exs ex -> Keeps (holds I) (GetMoneyRequiredFromColdStorage ex);
  keeps_SetMoneyRequired ex a :
    exs ex -> is_u64 a -> Keeps (holds I) (SetMoneyRequiredFromColdStorage ex a);
  keeps_LockWallet ex op : exs ex -> Keeps (holds I) (LockWallet ex op);
  keeps_ClearWallet ex : exs ex -> Keeps (holds I) (ClearWallet ex);
  keeps_CheckWalletLock ex : exs ex -> Keeps (holds I) (CheckWalletLock ex);
}.

#[export] Hint Resolve keeps_GetLastSeenBlockHash keeps_SetLastSeenBlockHash
  keeps_StoreTransaction keeps_GetTransactionByHash keeps_GetTransactionByID
  keeps_GetBroadcasted keeps_GetPendingTransactions keeps_updateReportedConfirmations
  keeps_GetTransactionsWithFilter keeps_GetAccountByAddress keeps_StoreAccount
  keeps_GetHotWalletAddress keeps_setHotWalletAddress keeps_GetMoneyRequired
  keeps_SetMoneyRequired keeps_LockWallet keeps_ClearWallet keeps_CheckWalletLock : keeps.
