(* ===== verification/PgWallet.v ===== *)
(** * wallet/postgresstorage.go: the PostgreSQL storage of the wallet

    Each SQL text of the file is a function on the tables of tools/init-db.sql;
    primary keys make an INSERT fail with [ErrUnique]. A SELECT allocates a new
    [types.Transaction] for every row. *)
From S2P Require Import Prelude.
From S2P Require Import Go.
From S2P Require Import Bitcoin.
From S2P Require Import TxTypes.
From S2P Require Import EventTypes.
From S2P Require Import World.
From S2P Require Import Effects.
From S2P Require Import Storage.
From S2P Require Import WalletStorage.
Local Open Scope Z_scope.

Module PostgresWalletStorage.

Section Impl.
Context {E : Env}.

(** ** Rows *)
Definition decode_row (row : TxRow) : outcome Transaction :=
  (* Scan: a negative BIGINT does not convert to uint64 *)
  if decide (r_amount row < 0 \/ r_fee row < 0) then Err (ErrMsg "sql: Scan error")
  else
    transactionDirection ← TransactionDirectionFromString (r_direction row);
    transactionStatus ← TransactionStatusFromString (r_status row);
    let transactionFeeType :=
      match FeeTypeFromString (r_fee_type row) with Ok ft => ft | _ => InvalidFee end in
    let metainfo := default JNull (r_metainfo row) in
    Ok {| tx_ID := r_id row; tx_Hash := r_hash row; tx_BlockHash := r_block_hash row;
          tx_Confirmations := r_confirmations row; tx_Address := r_address row;
          tx_Direction := transactionDirection; tx_Status := transactionStatus;
          tx_Amount := r_amount row; tx_Metainfo := metainfo; tx_Fee := r_fee row;
          tx_FeeType := transactionFeeType; tx_ColdStorage := r_cold_storage row;
          tx_Fresh := false;
          tx_ReportedConfirmations := r_reported_confirmations row |}.

Definition transactionFromDatabaseRow (row : TxRow) : M loc :=
  tx ← lift (decode_row row); alloc tx.

Definition row_of_transaction (tx : Transaction) : TxRow :=
  {| r_id := tx_ID tx; r_hash := tx_Hash tx; r_block_hash := tx_BlockHash tx;
     r_confirmations := tx_Confirmations tx; r_address := tx_Address tx;
     r_direction := Direction_String (tx_Direction tx);
     r_status := Status_String (tx_Status tx); r_amount := tx_Amount tx;
     r_metainfo := Some (tx_Metainfo tx); r_fee := tx_Fee tx;
     r_fee_type := FeeType_String (tx_FeeType tx); r_cold_storage := tx_ColdStorage tx;
     r_reported_confirmations := tx_ReportedConfirmations tx |}.

(** ** Statements *)
Definition select_transactions (p : TxRow -> bool) (d : DB) : list TxRow :=
  filter p (db_transactions d).

Definition with_transactions (rows : list TxRow) (d : DB) : DB :=
  mkDB rows (db_accounts d) (db_metadata d) (db_events d) (db_muted d).

(** UPDATE transactions SET hash, block_hash, confirmations, status WHERE id *)
Definition update_row (tx : Transaction) (row : TxRow) : TxRow :=
  {| r_id := r_id row; r_hash := tx_Hash tx; r_block_hash := tx_BlockHash tx;
     r_confirmations := tx_Confirmations tx; r_address := r_address row;
     r_direction := r_direction row; r_status := Status_String (tx_Status tx);
     r_amount := r_amount row; r_metainfo := r_metainfo row; r_fee := r_fee row;
     r_fee_type := r_fee_type row; r_cold_storage := r_cold_storage row;
     r_reported_confirmations := r_reported_confirmations row |}.

Definition map_id (id : UUID) (f : TxRow -> TxRow) (rows : list TxRow) : list TxRow :=
  (fun row => if decide (r_id row = id) then f row else row) <$> rows.

Definition update_transaction (id : UUID) (tx : Transaction) (d : DB) : outcome DB :=
  Ok (with_transactions (map_id id (update_row tx) (db_transactions d)) d).

(** INSERT INTO transactions; the driver refuses a uint64 with the high bit set. *)
Definition insert_transaction (tx : Transaction) (d : DB) : outcome DB :=
  if decide (2 ^ 63 <= tx_Amount tx \/ 2 ^ 63 <= tx_Fee tx) then Err ErrUint64HighBit
  else if decide (tx_ID tx ∈ r_id <$> db_transactions d) then Err ErrUnique
  else Ok (with_transactions (db_transactions d ++ [row_of_transaction tx]) d).

Definition set_reported (n : Z) (row : TxRow) : TxRow :=
  {| r_id := r_id row; r_hash := r_hash row; r_block_hash := r_block_hash row;
     r_confirmations := r_confirmations row; r_address := r_address row;
     r_direction := r_direction row; r_status := r_status row; r_amount := r_amount row;
     r_metainfo := r_metainfo row; r_fee := r_fee row; r_fee_type := r_fee_type row;
     r_cold_storage := r_cold_storage row; r_reported_confirmations := n |}.

Definition update_reported (id : UUID) (n : Z) (d : DB) : outcome DB :=
  Ok (with_transactions (map_id id (set_reported n) (db_transactions d)) d).

Definition select_account (address : string) (d : DB) : list json :=
  snd <$> filter (fun a => a.1 = address) (db_accounts d).

Definition insert_account (account : Account) (d : DB) : outcome DB :=
  if decide (acc_Address account ∈ (fst <$> db_accounts d)) then Err ErrUnique
  else Ok (mkDB (db_transactions d)
             (db_accounts d ++ [(acc_Address account, acc_Metainfo account)])
             (db_metadata d) (db_events d) (db_muted d)).

(** ** Metadata *)
Definition getMeta (ex : Exec) (name defaultVal : string) : M string :=
  GetMeta ex name defaultVal.
Definition setMeta (ex : Exec) (name value : string) : M unit := SetMeta ex name value.

Definition GetLastSeenBlockHash (ex : Exec) : M string := getMeta ex "last_seen_block_hash" "".
Definition SetLastSeenBlockHash (ex : Exec) (hash : string) : M unit :=
  setMeta ex "last_seen_block_hash" hash.

(** ** Transactions *)
Definition GetTransactionByHash (ex : Exec) (hash : string) : M loc :=
  row ← sql_query_row ex (select_transactions (fun r => bool_decide (r_hash r = hash)));
  transactionFromDatabaseRow row.

Definition GetTransactionByHashDirectionAndAddress (ex : Exec) (tx : Transaction) : M loc :=
  row ← sql_query_row ex (select_transactions (fun r =>
    bool_decide (r_hash r = tx_Hash tx) &&
    bool_decide (r_direction r = Direction_String (tx_Direction tx)) &&
    bool_decide (r_address r = tx_Address tx)));
  transactionFromDatabaseRow row.

Definition GetTransactionByID (ex : Exec) (id : UUID) : M loc :=
  row ← sql_query_row ex (select_transactions (fun r => bool_decide (r_id r = id)));
  transactionFromDatabaseRow row.

(** [case nil: found; case sql.ErrNoRows: not found; default: return err] *)
Definition found (m : M loc) : M (option loc) :=
  r ← try m;
  match r with
  | inl l => mret (Some l)
  | inr ErrNoRows => mret None
  | inr err => throw err
  end.

Definition wrap_err {A} (prefix : string) (m : M A) : M A :=
  r ← try m; match r with inl a => mret a | inr err => throw (ErrWrap prefix err) end.

Definition find_existing (ex : Exec) (transaction : Transaction) : M (option loc) :=
  by_id ← (if decide (tx_ID transaction = uuid_Nil) then mret None
           else found (GetTransactionByID ex (tx_ID transaction)));
  match by_id with
  | Some l => mret (Some l)
  | None =>
      if decide (tx_Hash transaction = "") then mret None
      else found (GetTransactionByHashDirectionAndAddress ex transaction)
  end.

Definition StoreTransaction (ex : Exec) (l : loc) : M loc :=
  transaction ← load l;
  existing ← find_existing ex transaction;
  match existing with
  | Some existingTransaction =>
      ext ← load existingTransaction;
      wrap_err "Update of tx data in DB failed"
        (sql_exec ex (update_transaction (tx_ID ext) transaction)) ;;
      ext' ← lift (Update ext transaction);
      store existingTransaction ext' ;;
      mret existingTransaction
  | None =>
      (if decide (tx_ID transaction = uuid_Nil) then
         id ← uuid_NewV4; store l (set_ID id transaction)
       else mret tt) ;;
      transaction ← load l;
      wrap_err "Failed to insert new tx into DB"
        (sql_exec ex (insert_transaction transaction)) ;;
      mret l
  end.

(** ** Accounts *)
Definition GetAccountByAddress (ex : Exec) (address : string) : M (option Account) :=
  r ← try (sql_query_row ex (select_account address));
  match r with
  | inl marshaledMetainfo =>
      metainfo ← lift (unmarshal_map marshaledMetainfo);
      mret (Some (mkAccount address metainfo))
  | inr ErrNoRows => mret None
  | inr err => throw err
  end.

Definition StoreAccount (ex : Exec) (account : Account) : M unit :=
  sql_exec ex (insert_account account).

(** ** Lists *)
Definition fetch_transactions (ex : Exec) (p : TxRow -> bool) : M (list loc) :=
  rows ← sql_query ex (select_transactions p);
  mapM_list transactionFromDatabaseRow rows.

Definition GetBroadcastedTransactionsWithLessConfirmations (ex : Exec) (confirmations : Z)
    : M (list loc) :=
  fetch_transactions ex (fun r =>
    bool_decide (r_confirmations r < confirmations) && bool_decide (r_hash r <> "")).

Definition updateReportedConfirmations (ex : Exec) (l : loc) (reportedConfirmations : Z)
    : M unit :=
  transaction ← load l;
  sql_exec ex (update_reported (tx_ID transaction) reportedConfirmations) ;;
  update_at l (set_ReportedConfirmations reportedConfirmations).

Definition GetHotWalletAddress (ex : Exec) : M string :=
  address ← getMeta ex "hot_wallet_address" "";
  if decide (address = "") then throw ErrHotWalletAddressNotGeneratedYet else mret address.

Definition setHotWalletAddress (ex : Exec) (address : string) : M unit :=
  setMeta ex "hot_wallet_address" address.

Definition GetPendingTransactions (ex : Exec) : M (list loc) :=
  fetch_transactions ex (fun r =>
    bool_decide (r_status r = Status_String PendingTransaction) ||
    bool_decide (r_status r = Status_String PendingColdStorageTransaction)).

Definition GetMoneyRequiredFromColdStorage (ex : Exec) : M Z :=
  s ← getMeta ex "money_required_from_cold_storage" "0";
  lift (of_option (ErrMsg "strconv.ParseUint: parsing failed") (parse_uint64 s)).

Definition SetMoneyRequiredFromColdStorage (ex : Exec) (amount : Z) : M unit :=
  setMeta ex "money_required_from_cold_storage" (itoa amount).

Definition GetTransactionsWithFilter (ex : Exec) (directionFilter statusFilter : string)
    : M (list loc) :=
  fetch_transactions ex (fun r =>
    (bool_decide (directionFilter = "") || bool_decide (r_direction r = directionFilter)) &&
    (bool_decide (statusFilter = "") || bool_decide (r_status r = statusFilter))).

(** ** The wallet lock *)
Definition LockWallet (ex : Exec) (operation : json) : M unit :=
  setMeta ex "wallet_operation" (json_text operation).

Definition ClearWallet (ex : Exec) : M unit := setMeta ex "wallet_operation" "".

Definition CheckWalletLock (ex : Exec) : M (bool * string) :=
  operation ← getMeta ex "wallet_operation" "";
  mret (bool_decide (operation = ""), operation).

End Impl.

End PostgresWalletStorage.

Definition PostgresStorage {E : Env} : Storage := {|
  WalletStorage.GetDB := true;
  WalletStorage.GetLastSeenBlockHash := PostgresWalletStorage.GetLastSeenBlockHash;
  WalletStorage.SetLastSeenBlockHash := PostgresWalletStorage.SetLastSeenBlockHash;
  WalletStorage.StoreTransaction := PostgresWalletStorage.StoreTransaction;
  WalletStorage.GetTransactionByHash := PostgresWalletStorage.GetTransactionByHash;
  WalletStorage.GetTransactionByID := PostgresWalletStorage.GetTransactionByID;
  WalletStorage.GetBroadcastedTransactionsWithLessConfirmations :=
    PostgresWalletStorage.GetBroadcastedTransactionsWithLessConfirmations;
  WalletStorage.GetPendingTransactions := PostgresWalletStorage.GetPendingTransactions;
  WalletStorage.updateReportedConfirmations := PostgresWalletStorage.updateReportedConfirmations;
  WalletStorage.GetTransactionsWithFilter := PostgresWalletStorage.GetTransactionsWithFilter;
  WalletStorage.GetAccountByAddress := PostgresWalletStorage.GetAccountByAddress;
  WalletStorage.StoreAccount := PostgresWalletStorage.StoreAccount;
  WalletStorage.GetHotWalletAddress := PostgresWalletStorage.GetHotWalletAddress;
  WalletStorage.setHotWalletAddress := PostgresWalletStorage.setHotWalletAddress;
  WalletStorage.GetMoneyRequiredFromColdStorage :=
    PostgresWalletStorage.GetMoneyRequiredFromColdStorage;
  WalletStorage.SetMoneyRequiredFromColdStorage :=
    PostgresWalletStorage.SetMoneyRequiredFromColdStorage;
  WalletStorage.LockWallet := PostgresWalletStorage.LockWallet;
  WalletStorage.ClearWallet := PostgresWalletStorage.ClearWallet;
  WalletStorage.CheckWalletLock := PostgresWalletStorage.CheckWalletLock;
|}.
