(* ===== verification/EventStorage.v ===== *)
(** * events: the event storage interface and its two implementations

    events/storage.go, events/postgresstorage.go, events/memorystorage.go. *)
From S2P Require Import Prelude.
From S2P Require Import Go.
From S2P Require Import Util.
From S2P Require Import Bitcoin.
From S2P Require Import TxTypes.
From S2P Require Import EventTypes.
From S2P Require Import World.
From S2P Require Import Effects.
From S2P Require Import Storage.
Local Open Scope Z_scope.

Class EventStorage := {
  ev_GetDB : bool;
  StoreEvent : Exec -> Notification -> M NotificationWithSeq;
  GetEventsFromSeq : Exec -> Z -> M (list NotificationWithSeq);
  GetNextEventFromSeq : Exec -> Z -> M NotificationWithSeq;
  GetLastHTTPSentSeq : Exec -> M Z;
  StoreLastHTTPSentSeq : Exec -> Z -> M unit;
  LockHTTPCallback : Exec -> Z -> M unit;
  ClearHTTPCallback : Exec -> M unit;
  CheckHTTPCallbackLock : Exec -> M (bool * string);
  MuteEventsWithTxID_storage : Exec -> UUID -> M unit;
}.

Definition NewEventStorage (postgres memory : EventStorage) (db : bool) : EventStorage :=
  if db then postgres else memory.

(** What an event storage promises for an invariant. *)
Class EventStorageKeeps (I : Inv) (exs : Exec -> Prop) (S : EventStorage) : Prop := {
  keeps_StoreEvent ex n :
    exs ex -> n_Type n <> InvalidEvent -> Keeps (holds I) (StoreEvent ex n);
  keeps_GetEventsFromSeq ex s : exs ex -> Keeps (holds I) (GetEventsFromSeq ex s);
  keeps_GetNextEventFromSeq ex s : exs ex -> Keeps (holds I) (GetNextEventFromSeq ex s);
  keeps_GetLastHTTPSentSeq ex : exs ex -> Keeps (holds I) (GetLastHTTPSentSeq ex);
  keeps_StoreLastHTTPSentSeq ex s :
    exs ex -> Keeps (holds I) (StoreLastHTTPSentSeq ex s);
  keeps_LockHTTPCallback ex s : exs ex -> Keeps (holds I) (LockHTTPCallback ex s);
  keeps_ClearHTTPCallback ex : exs ex -> Keeps (holds I) (ClearHTTPCallback ex);
  keeps_CheckHTTPCallbackLock ex : exs ex -> Keeps (holds I) (CheckHTTPCallbackLock ex);
  keeps_MuteEvents_storage ex id : exs ex -> Keeps (holds I) (MuteEventsWithTxID_storage ex id);
}.

#[export] Hint Resolve keeps_StoreEvent keeps_GetEventsFromSeq keeps_GetNextEventFromSeq
  keeps_GetLastHTTPSentSeq keeps_StoreLastHTTPSentSeq keeps_LockHTTPCallback
  keeps_ClearHTTPCallback keeps_CheckHTTPCallbackLock keeps_MuteEvents_storage : keeps.

(** ** events/postgresstorage.go *)
Module PostgresEventStorage.
Section Impl.
Context {E : Env}.

(** The SERIAL column draws from its sequence outside the transaction. *)
Definition next_event_seq : M Z := fun w =>
  (Ok (events_seq w), set_events_seq (events_seq w + 1) w).

Definition insert_event (row : EventRow) (d : DB) : outcome DB :=
  if decide (er_seq row ∈ er_seq <$> db_events d) then Err ErrUnique
  else Ok (mkDB (db_transactions d) (db_accounts d) (db_metadata d)
             (db_events d ++ [row]) (db_muted d)).

Definition StoreEvent (ex : Exec) (event : Notification) : M NotificationWithSeq :=
  let eventDataJSON := EventData_MarshalJSON (n_Data event) in
  seq ← next_event_seq;
  sql_exec ex (insert_event (mkEventRow seq (EventType_String (n_Type event)) eventDataJSON)) ;;
  mret (mkNotificationWithSeq event seq).

(** The join on [((data::jsonb)->>'id')::uuid = muted_events.tx_id]; the ids
    that the program writes are always UUID texts. *)
Definition event_tx_id (row : EventRow) : option UUID :=
  match json_field "id" (er_data row) with JStr s => uuid_UnmarshalText s | _ => None end.

Definition is_muted (d : DB) (row : EventRow) : bool :=
  match event_tx_id row with Some id => bool_decide (id ∈ db_muted d) | None => false end.

(** WHERE seq >= $1 AND muted_events.tx_id IS NULL ORDER BY seq *)
Definition select_events (seq : Z) (d : DB) : list EventRow :=
  order_by er_seq
    (filter (fun row => seq <= er_seq row /\ is_muted d row = false) (db_events d)).

Definition event_of_row (row : EventRow) : outcome NotificationWithSeq :=
  eventType ← EventTypeFromString (er_type row);
  Ok (mkNotificationWithSeq (mkNotification eventType (DataGeneric (er_data row))) (er_seq row)).

Definition GetEventsFromSeq (ex : Exec) (seq : Z) : M (list NotificationWithSeq) :=
  rows ← sql_query_ordered ex (select_events seq);
  mapM_list (fun row => lift (event_of_row row)) rows.

Definition GetLastHTTPSentSeq (ex : Exec) : M Z :=
  lastSeqStr ← GetMeta ex "last_http_sent_seq" "0";
  lift (of_option (ErrMsg "strconv.Atoi: parsing failed") (atoi lastSeqStr)).

Definition StoreLastHTTPSentSeq (ex : Exec) (seq : Z) : M unit :=
  SetMeta ex "last_http_sent_seq" (itoa seq).

Definition GetLastWSSentSeq (ex : Exec) : M Z :=
  lastSeqStr ← GetMeta ex "last_ws_sent_seq" "0";
  lift (of_option (ErrMsg "strconv.Atoi: parsing failed") (atoi lastSeqStr)).

Definition StoreLastWSSentSeq (ex : Exec) (seq : Z) : M unit :=
  SetMeta ex "last_ws_sent_seq" (itoa seq).

Definition LockHTTPCallback (ex : Exec) (operation : Z) : M unit :=
  SetMeta ex "http_callback_operation" (json_text (JNum (itoa operation))).

Definition ClearHTTPCallback (ex : Exec) : M unit :=
  SetMeta ex "http_callback_operation" "".

Definition CheckHTTPCallbackLock (ex : Exec) : M (bool * string) :=
  operation ← GetMeta ex "http_callback_operation" "";
  mret (bool_decide (operation = ""), operation).

(** ORDER BY seq LIMIT 1, then decoded with the registered unmarshaler *)
Definition GetNextEventFromSeq (ex : Exec) (seq : Z) : M NotificationWithSeq :=
  rows ← sql_query_ordered ex (select_events seq);
  match rows with
  | [] => throw ErrNoSuchEvent
  | row :: _ =>
      lift (NotificationWithSeq_UnmarshalJSON
              (JObj [ ("seq", JNum (itoa (er_seq row))); ("type", JStr (er_type row));
                      ("data", er_data row) ]))
  end.

Definition insert_muted (id : UUID) (d : DB) : outcome DB :=
  if decide (id ∈ db_muted d) then Err ErrUnique
  else Ok (mkDB (db_transactions d) (db_accounts d) (db_metadata d) (db_events d)
             (db_muted d ++ [id])).

Definition MuteEventsWithTxID (ex : Exec) (id : UUID) : M unit :=
  r ← try (sql_exec ex (insert_muted id));
  match r with
  | inl _ => mret tt
  | inr ErrUnique => throw ErrAlreadyMuted
  | inr err => throw err
  end.

End Impl.
End PostgresEventStorage.

Definition PostgresEvents {E : Env} : EventStorage := {|
  ev_GetDB := true;
  StoreEvent := PostgresEventStorage.StoreEvent;
  GetEventsFromSeq := PostgresEventStorage.GetEventsFromSeq;
  GetNextEventFromSeq := PostgresEventStorage.GetNextEventFromSeq;
  GetLastHTTPSentSeq := PostgresEventStorage.GetLastHTTPSentSeq;
  StoreLastHTTPSentSeq := PostgresEventStorage.StoreLastHTTPSentSeq;
  LockHTTPCallback := PostgresEventStorage.LockHTTPCallback;
  ClearHTTPCallback := PostgresEventStorage.ClearHTTPCallback;
  CheckHTTPCallbackLock := PostgresEventStorage.CheckHTTPCallbackLock;
  MuteEventsWithTxID_storage := PostgresEventStorage.MuteEventsWithTxID;
|}.

(** ** events/memorystorage.go: the index in the slice is the sequence number *)
Module InMemoryEvents.
Section Impl.

Definition upd (f : InMemoryEventStorage -> InMemoryEventStorage) : M unit :=
  modify (fun w => set_mem_events (f (mem_events w)) w).

Definition StoreEvent (_ : Exec) (event : Notification) : M NotificationWithSeq :=
  s ← gets mem_events;
  let eventWithSeq := mkNotificationWithSeq event (Z.of_nat (length (me_events s))) in
  upd (fun s => mkMemEvents (me_events s ++ [eventWithSeq]) (me_lastHTTPSentSeq s)
                  (me_httpCallbackOperation s)) ;;
  mret eventWithSeq.

(** [s.events[util.Min(seq, len(s.events)):]] *)
Definition GetEventsFromSeq (_ : Exec) (seq : Z) : M (list NotificationWithSeq) :=
  s ← gets mem_events;
  let from := Min seq (Z.of_nat (length (me_events s))) in
  if decide (from < 0) then panic "slice bounds out of range"
  else mret (drop (Z.to_nat from) (me_events s)).

Definition GetLastHTTPSentSeq (_ : Exec) : M Z := gets (me_lastHTTPSentSeq ∘ mem_events).

Definition StoreLastHTTPSentSeq (_ : Exec) (seq : Z) : M unit :=
  upd (fun s => mkMemEvents (me_events s) seq (me_httpCallbackOperation s)).

Definition LockHTTPCallback (_ : Exec) (operation : Z) : M unit :=
  upd (fun s => mkMemEvents (me_events s) (me_lastHTTPSentSeq s)
                  (json_text (JNum (itoa operation)))).

Definition ClearHTTPCallback (_ : Exec) : M unit :=
  upd (fun s => mkMemEvents (me_events s) (me_lastHTTPSentSeq s) "").

Definition CheckHTTPCallbackLock (_ : Exec) : M (bool * string) :=
  s ← gets mem_events;
  mret (bool_decide (me_httpCallbackOperation s = ""), me_httpCallbackOperation s).

Definition GetNextEventFromSeq (_ : Exec) (seq : Z) : M NotificationWithSeq :=
  s ← gets mem_events;
  if decide (Z.of_nat (length (me_events s)) <= seq) then throw ErrNoSuchEvent
  else if decide (seq < 0) then panic "index out of range"
  else match me_events s !! Z.to_nat seq with
       | Some e => mret e
       | None => panic "index out of range"
       end.

Definition MuteEventsWithTxID (_ : Exec) (_ : UUID) : M unit :=
  panic "In-memory storage does not support muting events for now".

End Impl.
End InMemoryEvents.

Definition MemoryEvents : EventStorage := {|
  ev_GetDB := false;
  StoreEvent := InMemoryEvents.StoreEvent;
  GetEventsFromSeq := InMemoryEvents.GetEventsFromSeq;
  GetNextEventFromSeq := InMemoryEvents.GetNextEventFromSeq;
  GetLastHTTPSentSeq := InMemoryEvents.GetLastHTTPSentSeq;
  StoreLastHTTPSentSeq := InMemoryEvents.StoreLastHTTPSentSeq;
  LockHTTPCallback := InMemoryEvents.LockHTTPCallback;
  ClearHTTPCallback := InMemoryEvents.ClearHTTPCallback;
  CheckHTTPCallbackLock := InMemoryEvents.CheckHTTPCallbackLock;
  MuteEventsWithTxID_storage := InMemoryEvents.MuteEventsWithTxID;
|}.
