(* ===== verification/PgInvariants.v ===== *)
(** * Invariants of the PostgreSQL storages

    What an invariant must say of the single SQL statements for the wallet's and
    the events' PostgreSQL storages to keep it ([PgStatements], [PgEventStatements]),
    and the proofs that they then do. *)
From S2P Require Import Prelude.
From S2P Require Import Go.
From S2P Require Import Bitcoin.
From S2P Require Import TxTypes.
From S2P Require Import EventTypes.
From S2P Require Import World.
From S2P Require Import Effects.
From S2P Require Import Storage.
From S2P Require Import WalletStorage.
From S2P Require Import PgWallet.
From S2P Require Import EventStorage.
Local Open Scope Z_scope.

Definition money_required_meta : string := "money_required_from_cold_storage".

(** A metadata row that the storage can read back. *)
Definition meta_readable (name value : string) : Prop :=
  name = money_required_meta -> is_Some (parse_uint64 value).

Class PgStatements {E : Env} (I : Inv) (exs : Exec -> Prop) : Prop := {
  pg_update_ok ex id tx : exs ex -> iv_ok I tx ->
    stmt_ok I ex (PostgresWalletStorage.update_transaction id tx);
  pg_insert_ok ex tx : exs ex -> iv_ok I tx ->
    stmt_ok I ex (PostgresWalletStorage.insert_transaction tx);
  pg_reported_ok ex id n : exs ex -> stmt_ok I ex (PostgresWalletStorage.update_reported id n);
  pg_account_ok ex a : exs ex -> is_go_map (acc_Metainfo a) ->
    stmt_ok I ex (PostgresWalletStorage.insert_account a);
  pg_meta_ok ex name value : exs ex -> meta_readable name value ->
    stmt_ok I ex (upsert_meta name value);
  pg_decode_ok ex s d row tx : exs ex -> iv_on I ex s d -> row ∈ db_transactions d ->
    PostgresWalletStorage.decode_row row = Ok tx -> iv_ok I tx;
  pg_set_ID_ok id tx : iv_ok I tx -> iv_ok I (set_ID id tx);
  pg_set_Reported_ok n tx : iv_ok I tx -> iv_ok I (set_ReportedConfirmations n tx);
  pg_Update_ok tx other tx' : iv_ok I tx -> iv_ok I other -> Update tx other = Ok tx' ->
    iv_ok I tx';
}.

Section WalletStorageKeeps.
Context {E : Env} {EL : EnvLaws E} (I : Inv) (exs : Exec -> Prop) {PS : PgStatements I exs}.
Import PostgresWalletStorage.

Lemma keeps_lift_bind {A B} (r : outcome A) (f : A -> M B) :
  (forall a, r = Ok a -> Keeps (holds I) (f a)) -> Keeps (holds I) (lift r ≫= f).
Proof.
  intros Hf w Hw. unfold mbind, M_bind, lift. destruct r as [a| |]; [|done..].
  by apply (Hf a eq_refl).
Qed.

Lemma keeps_decode ex s d row :
  exs ex -> iv_on I ex s d -> row ∈ db_transactions d ->
  Keeps (holds I) (transactionFromDatabaseRow row).
Proof.
  intros He Hd Hr. apply keeps_lift_bind. intros tx Htx. apply keeps_alloc.
  by eapply pg_decode_ok.
Qed.

Lemma select_elem p d row : row ∈ select_transactions p d -> row ∈ db_transactions d.
Proof. unfold select_transactions. rewrite list_elem_of_filter. tauto. Qed.

Lemma keeps_get_one ex p :
  exs ex ->
  Keeps (holds I)
    (sql_query_row ex (select_transactions p) ≫= transactionFromDatabaseRow).
Proof.
  intros He. apply keeps_sql_query_row_bind; [done|]. intros s d r Hd Hr%select_elem.
  by eapply keeps_decode.
Qed.

Lemma keeps_fetch ex p : exs ex -> Keeps (holds I) (fetch_transactions ex p).
Proof.
  intros He. apply keeps_sql_query_bind; [done|]. intros s d rows Hd Hrows.
  apply keeps_mapM_elem. intros row Hr%Hrows%select_elem. by eapply keeps_decode.
Qed.

Lemma keeps_by_id ex id : exs ex -> Keeps (holds I) (GetTransactionByID ex id).
Proof. apply keeps_get_one. Qed.
Lemma keeps_by_hash_direction ex tx :
  exs ex -> Keeps (holds I) (GetTransactionByHashDirectionAndAddress ex tx).
Proof. apply keeps_get_one. Qed.

Hint Resolve keeps_by_id keeps_by_hash_direction keeps_fetch : keeps.

Lemma keeps_pg_StoreTransaction ex l : exs ex -> Keeps (holds I) (StoreTransaction ex l).
Proof.
  intros He. apply keeps_load_bind. intros tx Htx. apply keeps_bind.
  - unfold find_existing, found. solve_keeps.
  - intros [existing|].
    + apply keeps_load_bind. intros ext Hext. apply keeps_bind.
      { unfold wrap_err. apply keeps_bind; [|solve_keeps].
        apply keeps_try, keeps_sql_exec. by apply (pg_update_ok (exs := exs)). }
      intros _. apply keeps_lift_bind. intros ext' Hu.
      apply keeps_bind; [|solve_keeps]. apply keeps_store.
      exact (pg_Update_ok (exs := exs) _ _ _ Hext Htx Hu).
    + apply keeps_bind.
      { case_decide; [|solve_keeps]. apply keeps_bind; [solve_keeps|]. intros id.
        apply keeps_store. by apply (pg_set_ID_ok (exs := exs)). }
      intros _. apply keeps_load_bind. intros tx' Htx'. apply keeps_bind; [|solve_keeps].
      unfold wrap_err. apply keeps_bind; [|solve_keeps].
      apply keeps_try, keeps_sql_exec. by apply (pg_insert_ok (exs := exs)).
Qed.

Lemma keeps_pg_setMeta ex name value :
  exs ex -> meta_readable name value -> Keeps (holds I) (setMeta ex name value).
Proof. intros. by apply keeps_SetMeta, (pg_meta_ok (exs := exs)). Qed.

#[export] Instance pg_storage_keeps : StorageKeeps I exs PostgresStorage.
Proof.
  assert (Hm : forall ex name value, exs ex -> name <> money_required_meta ->
                 Keeps (holds I) (setMeta ex name value)).
  { intros. apply keeps_pg_setMeta; [done|]. by intros ?. }
  split; simpl; intros; try (apply Hm; done); try (by apply keeps_fetch);
    try (by apply keeps_get_one); unfold getMeta.
  - unfold GetLastSeenBlockHash, getMeta. solve_keeps.
  - by apply keeps_pg_StoreTransaction.
  - apply keeps_load_bind. intros tx Htx. apply keeps_bind.
    + by apply keeps_sql_exec, (pg_reported_ok (exs := exs)).
    + intros _. apply keeps_update_at. intros. by apply (pg_set_Reported_ok (exs := exs)).
  - unfold GetAccountByAddress. solve_keeps.
  - by apply keeps_sql_exec, (pg_account_ok (exs := exs)).
  - unfold GetHotWalletAddress, getMeta. solve_keeps.
  - unfold GetMoneyRequiredFromColdStorage, getMeta. solve_keeps.
  - apply keeps_pg_setMeta; [done|]. intros _. rewrite parse_uint64_itoa by done. by eexists.
  - unfold CheckWalletLock, getMeta. solve_keeps.
Qed.

End WalletStorageKeeps.

(** ** The events *)
Class PgEventStatements {E : Env} (I : Inv) (exs : Exec -> Prop) : Prop := {
  pg_event_ok ex d row d' : exs ex -> iv_on I ex (er_seq row) d ->
    is_ok (EventTypeFromString (er_type row)) ->
    PostgresEventStorage.insert_event row d = Ok d' ->
    iv_on I ex (er_seq row + 1) d' /\ (ex = OnDB -> allows I ACommit d');
  pg_seq_ok ex s d : iv_on I ex s d -> iv_on I ex (s + 1) d;
  pg_muted_ok ex id : exs ex -> stmt_ok I ex (PostgresEventStorage.insert_muted id);
  pg_event_meta_ok ex name value : exs ex -> name <> money_required_meta ->
    stmt_ok I ex (upsert_meta name value);
}.

Section EventStorageKeeps.
Context {E : Env} (I : Inv) (exs : Exec -> Prop) {PS : PgEventStatements I exs}.
Import PostgresEventStorage.

Lemma holds_next_seq w : holds I w -> holds I (set_events_seq (events_seq w + 1) w).
Proof.
  intros (Hc & Hi & Ht & Hh). split_and!; simpl; try done.
  - by apply (pg_seq_ok OnDB).
  - intros d Hd. by apply (pg_seq_ok OnTx), Hi.
Qed.

Lemma keeps_pg_StoreEvent ex event :
  exs ex -> n_Type event <> InvalidEvent -> Keeps (holds I) (StoreEvent ex event).
Proof.
  intros He Hty. apply keeps_wp. intros w Hw.
  pose proof (holds_next_seq w Hw) as Hw'.
  apply wp_bind. unfold wp at 1, next_event_seq. simpl.
  apply wp_bind, wp_sql_exec; [by intros|]. intros d Hd. split; [done|].
  destruct (insert_event _ d) as [d'| |] eqn:Ei; [|done..].
  assert (Hd0 : iv_on I ex (events_seq w) d).
  { eapply holds_target; [done|]. by destruct ex. }
  apply (pg_event_ok ex) in Ei as [Hd' Ha]; [|done|done|].
  2: { simpl. by rewrite (proj2 (EventTypeFromString_String _) Hty). }
  split; [apply wp_ret|]; apply holds_put; done.
Qed.

#[export] Instance pg_event_storage_keeps : EventStorageKeeps I exs PostgresEvents.
Proof.
  assert (Hm : forall ex name value, exs ex -> name <> money_required_meta ->
                 Keeps (holds I) (SetMeta ex name value)).
  { intros. by apply keeps_SetMeta, (pg_event_meta_ok (exs := exs)). }
  split; simpl; intros; try (apply Hm; done).
  - by apply keeps_pg_StoreEvent.
  - unfold GetEventsFromSeq. solve_keeps.
  - unfold GetNextEventFromSeq. solve_keeps.
  - unfold GetLastHTTPSentSeq. solve_keeps.
  - unfold CheckHTTPCallbackLock. solve_keeps.
  - unfold MuteEventsWithTxID. apply keeps_bind; [|solve_keeps].
    by apply keeps_try, keeps_sql_exec, (pg_muted_ok (exs := exs)).
Qed.

End EventStorageKeeps.
