(* ===== verification/WellFormed.v ===== *)
(** * Well-formedness of the PostgreSQL tables

    What every table satisfies at every moment, also in the middle of a
    transaction and after any failure: unique keys, amounts that fit BIGINT,
    readable enumerations and numbers, and events in the order of their sequence
    numbers. [wf_inv] is kept by every statement of the program. *)
From S2P Require Import Prelude.
From S2P Require Import Go.
From S2P Require Import Bitcoin.
From S2P Require Import TxTypes.
From S2P Require Import EventTypes.
From S2P Require Import World.
From S2P Require Import Effects.
From S2P Require Import Storage.
From S2P Require Import WalletStorage.
From S2P Require Import PgWallet.
From S2P Require Import EventStorage.
From S2P Require Import PgInvariants.
Local Open Scope Z_scope.

Section WellFormed.
Context {E : Env}.
Import PostgresWalletStorage PostgresEventStorage.

Definition row_ok (r : TxRow) : Prop :=
  0 <= r_amount r < 2 ^ 63 /\ 0 <= r_fee r < 2 ^ 63 /\
  is_ok (TransactionDirectionFromString (r_direction r)) /\
  is_ok (TransactionStatusFromString (r_status r)).

(** The [types.Transaction] values of the program. *)
Definition tx_ok (tx : Transaction) : Prop :=
  is_u64 (tx_Amount tx) /\ is_u64 (tx_Fee tx) /\
  tx_Direction tx <> InvalidDirection /\ tx_Status tx <> InvalidTransaction.

Record wf_db (s : Z) (d : DB) : Prop := {
  wf_ids : NoDup (r_id <$> db_transactions d);
  wf_rows : Forall row_ok (db_transactions d);
  wf_addresses : NoDup (fst <$> db_accounts d);
  wf_accounts : Forall (fun a => is_go_map a.2) (db_accounts d);
  wf_money v : db_metadata d !! money_required_meta = Some v -> is_Some (parse_uint64 v);
  wf_seqs : StronglySorted Z.lt (er_seq <$> db_events d);
  wf_events : Forall (fun e => er_seq e < s /\ is_ok (EventTypeFromString (er_type e)))
                (db_events d);
  wf_muted : NoDup (db_muted d);
}.

Definition wf_inv : Inv := {|
  iv_committed := wf_db; iv_inflight := wf_db;
  iv_trace := Forall (fun p => exists s, wf_db s p.2); iv_ok := tx_ok |}.

(** ** Rows and transactions *)
Lemma is_ok_Ok {A} (r : outcome A) : is_ok r -> exists a, r = Ok a.
Proof. destruct r; [by eexists | done..]. Qed.

Lemma decode_row_total r :
  row_ok r -> exists tx, decode_row r = Ok tx /\ tx_ok tx.
Proof.
  intros (Ha & Hf & [dir Hdir]%is_ok_Ok & [st Hst]%is_ok_Ok). unfold decode_row.
  rewrite decide_False, Hdir, Hst by lia. eexists. split; [reflexivity|].
  split_and!; simpl.
  - unfold is_u64. lia.
  - unfold is_u64. lia.
  - intros ->. unfold TransactionDirectionFromString in Hdir.
    destruct (_ !! r_direction r) as [td|] eqn:El; [|done]. simplify_eq.
    apply enum_inverse_lookup in El; [by set_solver|].
    apply (bool_decide_unpack _); by vm_compute.
  - intros ->. unfold TransactionStatusFromString in Hst.
    destruct (_ !! r_status r) as [ts|] eqn:El; [|done]. simplify_eq.
    apply enum_inverse_lookup in El; [by set_solver|].
    apply (bool_decide_unpack _); by vm_compute.
Qed.

Lemma decode_row_ok r tx : row_ok r -> decode_row r = Ok tx -> tx_ok tx.
Proof. intros (tx' & -> & ?)%decode_row_total. by intros [= <-]. Qed.

Lemma status_readable ts : ts <> InvalidTransaction ->
  is_ok (TransactionStatusFromString (Status_String ts)).
Proof. intros H%StatusFromString_String. by rewrite H. Qed.

Lemma direction_readable td : td <> InvalidDirection ->
  is_ok (TransactionDirectionFromString (Direction_String td)).
Proof. intros H%DirectionFromString_String. by rewrite H. Qed.

Lemma row_of_transaction_ok tx :
  tx_ok tx -> tx_Amount tx < 2 ^ 63 -> tx_Fee tx < 2 ^ 63 -> row_ok (row_of_transaction tx).
Proof.
  unfold tx_ok, is_u64. intros (? & ? & ? & ?) ? ?. split_and!; simpl; try lia.
  - by apply direction_readable.
  - by apply status_readable.
Qed.

(** ** Statements *)
Lemma map_id_ids id f rows :
  (forall r, r_id (f r) = r_id r) -> r_id <$> map_id id f rows = r_id <$> rows.
Proof.
  intros Hf. unfold map_id. rewrite <- list_fmap_compose. apply list_fmap_ext.
  intros i r _. simpl. by case_decide.
Qed.

Lemma map_id_ok id f rows :
  (forall r, row_ok r -> row_ok (f r)) -> Forall row_ok rows ->
  Forall row_ok (map_id id f rows).
Proof.
  intros Hf Hr. unfold map_id. rewrite Forall_fmap. apply (Forall_impl _ _ _ Hr).
  intros r ?. simpl. case_decide; auto.
Qed.

(** A statement on the transactions table alone. *)
Lemma wf_with_transactions s d rows :
  wf_db s d -> NoDup (r_id <$> rows) -> Forall row_ok rows ->
  wf_db s (with_transactions rows d).
Proof. intros []. by constructor. Qed.

Lemma wf_map_id s d id f :
  (forall r, r_id (f r) = r_id r) -> (forall r, row_ok r -> row_ok (f r)) ->
  wf_db s d -> wf_db s (with_transactions (map_id id f (db_transactions d)) d).
Proof.
  intros Hi Hf Hd. apply wf_with_transactions; [done | |].
  - rewrite map_id_ids by done. apply Hd.
  - apply map_id_ok; [done | apply Hd].
Qed.

Lemma NoDup_snoc {A} (l : list A) x : NoDup l -> x ∉ l -> NoDup (l ++ [x]).
Proof.
  intros Hl Hx. apply NoDup_app. split_and!; [done | | apply NoDup_singleton].
  intros y Hy ->%list_elem_of_singleton. done.
Qed.

Lemma wf_meta s d name value :
  meta_readable name value -> wf_db s d ->
  wf_db s (mkDB (db_transactions d) (db_accounts d) (<[name := value]> (db_metadata d))
             (db_events d) (db_muted d)).
Proof.
  intros Hm []. constructor; try done. simpl. intros v.
  destruct (decide (name = money_required_meta)) as [->|Hne].
  - rewrite lookup_insert_eq. intros [= <-]. by apply Hm.
  - rewrite lookup_insert_ne by done. auto.
Qed.

Lemma StronglySorted_snoc (l : list Z) x :
  StronglySorted Z.lt l -> Forall (fun y => y < x) l -> StronglySorted Z.lt (l ++ [x]).
Proof.
  induction 1 as [|y l Hl IH Hy]; simpl; intros Hx; [repeat constructor|].
  inversion_clear Hx. constructor; [by apply IH|]. apply Forall_app_2; [done|].
  by apply Forall_singleton.
Qed.

Lemma wf_seq_mono s s' d : s <= s' -> wf_db s d -> wf_db s' d.
Proof.
  intros Hs []. constructor; try done. apply (Forall_impl _ _ _ wf_events0).
  simpl. intros e [? ?]. split; [lia | done].
Qed.

Lemma wf_event row d d' :
  wf_db (er_seq row) d -> is_ok (EventTypeFromString (er_type row)) ->
  insert_event row d = Ok d' -> wf_db (er_seq row + 1) d'.
Proof.
  intros Hd Hty. unfold insert_event. case_decide; [done|]. intros [= <-].
  apply (wf_seq_mono _ (er_seq row + 1)) in Hd as Hd1; [|lia].
  destruct Hd, Hd1. constructor; try done; simpl.
  - rewrite fmap_app. apply StronglySorted_snoc; [done|]. rewrite Forall_fmap.
    apply (Forall_impl _ _ _ wf_events0). by intros e [? _].
  - apply Forall_app_2; [done|]. apply Forall_singleton. split; [lia | done].
Qed.

(** Every statement is [stmt_ok] when it keeps [wf_db]. *)
Lemma wf_stmt ex stmt :
  (forall s d d', wf_db s d -> stmt d = Ok d' -> wf_db s d') -> stmt_ok wf_inv ex stmt.
Proof.
  intros Hs s d d' Hd Hstmt.
  assert (wf_db s d') by (eapply Hs; [|done]; by destruct ex).
  split; [by destruct ex|]. intros _ t Ht. constructor; [by exists s | done].
Qed.

#[export] Instance wf_coherent : Coherent wf_inv.
Proof. split; try done. intros s d Hd t Ht. constructor; [by exists s | done]. Qed.
#[export] Instance wf_allowed a : Allowed wf_inv a.
Proof. intros s d Hd t Ht. constructor; [by exists s | done]. Qed.

#[export] Instance wf_pg_statements : PgStatements wf_inv any_exec.
Proof.
  split; simpl.
  - intros ex id tx _ (_ & _ & _ & Hst). apply wf_stmt. intros s d d' Hd [= <-].
    apply wf_map_id; [done | | done]. intros r (? & ? & ? & ?).
    unfold row_ok; simpl. auto using status_readable.
  - intros ex tx _ Htx. apply wf_stmt. intros s d d' Hd. unfold insert_transaction.
    case_decide; [done|]. case_decide; [done|]. intros [= <-].
    apply wf_with_transactions; [done | |].
    + rewrite fmap_app. apply NoDup_snoc; [apply Hd | done].
    + apply Forall_app_2; [apply Hd|]. apply Forall_singleton, row_of_transaction_ok; auto; lia.
  - intros ex id n _. apply wf_stmt. intros s d d' Hd [= <-]. by apply wf_map_id.
  - intros ex a _ Ha. apply wf_stmt. intros s d d' Hd. unfold insert_account.
    case_decide; [done|]. intros [= <-]. destruct Hd. constructor; try done; simpl.
    + rewrite fmap_app. by apply NoDup_snoc.
    + apply Forall_app_2; [done|]. by apply Forall_singleton.
  - intros ex name value _ Hm. apply wf_stmt. intros s d d' Hd [= <-]. by apply wf_meta.
  - intros ex s d row tx _ Hd Hr. apply decode_row_ok.
    assert (Hrows : Forall row_ok (db_transactions d)) by (destruct ex; apply Hd).
    rewrite Forall_forall in Hrows. by apply Hrows.
  - done.
  - done.
  - intros tx other tx' (? & ? & ? & ?) (_ & _ & _ & ?) [-> _]%Update_Ok. by split_and!.
Qed.

#[export] Instance wf_pg_event_statements : PgEventStatements wf_inv any_exec.
Proof.
  split; simpl.
  - intros ex d row d' _ Hd Hty Hi.
    assert (wf_db (er_seq row + 1) d') by (eapply wf_event; [| done | done]; by destruct ex).
    split; [by destruct ex|]. intros _ t Ht. constructor; [by eexists | done].
  - intros ex s d Hd. assert (wf_db (s + 1) d); [|by destruct ex].
    apply (wf_seq_mono s); [lia | by destruct ex].
  - intros ex id _. apply wf_stmt. intros s d d' Hd. unfold insert_muted.
    case_decide; [done|]. intros [= <-]. destruct Hd. constructor; try done; simpl.
    by apply NoDup_snoc.
  - intros ex name value _ Hne. apply wf_stmt. intros s d d' Hd [= <-].
    by apply wf_meta; [intros ?|].
Qed.

End WellFormed.
