(* ===== verification/PgSpec.v ===== *)
(** * What the PostgreSQL storage of the wallet does

    Rules that give the effect of its operations under any faults: what a lookup
    returns, and which row [StoreTransaction] updates or inserts. *)
From S2P Require Import Prelude.
From S2P Require Import Go.
From S2P Require Import Bitcoin.
From S2P Require Import TxTypes.
From S2P Require Import EventTypes.
From S2P Require Import World.
From S2P Require Import Effects.
From S2P Require Import Storage.
From S2P Require Import WalletStorage.
From S2P Require Import PgWallet.
Local Open Scope Z_scope.

(** [w'] is [w] after reads: only new objects on the heap, UUIDs drawn and
    statements counted. *)
Record reads (w w' : World) : Prop := {
  reads_committed : committed w' = committed w;
  reads_inflight : inflight w' = inflight w;
  reads_events_seq : events_seq w' = events_seq w;
  reads_trace : trace w' = trace w;
  reads_heap : exists new, heap w' = heap w ++ new;
  reads_wallet : wallet_proc w' = wallet_proc w;
  reads_broker : broker_proc w' = broker_proc w;
}.

#[export] Instance reads_preorder : PreOrder reads.
Proof.
  split.
  - intros w. split; try done. exists []. by rewrite app_nil_r.
  - intros w1 w2 w3 [? ? ? ? [n1 H1] ? ?] [? ? ? ? [n2 H2] ? ?]. split; try congruence.
    exists (n1 ++ n2). by rewrite H2, H1, app_assoc.
Qed.

Lemma reads_lookup w w' l tx : reads w w' -> heap w !! l = Some tx -> heap w' !! l = Some tx.
Proof. intros [_ _ _ _ [new ->] _ _] H. by apply lookup_app_l_Some. Qed.

Lemma reads_target w w' ex : reads w w' -> target ex w' = target ex w.
Proof. intros []. destruct ex; simpl; congruence. Qed.

Lemma reads_bump w : reads w (bump_sql w).
Proof. split; try done. exists []. simpl. by rewrite app_nil_r. Qed.

#[export] Hint Resolve reads_bump : s2p.

(** The assignments that storing and notifying make to the objects of [w]: an id,
    and the reported confirmations. *)
Definition reidentified (tx tx' : Transaction) : Prop :=
  exists id n, tx' = set_ReportedConfirmations n (set_ID id tx).

Definition evolves (w w' : World) : Prop :=
  forall l tx, heap w !! l = Some tx -> exists tx', heap w' !! l = Some tx' /\ reidentified tx tx'.

Lemma reidentified_refl tx : reidentified tx tx.
Proof. exists (tx_ID tx), (tx_ReportedConfirmations tx). by destruct tx. Qed.

#[export] Instance evolves_preorder : PreOrder evolves.
Proof.
  split.
  - intros w l tx Hl. exists tx. split; [done | apply reidentified_refl].
  - intros w1 w2 w3 H12 H23 l tx Hl.
    apply H12 in Hl as (tx2 & Hl2 & id & n & ->). apply H23 in Hl2 as (tx3 & Hl3 & id' & n' & ->).
    eexists. split; [done|]. by exists id', n'.
Qed.

Lemma evolves_heap w w' : heap w' = heap w -> evolves w w'.
Proof. intros H l tx Hl. exists tx. rewrite H. split; [done | apply reidentified_refl]. Qed.

Lemma reads_evolves w w' : reads w w' -> evolves w w'.
Proof. intros Hr l tx Hl. exists tx. split; [by eapply reads_lookup | apply reidentified_refl]. Qed.

Lemma reads_length w w' : reads w w' -> (length (heap w) <= length (heap w'))%nat.
Proof. intros [_ _ _ _ [new ->] _ _]. rewrite length_app. lia. Qed.

(** Writing to an object that [w] did not have. *)
Lemma evolves_store_new w0 w l tx :
  evolves w0 w -> (length (heap w0) <= l)%nat ->
  evolves w0 (set_heap (<[l := tx]> (heap w)) w).
Proof.
  intros H0 Hlen i x Hi. pose proof (lookup_lt_Some _ _ _ Hi) as Hlt.
  apply H0 in Hi as (x' & Hx' & Hr). exists x'. split; [|done]. simpl.
  rewrite list_lookup_insert_ne by lia. done.
Qed.

Lemma evolves_store w l tx tx' :
  heap w !! l = Some tx -> reidentified tx tx' ->
  evolves w (set_heap (<[l := tx']> (heap w)) w).
Proof.
  intros Hl Hr i x Hi. simpl. destruct (decide (i = l)) as [->|Hne].
  - simplify_eq. exists tx'. split; [|done]. apply list_lookup_insert_eq.
    by eapply lookup_lt_Some.
  - exists x. rewrite list_lookup_insert_ne by done. split; [done | apply reidentified_refl].
Qed.

Section PgSpec.
Context {E : Env} {EL : EnvLaws E}.
Import PostgresWalletStorage.

(** [row] is one of the table [d]'s rows that satisfy [p], and [l] points to it decoded. *)
Definition fetched (p : TxRow -> bool) (d : DB) (w : World) (l : loc) : Prop :=
  exists row tx, row ∈ db_transactions d /\ p row = true /\
    decode_row row = Ok tx /\ heap w !! l = Some tx.

Lemma wp_get_one ex p (Q : outcome loc -> World -> Prop) w :
  (forall e w', reads w w' ->
     (e = ErrNoRows -> forall d, target ex w = Some d ->
        forall row, row ∈ db_transactions d -> p row = false) -> Q (Err e) w') ->
  (forall d l w', target ex w = Some d -> reads w w' -> fetched p d w' l ->
     (length (heap w) <= l)%nat -> Q (Ok l) w') ->
  wp (sql_query_row ex (select_transactions p) ≫= transactionFromDatabaseRow) Q w.
Proof.
  intros He Hok. apply wp_bind, wp_sql_query_row.
  - intros e Hne. apply He; [apply reads_bump | by intros ->].
  - intros d Hd. split.
    + intros Hnil. apply He; [apply reads_bump|]. intros _ d' Hd' row Hrow.
      assert (d' = d) as -> by congruence.
      destruct (p row) eqn:Ep; [|done]. exfalso.
      assert (Hin : row ∈ select_transactions p d).
      { unfold select_transactions. apply list_elem_of_filter. by rewrite Ep. }
      rewrite Hnil in Hin. by apply elem_of_nil in Hin.
    + intros row [Hp Hrow]%list_elem_of_filter. unfold transactionFromDatabaseRow.
      apply wp_bind. unfold wp at 1, lift. simpl.
      destruct (decode_row row) as [tx|e|pm] eqn:Ed.
      * eapply (Hok d); [done | | | simpl; lia].
        -- simpl. split; try done. by eexists.
        -- exists row, tx. split_and!; [done | by apply Is_true_true | done |]. simpl.
           by rewrite lookup_app_r, Nat.sub_diag by lia.
      * apply He; [apply reads_bump|]. intros ->.
        exfalso. revert Ed. unfold decode_row. case_decide; [done|].
        unfold TransactionDirectionFromString, TransactionStatusFromString.
        by repeat case_match.
      * exfalso. revert Ed. unfold decode_row. case_decide; [done|].
        unfold TransactionDirectionFromString, TransactionStatusFromString.
        by repeat case_match.
Qed.

(** *** Which row a transaction is stored in *)
Definition by_hash (tx : Transaction) (row : TxRow) : bool :=
  bool_decide (r_hash row = tx_Hash tx) &&
  bool_decide (r_direction row = Direction_String (tx_Direction tx)) &&
  bool_decide (r_address row = tx_Address tx).

Definition id_unknown (d : DB) (tx : Transaction) : Prop :=
  tx_ID tx = uuid_Nil \/ forall row, row ∈ db_transactions d -> r_id row <> tx_ID tx.

(** The row with the transaction's id if it has one; else the row with its
    hash, direction and address, if it has a hash. *)
Definition matches (d : DB) (tx : Transaction) (row : TxRow) : Prop :=
  row ∈ db_transactions d /\
  ((tx_ID tx <> uuid_Nil /\ r_id row = tx_ID tx) \/
   (id_unknown d tx /\ tx_Hash tx <> "" /\ by_hash tx row = true)).

Definition unknown (d : DB) (tx : Transaction) : Prop :=
  id_unknown d tx /\
  (tx_Hash tx = "" \/ forall row, row ∈ db_transactions d -> by_hash tx row = false).

Lemma decode_row_ID row tx : decode_row row = Ok tx -> tx_ID tx = r_id row.
Proof.
  unfold decode_row. case_decide as Hneg; [done|]. intros H.
  apply outcome_bind_Ok in H as (? & _ & H). apply outcome_bind_Ok in H as (? & _ & H).
  by simplify_eq.
Qed.

Lemma wp_found m (Q : outcome (option loc) -> World -> Prop) w :
  wp m (fun r w' => match r with
                    | Ok l => Q (Ok (Some l)) w'
                    | Err ErrNoRows => Q (Ok None) w'
                    | Err e => Q (Err e) w'
                    | Panic p => Q (Panic p) w' end) w ->
  wp (found m) Q w.
Proof.
  intros H. apply wp_bind, wp_try. eapply wp_mono; [exact H|].
  intros [l|e|pm] w'; simpl; [done | by destruct e | done].
Qed.

Lemma wp_found_one ex p d (Q : outcome (option loc) -> World -> Prop) w :
  target ex w = Some d ->
  (forall e w', reads w w' -> Q (Err e) w') ->
  (forall w', reads w w' -> (forall row, row ∈ db_transactions d -> p row = false) ->
     Q (Ok None) w') ->
  (forall l w', reads w w' -> fetched p d w' l -> (length (heap w) <= l)%nat ->
     Q (Ok (Some l)) w') ->
  wp (found (sql_query_row ex (select_transactions p) ≫= transactionFromDatabaseRow)) Q w.
Proof.
  intros Hd He Hno Hyes. apply wp_found, wp_get_one.
  - intros e w' Hr Hn. destruct e; try by apply He. apply Hno; [done|]. by apply (Hn eq_refl).
  - intros d' l w' Hd' Hr Hf Hlen. assert (d' = d) as -> by congruence. by apply Hyes.
Qed.

Lemma wp_find_existing ex tx d (Q : outcome (option loc) -> World -> Prop) w :
  target ex w = Some d ->
  (forall e w', reads w w' -> Q (Err e) w') ->
  (forall w', reads w w' -> unknown d tx -> Q (Ok None) w') ->
  (forall l row ext w', reads w w' -> matches d tx row -> decode_row row = Ok ext ->
     heap w' !! l = Some ext -> (length (heap w) <= l)%nat -> Q (Ok (Some l)) w') ->
  wp (find_existing ex tx) Q w.
Proof.
  intros Hd He Hno Hyes.
  assert (Hhash : forall w', reads w w' -> id_unknown d tx ->
    wp (if decide (tx_Hash tx = "") then mret None
        else found (GetTransactionByHashDirectionAndAddress ex tx)) Q w').
  { intros w1 H1 Hid. case_decide as Hh.
    - apply wp_ret, Hno; [done|]. split; [done | by left].
    - apply (wp_found_one _ _ d); [by rewrite (reads_target _ _ _ H1) | | |].
      + intros e w2 H2. apply He. by trans w1.
      + intros w2 H2 Hall. apply Hno; [by trans w1|]. split; [done | by right].
      + intros l w2 H2 (row & ext & Hrow & Hp & Hdec & Hl) Hlen.
        eapply Hyes; [by trans w1 | | done | done |]; [split; [done | by right]|].
        pose proof (reads_length _ _ H1). lia. }
  unfold find_existing. apply wp_bind. destruct (decide (tx_ID tx = uuid_Nil)) as [Hid|Hid].
  - apply wp_ret, Hhash; [reflexivity | by left].
  - apply (wp_found_one _ _ d); [done | done | |].
    + intros w1 H1 Hall. apply Hhash; [done|]. right. intros row Hrow.
      specialize (Hall row Hrow). by apply bool_decide_eq_false in Hall.
    + intros l w1 H1 (row & ext & Hrow & Hp%bool_decide_eq_true & Hdec & Hl) Hlen.
      apply wp_ret. eapply Hyes; [done | | done..]. split; [done|]. by left.
Qed.

(** *** [StoreTransaction]: [d] becomes [d'], and the caller gets [tx'] *)
Definition stored (d : DB) (tx : Transaction) (d' : DB) (tx' : Transaction) : Prop :=
  (exists row ext, matches d tx row /\ decode_row row = Ok ext /\
     update_transaction (r_id row) tx d = Ok d' /\ Update ext tx = Ok tx') \/
  (unknown d tx /\
   (tx' = tx /\ tx_ID tx <> uuid_Nil \/
    exists id, tx' = set_ID id tx /\ id <> uuid_Nil /\ tx_ID tx = uuid_Nil) /\
   insert_transaction tx' d = Ok d').

(** The tables of the other executor are not touched, and an object other than
    those the storage made is written only when it gets its id. *)
Definition same_other (ex : Exec) (w w' : World) : Prop :=
  (ex = OnTx -> committed w' = committed w) /\ (ex = OnDB -> inflight w' = inflight w).

#[export] Instance same_other_preorder ex : PreOrder (same_other ex).
Proof.
  split; [done|]. intros w1 w2 w3 [H1 H2] [H3 H4].
  split; intros He; [by rewrite H3, H1 | by rewrite H4, H2].
Qed.

Lemma reads_same_other ex w w' : reads w w' -> same_other ex w w'.
Proof. intros []. split; intros _; done. Qed.

Lemma target_put ex d w : target ex (put_db ex d w) = Some d.
Proof. by destruct ex. Qed.

Lemma wp_wrap_exec ex prefix stmt d (Q : outcome unit -> World -> Prop) w :
  target ex w = Some d ->
  (forall e, Q (Err e) (bump_sql w)) ->
  (forall d', stmt d = Ok d' ->
     Q (Ok tt) (put_db ex d' (bump_sql w)) /\
     forall e, Q (Err e) (put_db ex d' (bump_sql w))) ->
  (forall p, stmt d <> Panic p) ->
  wp (wrap_err prefix (sql_exec ex stmt)) Q w.
Proof.
  intros Hd He Hok Hp. apply wp_bind, wp_try, wp_sql_exec.
  - intros. apply He.
  - intros d0 Hd0. assert (d0 = d) as -> by congruence. split; [apply He|].
    destruct (stmt d) as [d'|e|pm] eqn:Es; [|apply He | by destruct (Hp pm)].
    destruct (Hok d' eq_refl) as [H1 H2]. split; [exact H1 | apply H2].
Qed.

Lemma wp_StoreTransaction ex l tx d (Q : outcome loc -> World -> Prop) w :
  heap w !! l = Some tx -> target ex w = Some d ->
  (forall r w', same_other ex w w' -> evolves w w' -> ~ is_ok r -> Q r w') ->
  (forall l' w' d' tx', same_other ex w w' -> evolves w w' -> stored d tx d' tx' ->
     target ex w' = Some d' -> heap w' !! l' = Some tx' ->
     events_seq w' = events_seq w -> Q (Ok l') w') ->
  wp (StoreTransaction ex l) Q w.
Proof.
  intros Hl Hd Hno Hok. apply wp_bind, wp_load. rewrite Hl.
  apply wp_bind, (wp_find_existing _ _ d); [done | | |].
  - intros e w1 H1.
    apply Hno; [by apply reads_same_other | by apply reads_evolves | by intros []].
  - intros w1 H1 Hunk.
    assert (Hl1 : heap w1 !! l = Some tx) by by eapply reads_lookup.
    apply reads_evolves in H1 as He1.
    assert (Hins : forall tx' w2, heap w2 !! l = Some tx' -> evolves w w2 ->
      committed w2 = committed w -> inflight w2 = inflight w ->
      events_seq w2 = events_seq w ->
      (tx' = tx /\ tx_ID tx <> uuid_Nil \/
       exists id, tx' = set_ID id tx /\ id <> uuid_Nil /\ tx_ID tx = uuid_Nil) ->
      wp (transaction ← load l;
          wrap_err "Failed to insert new tx into DB"
            (sql_exec ex (insert_transaction transaction)) ;; mret l) Q w2).
    { intros tx' w2 Hl2 He2 Hc Hi Hq Hid. apply wp_bind, wp_load. rewrite Hl2.
      assert (Hd2 : target ex w2 = Some d) by (destruct ex; simpl in *; congruence).
      apply wp_bind, (wp_wrap_exec _ _ _ d); [done | | |].
      - intros e. apply Hno; [by split; intros _ | done | by intros []].
      - intros d' Hd'.
        assert (Hs : same_other ex w (put_db ex d' (bump_sql w2))) by by split; intros ->.
        assert (He : evolves w (put_db ex d' (bump_sql w2))).
        { trans w2; [done|]. apply evolves_heap. by destruct ex. }
        split; [|intros e; apply Hno; [done | done | by intros []]].
        apply wp_ret. eapply (Hok l _ d' tx'); [done | done | by right | apply target_put | |];
          by destruct ex.
      - intros pm. unfold insert_transaction. by repeat case_decide. }
    apply wp_bind. case_decide as Hid.
    + apply wp_bind. unfold wp at 1, uuid_NewV4. simpl.
      eapply (Hins (set_ID (env_uuid (uuid_count w1)) tx)).
      * simpl. apply list_lookup_insert_eq. by eapply lookup_lt_Some.
      * trans w1; [done|].
        apply (evolves_store (set_uuid_count (S (uuid_count w1)) w1) l tx); [done|].
        exists (env_uuid (uuid_count w1)), (tx_ReportedConfirmations tx). by destruct tx.
      * apply (reads_committed _ _ H1).
      * apply (reads_inflight _ _ H1).
      * apply (reads_events_seq _ _ H1).
      * right. eexists. split_and!; [done | apply env_uuid_nonnil | done].
    + apply wp_ret, (Hins tx); [done | done | by destruct H1 .. | by left].
  - intros l' row ext w1 H1 Hm Hdec Hl' Hlen. apply wp_bind, wp_load. rewrite Hl'.
    assert (Hd1 : target ex w1 = Some d) by by rewrite (reads_target _ _ _ H1).
    apply reads_evolves in H1 as He1.
    apply wp_bind, (wp_wrap_exec _ _ _ d); [done | | |].
    + intros e. assert (H2 : reads w (bump_sql w1)) by by trans w1; [|apply reads_bump].
      apply Hno; [by apply reads_same_other | by apply reads_evolves | by intros []].
    + intros d' Hd'. set (w2 := put_db ex d' (bump_sql w1)).
      assert (Hs : same_other ex w w2) by (destruct H1; split; intros ->; done).
      assert (Hh : heap w2 = heap w1) by by destruct ex.
      assert (He : evolves w w2) by by trans w1; [|apply evolves_heap].
      split; [|intros e; apply Hno; [done | done | by intros []]].
      apply wp_bind, wp_lift.
      destruct (Update ext tx) as [ext'|e|pm] eqn:Eu;
        [|apply Hno; [done | done | by intros []] ..].
      apply wp_bind. unfold wp at 1, store, modify. cbv beta iota. simpl fst. simpl snd.
      cbv iota. apply wp_ret. eapply (Hok l' _ d' ext').
      * by destruct ex.
      * by apply evolves_store_new.
      * left. exists row, ext. split_and!; [done..| |done].
        by rewrite <- (decode_row_ID _ _ Hdec).
      * subst w2. by destruct ex.
      * simpl. rewrite Hh. apply list_lookup_insert_eq. by eapply lookup_lt_Some.
      * simpl. rewrite <- (reads_events_seq _ _ H1). by destruct ex.
    + intros pm. done.
Qed.

End PgSpec.
