(* ===== verification/MemWallet.v ===== *)
(** * wallet/memorystorage.go: the in-memory storage of the wallet

    Its slice holds pointers: what it returns is the stored object itself, so a
    caller's assignments change the storage. *)
From S2P Require Import Prelude.
From S2P Require Import Go.
From S2P Require Import Bitcoin.
From S2P Require Import TxTypes.
From S2P Require Import EventTypes.
From S2P Require Import World.
From S2P Require Import Effects.
From S2P Require Import Storage.
From S2P Require Import WalletStorage.
Local Open Scope Z_scope.

Module InMemoryWallet.

Section Impl.
Context {E : Env}.

Definition upd (f : InMemoryWalletStorage -> InMemoryWalletStorage) : M unit :=
  modify (fun w => set_mem_wallet (f (mem_wallet w)) w).

Definition GetLastSeenBlockHash (_ : Exec) : M string :=
  gets (mw_lastSeenBlockHash ∘ mem_wallet).

Definition SetLastSeenBlockHash (_ : Exec) (hash : string) : M unit :=
  upd (fun s => mkMemWallet hash (mw_accounts s) (mw_transactions s) (mw_hotWalletAddress s)
    (mw_moneyRequiredFromColdStorage s) (mw_walletOperationLock s)
    (mw_hotWalletAddressWasSet s)).

Definition GetMoneyRequiredFromColdStorage (_ : Exec) : M Z :=
  gets (mw_moneyRequiredFromColdStorage ∘ mem_wallet).

Definition SetMoneyRequiredFromColdStorage (_ : Exec) (amount : Z) : M unit :=
  upd (fun s => mkMemWallet (mw_lastSeenBlockHash s) (mw_accounts s) (mw_transactions s)
    (mw_hotWalletAddress s) amount (mw_walletOperationLock s)
    (mw_hotWalletAddressWasSet s)).

(** [for _, transaction := range s.transactions { if p { return transaction } }] *)
Fixpoint first_matching (p : Transaction -> bool) (locs : list loc) : M (option loc) :=
  match locs with
  | [] => mret None
  | l :: locs' =>
      transaction ← load l;
      if p transaction then mret (Some l) else first_matching p locs'
  end.

(** the same loop with [continue] or [append(result, transaction)] *)
Fixpoint all_matching (p : Transaction -> bool) (locs : list loc) : M (list loc) :=
  match locs with
  | [] => mret []
  | l :: locs' =>
      transaction ← load l;
      rest ← all_matching p locs';
      mret (if p transaction then l :: rest else rest)
  end.

Definition stored : M (list loc) := gets (mw_transactions ∘ mem_wallet).

Definition find_or (err : error) (p : Transaction -> bool) : M loc :=
  locs ← stored;
  r ← first_matching p locs;
  match r with Some l => mret l | None => throw err end.

Definition GetTransactionByHash (_ : Exec) (hash : string) : M loc :=
  find_or (ErrMsg ("Transaction with hash " +:+ hash +:+ " not found"))
    (fun t => bool_decide (tx_Hash t = hash)).

Definition GetTransactionByID (_ : Exec) (id : UUID) : M loc :=
  find_or (ErrNoTxWithSuchID id) (fun t => bool_decide (tx_ID t = id)).

Definition GetTransactionByHashDirectionAndAddress (_ : Exec) (tx : Transaction) : M loc :=
  find_or ErrNoTxWithSuchTxHashAndDirection (fun t =>
    bool_decide (tx_Hash t = tx_Hash tx) && bool_decide (tx_Direction t = tx_Direction tx) &&
    bool_decide (tx_Address t = tx_Address tx)).

Definition find_existing (ex : Exec) (transaction : Transaction) : M (option loc) :=
  by_id ← (if decide (tx_ID transaction = uuid_Nil) then mret None
           else r ← try (GetTransactionByID ex (tx_ID transaction));
                match r with
                | inl l => mret (Some l)
                | inr (ErrNoTxWithSuchID _) => mret None
                | inr err => throw err
                end);
  match by_id with
  | Some l => mret (Some l)
  | None =>
      if decide (tx_Hash transaction = "") then mret None
      else r ← try (GetTransactionByHashDirectionAndAddress ex transaction);
           match r with
           | inl l => mret (Some l)
           | inr ErrNoTxWithSuchTxHashAndDirection => mret None
           | inr err => throw err
           end
  end.

Definition StoreTransaction (ex : Exec) (l : loc) : M loc :=
  transaction ← load l;
  existing ← find_existing ex transaction;
  match existing with
  | Some existingTransaction =>
      ext ← load existingTransaction;
      ext' ← lift (Update ext transaction);
      store existingTransaction ext' ;;
      mret existingTransaction
  | None =>
      (if decide (tx_ID transaction = uuid_Nil) then
         id ← uuid_NewV4; store l (set_ID id transaction)
       else mret tt) ;;
      upd (fun s => mkMemWallet (mw_lastSeenBlockHash s) (mw_accounts s)
        (mw_transactions s ++ [l]) (mw_hotWalletAddress s)
        (mw_moneyRequiredFromColdStorage s) (mw_walletOperationLock s)
        (mw_hotWalletAddressWasSet s)) ;;
      mret l
  end.

Definition GetAccountByAddress (_ : Exec) (address : string) : M (option Account) :=
  s ← gets mem_wallet;
  mret (find_first (fun a => bool_decide (acc_Address a = address)) (mw_accounts s)).

Definition StoreAccount (_ : Exec) (account : Account) : M unit :=
  upd (fun s => mkMemWallet (mw_lastSeenBlockHash s) (mw_accounts s ++ [account])
    (mw_transactions s) (mw_hotWalletAddress s) (mw_moneyRequiredFromColdStorage s)
    (mw_walletOperationLock s) (mw_hotWalletAddressWasSet s)).

Definition GetBroadcastedTransactionsWithLessConfirmations (_ : Exec) (confirmations : Z)
    : M (list loc) :=
  locs ← stored;
  all_matching (fun t => bool_decide (tx_Hash t <> "") &&
                         bool_decide (tx_ReportedConfirmations t < confirmations)) locs.

Definition updateReportedConfirmations (ex : Exec) (l : loc) (reportedConfirmations : Z)
    : M unit :=
  transaction ← load l;
  storedTransaction ← GetTransactionByID ex (tx_ID transaction);
  update_at storedTransaction (set_ReportedConfirmations reportedConfirmations).

Definition GetHotWalletAddress (_ : Exec) : M string :=
  s ← gets mem_wallet;
  if decide (mw_hotWalletAddress s = "" /\ mw_hotWalletAddressWasSet s = false)
  then throw ErrHotWalletAddressNotGeneratedYet
  else mret (mw_hotWalletAddress s).

Definition setHotWalletAddress (_ : Exec) (address : string) : M unit :=
  upd (fun s => mkMemWallet (mw_lastSeenBlockHash s) (mw_accounts s) (mw_transactions s)
    address (mw_moneyRequiredFromColdStorage s) (mw_walletOperationLock s) true).

Definition GetPendingTransactions (_ : Exec) : M (list loc) :=
  locs ← stored;
  all_matching (fun t => bool_decide (tx_Status t = PendingTransaction) ||
                         bool_decide (tx_Status t = PendingColdStorageTransaction)) locs.

Definition GetTransactionsWithFilter (_ : Exec) (directionFilter statusFilter : string)
    : M (list loc) :=
  locs ← stored;
  all_matching (fun t =>
    (bool_decide (directionFilter = "") ||
     bool_decide (directionFilter = Direction_String (tx_Direction t))) &&
    (bool_decide (statusFilter = "") ||
     bool_decide (statusFilter = Status_String (tx_Status t)))) locs.

Definition LockWallet (_ : Exec) (operation : json) : M unit :=
  upd (fun s => mkMemWallet (mw_lastSeenBlockHash s) (mw_accounts s) (mw_transactions s)
    (mw_hotWalletAddress s) (mw_moneyRequiredFromColdStorage s) (json_text operation)
    (mw_hotWalletAddressWasSet s)).

Definition ClearWallet (_ : Exec) : M unit :=
  upd (fun s => mkMemWallet (mw_lastSeenBlockHash s) (mw_accounts s) (mw_transactions s)
    (mw_hotWalletAddress s) (mw_moneyRequiredFromColdStorage s) ""
    (mw_hotWalletAddressWasSet s)).

Definition CheckWalletLock (_ : Exec) : M (bool * string) :=
  operation ← gets (mw_walletOperationLock ∘ mem_wallet);
  mret (bool_decide (operation = ""), operation).

End Impl.

End InMemoryWallet.

Definition MemoryStorage {E : Env} : Storage := {|
  WalletStorage.GetDB := false;
  WalletStorage.GetLastSeenBlockHash := InMemoryWallet.GetLastSeenBlockHash;
  WalletStorage.SetLastSeenBlockHash := InMemoryWallet.SetLastSeenBlockHash;
  WalletStorage.StoreTransaction := InMemoryWallet.StoreTransaction;
  WalletStorage.GetTransactionByHash := InMemoryWallet.GetTransactionByHash;
  WalletStorage.GetTransactionByID := InMemoryWallet.GetTransactionByID;
  WalletStorage.GetBroadcastedTransactionsWithLessConfirmations :=
    InMemoryWallet.GetBroadcastedTransactionsWithLessConfirmations;
  WalletStorage.GetPendingTransactions := InMemoryWallet.GetPendingTransactions;
  WalletStorage.updateReportedConfirmations := InMemoryWallet.updateReportedConfirmations;
  WalletStorage.GetTransactionsWithFilter := InMemoryWallet.GetTransactionsWithFilter;
  WalletStorage.GetAccountByAddress := InMemoryWallet.GetAccountByAddress;
  WalletStorage.StoreAccount := InMemoryWallet.StoreAccount;
  WalletStorage.GetHotWalletAddress := InMemoryWallet.GetHotWalletAddress;
  WalletStorage.setHotWalletAddress := InMemoryWallet.setHotWalletAddress;
  WalletStorage.GetMoneyRequiredFromColdStorage :=
    InMemoryWallet.GetMoneyRequiredFromColdStorage;
  WalletStorage.SetMoneyRequiredFromColdStorage :=
    InMemoryWallet.SetMoneyRequiredFromColdStorage;
  WalletStorage.LockWallet := InMemoryWallet.LockWallet;
  WalletStorage.ClearWallet := InMemoryWallet.ClearWallet;
  WalletStorage.CheckWalletLock := InMemoryWallet.CheckWalletLock;
|}.
