(* ===== verification/Broadcaster.v ===== *)
(** * events/broadcaster.go: delivery of stored events to websocket subscribers

    The mutex makes every method atomic. A Go channel is an index into
    [bp_chans]; [bp_subs] maps the subscribed ones to the next sequence number
    each wants. *)
From S2P Require Import Prelude.
From S2P Require Import Go.
From S2P Require Import Util.
From S2P Require Import Bitcoin.
From S2P Require Import TxTypes.
From S2P Require Import EventTypes.
From S2P Require Import World.
From S2P Require Import Effects.
From S2P Require Import Storage.
From S2P Require Import EventStorage.
Local Open Scope Z_scope.

Definition channelSize : Z := 10000.

(** The fields of the broker that [NewEventBroker] and
    [newBroadcasterWithStorage] make. *)
Definition NewEventBroker : BrokerProc := {|
  bp_wsNotificationTrigger := 0; bp_httpCallbackNotificationTrigger := [];
  bp_httpCallbackIsRetrying := false; bp_httpCallbackRetryingSeq := -1;
  bp_httpCallbackRetries := 0; bp_httpCallbackRetryDelay := 0; bp_timers := [];
  bp_subs := ∅; bp_chans := ∅; bp_minSeq := 0;
|}.

Section Broadcaster.
Context {ES : EventStorage}.

Definition upd_broker (f : BrokerProc -> BrokerProc) : M unit :=
  modify (fun w => set_broker_proc (f (broker_proc w)) w).

Definition set_subs subs minSeq (b : BrokerProc) : BrokerProc :=
  mkBrokerProc (bp_wsNotificationTrigger b) (bp_httpCallbackNotificationTrigger b)
    (bp_httpCallbackIsRetrying b) (bp_httpCallbackRetryingSeq b)
    (bp_httpCallbackRetries b) (bp_httpCallbackRetryDelay b) (bp_timers b)
    subs (bp_chans b) minSeq.

Definition set_chans chans (b : BrokerProc) : BrokerProc :=
  mkBrokerProc (bp_wsNotificationTrigger b) (bp_httpCallbackNotificationTrigger b)
    (bp_httpCallbackIsRetrying b) (bp_httpCallbackRetryingSeq b)
    (bp_httpCallbackRetries b) (bp_httpCallbackRetryDelay b) (bp_timers b)
    (bp_subs b) chans (bp_minSeq b).

(** [events[i:]] for the first [i] with [events[i].Seq >= seq] *)
Fixpoint events_from (seq : Z) (events : list NotificationWithSeq)
    : option (list NotificationWithSeq) :=
  match events with
  | [] => None
  | event :: rest => if decide (seq <= ns_Seq event) then Some events else events_from seq rest
  end.

(** [close(ch); delete(b.subs, ch)] *)
Definition close_and_delete (ch : nat) (b : BrokerProc) : BrokerProc :=
  set_subs (delete ch (bp_subs b)) (bp_minSeq b)
    (set_chans (alter (fun c => mkChannel (ch_queue c) true) ch (bp_chans b)) b).

(** The body of the loop over the subscriptions: a non-blocking send; a
    subscriber whose channel is full is disconnected. *)
Definition broadcast_to (events : list NotificationWithSeq) (nextSeq : Z)
    (sub : nat * Z) (b : BrokerProc) : BrokerProc :=
  let '(ch, seq) := sub in
  match events_from seq events with
  | None => b
  | Some batch =>
      match bp_chans b !! ch with
      | None => b
      | Some c =>
          if decide (Z.of_nat (length (ch_queue c)) < channelSize) then
            set_subs (<[ch := nextSeq]> (bp_subs b)) (bp_minSeq b)
              (set_chans (<[ch := mkChannel (ch_queue c ++ [batch]) (ch_closed c)]>
                            (bp_chans b)) b)
          else close_and_delete ch b
      end
  end.

Definition last_seq (events : list NotificationWithSeq) : option Z := ns_Seq <$> last events.

(** What [Broadcast] does with the events it fetched. *)
Definition broadcast_events (events : list NotificationWithSeq) (b : BrokerProc) : BrokerProc :=
  match last_seq events with
  | None => b
  | Some lastSeq =>
      let nextSeq := lastSeq + 1 in
      let b' := foldl (fun b sub => broadcast_to events nextSeq sub b) b
                  (map_to_list (bp_subs b)) in
      set_subs (bp_subs b') nextSeq b'
  end.

Definition Broadcast : M unit :=
  b ← gets broker_proc;
  events ← GetEventsFromSeq OnDB (bp_minSeq b);
  upd_broker (broadcast_events events).

Definition SubscribeFromSeq_broadcaster (seq : Z) : M nat :=
  b ← gets broker_proc;
  let ch := fresh (dom (bp_chans b)) in
  upd_broker (fun b =>
    set_subs (<[ch := seq]> (bp_subs b)) (Min seq (bp_minSeq b))
      (set_chans (<[ch := mkChannel [] false]> (bp_chans b)) b)) ;;
  mret ch.

Definition Unsubscribe (subch : nat) : M unit :=
  upd_broker (fun b =>
    match bp_subs b !! subch with None => b | Some _ => close_and_delete subch b end).

Definition Close : M unit :=
  upd_broker (fun b => foldl (fun b sub => close_and_delete sub.1 b) b (map_to_list (bp_subs b))).

(** [<-ch] by the websocket handler: the oldest batch, if there is one *)
Definition receive (ch : nat) : M (option (list NotificationWithSeq)) :=
  b ← gets broker_proc;
  match bp_chans b !! ch with
  | Some (mkChannel (batch :: queue) closed) =>
      upd_broker (set_chans (<[ch := mkChannel queue closed]> (bp_chans b))) ;;
      mret (Some batch)
  | _ => mret None
  end.

End Broadcaster.
