(* ===== verification/Broker.v ===== *)
(** * events: the event broker

    broker.go, dbtransaction.go, httpcallback.go, websocket.go, mute.go and
    integrity.go of src/events. *)
From S2P Require Import Prelude.
From S2P Require Import Go.
From S2P Require Import Bitcoin.
From S2P Require Import TxTypes.
From S2P Require Import EventTypes.
From S2P Require Import World.
From S2P Require Import Effects.
From S2P Require Import Storage.
From S2P Require Import EventStorage.
From S2P Require Import Broadcaster.
Local Open Scope Z_scope.

(** The client's HTTP callback server: the status code and the body read from
    the response, or a transport error, as a function of the requests so far. *)
Class HTTPClient := {
  http_Post : list (Act * DB) -> string -> json -> outcome (Z * outcome string);
}.

Class BrokerConfig := {
  callbackURL : string;
  httpCallbackBackoff : Z;
}.

Definition httpCBResultSaveRetries : nat := 10.
Definition httpCBResultSaveRetryBaseInterval : Z := 1.

(** ** Field assignments of eventBrokerData *)
Section BrokerFields.

Definition set_triggers ws http (b : BrokerProc) : BrokerProc :=
  mkBrokerProc ws http (bp_httpCallbackIsRetrying b) (bp_httpCallbackRetryingSeq b)
    (bp_httpCallbackRetries b) (bp_httpCallbackRetryDelay b) (bp_timers b)
    (bp_subs b) (bp_chans b) (bp_minSeq b).

Definition set_retrying isRetrying seq (b : BrokerProc) : BrokerProc :=
  mkBrokerProc (bp_wsNotificationTrigger b) (bp_httpCallbackNotificationTrigger b)
    isRetrying seq (bp_httpCallbackRetries b) (bp_httpCallbackRetryDelay b) (bp_timers b)
    (bp_subs b) (bp_chans b) (bp_minSeq b).

Definition set_retries retries delay (b : BrokerProc) : BrokerProc :=
  mkBrokerProc (bp_wsNotificationTrigger b) (bp_httpCallbackNotificationTrigger b)
    (bp_httpCallbackIsRetrying b) (bp_httpCallbackRetryingSeq b) retries delay (bp_timers b)
    (bp_subs b) (bp_chans b) (bp_minSeq b).

Definition add_timer t (b : BrokerProc) : BrokerProc :=
  mkBrokerProc (bp_wsNotificationTrigger b) (bp_httpCallbackNotificationTrigger b)
    (bp_httpCallbackIsRetrying b) (bp_httpCallbackRetryingSeq b)
    (bp_httpCallbackRetries b) (bp_httpCallbackRetryDelay b) (bp_timers b ++ [t])
    (bp_subs b) (bp_chans b) (bp_minSeq b).

End BrokerFields.

Section Broker.
Context {ES : EventStorage}.

(** ** broker.go *)
Definition Notify (ex : Exec) (eventType : EventType) (data : EventData) : M unit :=
  StoreEvent ex (mkNotification eventType data) ;; mret tt.

(** Non-blocking sends to channels of capacity 3. *)
Definition triggerWSNotificationSending : M unit :=
  upd_broker (fun b => set_triggers (Nat.min 3 (S (bp_wsNotificationTrigger b)))
                         (bp_httpCallbackNotificationTrigger b) b).

Definition triggerHTTPNotificationSending : M unit :=
  upd_broker (fun b =>
    set_triggers (bp_wsNotificationTrigger b)
      (let q := bp_httpCallbackNotificationTrigger b in
       if decide (length q < 3)%nat then q ++ [false] else q) b).

(** A blocking send: [None] while the channel is full. *)
Definition triggerHTTPNotificationRetry (b : BrokerProc) : option BrokerProc :=
  let q := bp_httpCallbackNotificationTrigger b in
  if decide (length q < 3)%nat
  then Some (set_triggers (bp_wsNotificationTrigger b) (q ++ [true]) b) else None.

Definition SendNotifications : M unit :=
  triggerWSNotificationSending ;; triggerHTTPNotificationSending.

Definition SubscribeFromSeq (seq : Z) : M nat :=
  subch ← SubscribeFromSeq_broadcaster seq;
  triggerWSNotificationSending ;;
  mret subch.

Definition UnsubscribeFromSeq (eventChannel : nat) : M unit := Unsubscribe eventChannel.

Definition GetEventsFromSeq_broker (seq : Z) : M (list NotificationWithSeq) :=
  GetEventsFromSeq OnDB seq.

(** ** dbtransaction.go *)
Context {E : Env}.

Definition MakeTransactIfAvailable_broker (f : Exec -> M unit) : M unit :=
  MakeTransactIfAvailable ev_GetDB f.

(** ** websocket.go *)
Definition sendWSNotifications : M unit :=
  r ← try Broadcast;
  match r with
  | inl _ => mret tt
  | inr _ => upd_broker (add_timer (TimerWS 3))
  end.

(** ** httpcallback.go *)
Context {HC : HTTPClient} {CFG : BrokerConfig}.

(** The data as a JSON object with [seq] and [type] set. The detour through a Go map
    orders the keys of the text and keeps each number that a float64 represents
    exactly, such as the confirmations and codes of an event; amounts are strings. *)
Definition marshalFlattenedEvent (event : NotificationWithSeq) : outcome json :=
  match EventData_MarshalJSON (ns_Data event) with
  | JObj fields =>
      Ok (JObj (json_set "type" (EventType_MarshalJSON (ns_Type event))
                 (json_set "seq" (JNum (itoa (ns_Seq event))) fields)))
  | JNull => Panic "assignment to entry in nil map"
  | _ => Panic "Error: could not json-decode notificationDataJSON"
  end.

Definition sendDataToHTTPCallback (event : NotificationWithSeq) : M unit :=
  data ← lift (marshalFlattenedEvent event);
  history ← gets trace;
  log_act (APost data) ;;
  '(StatusCode, respBody) ← lift (http_Post history callbackURL data);
  if decide (StatusCode = 200) then mret tt
  else
    let errorText := "Got response with code " +:+ itoa StatusCode +:+
                     " calling HTTP callback " +:+ callbackURL in
    throw (ErrMsg (match respBody with
                   | Ok body => errorText +:+ " server replied " +:+ body
                   | _ => errorText +:+ " also failed to read response body "
                   end)).

(** Whether to retry; the message is only logged. *)
Definition handleHTTPCallbackError (b : BrokerProc) : bool :=
  if decide (httpCallbackBackoff <= 0) then true
  else if decide (httpCallbackBackoff <= bp_httpCallbackRetries b) then false
  else true.

Definition handleEarlyErrorPreparingHTTPCallback : M unit :=
  upd_broker (fun b => add_timer (TimerSend (bp_httpCallbackRetryDelay b)) b).

Definition persistHTTPCallbackSendResultWithRetry (persistFunc : M unit) : M unit :=
  retry_loop httpCBResultSaveRetries httpCBResultSaveRetryBaseInterval
    "FATAL: given up, aborting event broker" persistFunc.

(** After a delivery, or after giving up *)
Definition persist_sent (event : NotificationWithSeq) : M unit :=
  persistHTTPCallbackSendResultWithRetry
    (MakeTransactIfAvailable_broker (fun ex =>
       StoreLastHTTPSentSeq ex (ns_Seq event) ;; ClearHTTPCallback ex)) ;;
  upd_broker (set_retries 0 0).

(** The loop over the events; its [return]s leave the whole function. *)
Fixpoint send_events (events : list NotificationWithSeq) : M unit :=
  match events with
  | [] => mret tt
  | event :: rest =>
      if decide (ns_Type event = NewAddressEvent) then send_events rest
      else
        locked ← try (MakeTransactIfAvailable_broker (fun ex =>
                        LockHTTPCallback ex (ns_Seq event)));
        match locked with
        | inr _ => handleEarlyErrorPreparingHTTPCallback
        | inl _ =>
            r ← try (sendDataToHTTPCallback event);
            upd_broker (fun b => set_retries (bp_httpCallbackRetries b + 1)
                                   (bp_httpCallbackRetryDelay b + 1) b) ;;
            b ← gets broker_proc;
            match r with
            | inr _ =>
                if handleHTTPCallbackError b then
                  persistHTTPCallbackSendResultWithRetry
                    (MakeTransactIfAvailable_broker ClearHTTPCallback) ;;
                  upd_broker (fun b =>
                    add_timer (TimerRetry (bp_httpCallbackRetryDelay b))
                      (set_retrying true (ns_Seq event) b))
                else persist_sent event ;; send_events rest
            | inl _ => persist_sent event ;; send_events rest
            end
        end
  end.

Definition sendHTTPCallbackNotifications (isRetry : bool) : M unit :=
  b ← gets broker_proc;
  if decide (bp_httpCallbackIsRetrying b = true /\ isRetry = false) then mret tt
  else
    (if bp_httpCallbackIsRetrying b then upd_broker (set_retrying false (-1)) else mret tt) ;;
    seq ← try (GetLastHTTPSentSeq OnDB);
    match seq with
    | inr _ => handleEarlyErrorPreparingHTTPCallback
    | inl seq =>
        events ← try (GetEventsFromSeq_broker (seq + 1));
        match events with
        | inr _ => handleEarlyErrorPreparingHTTPCallback
        | inl events => send_events events
        end
    end.

(** ** mute.go *)
Definition mute (txID : UUID) : M unit :=
  b ← gets broker_proc;
  txID ← (if decide (txID = uuid_Nil) then
            if decide (bp_httpCallbackIsRetrying b = false \/
                       bp_httpCallbackRetryingSeq b = -1) then
              throw (ErrMsg "Event broker is not currently retrying to deliver an event")
            else
              r ← try (GetNextEventFromSeq OnDB (bp_httpCallbackRetryingSeq b));
              match r with
              | inr ErrNoSuchEvent => throw (ErrMsg "Failed to find an event to mute")
              | inr err => throw err
              | inl event =>
                  match ns_Data event with
                  | DataTxNotificationPtr notification =>
                      mret (tx_ID (tn_Transaction notification))
                  | _ => throw (ErrMsg "Current event being retried does not refer to a tx")
                  end
              end
          else mret txID);
  MuteEventsWithTxID_storage OnDB txID ;;
  b ← gets broker_proc;
  if bp_httpCallbackIsRetrying b
  then upd_broker (fun b => set_retries 0 0 (set_retrying true (bp_httpCallbackRetryingSeq b) b))
  else mret tt.

(** ** integrity.go: a lock left in the database stops the program *)
Definition Check_broker : M unit :=
  r ← try (CheckHTTPCallbackLock OnDB);
  match r with
  | inr _ => panic "failed to check the HTTP callback lock"
  | inl (ok, operation) =>
      if ok : bool then mret tt
      else panic "FATAL: refusing to start processing because it was interrupted during sending event via HTTP callback"
  end.

(** ** The main loop
    One iteration handles one of the ready channel operations. A mute
    request's result goes to its requester. *)
Inductive BrokerInput :=
| InWSTrigger
| InHTTPTrigger (isRetry : bool)
| InMute (txID : UUID).

Definition broker_ready (i : BrokerInput) (b : BrokerProc) : Prop :=
  match i with
  | InWSTrigger => (0 < bp_wsNotificationTrigger b)%nat
  | InHTTPTrigger isRetry => head (bp_httpCallbackNotificationTrigger b) = Some isRetry
  | InMute _ => True
  end.

Definition broker_iteration (i : BrokerInput) : M (option (unit + error)) :=
  match i with
  | InWSTrigger =>
      upd_broker (fun b => set_triggers (pred (bp_wsNotificationTrigger b))
                             (bp_httpCallbackNotificationTrigger b) b) ;;
      sendWSNotifications ;; mret None
  | InHTTPTrigger isRetry =>
      upd_broker (fun b => set_triggers (bp_wsNotificationTrigger b)
                             (tail (bp_httpCallbackNotificationTrigger b)) b) ;;
      sendHTTPCallbackNotifications isRetry ;; mret None
  | InMute txID => r ← try (mute txID); mret (Some r)
  end.

(** [mainLoop] recovers a panic of an iteration and ends with an error; the flag
    of an input tells whether [Stop] was called meanwhile. *)
Fixpoint mainLoop_broker (inputs : list (BrokerInput * bool)) : M unit :=
  match inputs with
  | [] => mret tt                  (* stopTrigger *)
  | (i, stopped) :: rest => fun w =>
      match broker_iteration i w with
      | (Panic msg, w') => (Err (ErrMsg ("Event broker stopped by panic: " +:+ msg)), w')
      | (Err e, w') => (Err e, w')
      | (Ok _, w') => if stopped : bool then (Ok tt, w') else mainLoop_broker rest w'
      end
  end.

Definition Run_broker (inputs : list (BrokerInput * bool)) : M unit :=
  sendHTTPCallbackNotifications false ;; mainLoop_broker inputs.

End Broker.
