(* ===== verification/NodeAPI.v ===== *)
(** * bitcoin/nodeapi/api_interface.go: what the wallet asks of a Bitcoin node *)
From S2P Require Import Prelude.
From S2P Require Import Go.
From S2P Require Import Bitcoin.
From S2P Require Import TxTypes.
From S2P Require Import EventTypes.
From S2P Require Import World.
From S2P Require Import Effects.
From S2P Require Import Storage.
Local Open Scope Z_scope.

(** The fields of [nodeapi.AddressInfo] that the wallet reads. *)
Record AddressInfo := mkAddressInfo { ai_Address : string; ai_IsMine : bool }.

(** The fields of [btcjson.ListSinceBlockResult] *)
Record ListSinceBlockResult := mkListSinceBlockResult {
  ls_Transactions : list ListTransactionsResult;
  ls_LastBlock : string;
}.

Class NodeAPI := {
  CreateNewAddress : M string;
  ListTransactionsSinceBlock : string -> M ListSinceBlockResult;
  GetTransaction : string -> M GetTransactionResult;
  SendWithPerKBFee : string -> BTCAmount -> BTCAmount -> bool -> M string;
  SendWithFixedFee : string -> BTCAmount -> BTCAmount -> bool -> M string;
  GetAddressInfo : string -> M AddressInfo;
  GetConfirmedAndUnconfirmedBalance : M (Z * Z);
}.

(** ** What a node promises
    A call only exchanges requests with the node, and only the two Send calls
    can ask it to move money. *)
Definition money_methods : list string := ["sendtoaddress"; "sendrawtransaction"; "sendmany"].

Definition moves_money (a : Act) : bool :=
  match a with ARequest method _ => bool_decide (method ∈ money_methods) | _ => false end.

Definition is_request (a : Act) : bool := match a with ARequest _ _ => true | _ => false end.

(** [w'] is [w] after the requests [acts] (most recent first). *)
Definition after_acts (acts : list Act) (w : World) : World :=
  set_trace (((fun a => (a, committed w)) <$> acts) ++ trace w) w.

Definition only_requests {A} (may_send : bool) (m : M A) : Prop :=
  forall w, exists acts,
    (m w).2 = after_acts acts w /\
    Forall (fun a => is_request a = true) acts /\
    (may_send = false -> Forall (fun a => moves_money a = false) acts).

Class NodeAPILaws (N : NodeAPI) : Prop := {
  requests_CreateNewAddress : only_requests false CreateNewAddress;
  requests_ListTransactionsSinceBlock h : only_requests false (ListTransactionsSinceBlock h);
  requests_GetTransaction h : only_requests false (GetTransaction h);
  requests_SendWithPerKBFee a amt fee b : only_requests true (SendWithPerKBFee a amt fee b);
  requests_SendWithFixedFee a amt fee b : only_requests true (SendWithFixedFee a amt fee b);
  requests_GetAddressInfo a : only_requests false (GetAddressInfo a);
  requests_GetBalance : only_requests false GetConfirmedAndUnconfirmedBalance;
}.

(** ** Invariants
    An invariant that allows every request but those that move money survives the
    calls that only ask; one that allows all requests survives all calls. *)
Class AsksAllowed (I : Inv) : Prop :=
  asks_allowed a : is_request a = true -> moves_money a = false -> Allowed I a.
Class SendsAllowed (I : Inv) : Prop :=
  sends_allowed a : is_request a = true -> Allowed I a.

Section NodeKeeps.
Context (I : Inv).

Lemma holds_after_acts acts w :
  Forall (fun a => allows I a (committed w)) acts ->
  holds I w -> holds I (after_acts acts w).
Proof.
  intros Ha (Hc & Hi & Ht & Hh). split_and!; simpl; try done.
  induction Ha as [|a acts Ha _ IH]; simpl; [done | by apply Ha].
Qed.

Lemma keeps_asks `{!AsksAllowed I} {A} (m : M A) : only_requests false m -> Keeps (holds I) m.
Proof.
  intros Hm w Hw. destruct (Hm w) as (acts & -> & Hr & Hs). apply holds_after_acts; [|done].
  specialize (Hs eq_refl). rewrite Forall_forall in Hr, Hs |- *.
  intros a Ha. eapply asks_allowed; [by apply Hr | by apply Hs | by apply Hw].
Qed.

Lemma keeps_sends `{!SendsAllowed I} b {A} (m : M A) : only_requests b m -> Keeps (holds I) m.
Proof.
  intros Hm w Hw. destruct (Hm w) as (acts & -> & Hr & _). apply holds_after_acts; [|done].
  rewrite Forall_forall in Hr |- *.
  intros a Ha. eapply sends_allowed; [by apply Hr | by apply Hw].
Qed.

Context `{!AsksAllowed I} {N : NodeAPI} {NL : NodeAPILaws N}.

Lemma keeps_CreateNewAddress : Keeps (holds I) CreateNewAddress.
Proof. apply keeps_asks, requests_CreateNewAddress. Qed.
Lemma keeps_ListTransactionsSinceBlock h : Keeps (holds I) (ListTransactionsSinceBlock h).
Proof. apply keeps_asks, requests_ListTransactionsSinceBlock. Qed.
Lemma keeps_GetTransaction h : Keeps (holds I) (GetTransaction h).
Proof. apply keeps_asks, requests_GetTransaction. Qed.
Lemma keeps_GetAddressInfo a : Keeps (holds I) (GetAddressInfo a).
Proof. apply keeps_asks, requests_GetAddressInfo. Qed.
Lemma keeps_GetBalance : Keeps (holds I) GetConfirmedAndUnconfirmedBalance.
Proof. apply keeps_asks, requests_GetBalance. Qed.

End NodeKeeps.

#[export] Hint Resolve keeps_CreateNewAddress keeps_ListTransactionsSinceBlock
  keeps_GetTransaction keeps_GetAddressInfo keeps_GetBalance : keeps.
