(* ===== verification/Rpc.v ===== *)
(** * bitcoin/nodeapi/rpc.go: the JSON-RPC client of the Bitcoin node

    The node, the rpcclient and chainhash libraries of btcsuite are parameters:
    what they answer may depend on everything exchanged so far. Each exchange is
    recorded with its method and arguments, a [float64] argument as the number
    itself (encoding/json writes the shortest literal that reads back as it). The
    last sections: it keeps the promises of the interface, and asks the node to move
    money at most once and last. *)
From Stdlib Require Import SpecFloat Ascii.
From S2P Require Import Prelude.
From S2P Require Import Go.
From S2P Require Import Json.
From S2P Require Import Bitcoin.
From S2P Require Import TxTypes.
From S2P Require Import EventTypes.
From S2P Require Import World.
From S2P Require Import Effects.
From S2P Require Import NodeAPI.
From Stdlib Require Import SpecFloat.
Local Open Scope Z_scope.

Definition History : Type := list (Act * DB).

(** ** The part of btcjson's raw transactions that the code reads *)
Record Vin := mkVin { vin_Txid : string; vin_Vout : Z }.
Record Vout := mkVout { vout_Value : float64; vout_Addresses : list string }.
Record TxRawResult := mkTxRawResult { raw_Vin : list Vin; raw_Vout : list Vout }.

(** [rpcclient] and [chainhash]; [node_Do] is [http.DefaultClient.Do] with the
    reading of the body: a transport error, or the body. *)
Class RpcLib := {
  chain_hash : Type;
  NewHashFromStr : string -> outcome chain_hash;
  hash_String : chain_hash -> string;
  url_parses : string -> bool;
  rpc_New : string -> string -> string -> bool -> outcome unit;
  rpc_GetBlockCount : History -> outcome Z;
  rpc_ListSinceBlock : History -> option chain_hash -> outcome ListSinceBlockResult;
  rpc_GetTransaction : History -> chain_hash -> outcome GetTransactionResult;
  rpc_DecodeRawTransaction : History -> string -> outcome TxRawResult;
  rpc_SetTxFee : History -> Z -> outcome unit;
  rpc_GetBalance : History -> string -> outcome Z;
  node_Do : History -> string -> value -> outcome string;
}.

(** The fields of [bitcoinNodeRPCAPI] *)
Record RpcConfig := mkRpcConfig {
  rc_address : string;
  rc_nodeURL : string;
  rc_user : string;
  rc_pass : string;
  rc_useTLS : bool;
}.

(** ** Decoding of replies (encoding/json into structs) *)
Section Decoding.

(** [*JSONRPCError] *)
Definition unmarshal_JSONRPCError (j : json) : outcome error :=
  is_struct j ;;
  code ← unmarshal_int (struct_field "Code" j);
  message ← unmarshal_string (struct_field "Message" j);
  Ok (ErrJSONRPC code message).

(** The response structures differ in the type of [Result] only: decode the reply,
    then return its error if it has one, else its result. *)
Definition unmarshal_response {A} (dec : json -> outcome A) (body : string) : outcome A :=
  response ← of_option ErrJSON (parse_json body);
  is_struct response ;;
  result ← dec (struct_field "Result" response);
  err ← unmarshal_ptr unmarshal_JSONRPCError (struct_field "Error" response);
  match err with Some err => Err err | None => Ok result end.

(** [*response.Result], or a field of it *)
Definition deref {A} (p : option A) : outcome A :=
  match p with Some a => Ok a | None => Panic nil_deref end.

(** [hex.DecodeString] *)
Fixpoint DecodeString (s : string) : outcome string :=
  match s with
  | EmptyString => Ok ""
  | String a (String b s') =>
      x ← of_option (ErrMsg "encoding/hex: invalid byte") (hex_value a);
      y ← of_option (ErrMsg "encoding/hex: invalid byte") (hex_value b);
      rest ← DecodeString s';
      Ok (String (ascii_of_nat (16 * x + y)) rest)
  | String _ EmptyString => Err (ErrMsg "encoding/hex: odd length hex string")
  end.

(** Whether [json.Marshal] accepts a value: not NaN nor an infinity *)
Fixpoint marshalable (v : value) : bool :=
  match v with
  | VFloat (S754_nan | S754_infinity _) => false
  | VList l => forallb marshalable l
  | VMap fields => forallb (fun p => marshalable p.2) fields
  | _ => true
  end.

End Decoding.

(** A Go map with string keys: assignment, and the order of json.Marshal *)
Fixpoint map_set {A} (key : string) (v : A) (m : list (string * A)) : list (string * A) :=
  match m with
  | [] => [(key, v)]
  | (k, w) :: rest =>
      if bool_decide (k = key) then (k, v) :: rest else (k, w) :: map_set key v rest
  end.

Fixpoint insert_key {A} (p : string * A) (m : list (string * A)) : list (string * A) :=
  match m with
  | [] => [p]
  | q :: rest => if String.leb p.1 q.1 then p :: m else q :: insert_key p rest
  end.

Definition sorted_by_key {A} (m : list (string * A)) : list (string * A) :=
  foldr insert_key [] m.

Section Rpc.
Context {D : DecimalLib} {BU : BtcUtil} {R : RpcLib} (n : RpcConfig).

Definition MinimalFeeRateBTC : float64 := Amount_ToBTC MinimalFeeRate.

(** A call of the rpcclient library *)
Definition btcrpc {A} (method : string) (params : list value) (answer : History -> outcome A)
    : M A :=
  history ← gets trace;
  log_act (ARequest method params) ;;
  lift (answer history).

(** The marshalled request: struct [jsonRPCRequest] or [jsonRPCRequestWithNamedParams] *)
Definition rpc_request (method : string) (params : value) : value :=
  VMap [("jsonrpc", VStr "1.0"); ("method", VStr method); ("params", params)].

Definition post_to_node (method : string) (args : list value) (params : value)
    : M string :=
  let rpcRequest := rpc_request method params in
  if negb (marshalable rpcRequest) then throw ErrJSON
  else if negb (url_parses (rc_nodeURL n)) then throw (ErrMsg "parse error")
  else
    history ← gets trace;
    log_act (ARequest method args) ;;
    lift (node_Do history (rc_nodeURL n) rpcRequest).

Definition SendRequestToNode (method : string) (params : list value) : M string :=
  post_to_node method params (match params with [] => VNull | _ => VList params end).

Definition SendRequestToNodeWithNamedParams (method : string)
    (params : list (string * value)) : M string :=
  let params := VMap (sorted_by_key params) in
  post_to_node method [params] params.

Definition CreateNewAddress : M string :=
  responseJSON ← SendRequestToNode "getnewaddress" [];
  lift (unmarshal_response unmarshal_string responseJSON).

Definition ListTransactionsSinceBlock (blockHash : string) : M ListSinceBlockResult :=
  blockHashInChainhashFormat ←
    (if decide (blockHash = "") then mret None
     else r ← try (lift (NewHashFromStr blockHash));
          match r with
          | inl h => mret (Some h)
          | inr err => throw (ErrWrap ("Error: ListTransactionsSinceBlock: failed to convert block hash " +:+ blockHash +:+ " to chainhash format: ") err)
          end);
  btcrpc "listsinceblock"
    (match blockHashInChainhashFormat with Some h => [VStr (hash_String h)] | None => [] end)
    (fun history => rpc_ListSinceBlock history blockHashInChainhashFormat).

Definition GetTransaction (hash : string) : M GetTransactionResult :=
  r ← try (lift (NewHashFromStr hash));
  match r with
  | inr err => throw (ErrWrap ("Error: GetTransaction: failed to convert tx hash " +:+ hash +:+ " to chainhash format: ") err)
  | inl h => btcrpc "gettransaction" [VStr (hash_String h)] (fun history => rpc_GetTransaction history h)
  end.

Definition decodeRawTransaction (rawTxHex : string) : M TxRawResult :=
  rawTxBytes ← lift (DecodeString rawTxHex);
  btcrpc "decoderawtransaction" [VStr rawTxHex]
    (fun history => rpc_DecodeRawTransaction history rawTxBytes).

Definition GetRawTransaction (hash : string) : M TxRawResult :=
  transaction ← GetTransaction hash;
  decodeRawTransaction (gt_Hex transaction).

Definition CreateWallet (name : string) : M unit :=
  responseJSON ← SendRequestToNodeWithNamedParams "createwallet"
    [("wallet_name", VStr name); ("load_on_startup", VBool true)];
  lift (unmarshal_response (fun _ => Ok tt) responseJSON).

Definition sendToAddress (address : string) (amount : Z) (recipientPaysFee : bool) : M string :=
  responseJSON ← SendRequestToNode "sendtoaddress"
    [VStr address; VFloat (Amount_ToBTC (i64 amount)); VStr ""; VStr ""; VBool recipientPaysFee];
  lift (unmarshal_response unmarshal_string responseJSON).

(** [addresses] lists the entries of the map. *)
Definition SendToMultipleAddresses (addresses : list (string * BTCAmount)) : M string :=
  if decide (addresses = []) then
    throw (ErrMsg "SendToMultipleAddresses got empty list of addresses")
  else
    let amountSpec := (fun p => (p.1, VNumber (ToStringedFloat p.2))) <$> addresses in
    responseJSON ← SendRequestToNode "sendmany" [VStr ""; VMap (sorted_by_key amountSpec)];
    lift (unmarshal_response unmarshal_string responseJSON).

(** The methods that take [moneySendLock] run to their end before another one starts. *)
Definition SendWithPerKBFee (address : string) (amount fee : BTCAmount)
    (recipientPaysFee : bool) : M string :=
  btcrpc "settxfee" [VInt (i64 fee)] (fun history => rpc_SetTxFee history (i64 fee)) ;;
  sendToAddress address amount recipientPaysFee.

Definition input_value (i : Vin) : value :=
  VMap [("txid", VStr (vin_Txid i)); ("vout", VInt (vin_Vout i))].

Definition createRawTransaction (inputs : list Vin) (outputs : list (string * float64)) : M string :=
  createRawTxJSONResp ← SendRequestToNode "createrawtransaction"
    [VList (input_value <$> inputs);
     VMap (sorted_by_key ((fun p => (p.1, VFloat p.2)) <$> outputs))];
  lift (unmarshal_response unmarshal_string createRawTxJSONResp).

Record fundRawTransactionOptions := mkFundOptions {
  fo_ChangePosition : Z;
  fo_FeeRate : float64;
  fo_SubtractFeeFromOutputs : list Z;
}.

Record fundRawTransactionResult := mkFundResult {
  fr_Changepos : Z;
  fr_Fee : float64;
  fr_Hex : string;
}.

Definition options_value (o : fundRawTransactionOptions) : value :=
  VMap [("changePosition", VInt (fo_ChangePosition o)); ("feeRate", VFloat (fo_FeeRate o));
        ("subtractFeeFromOutputs", VList (VInt <$> fo_SubtractFeeFromOutputs o))].

Definition unmarshal_fund_result (j : json) : outcome fundRawTransactionResult :=
  is_struct j ;;
  changepos ← unmarshal_int (struct_field "Changepos" j);
  fee ← unmarshal_float (struct_field "Fee" j);
  hex ← unmarshal_string (struct_field "Hex" j);
  Ok (mkFundResult changepos fee hex).

Definition fundRawTransaction (rawTx : string) (options : fundRawTransactionOptions)
    : M (option fundRawTransactionResult) :=
  fundRawTxJSONResp ← SendRequestToNode "fundrawtransaction" [VStr rawTx; options_value options];
  lift (unmarshal_response (unmarshal_ptr unmarshal_fund_result) fundRawTxJSONResp).

(** What [transformTxToSetFixedFee] does with the decoded transaction *)
Definition set_fixed_fee (rawTxFunded : fundRawTransactionResult) (decodedRawTx : TxRawResult)
    (address : string) (fixedFee : Z) : outcome TxRawResult :=
  let changePos := fr_Changepos rawTxFunded in
  autoFee ← of_option (ErrMsg "invalid bitcoin amount") (NewAmount (fr_Fee rawTxFunded));
  let '(recipientPos, expectedOutputNumber) :=
    if decide (changePos <> -1) then (if decide (changePos <> 0) then 0%nat else 1%nat, 2%nat)
    else (0%nat, 1%nat) in
  let errorPrefix := "Failed to transform tx to set fixed fee: " in
  if decide (length (raw_Vout decodedRawTx) <> expectedOutputNumber) then
    Err (ErrMsg (errorPrefix +:+ "expected exacly " +:+ itoa (Z.of_nat expectedOutputNumber) +:+ " outputs"))
  else
    recipientOut ← match raw_Vout decodedRawTx !! recipientPos with
                   | Some v => Ok v
                   | None => Panic "index out of range"
                   end;
    match vout_Addresses recipientOut with
    | [a] =>
        if decide (a <> address) then
          Err (ErrMsg (errorPrefix +:+ "address in recipient output does not match destination"))
        else
          recipientOutAmount ← of_option (ErrMsg "invalid bitcoin amount")
                                 (NewAmount (vout_Value recipientOut));
          let recipientOutAmount :=
            i64 (i64 (recipientOutAmount - i64 fixedFee) + autoFee) in
          Ok (mkTxRawResult (raw_Vin decodedRawTx)
                (<[recipientPos := mkVout (Amount_ToBTC recipientOutAmount)
                                     (vout_Addresses recipientOut)]> (raw_Vout decodedRawTx)))
    | _ => Err (ErrMsg (errorPrefix +:+ "expected that recipient output will contain one destination address"))
    end.

Definition transformTxToSetFixedFee (rawTxFunded : option fundRawTransactionResult)
    (address : string) (fixedFee : Z) : M TxRawResult :=
  rawTxFunded ← lift (deref rawTxFunded);
  r ← try (decodeRawTransaction (fr_Hex rawTxFunded));
  match r with
  | inr err => throw (ErrWrap ("Failed to decode tx " +:+ fr_Hex rawTxFunded +:+ ": ") err)
  | inl decodedRawTx => lift (set_fixed_fee rawTxFunded decodedRawTx address fixedFee)
  end.

(** The map from addresses to values that the outputs make *)
Fixpoint final_outputs (vouts : list Vout) (acc : list (string * float64))
    : outcome (list (string * float64)) :=
  match vouts with
  | [] => Ok acc
  | v :: rest =>
      match vout_Addresses v with
      | [destinationAddress] => final_outputs rest (map_set destinationAddress (vout_Value v) acc)
      | _ => Err (ErrMsg "Expected that tx outputs will have 1 destination address")
      end
  end.

Definition encodeTransformedTransaction (tx : TxRawResult) : M string :=
  finalOutputs ← lift (final_outputs (raw_Vout tx) []);
  createRawTransaction (raw_Vin tx) finalOutputs.

Definition unmarshal_sign_result (j : json) : outcome (bool * string) :=
  is_struct j ;;
  complete ← unmarshal_bool (struct_field "Complete" j);
  hex ← unmarshal_string (struct_field "Hex" j);
  Ok (complete, hex).

Definition signRawTransactionWithWallet (rawTx : string) : M string :=
  signRawTxJSONResp ← SendRequestToNode "signrawtransactionwithwallet" [VStr rawTx];
  result ← lift (unmarshal_response (unmarshal_ptr unmarshal_sign_result) signRawTxJSONResp);
  '(_, hex) ← lift (deref result);
  mret hex.

Definition sendRawTransaction (rawTx : string) : M string :=
  sendRawTxJSONResp ← SendRequestToNode "sendrawtransaction" [VStr rawTx];
  lift (unmarshal_response unmarshal_string sendRawTxJSONResp).

(** The steps of [SendWithFixedFee] before the broadcast *)
Definition prepare_fixed_fee (address : string) (amount fee : BTCAmount) : M string :=
  rawTx ← createRawTransaction [] [(address, ToBTC amount)];
  rawTxFunded ← fundRawTransaction rawTx (mkFundOptions 0 MinimalFeeRateBTC [0]);
  transformedTx ← transformTxToSetFixedFee rawTxFunded address fee;
  transformedTxEncoded ← encodeTransformedTransaction transformedTx;
  signRawTransactionWithWallet transformedTxEncoded.

Definition SendWithFixedFee (address : string) (amount fee : BTCAmount)
    (recipientPaysFee : bool) : M string :=
  if recipientPaysFee && bool_decide (amount < fee) then
    throw (ErrMsg ("Error: Recipient (" +:+ address +:+ ") should pay fee " +:+
      BTCAmount_String fee +:+ " satoshi, but amount sent is less: " +:+ BTCAmount_String amount))
  else
    let amount := if recipientPaysFee then amount else u64 (amount + fee) in
    signedTx ← prepare_fixed_fee address amount fee;
    sendRawTransaction signedTx.

(** Every field of [AddressInfo] is decoded; the wallet reads two of them. *)
Fixpoint all_ok (l : list (outcome string)) : outcome unit :=
  match l with [] => Ok tt | r :: rest => r ;; all_ok rest end.

Definition strings_ok (names : list string) (j : json) : outcome unit :=
  all_ok ((fun name => unmarshal_string (struct_field name j)) <$> names).

Definition unmarshal_embedded (j : json) : outcome unit :=
  is_struct j ;;
  unmarshal_bool (struct_field "isscript" j) ;;
  unmarshal_bool (struct_field "iswitness" j) ;;
  unmarshal_float (struct_field "witness_version" j) ;;
  strings_ok ["witness_program"; "Pubkey"; "Address"; "ScriptPubKey"] j.

Definition unmarshal_labels (j : json) : outcome unit :=
  match j with
  | JNull => Ok tt
  | JArr l => all_ok (unmarshal_string <$> l)
  | _ => Err ErrJSON
  end.

Definition unmarshal_AddressInfo (j : json) : outcome AddressInfo :=
  is_struct j ;;
  address ← unmarshal_string (struct_field "Address" j);
  isMine ← unmarshal_bool (struct_field "ismine" j);
  strings_ok ["ScriptPubKey"; "Script"; "Hex"; "Pubkey"; "Label"; "hdkeypath"; "hdseedid";
              "hdmasterkeyid"] j ;;
  unmarshal_bool (struct_field "iswatchonly" j) ;;
  unmarshal_bool (struct_field "isscript" j) ;;
  unmarshal_bool (struct_field "iswitness" j) ;;
  unmarshal_embedded (struct_field "Embedded" j) ;;
  unmarshal_uint64 (struct_field "Timestamp" j) ;;
  unmarshal_labels (struct_field "Labels" j) ;;
  Ok (mkAddressInfo address isMine).

(** The result is a pointer, nil when the reply has none: both callers read its
    [IsMine] next, so that a nil one is dereferenced here. *)
Definition GetAddressInfo (address : string) : M AddressInfo :=
  getAddressInfoJSONResp ← SendRequestToNode "getaddressinfo" [VStr address];
  result ← lift (unmarshal_response (unmarshal_ptr unmarshal_AddressInfo) getAddressInfoJSONResp);
  lift (deref result).

Definition getBalance : M Z :=
  balance ← btcrpc "getbalance" [VStr "*"] (fun history => rpc_GetBalance history "*");
  mret (u64 balance).

Definition getUnconfirmedBalance : M Z :=
  getUnconfirmedBalanceJSONResp ← SendRequestToNode "getunconfirmedbalance" [];
  result ← lift (unmarshal_response (unmarshal_ptr unmarshal_float) getUnconfirmedBalanceJSONResp);
  balance ← lift (deref result);
  amount ← lift (of_option (ErrMsg "invalid bitcoin amount") (NewAmount balance));
  mret (u64 amount).

Definition GetConfirmedAndUnconfirmedBalance : M (Z * Z) :=
  confirmedBalance ← getBalance;
  unconfirmedBalance ← getUnconfirmedBalance;
  mret (confirmedBalance, unconfirmedBalance).

End Rpc.

(** ** The implementation of the wallet's interface *)
Definition RpcNode {D : DecimalLib} {BU : BtcUtil} {R : RpcLib} (n : RpcConfig) : NodeAPI := {|
  NodeAPI.CreateNewAddress := CreateNewAddress n;
  NodeAPI.ListTransactionsSinceBlock := ListTransactionsSinceBlock;
  NodeAPI.GetTransaction := GetTransaction;
  NodeAPI.SendWithPerKBFee := SendWithPerKBFee n;
  NodeAPI.SendWithFixedFee := SendWithFixedFee n;
  NodeAPI.GetAddressInfo := GetAddressInfo n;
  NodeAPI.GetConfirmedAndUnconfirmedBalance := GetConfirmedAndUnconfirmedBalance n;
|}.

(** [NewNodeAPI], given the four settings it reads *)
Definition NewNodeAPI `{RpcLib} (host user pass : string) (useTLS : bool) : M RpcConfig :=
  r ← try (lift (rpc_New host user pass (negb useTLS)));
  match r with
  | inr err => panic "rpcclient.New"
  | inl _ =>
      c ← try (btcrpc "getblockcount" [] rpc_GetBlockCount);
      match c with
      | inr err => panic "GetBlockCount"
      | inl blockCount =>
          let nodeURLScheme := if useTLS then "https" else "http" in
          mret (mkRpcConfig host (nodeURLScheme +:+ "://" +:+ host +:+ "/") user pass useTLS)
      end
  end.

(** ** Computations that only exchange requests with the node *)
Section OnlyRequests.

Lemma after_acts_nil w : after_acts [] w = w.
Proof. by destruct w. Qed.

Lemma after_acts_app acts acts' w :
  after_acts (acts' ++ acts) w = after_acts acts' (after_acts acts w).
Proof. unfold after_acts, set_trace. simpl. by rewrite fmap_app, <- app_assoc. Qed.

Lemma committed_after_acts acts w : committed (after_acts acts w) = committed w.
Proof. done. Qed.

Lemma only_pure {A} b (m : M A) : (forall w, (m w).2 = w) -> only_requests b m.
Proof.
  intros Hm w. exists []. rewrite Hm, after_acts_nil. repeat split; constructor.
Qed.

Lemma only_bind {A B} b (m : M A) (f : A -> M B) :
  only_requests b m -> (forall a, only_requests b (f a)) -> only_requests b (m ≫= f).
Proof.
  intros Hm Hf w. unfold mbind, M_bind.
  destruct (Hm w) as (acts & Hw & Hr & Hs). destruct (m w) as [[a|e|p] w'] eqn:E; simpl in *;
    [|by exists acts ..].
  destruct (Hf a w') as (acts' & Hw' & Hr' & Hs').
  exists (acts' ++ acts). rewrite Hw', Hw, after_acts_app.
  split; [done|]. split; [by apply Forall_app|]. intros Hb. apply Forall_app; auto.
Qed.

Lemma only_try {A} b (m : M A) : only_requests b m -> only_requests b (try m).
Proof. intros Hm w. specialize (Hm w). unfold try. by destruct (m w) as [[]]. Qed.

Lemma only_throw {A} b e : only_requests b (throw e : M A).
Proof. by apply only_pure. Qed.
Lemma only_lift {A} b (r : outcome A) : only_requests b (lift r).
Proof. by apply only_pure. Qed.
Lemma only_ret {A} b (a : A) : only_requests b (mret a).
Proof. by apply only_pure. Qed.
Lemma only_gets {A} b (f : World -> A) : only_requests b (gets f).
Proof. by apply only_pure. Qed.

Lemma only_log b method params :
  (b = false -> moves_money (ARequest method params) = false) ->
  only_requests b (log_act (ARequest method params)).
Proof.
  intros Hb w. exists [ARequest method params]. split; [done|]. split; [by repeat constructor|].
  intros. repeat constructor. auto.
Qed.

Lemma only_weaken {A} (m : M A) : only_requests false m -> only_requests true m.
Proof. intros Hm w. destruct (Hm w) as (acts & ? & ? & ?). by exists acts. Qed.

End OnlyRequests.

Create HintDb requests.
#[export] Hint Resolve only_throw only_lift only_ret only_gets only_try : requests.

Ltac solve_requests :=
  repeat first
    [ progress auto with requests
    | apply only_bind; [|intros ?]
    | apply only_log; intros ?; solve [ done | reflexivity | auto ]
    | case_match ].

Section Laws.
Context {D : DecimalLib} {BU : BtcUtil} {R : RpcLib} (n : RpcConfig).

Lemma only_btcrpc {A} method params (answer : History -> outcome A) :
  moves_money (ARequest method params) = false -> only_requests false (btcrpc method params answer).
Proof. intros H. unfold btcrpc. solve_requests. Qed.

Lemma only_post b method args params :
  (b = false -> moves_money (ARequest method args) = false) ->
  only_requests b (post_to_node n method args params).
Proof. intros H. unfold post_to_node. solve_requests. Qed.

Lemma only_send b method params :
  (b = false -> moves_money (ARequest method params) = false) ->
  only_requests b (SendRequestToNode n method params).
Proof. apply only_post. Qed.

Ltac node_call :=
  repeat first
    [ progress auto with requests
    | apply only_btcrpc; reflexivity
    | apply only_send; intros ?; first [done | reflexivity]
    | apply only_bind; [|intros ?]
    | apply only_try
    | case_match ].

Lemma only_createRaw inputs outputs : only_requests false (createRawTransaction n inputs outputs).
Proof. unfold createRawTransaction. node_call. Qed.

Lemma only_prepare address amount fee : only_requests false (prepare_fixed_fee n address amount fee).
Proof.
  unfold prepare_fixed_fee, fundRawTransaction, transformTxToSetFixedFee, decodeRawTransaction,
    encodeTransformedTransaction, signRawTransactionWithWallet.
  pose proof only_createRaw. node_call.
Qed.

(** The client keeps the promises of the interface. *)
#[export] Instance rpc_node_laws : NodeAPILaws (RpcNode n).
Proof.
  split; intros; simpl.
  - unfold CreateNewAddress. node_call.
  - unfold ListTransactionsSinceBlock. node_call.
  - unfold GetTransaction. node_call.
  - unfold SendWithPerKBFee, sendToAddress.
    apply only_bind; [apply only_weaken; node_call | intros _; node_call].
  - unfold SendWithFixedFee, sendRawTransaction.
    pose proof (only_weaken _ (only_prepare a (if b then amt else u64 (amt + fee)) fee)). node_call.
  - unfold GetAddressInfo. node_call.
  - unfold GetConfirmedAndUnconfirmedBalance, getBalance, getUnconfirmedBalance. node_call.
Qed.

End Laws.
