(* ===== verification/SendLock.v ===== *)
(** * bitcoin/nodeapi/rpc.go: the lock around the calls that move money

    The goroutines of the wallet and of the API call the node concurrently. The
    three methods that take [moneySendLock] are given as the sequence of their
    operations, a failed call jumping to the deferred unlock; [follows] ties the
    sequences to the definitions of Rpc, and a step relation interleaves them. *)
From Stdlib Require Import SpecFloat.
From S2P Require Import Prelude.
From S2P Require Import Go.
From S2P Require Import Bitcoin.
From S2P Require Import TxTypes.
From S2P Require Import EventTypes.
From S2P Require Import World.
From S2P Require Import Effects.
From S2P Require Import NodeAPI.
From S2P Require Import Rpc.
Local Open Scope Z_scope.

Inductive op := OLock | OCall (method : string) | OUnlock.

Inductive request := ReqPerKBFee | ReqFixedFee | ReqBalance.

(** The calls of [SendWithPerKBFee], [SendWithFixedFee] and
    [GetConfirmedAndUnconfirmedBalance] *)
Definition prepare_calls : list string :=
  ["createrawtransaction"; "fundrawtransaction"; "decoderawtransaction";
   "createrawtransaction"; "signrawtransactionwithwallet"].

Definition calls_of (r : request) : list string :=
  match r with
  | ReqPerKBFee => ["settxfee"; "sendtoaddress"]
  | ReqFixedFee => prepare_calls ++ ["sendrawtransaction"]
  | ReqBalance => ["getbalance"; "getunconfirmedbalance"]
  end.

Definition ops_of (r : request) : list op := [OLock] ++ (OCall <$> calls_of r) ++ [OUnlock].

(** A deferred [Unlock] runs after a failed call too. *)
Fixpoint skip_to_unlock (p : list op) : list op :=
  match p with
  | OCall _ :: p' => skip_to_unlock p'
  | _ => p
  end.

Record LockState := mkLockState {
  holder : option nat;
  threads : list (list op);            (* what each goroutine still has to do *)
  calls : list (nat * string);         (* what the node received, in order *)
}.

Inductive lock_step (s : LockState) : LockState -> Prop :=
| step_lock t p :
    threads s !! t = Some (OLock :: p) -> holder s = None ->
    lock_step s (mkLockState (Some t) (<[t := p]> (threads s)) (calls s))
| step_call t m p :
    threads s !! t = Some (OCall m :: p) ->
    lock_step s (mkLockState (holder s) (<[t := p]> (threads s)) (calls s ++ [(t, m)]))
| step_call_fails t m p :
    threads s !! t = Some (OCall m :: p) ->
    lock_step s (mkLockState (holder s) (<[t := skip_to_unlock p]> (threads s))
                   (calls s ++ [(t, m)]))
| step_unlock t p :
    threads s !! t = Some (OUnlock :: p) ->
    lock_step s (mkLockState None (<[t := p]> (threads s)) (calls s)).

Definition lock_start (programs : list (list request)) : LockState :=
  mkLockState None ((fun rs => rs ≫= ops_of) <$> programs) [].

(** ** The sequences are those of the code *)
Definition act_method (a : Act) : string :=
  match a with ARequest method _ => method | _ => "" end.

(** [m] calls the listed methods in order, all of them if it succeeds. *)
Definition follows {A} (methods : list string) (m : M A) : Prop :=
  forall w, exists acts,
    (m w).2 = after_acts acts w /\
    reverse (act_method <$> acts) `prefix_of` methods /\
    (is_ok (m w).1 -> reverse (act_method <$> acts) = methods).

Section Follows.

Lemma follows_pure {A} (m : M A) : (forall w, (m w).2 = w) -> follows [] m.
Proof. intros Hm w. exists []. by rewrite Hm, after_acts_nil. Qed.

Lemma follows_bind {A B} l k (m : M A) (f : A -> M B) :
  follows l m -> (forall a, follows k (f a)) -> follows (l ++ k) (m ≫= f).
Proof.
  intros Hm Hf w. unfold mbind, M_bind.
  destruct (Hm w) as (acts & Hw & Hp & Hok). destruct (m w) as [[a|e|p] w']; simpl in *.
  - destruct (Hf a w') as (acts' & Hw' & Hp' & Hok'). exists (acts' ++ acts).
    subst w'. rewrite Hw', after_acts_app, fmap_app, reverse_app, (Hok I).
    split; [done|]. split; [by apply prefix_app|]. intros Hk. by rewrite (Hok' Hk).
  - exists acts. split; [done|]. split; [by apply prefix_app_r | done].
  - exists acts. split; [done|]. split; [by apply prefix_app_r | done].
Qed.

(** A pure end of a computation *)
Lemma follows_end {A B} l (m : M A) (f : A -> M B) :
  follows l m -> (forall a w, (f a w).2 = w) -> follows l (m ≫= f).
Proof.
  intros Hm Hf. rewrite <- (app_nil_r l). apply follows_bind; [done|].
  intros a. by apply follows_pure.
Qed.

Lemma follows_start {A B} l (m : M A) (f : A -> M B) :
  (forall w, (m w).2 = w) -> (forall a, follows l (f a)) -> follows l (m ≫= f).
Proof. intros Hm Hf. apply (follows_bind [] l); [by apply follows_pure | done]. Qed.

Lemma follows_try_wrap {A B} l (m : M A) (f : A + error -> M B) k :
  follows l m -> (forall a, follows k (f (inl a))) ->
  (forall e w, (f (inr e) w).2 = w /\ ~ is_ok (f (inr e) w).1) ->
  follows (l ++ k) (try m ≫= f).
Proof.
  intros Hm Hf He w. specialize (follows_bind l k m (fun a => f (inl a)) Hm Hf w).
  unfold mbind, M_bind, try. destruct (Hm w) as (acts & Hw & Hp & _).
  destruct (m w) as [[a|e|p] w']; simpl in *; try done.
  intros _. exists acts. destruct (He e w') as [-> Hno].
  split; [done|]. split; [by apply prefix_app_r | done].
Qed.

Context {D : DecimalLib} {BU : BtcUtil} {R : RpcLib} (n : RpcConfig).

Lemma follows_btcrpc {A} method params (answer : History -> outcome A) :
  follows [method] (btcrpc method params answer).
Proof. intros w. exists [ARequest method params]. done. Qed.

Lemma follows_send method params : follows [method] (SendRequestToNode n method params).
Proof.
  intros w. unfold SendRequestToNode, post_to_node.
  destruct (negb _); [by exists []; rewrite after_acts_nil; repeat split; try apply prefix_nil|].
  destruct (negb _); [by exists []; rewrite after_acts_nil; repeat split; try apply prefix_nil|].
  by exists [ARequest method params].
Qed.

Ltac follow_call := apply follows_end; [apply follows_send | done].

(** Every method calls the node as its sequence says. *)
Lemma follows_SendWithPerKBFee address amount fee b :
  follows (calls_of ReqPerKBFee) (SendWithPerKBFee n address amount fee b).
Proof.
  apply (follows_bind ["settxfee"]); [apply follows_btcrpc|]. intros _. follow_call.
Qed.

Lemma follows_balance : follows (calls_of ReqBalance) (GetConfirmedAndUnconfirmedBalance n).
Proof.
  apply (follows_bind ["getbalance"]); [apply follows_end; [apply follows_btcrpc | done]|].
  intros conf. apply follows_end; [|done].
  apply (follows_bind ["getunconfirmedbalance"] []); [apply follows_send|]. intros body.
  apply follows_pure. intros w. unfold mbind, M_bind, lift.
  by destruct (unmarshal_response _ _) as [[]| |]; simpl; [destruct (NewAmount _)| | |].
Qed.

Lemma follows_prepare address amount fee :
  follows prepare_calls (prepare_fixed_fee n address amount fee).
Proof.
  apply (follows_bind ["createrawtransaction"]); [follow_call|]. intros rawTx.
  apply (follows_bind ["fundrawtransaction"]); [follow_call|]. intros funded.
  apply (follows_bind ["decoderawtransaction"]).
  { apply follows_start; [done|]. intros f. apply (follows_try_wrap ["decoderawtransaction"] _ _ []).
    - apply follows_start; [done|]. intros. apply follows_btcrpc.
    - intros. by apply follows_pure.
    - intros e w. split; [done|]. by intros []. }
  intros tx. apply (follows_bind ["createrawtransaction"]).
  { apply follows_start; [done|]. intros. follow_call. }
  intros encoded. apply (follows_bind ["signrawtransactionwithwallet"] []); [apply follows_send|].
  intros body. apply follows_pure. intros w. unfold mbind, M_bind, lift.
  by destruct (unmarshal_response _ _) as [[[]|]| |].
Qed.

Lemma follows_SendWithFixedFee address amount fee b :
  follows (calls_of ReqFixedFee) (SendWithFixedFee n address amount fee b).
Proof.
  unfold SendWithFixedFee. destruct (b && _).
  { intros w. exists []. rewrite after_acts_nil. repeat split; [apply prefix_nil | by intros []]. }
  apply (follows_bind prepare_calls ["sendrawtransaction"]); [apply follows_prepare|]. intros signed. follow_call.
Qed.

End Follows.

(** ** Mutual exclusion
    The calls of the three methods reach the node in blocks, one per method called. *)
Section Exclusion.

Definition block_calls (b : nat * list string) : list (nat * string) := (fun m => (b.1, m)) <$> b.2.

Definition block_ok (b : nat * list string) : Prop := exists r, b.2 `prefix_of` calls_of r.

(** What thread [t] still has to do when it holds the lock, having made the calls [done]. *)
Definition in_section (p : list op) (made : list string) : Prop :=
  exists r todo rest, p = (OCall <$> todo) ++ [OUnlock] ++ (rest ≫= ops_of) /\
    made `prefix_of` calls_of r /\ (todo <> [] -> made ++ todo = calls_of r).

Record lock_inv (s : LockState) : Prop := {
  inv_blocks : exists blocks, calls s = blocks ≫= block_calls /\ Forall block_ok blocks /\
    forall t, holder s = Some t -> exists before made,
      blocks = before ++ [(t, made)] /\ exists p, threads s !! t = Some p /\ in_section p made;
  inv_outside : forall t p, threads s !! t = Some p -> holder s <> Some t ->
    exists rest, p = rest ≫= ops_of;
}.

Lemma outside_head rest p o :
  (rest : list request) ≫= ops_of = o :: p ->
  o = OLock /\ exists r rest', rest = r :: rest' /\
    p = (OCall <$> calls_of r) ++ [OUnlock] ++ (rest' ≫= ops_of).
Proof.
  destruct rest as [|r rest']; [done|]. intros H. simpl in H. injection H as <- <-.
  split; [done|]. exists r, rest'. by rewrite <- app_assoc.
Qed.

Lemma skip_calls todo p : skip_to_unlock ((OCall <$> todo) ++ OUnlock :: p) = OUnlock :: p.
Proof. by induction todo. Qed.

Lemma lock_inv_start programs : lock_inv (lock_start programs).
Proof.
  split; simpl.
  - exists []. by split_and!.
  - intros t p Hp _. apply list_lookup_fmap_Some in Hp as (rs & -> & _). by exists rs.
Qed.

Lemma block_snoc bs t made m :
  (bs ++ [(t, made ++ [m])]) ≫= block_calls = ((bs ++ [(t, made)]) ≫= block_calls) ++ [(t, m)].
Proof.
  rewrite !bind_app. simpl. rewrite !app_nil_r, <- app_assoc. f_equal.
  unfold block_calls. simpl. by rewrite fmap_app.
Qed.

(** A thread in the middle of a method holds the lock. *)
Lemma call_holder s t m p :
  lock_inv s -> threads s !! t = Some (OCall m :: p) -> holder s = Some t.
Proof.
  intros [_ Hout] Ht. destruct (decide (holder s = Some t)) as [|Hn]; [done|].
  destruct (Hout _ _ Ht Hn) as (rest & Hr). by apply eq_sym, outside_head in Hr as [? _].
Qed.

(** The call [m] of the holder, which then continues with [p']. *)
Lemma lock_inv_call s t m p p' :
  lock_inv s -> threads s !! t = Some (OCall m :: p) -> p' = p \/ p' = skip_to_unlock p ->
  lock_inv (mkLockState (holder s) (<[t := p']> (threads s)) (calls s ++ [(t, m)])).
Proof.
  intros Hinv Ht Hp'. pose proof (call_holder _ _ _ _ Hinv Ht) as Hh.
  destruct Hinv as [(blocks & Hc & Hok & Hhold) Hout].
  destruct (Hhold _ Hh) as (before & made & -> & p0 & Hp0 & r & todo & rest & Heq & Hpre & Htodo).
  rewrite Ht in Hp0. injection Hp0 as <-.
  destruct todo as [|m' todo]; [done|]. injection Heq as <- ->. specialize (Htodo ltac:(done)).
  assert (Hpre' : made ++ [m] `prefix_of` calls_of r).
  { rewrite <- Htodo. apply prefix_app. by exists todo. }
  split; simpl.
  - exists (before ++ [(t, made ++ [m])]). rewrite block_snoc, Hc. split; [done|].
    apply Forall_app in Hok as [Hok _]. split; [apply Forall_app; repeat constructor; [done | by exists r]|].
    intros t' Ht'. assert (t' = t) as -> by congruence. exists before, (made ++ [m]). split; [done|].
    exists p'. rewrite list_lookup_insert_eq by by eapply lookup_lt_Some. split; [done|].
    destruct Hp' as [-> | ->].
    + exists r, todo, rest. rewrite <- app_assoc. by split_and!.
    + exists r, [], rest. rewrite skip_calls. by split_and!.
  - intros t' q Hq Hn. assert (t <> t') by congruence.
    rewrite list_lookup_insert_ne in Hq by done. by apply Hout in Hq.
Qed.

Lemma lock_inv_step s s' : lock_inv s -> lock_step s s' -> lock_inv s'.
Proof.
  intros Hinv Hstep. destruct Hstep as [t p Ht Hh | t m p Ht | t m p Ht | t p Ht].
  - destruct Hinv as [(blocks & Hc & Hok & _) Hout].
    destruct (Hout _ _ Ht) as (rest & Hr); [by rewrite Hh|].
    apply eq_sym, outside_head in Hr as (_ & r & rest' & -> & ->). split; simpl.
    + exists (blocks ++ [(t, [])]). rewrite bind_app, app_nil_r. split; [done|].
      split; [apply Forall_app; repeat constructor; [done | exists r; apply prefix_nil]|].
      intros t' [= <-]. exists blocks, []. split; [done|]. eexists.
      rewrite list_lookup_insert_eq by by eapply lookup_lt_Some. split; [done|].
      exists r, (calls_of r), rest'. split; [done|]. by split; [apply prefix_nil|].
    + intros t' q Hq Hn. assert (t <> t') by congruence.
      rewrite list_lookup_insert_ne in Hq by done. apply (Hout _ _ Hq). by rewrite Hh.
  - eapply lock_inv_call; eauto.
  - eapply lock_inv_call; eauto.
  - assert (Hh : holder s = Some t).
    { destruct Hinv as [_ Hout]. destruct (decide (holder s = Some t)) as [|Hn]; [done|].
      destruct (Hout _ _ Ht Hn) as (rest & Hr). by apply eq_sym, outside_head in Hr as [? _]. }
    destruct Hinv as [(blocks & Hc & Hok & Hhold) Hout]. split; simpl; [by exists blocks; split_and!|].
    intros t' q Hq _. destruct (decide (t = t')) as [<-|Hne].
    + rewrite list_lookup_insert_eq in Hq by by eapply lookup_lt_Some. injection Hq as <-.
      destruct (Hhold _ Hh) as (_ & made & _ & p0 & Hp0 & r & todo & rest & Heq & _).
      rewrite Ht in Hp0. injection Hp0 as <-. destruct todo; [|done]. injection Heq as ->. by exists rest.
    + rewrite list_lookup_insert_ne in Hq by done. apply (Hout _ _ Hq). congruence.
Qed.

Lemma lock_inv_reachable programs s : rtc lock_step (lock_start programs) s -> lock_inv s.
Proof.
  intros H. pose proof (lock_inv_start programs) as Hinv. induction H as [|s s' s'' Hs _ IH]; [done|].
  apply IH. by eapply lock_inv_step.
Qed.

(** In a block, a payment with a fee rate follows the call that sets the rate. *)
Lemma block_fee b a c :
  block_ok b -> b.2 = a ++ "sendtoaddress" :: c -> exists a', a = a' ++ ["settxfee"].
Proof.
  intros [r Hpre] E. rewrite E in Hpre. destruct Hpre as [rest Hr]. destruct r; simpl in Hr.
  all: repeat (destruct a as [|? a]; simplify_eq/=; try done).
  by exists [].
Qed.

Lemma blocks_fee blocks l1 t l2 :
  Forall block_ok blocks -> blocks ≫= block_calls = l1 ++ (t, "sendtoaddress") :: l2 ->
  exists l0, l1 = l0 ++ [(t, "settxfee")].
Proof.
  intros Hok. revert l1. induction Hok as [|b blocks Hb _ IH]; intros l1 H; simpl in H.
  { by destruct l1. }
  apply app_eq_app in H as (l & [[Hl H] | [-> H]]).
  - destruct l as [|x l]; simpl in H.
    + apply eq_sym, (IH []) in H as (l0 & Hl0). by destruct l0.
    + injection H as <- ->. unfold block_calls in Hl.
      apply fmap_app_inv in Hl as (a & k & -> & Hk & Hb').
      apply eq_sym, fmap_cons_inv in Hk as (m & c & [= -> <-] & -> & ->).
      destruct (block_fee b a c Hb Hb') as (a' & ->). rewrite fmap_app. by eexists.
  - destruct (IH _ H) as (l0 & ->). exists (block_calls b ++ l0). by rewrite app_assoc.
Qed.


End Exclusion.

