(* ===== verification/Settings.v ===== *)
(** * settings: the configuration file and the command line

    viper and cobra are parameters, and so is [url.ParseRequestURI]: [ViperLib] has
    the calls that the code makes, [ViperLaws] what viper documents of them (a flag given
    on the command line comes before the configuration file, that before the defaults,
    those before the default value of a flag). [log.Fatalf] ends the process: a panic
    that nothing recovers. *)
From Stdlib Require Import SpecFloat.
From S2P Require Import Prelude.
From S2P Require Import Go.
From S2P Require Import Json.
From S2P Require Import Bitcoin.
From S2P Require Import TxTypes.
From S2P Require Import Rpc.
Local Open Scope Z_scope.

(** The values that the code gives to viper *)
Inductive SettingValue :=
| SettingString (s : string)
| SettingFloat (f : float64)
| SettingInt (z : Z)
| SettingBool (b : bool).

(** A flag of the command line: its value, and whether it was given *)
Record Flag := mkFlag { flag_Value : string; flag_Changed : bool }.

(** [cli.Flags().Lookup]: [None] is a nil flag. *)
Definition FlagSet := string -> option Flag.

(** The string flags that a program defines, with their defaults, when [given] is what the
    command line gave *)
Definition string_flags (defaults : list (string * string)) (given : string -> option string)
    : FlagSet := fun name =>
  '(_, dflt) ← find_first (fun d => bool_decide (d.1 = name)) defaults;
  Some (match given name with Some x => mkFlag x true | None => mkFlag dflt false end).

Class ViperLib := {
  Viper : Type;
  viper_New : Viper;
  viper_SetConfigFile : string -> Viper -> Viper;
  viper_AddConfigPath : string -> Viper -> Viper;
  viper_SetConfigName : string -> Viper -> Viper;
  viper_ReadInConfig : Viper -> outcome Viper;
  viper_BindPFlag : string -> option Flag -> Viper -> Viper;
  viper_SetDefault : string -> SettingValue -> Viper -> Viper;
  viper_GetString : Viper -> string -> string;
  viper_GetInt : Viper -> string -> Z;
  viper_GetInt64 : Viper -> string -> Z;
  viper_GetBool : Viper -> string -> bool;
  viper_ConfigFileUsed : Viper -> string;
  url_ParseRequestURI : string -> outcome unit;
}.

Record Settings `{ViperLib} := mkSettings { s_cfgFile : string; s_viper : Viper }.

Section Settings.
Context {V : ViperLib} {D : DecimalLib} {BU : BtcUtil}.

(** ** config.go *)
Definition bind_flags (cli : FlagSet) (v : Viper) : Viper :=
  viper_BindPFlag "storage.type" (cli "storage-type") $
  viper_BindPFlag "api.http.address" (cli "http-address") $
  viper_BindPFlag "transaction.callback.url" (cli "transaction-callback-url") v.

(** The decimal constants as the nearest [float64] *)
Definition default_settings : list (string * SettingValue) :=
  [ ("http.address", SettingString "127.0.0.1:8000");
    ("bitcoin.node.tls", SettingBool false);
    ("bitcoin.poll_interval", SettingInt 3000);
    ("transaction.max_confirmations", SettingInt 6);
    ("wallet.min_withdraw", SettingFloat (float_of_decimal false 6 (-6)));
    ("wallet.min_fee.per_kb", SettingFloat MinimalFeeRateBTC);
    ("wallet.min_fee.fixed", SettingFloat (float_of_decimal false 5 (-6)));
    ("wallet.min_withdraw_without_manual_confirmation", SettingFloat (S754_zero false));
    ("transaction.callback.backoff", SettingInt 100);
    ("wallet.allow_withdrawal_without_id", SettingBool true) ].

Definition set_defaults (v : Viper) : Viper :=
  foldl (fun v d => viper_SetDefault d.1 d.2 v) v default_settings.

Definition initConfig (cli : FlagSet) (v : Viper) : Viper := set_defaults (bind_flags cli v).

Definition GetString (s : Settings) (key : string) : string := viper_GetString (s_viper s) key.
Definition GetInt (s : Settings) (key : string) : Z := viper_GetInt (s_viper s) key.
Definition GetInt64 (s : Settings) (key : string) : Z := viper_GetInt64 (s_viper s) key.
Definition GetBool (s : Settings) (key : string) : bool := viper_GetBool (s_viper s) key.

Definition GetURL (s : Settings) (key : string) : outcome string :=
  let urlValue := viper_GetString (s_viper s) key in
  match url_ParseRequestURI urlValue with
  | Ok _ => Ok urlValue
  | _ => Panic (key +:+ " should be set to a valid URL.")
  end.

Definition GetStringMandatory (s : Settings) (key : string) : outcome string :=
  let value := viper_GetString (s_viper s) key in
  if decide (value = "") then Panic ("Error: setting " +:+ key +:+ " is required") else Ok value.

Definition GetBTCAmount (s : Settings) (key : string) : outcome BTCAmount :=
  match BTCAmountFromStringedFloat (viper_GetString (s_viper s) key) with
  | Err _ => Panic ("Error converting value of setting " +:+ key +:+ " to bitcoin amount")
  | r => r
  end.

Definition ConfigFileUsed (s : Settings) : string := viper_ConfigFileUsed (s_viper s).

(** ** settings.go: the settings are returned with the error too *)
Definition NewSettings (cfgFile : string) (cli : FlagSet) : Settings * option error :=
  let v :=
    if decide (cfgFile <> "") then viper_SetConfigFile cfgFile viper_New
    else viper_SetConfigName "config" $ viper_AddConfigPath "." $
         viper_AddConfigPath "/etc/bitcoin-processing" viper_New in
  match viper_ReadInConfig v with
  | Ok v' => (mkSettings _ cfgFile (initConfig cli v'), None)
  | Err e => (mkSettings _ cfgFile v, Some e)
  | Panic p => (mkSettings _ cfgFile v, Some (ErrMsg p))
  end.

(** ** cli.go
    [given] is what cobra parsed from the command line; a missing configuration is fatal. *)
Definition processing_flags : (string -> option string) -> FlagSet :=
  string_flags [("config-file", ""); ("transaction-callback-url", ""); ("http-address", "");
                ("storage-type", "")].

Definition ReadSettingsAndRun {A} (given : string -> option string)
    (funcToRun : Settings -> outcome A) : outcome A :=
  let cfgFile := default "" (given "config-file") in
  match NewSettings cfgFile (processing_flags given) with
  | (s, None) => funcToRun s
  | (_, Some _) => Panic "Can't read config"
  end.

End Settings.

(** ** Laws of viper *)
Class ViperLaws (V : ViperLib) := {
  v_given : Viper -> string -> option SettingValue;    (* by a given flag, or the file *)
  v_default : Viper -> string -> option SettingValue;
  v_flag_default : Viper -> string -> option string;
  v_to_string : SettingValue -> string;
  v_string s : v_to_string (SettingString s) = s;
  v_GetString v key :
    viper_GetString v key =
    match v_given v key, v_default v key, v_flag_default v key with
    | Some x, _, _ | None, Some x, _ => v_to_string x
    | None, None, Some s => s
    | None, None, None => ""
    end;
  v_New key : v_default viper_New key = None /\ v_flag_default viper_New key = None;
  v_config_source s key v :
    let same v' := v_default v' key = v_default v key /\ v_flag_default v' key = v_flag_default v key in
    same (viper_SetConfigFile s v) /\ same (viper_AddConfigPath s v) /\ same (viper_SetConfigName s v);
  v_ReadInConfig v v' key :
    viper_ReadInConfig v = Ok v' ->
    v_default v' key = v_default v key /\ v_flag_default v' key = v_flag_default v key;
  v_SetDefault k x v key :
    v_given (viper_SetDefault k x v) key = v_given v key /\
    v_default (viper_SetDefault k x v) key = (if decide (key = k) then Some x else v_default v key) /\
    v_flag_default (viper_SetDefault k x v) key = v_flag_default v key;
  v_BindPFlag k f v key :
    v_given (viper_BindPFlag k (Some f) v) key =
      (if decide (key = k /\ flag_Changed f = true) then Some (SettingString (flag_Value f))
       else v_given v key) /\
    v_default (viper_BindPFlag k (Some f) v) key = v_default v key /\
    v_flag_default (viper_BindPFlag k (Some f) v) key =
      (if decide (key = k) then Some (flag_Value f) else v_flag_default v key);
  v_BindPFlag_nil k v : viper_BindPFlag k None v = v;
}.
