(* ===== verification/WalletBase.v ===== *)
(** * wallet: the wallet object, accounts, hot and cold wallet addresses

    wallet.go, dbtransaction.go, accounts.go, info.go, integrity.go, hotwallet.go,
    coldwallet.go and notify.go of src/wallet. A [Wallet] bound to a database
    transaction is the same wallet whose storage and broker run in it: the
    methods that are called on such a wallet take the executor. *)
From S2P Require Import Prelude.
From S2P Require Import Go.
From S2P Require Import Bitcoin.
From S2P Require Import TxTypes.
From S2P Require Import EventTypes.
From S2P Require Import World.
From S2P Require Import Effects.
From S2P Require Import Storage.
From S2P Require Import WalletStorage.
From S2P Require Import EventStorage.
From S2P Require Import Broadcaster.
From S2P Require Import Broker.
From S2P Require Import NodeAPI.
Local Open Scope Z_scope.

Definition internalQueueSize : Z := 10000.

(** The settings that [NewWallet], [initHotWallet] and [initColdWallet] read. *)
Class WalletConfig := {
  minWithdraw : BTCAmount;
  minFeePerKb : BTCAmount;
  minFeeFixed : BTCAmount;
  minWithdrawWithoutManualConfirmation : BTCAmount;
  maxConfirmations : Z;
  setting_hot_wallet_address : string;
  setting_cold_wallet_address : string;
}.

(** The fields that [NewWallet] makes. *)
Definition NewWallet : WalletProc := {|
  wp_hotWalletAddress := ""; wp_coldWalletAddress := "";
  wp_manualConfirmationCount := 0; wp_blockchainConfirmationCount := 0;
  wp_externalTxNotifications := 0; wp_pendingTxUpdateTrigger := 0; wp_timers := [];
|}.

(** ** Field assignments of walletData *)
Section WalletFields.

Definition upd_wallet (f : WalletProc -> WalletProc) : M unit :=
  modify (fun w => set_wallet_proc (f (wallet_proc w)) w).

Definition set_hot a (p : WalletProc) : WalletProc :=
  mkWalletProc a (wp_coldWalletAddress p) (wp_manualConfirmationCount p)
    (wp_blockchainConfirmationCount p) (wp_externalTxNotifications p)
    (wp_pendingTxUpdateTrigger p) (wp_timers p).
Definition set_cold a (p : WalletProc) : WalletProc :=
  mkWalletProc (wp_hotWalletAddress p) a (wp_manualConfirmationCount p)
    (wp_blockchainConfirmationCount p) (wp_externalTxNotifications p)
    (wp_pendingTxUpdateTrigger p) (wp_timers p).
Definition set_manual n (p : WalletProc) : WalletProc :=
  mkWalletProc (wp_hotWalletAddress p) (wp_coldWalletAddress p) n
    (wp_blockchainConfirmationCount p) (wp_externalTxNotifications p)
    (wp_pendingTxUpdateTrigger p) (wp_timers p).
Definition set_blockchain n (p : WalletProc) : WalletProc :=
  mkWalletProc (wp_hotWalletAddress p) (wp_coldWalletAddress p)
    (wp_manualConfirmationCount p) n (wp_externalTxNotifications p)
    (wp_pendingTxUpdateTrigger p) (wp_timers p).
Definition set_wallet_triggers ext pend (p : WalletProc) : WalletProc :=
  mkWalletProc (wp_hotWalletAddress p) (wp_coldWalletAddress p)
    (wp_manualConfirmationCount p) (wp_blockchainConfirmationCount p) ext pend (wp_timers p).
Definition add_wallet_timer t (p : WalletProc) : WalletProc :=
  mkWalletProc (wp_hotWalletAddress p) (wp_coldWalletAddress p)
    (wp_manualConfirmationCount p) (wp_blockchainConfirmationCount p)
    (wp_externalTxNotifications p) (wp_pendingTxUpdateTrigger p) (wp_timers p ++ [t]).

End WalletFields.

Section WalletBase.
Context {E : Env} {ST : Storage} {ES : EventStorage} {N : NodeAPI} {CFG : WalletConfig}.

(** ** dbtransaction.go *)
Definition MakeTransactIfAvailable_wallet {A} (f : Exec -> M A) : M A :=
  MakeTransactIfAvailable GetDB f.

(** ** notify.go *)
Definition notification_of (tx : Transaction) : TxNotification :=
  {| tn_Transaction := tx;
     tn_StatusCode := ToCoinpaymentsLikeCode (tx_Status tx);
     tn_StatusStr := Status_String (tx_Status tx);
     tn_IpnType := ToCoinpaymentsLikeType (tx_Direction tx);
     tn_Currency := "BTC";
     tn_IpnID := uuid_String (tx_ID tx);
     tn_Seq := 0 |}.

Definition NotifyTransaction (ex : Exec) (eventType : EventType) (tx : Transaction) : M unit :=
  Notify ex eventType (DataTxNotification (notification_of tx)).

(** ** accounts.go *)
Definition generateNewAddress : M string := CreateNewAddress.

Definition CreateAccount (metainfo : json) : M Account :=
  address ← generateNewAddress;
  let account := mkAccount address metainfo in
  MakeTransactIfAvailable_wallet (fun ex =>
    StoreAccount ex account ;;
    Notify ex NewAddressEvent (DataAccount account)) ;;
  SendNotifications ;;
  mret account.

(** ** info.go *)
Definition GetTransactionsWithFilter_wallet (directionFilter statusFilter : string)
    : M (list loc) :=
  GetTransactionsWithFilter OnDB directionFilter statusFilter.

Definition GetBalance : M (BTCAmount * BTCAmount) :=
  '(conf, unconf) ← GetConfirmedAndUnconfirmedBalance;
  mret (conf, u64 (conf + unconf)).

Definition GetMoneyRequiredFromColdStorage_wallet : M BTCAmount :=
  GetMoneyRequiredFromColdStorage OnDB.

(** ** integrity.go: a lock left in the database stops the program *)
Definition Check_wallet : M unit :=
  r ← try (CheckWalletLock OnDB);
  match r with
  | inr _ => panic "failed to check the wallet lock"
  | inl (ok, operation) =>
      if ok : bool then mret tt
      else panic "FATAL: refusing to start processing because it was interrupted during wallet operation and left in an inconsistent state."
  end.

(** ** hotwallet.go *)
Definition generateHotWalletAddress : M string :=
  r ← try generateNewAddress;
  match r with
  | inr err => throw (ErrWrap "Error generating hot wallet address " err)
  | inl newHotWalletAddress =>
      s ← try (setHotWalletAddress OnDB newHotWalletAddress);
      match s with
      | inr err => throw (ErrWrap "Error storing generated hot wallet address " err)
      | inl _ => mret newHotWalletAddress
      end
  end.

Definition getOrCreateHotWallet : M string :=
  let addressFromSettings := setting_hot_wallet_address in
  if decide (addressFromSettings <> "") then mret addressFromSettings
  else
    r ← try (GetHotWalletAddress OnDB);
    let create :=
      g ← try generateHotWalletAddress;
      match g with inl a => mret a | inr _ => panic "Error generating hot wallet address" end in
    match r with
    | inl addressFromStorage =>
        if decide (addressFromStorage <> "") then mret addressFromStorage else panic "nil"
    | inr ErrHotWalletAddressNotGeneratedYet => create
    | inr _ => panic "failed to load hot wallet address"
    end.

Definition checkHotWalletAddress : M unit :=
  p ← gets wallet_proc;
  r ← try (GetAddressInfo (wp_hotWalletAddress p));
  match r with
  | inr _ => panic "Error: failed to check hot wallet address"
  | inl addressInfo =>
      if ai_IsMine addressInfo then mret tt
      else panic "Error checking hot wallet address: address does not belong to wallet"
  end.

Definition GetHotWalletAddress_wallet : M string := gets (wp_hotWalletAddress ∘ wallet_proc).

Definition initHotWallet : M unit :=
  address ← getOrCreateHotWallet;
  upd_wallet (set_hot address) ;;
  checkHotWalletAddress.

(** ** coldwallet.go *)
Definition initColdWallet : M unit :=
  upd_wallet (set_cold setting_cold_wallet_address) ;;
  if decide (setting_cold_wallet_address = "") then mret tt
  else
    r ← try (GetAddressInfo setting_cold_wallet_address);
    match r with
    | inr _ => panic "Error: failed to check cold wallet address"
    | inl addressInfo =>
        if ai_IsMine addressInfo
        then panic "Error: configured cold wallet address belongs to current wallet."
        else mret tt
    end.

End WalletBase.
