(* ===== verification/TestEnv.v ===== *)
(** * A concrete environment

    Executable instances of the parameters of the model (the decimal, btcutil and
    uuid libraries, the order of unordered rows, the drawn UUIDs), with the proof
    that they satisfy the stated laws, and an empty initial state. The witnesses
    of the development evaluate the program in it. *)
From Stdlib Require Import QArith Qpower SpecFloat Ascii DecimalString DecimalZ.
From S2P Require Import Prelude.
From S2P Require Import Go.
From S2P Require Import Bitcoin.
From S2P Require Import TxTypes.
From S2P Require Import EventTypes.
From S2P Require Import World.
From S2P Require Import Effects.
From S2P Require Import Storage.
From S2P Require Import Broadcaster.
From S2P Require Import Broker.
From S2P Require Import NodeAPI.
From S2P Require Import WalletBase.
Local Open Scope Z_scope.

(** ** Decimals as a coefficient and a power of ten, printed [<coef>e<exp>] *)
Section TestDecimal.

Fixpoint cut_e (s : string) : option (string * string) :=
  match s with
  | EmptyString => None
  | String c s' =>
      if decide (c = "e"%char) then Some ("", s')
      else p ← cut_e s'; Some (String c p.1, p.2)
  end.

Definition test_parse_int (s : string) : option Z :=
  d ← NilZero.int_of_string s; Some (Z.of_int d).

(** A number with a decimal point, as people write it *)
Fixpoint cut_point (s : string) : string * string :=
  match s with
  | EmptyString => ("", "")
  | String c s' =>
      if decide (c = "."%char) then ("", s') else let p := cut_point s' in (String c p.1, p.2)
  end.

Definition test_parse_point (s : string) : option (Z * Z) :=
  let p := cut_point s in
  c ← test_parse_int (p.1 +:+ p.2); Some (c, - Z.of_nat (String.length p.2)).

Definition scaled_float (c e : Z) : float64 :=
  let pos z := binary_normalize 53 1024 z 0 false in
  if decide (0 <= e) then pos (c * 10 ^ e)
  else SFdiv 53 1024 (pos c) (pos (10 ^ (- e))).

Definition sign (s : bool) (m : Z) : Z := if s then - m else m.

#[local] Instance test_decimal : DecimalLib := {|
  decimal := Z * Z;
  dec_New v e := (v, e);
  dec_String d := itoa d.1 +:+ "e" +:+ itoa d.2;
  dec_Float64 d := (scaled_float d.1 d.2, false);
  dec_NewFromFloat f :=
    match f with
    | S754_zero _ => Some (0, 0)
    | S754_finite s m e =>
        if decide (0 <= e) then Some (sign s (Zpos m * 2 ^ e), 0)
        else Some (sign s (Zpos m * 5 ^ (- e)), e)
    | _ => None
    end;
  dec_NewFromString s :=
    match cut_e s with
    | Some p => c ← test_parse_int p.1; e ← test_parse_int p.2; Some (c, e)
    | None => test_parse_point s
    end;
  dec_Mul a b := (a.1 * b.1, a.2 + b.2);
  dec_IntPart d :=
    i64 (if decide (0 <= d.2) then d.1 * 10 ^ d.2 else Z.quot d.1 (10 ^ (- d.2)));
|}.

Lemma cut_e_uint d s : cut_e (NilEmpty.string_of_uint d +:+ String "e" s) =
                       Some (NilEmpty.string_of_uint d, s).
Proof. induction d; simpl; [done | rewrite IHd; done ..]. Qed.

Lemma cut_e_zero d s : cut_e (NilZero.string_of_uint d +:+ String "e" s) =
                       Some (NilZero.string_of_uint d, s).
Proof. destruct d; [done | apply cut_e_uint ..]. Qed.

Lemma cut_e_itoa z s : cut_e (itoa z +:+ String "e" s) = Some (itoa z, s).
Proof.
  unfold itoa. destruct (Z.to_int z); simpl; [apply cut_e_zero|].
  by rewrite cut_e_zero.
Qed.

Lemma test_parse_itoa z : test_parse_int (itoa z) = Some z.
Proof. unfold test_parse_int. rewrite int_of_string_itoa. simpl. by rewrite DecimalZ.of_to. Qed.

Definition test_val (d : Z * Z) : Q := (inject_Z d.1 * Qpower 10 d.2)%Q.

Lemma Qpower_10 n : 0 <= n -> (Qpower 10 n == inject_Z (10 ^ n))%Q.
Proof.
  intros Hn. change 10%Q with (inject_Z 10). apply Qeq_sym, Zpower_Qpower. lia.
Qed.

(** The integer value of a decimal determines its integer part. *)
Lemma test_val_int d z :
  (test_val d == inject_Z z)%Q ->
  (if decide (0 <= d.2) then d.1 * 10 ^ d.2 else Z.quot d.1 (10 ^ (- d.2))) = z.
Proof.
  destruct d as [c e]. unfold test_val; simpl. intros H. case_decide as He.
  - rewrite (Qpower_10 e He), <- inject_Z_mult in H. exact (proj1 (inject_Z_injective _ _) H).
  - assert (Hc : (inject_Z c == inject_Z (z * 10 ^ (- e)))%Q).
    { rewrite inject_Z_mult, <- Qpower_10 by lia.
      rewrite <- H, <- Qmult_assoc, <- Qpower_plus by done.
      replace (e + - e) with 0 by lia. simpl. by rewrite Qmult_1_r. }
    apply (proj1 (inject_Z_injective _ _)) in Hc as ->. apply Z.quot_mul. lia.
Qed.

#[export] Instance test_decimal_laws : DecimalLaws test_decimal.
Proof.
  refine {| dec_val := test_val : @decimal test_decimal -> Q |}.
  - intros v e. reflexivity.
  - intros [c e] [c' e']. unfold test_val. simpl.
    rewrite inject_Z_mult, Qpower_plus by done. ring.
  - intros d. exists d. split; [|reflexivity]. cbn [dec_NewFromString dec_String test_decimal].
    change ("e" +:+ itoa d.2) with (String "e" (itoa d.2)). rewrite cut_e_itoa. simpl.
    rewrite !test_parse_itoa. by destruct d.
  - intros d z H Hz. simpl. rewrite (test_val_int _ _ H). by apply i64_small.
Defined.

End TestDecimal.

(** ** The other libraries, and an environment *)
Section TestEnv.

(** Nearest integer, halves away from zero, as btcutil rounds. *)
Definition round_float (f : float64) : option Z :=
  match f with
  | S754_zero _ => Some 0
  | S754_finite s m e =>
      Some (sign s (if decide (0 <= e) then Zpos m * 2 ^ e
                    else (2 * Zpos m + 2 ^ (- e)) / (2 * 2 ^ (- e))))
  | _ => None
  end.

#[local] Instance test_btcutil : BtcUtil := {|
  NewAmount f :=
    round_float (SFmul 53 1024 f (binary_normalize 53 1024 100000000 0 false));
  Amount_ToBTC a := scaled_float a (-8);
|}.

#[local] Instance test_uuid : UuidLib := {|
  uuid_String id := itoa (Z.of_N id);
  uuid_UnmarshalText s := z ← test_parse_int s; Some (Z.to_N z);
|}.

#[export] Instance test_uuid_laws : UuidLaws test_uuid.
Proof. split. intros id. simpl. rewrite test_parse_itoa. simpl. f_equal. lia. Qed.

(** Insertion sort by a strict comparison *)
Fixpoint insert_by {A} (less : A -> A -> bool) (x : A) (l : list A) : list A :=
  match l with
  | [] => [x]
  | y :: l' => if less y x then y :: insert_by less x l' else x :: l
  end.
Definition sort_by {A} (less : A -> A -> bool) (l : list A) : list A :=
  foldr (insert_by less) [] l.

Lemma insert_by_perm {A} less (x : A) l : insert_by less x l ≡ₚ x :: l.
Proof.
  induction l as [|y l IH]; simpl; [done|]. destruct (less y x); [|done].
  rewrite IH. by constructor.
Qed.

Lemma sort_by_perm {A} less (l : list A) : sort_by less l ≡ₚ l.
Proof. induction l; simpl; [done|]. by rewrite insert_by_perm, IHl. Qed.

Lemma insert_by_key {A} (key : A -> Z) x l :
  key_sorted key l ->
  key_sorted key (insert_by (fun a b => bool_decide (key a < key b)) x l).
Proof.
  induction 1 as [|y l Hl IH Hy]; simpl; [repeat constructor|].
  case_bool_decide as Hxy.
  - constructor; [done|]. rewrite insert_by_perm. constructor; [lia | done].
  - constructor; [by constructor|]. constructor; [lia|].
    apply (Forall_impl _ _ _ Hy); simpl; lia.
Qed.

Lemma sort_by_key {A} (key : A -> Z) l :
  key_sorted key (sort_by (fun a b => bool_decide (key a < key b)) l).
Proof. induction l; simpl; [constructor | by apply insert_by_key]. Qed.

(** [faults n] is what happens to the n-th SQL statement. *)
Definition test_env (faults : nat -> fault) : Env := {|
  env_decimal := test_decimal;
  env_btcutil := test_btcutil;
  env_uuidlib := test_uuid;
  env_fault := faults;
  env_scan A n l := l;
  env_sort A := sort_by;
  env_uuid n := N.of_nat (1000 + n);
|}.

#[export] Instance test_env_laws faults : EnvLaws (test_env faults).
Proof.
  split; simpl.
  - done.
  - intros. apply sort_by_perm.
  - intros. apply sort_by_key.
  - intros n. unfold uuid_Nil. lia.
Qed.

Definition no_fault (_ : nat) : fault := NoFault.

(** The listed statements fail as given, the others succeed. *)
Definition faults_at (l : list (nat * fault)) (n : nat) : fault :=
  default NoFault (snd <$> find_first (fun p => Nat.eqb p.1 n) l).

Definition empty_db : DB := mkDB [] [] ∅ [] [].

Definition init_world : World := {|
  heap := []; committed := empty_db; inflight := None; events_seq := 1;
  sql_count := 0; uuid_count := 0;
  mem_wallet := mkMemWallet "" [] [] "" 0 "" false;
  mem_events := mkMemEvents [] 0 "";
  wallet_proc := mkWalletProc "hot" "cold" 0 0 0 0 [];
  broker_proc := NewEventBroker;
  trace := [];
|}.

(** A node that answers from the given data. *)
Definition test_node (since : list ListTransactionsResult)
    (full : GetTransactionResult) (conf unconf : Z) (send : outcome string) : NodeAPI := {|
  CreateNewAddress := log_act (ARequest "getnewaddress" []) ;; mret "new address";
  ListTransactionsSinceBlock h :=
    log_act (ARequest "listsinceblock" [VStr h]) ;;
    mret (mkListSinceBlockResult since "tip");
  GetTransaction h := log_act (ARequest "gettransaction" [VStr h]) ;; mret full;
  SendWithPerKBFee a amt fee b := log_act (ARequest "sendtoaddress" [VStr a]) ;; lift send;
  SendWithFixedFee a amt fee b := log_act (ARequest "sendrawtransaction" [VStr a]) ;; lift send;
  GetAddressInfo a :=
    log_act (ARequest "getaddressinfo" [VStr a]) ;; mret (mkAddressInfo a (bool_decide (a <> "cold")));
  GetConfirmedAndUnconfirmedBalance :=
    log_act (ARequest "getbalance" []) ;; mret (conf, unconf);
|}.

#[export] Instance test_node_laws since full conf unconf send :
  NodeAPILaws (test_node since full conf unconf send).
Proof.
  assert (Hreq : forall A b m params (r : outcome A),
    (b = false -> moves_money (ARequest m params) = false) ->
    only_requests b (log_act (ARequest m params) ;; lift r)).
  { intros A b m params r Hb w. exists [ARequest m params].
    split; [done|]. split; [by repeat constructor|]. intros ?. by repeat constructor; auto. }
  split; intros; apply Hreq; done.
Qed.

Definition test_config : WalletConfig := {|
  minWithdraw := 1000; minFeePerKb := 1000; minFeeFixed := 500;
  minWithdrawWithoutManualConfirmation := 1000000; maxConfirmations := 6;
  setting_hot_wallet_address := ""; setting_cold_wallet_address := "cold";
|}.

Definition test_http (code : Z) : HTTPClient := {| http_Post _ _ _ := Ok (code, Ok "") |}.

Definition test_broker_config (backoff : Z) : BrokerConfig :=
  {| callbackURL := "http://client"; httpCallbackBackoff := backoff |}.

Definition test_tx (id : UUID) (address : string) (amount : Z) : Transaction := {|
  tx_ID := id; tx_Hash := ""; tx_BlockHash := ""; tx_Confirmations := 0;
  tx_Address := address; tx_Direction := OutgoingDirection; tx_Status := NewTransaction;
  tx_Amount := amount; tx_Metainfo := JNull; tx_Fee := 1000; tx_FeeType := PerKBRateFee;
  tx_ColdStorage := false; tx_Fresh := true; tx_ReportedConfirmations := -1;
|}.

End TestEnv.
