(* ===== verification/Withdraw.v ===== *)
(** * wallet: notifications of confirmations, and withdrawals

    From updates.go: [getTransactionNotificationType], [setTxStatusByConfirmations],
    [notifyTransaction]; from pending.go: [updatePendingTxStatus],
    [schedulePendingTxUpdate]; all of withdraw.go. *)
From S2P Require Import Prelude.
From S2P Require Import Go.
From S2P Require Import Util.
From S2P Require Import Bitcoin.
From S2P Require Import TxTypes.
From S2P Require Import EventTypes.
From S2P Require Import World.
From S2P Require Import Effects.
From S2P Require Import Storage.
From S2P Require Import WalletStorage.
From S2P Require Import EventStorage.
From S2P Require Import Broadcaster.
From S2P Require Import Broker.
From S2P Require Import NodeAPI.
From S2P Require Import WalletBase.
Local Open Scope Z_scope.

Definition withdrawSaveRetries : nat := 10.
Definition withdrawRetryBaseInterval : Z := 1.

(** [WithdrawRequest] *)
Record WithdrawRequest := mkWithdrawRequest {
  wr_ID : UUID;
  wr_Address : string;
  wr_Amount : BTCAmount;
  wr_Fee : BTCAmount;
  wr_FeeType : string;
  wr_Metainfo : json;
}.

Definition set_wr_Address a (r : WithdrawRequest) : WithdrawRequest :=
  mkWithdrawRequest (wr_ID r) a (wr_Amount r) (wr_Fee r) (wr_FeeType r) (wr_Metainfo r).

Section Notifications.
Context {E : Env} {ST : Storage} {ES : EventStorage} {CFG : WalletConfig}.

Definition getTransactionNotificationType (confirmations : Z) (tx : Transaction)
    : outcome EventType :=
  match tx_Direction tx with
  | IncomingDirection =>
      if decide (confirmations = 0) then Ok NewIncomingTxEvent else Ok IncomingTxConfirmedEvent
  | OutgoingDirection =>
      if decide (confirmations = 0) then Ok NewOutgoingTxEvent else Ok OutgoingTxConfirmedEvent
  | d => Panic ("Unexpected tx direction " +:+ Direction_String d)
  end.

Definition setTxStatusByConfirmations (tx : Transaction) : Transaction :=
  if decide (tx_Status tx <> NewTransaction /\ tx_Status tx <> ConfirmedTransaction /\
             tx_Status tx <> FullyConfirmedTransaction) then tx
  else if decide (tx_Confirmations tx <= 0) then set_Status NewTransaction tx
  else if decide (0 < tx_Confirmations tx /\ tx_Confirmations tx < maxConfirmations) then
    set_Status ConfirmedTransaction tx
  else if decide (maxConfirmations <= tx_Confirmations tx) then
    set_Status FullyConfirmedTransaction tx
  else tx.

(** The notification for confirmation number [i]: a copy of [tx] *)
Definition notification_copy (i : Z) (tx : Transaction) : Transaction :=
  let notification := set_Confirmations i tx in
  let notification := if decide (i = 0) then set_BlockHash "" notification else notification in
  setTxStatusByConfirmations notification.

Definition notify_confirmation (ex : Exec) (l : loc) (i : Z) : M unit :=
  tx ← load l;
  eventType ← lift (getTransactionNotificationType i tx);
  NotifyTransaction ex eventType (notification_copy i tx) ;;
  updateReportedConfirmations ex l i.

Definition notifyTransaction (ex : Exec) (l : loc) : M unit :=
  tx ← load l;
  let confirmationsToNotify := Min64 (tx_Confirmations tx) maxConfirmations in
  forM_ (zrange (tx_ReportedConfirmations tx + 1) confirmationsToNotify)
    (notify_confirmation ex l).

Definition updatePendingTxStatus (ex : Exec) (l : loc) (status : TransactionStatus) : M unit :=
  tx ← load l;
  if decide (status = tx_Status tx) then mret tt
  else
    store l (set_Status status tx) ;;
    StoreTransaction ex l ;;
    let eventType := if decide (status = CancelledTransaction)
                     then PendingTxCancelledEvent else PendingStatusUpdatedEvent in
    tx ← load l;
    NotifyTransaction ex eventType tx.

(** A non-blocking send to a channel of capacity 3 *)
Definition schedulePendingTxUpdate : M unit :=
  upd_wallet (fun p => set_wallet_triggers (wp_externalTxNotifications p)
                         (Nat.min 3 (S (wp_pendingTxUpdateTrigger p))) p).

End Notifications.

Section Withdraw.
Context {E : Env} {ST : Storage} {ES : EventStorage} {N : NodeAPI} {CFG : WalletConfig}.

Definition isInsufficientFundsError (err : error) : bool :=
  match err with ErrJSONRPC _ msg => bool_decide (msg = "Insufficient funds") | _ => false end.

Definition checkWithdrawLimits (request : WithdrawRequest) (feeType : FeeType) : outcome bool :=
  if decide (wr_Amount request < minWithdraw) then
    Err (ErrMsg ("Error: refusing to withdraw " +:+ BTCAmount_String (wr_Amount request) +:+
      " because it is less than min withdraw amount " +:+ BTCAmount_String minWithdraw))
  else if decide (feeType = PerKBRateFee /\ wr_Fee request < minFeePerKb) then
    Err (ErrMsg ("Error: refusing to withdraw with fee " +:+ BTCAmount_String (wr_Fee request) +:+
      " because it is less than min withdraw fee " +:+ BTCAmount_String minFeePerKb +:+
      " for fee type " +:+ FeeType_String feeType))
  else if decide (feeType = FixedFee /\ wr_Fee request < minFeeFixed) then
    Err (ErrMsg ("Error: refusing to withdraw with fee " +:+ BTCAmount_String (wr_Fee request) +:+
      " because it is less than min withdraw fee " +:+ BTCAmount_String minFeeFixed +:+
      " for fee type " +:+ FeeType_String feeType))
  else if decide (minWithdrawWithoutManualConfirmation < wr_Amount request) then Ok true
  else Ok false.

Definition ensureTxIDIsFree (id : UUID) : M unit :=
  r ← try (GetTransactionByID OnDB id);
  match r with
  | inl _ => throw (ErrMsg ("Tx with id " +:+ uuid_String id +:+ " already exists"))
  | inr ErrNoRows => mret tt
  | inr (ErrNoTxWithSuchID _) => mret tt
  | inr err => throw err
  end.

(** The body of the database transaction of an internal transfer *)
Definition internal_withdraw_body (l : loc) (account : Account) (ex : Exec) : M unit :=
  update_at l (set_Confirmations maxConfirmations) ;;
  update_at l (set_Status FullyConfirmedTransaction) ;;
  tx ← load l;
  (* do not send outgoing tx notifications for cold storage tx *)
  (if tx_ColdStorage tx then mret tt
   else l' ← StoreTransaction ex l; notifyTransaction ex l') ;;
  update_at l (set_ReportedConfirmations (-1)) ;;
  update_at l (set_Direction IncomingDirection) ;;
  update_at l (set_Metainfo (acc_Metainfo account)) ;;
  update_at l (set_ID uuid_Nil) ;;
  update_at l (fun tx => set_Amount (u64 (tx_Amount tx - tx_Fee tx)) tx) ;;
  l' ← StoreTransaction ex l;
  notifyTransaction ex l'.

Definition internalWithdrawBetweenOurAccounts (l : loc) (account : Account) : M unit :=
  tx ← load l;
  (if decide (tx_FeeType tx = FixedFee) then mret tt else store l (set_Fee 0 tx)) ;;
  tx ← load l;
  if decide (tx_Amount tx < tx_Fee tx) then
    throw (ErrMsg ("Internal withdraw fee " +:+ BTCAmount_String (tx_Fee tx) +:+
      " is larger than withdraw amount " +:+ BTCAmount_String (tx_Amount tx)))
  else
    MakeTransactIfAvailable_wallet (internal_withdraw_body l account) ;;
    schedulePendingTxUpdate.

Definition persistWithdrawResultWithRetry (persistFunc : M unit) : M unit :=
  retry_loop withdrawSaveRetries withdrawRetryBaseInterval
    "FATAL: given up, aborting wallet" persistFunc.

Definition withdrawal_success_body (l : loc) (ex : Exec) : M unit :=
  StoreTransaction ex l ;;
  tx ← load l;
  (if tx_ColdStorage tx then mret tt else notifyTransaction ex l) ;;
  ClearWallet ex.

Definition handleWithdrawalSuccess (l : loc) (txHash : string) : M unit :=
  update_at l (set_Status NewTransaction) ;;
  update_at l (set_Hash txHash) ;;
  persistWithdrawResultWithRetry (MakeTransactIfAvailable_wallet (withdrawal_success_body l)).

(** [updateTx := *tx]: the copy is made at each attempt *)
Definition withdrawal_error_body (l : loc) (makePending : bool) (ex : Exec) : M unit :=
  tx ← load l;
  updateTx ← alloc tx;
  (if makePending then updatePendingTxStatus ex updateTx PendingTransaction else mret tt) ;;
  ClearWallet ex.

Definition handleWithdrawalError (err : error) (l : loc) : M unit :=
  tx ← load l;
  let makePending := isInsufficientFundsError err && negb (tx_ColdStorage tx) in
  persistWithdrawResultWithRetry
    (MakeTransactIfAvailable_wallet (withdrawal_error_body l makePending)) ;;
  if makePending then mret tt else throw err.

Definition lock_operation (tx : Transaction) : json :=
  JObj [ ("operation", JStr "withdraw"); ("tx", Transaction_MarshalJSON tx) ].

Definition sendMoneyFunc (ft : FeeType)
    : option (string -> BTCAmount -> BTCAmount -> bool -> M string) :=
  match ft with
  | PerKBRateFee => Some SendWithPerKBFee
  | FixedFee => Some SendWithFixedFee
  | _ => None
  end.

Definition sendWithdrawal (l : loc) (updatePending : bool) : M unit :=
  tx ← load l;
  ourAccount ← GetAccountByAddress OnDB (tx_Address tx);
  match ourAccount with
  | Some account => internalWithdrawBetweenOurAccounts l account
  | None =>
      match sendMoneyFunc (tx_FeeType tx) with
      | None => throw (ErrMsg ("Fee type not supported: " +:+ FeeType_String (tx_FeeType tx)))
      | Some send =>
          MakeTransactIfAvailable_wallet (fun ex => LockWallet ex (lock_operation tx)) ;;
          r ← try (send (tx_Address tx) (tx_Amount tx) (tx_Fee tx) true);
          (match r with
           | inr err => handleWithdrawalError err l
           | inl txHash => handleWithdrawalSuccess l txHash
           end) ;;
          SendNotifications ;;
          (if updatePending : bool then schedulePendingTxUpdate else mret tt)
      end
  end.

Definition holdWithdrawalUntilConfirmed (l : loc) : M unit :=
  MakeTransactIfAvailable_wallet (fun ex =>
    updatePendingTxStatus ex l PendingManualConfirmationTransaction) ;;
  upd_wallet (fun p => set_manual (wp_manualConfirmationCount p + 1) p) ;;
  SendNotifications.

Definition withdraw (l : loc) (hold : bool) : M unit :=
  tx ← load l;
  ensureTxIDIsFree (tx_ID tx) ;;
  if hold then holdWithdrawalUntilConfirmed l else sendWithdrawal l true.

(** The request goes through [withdrawQueue] to the wallet's goroutine, which
    answers with the error that [withdraw] returned. *)
Definition withdrawViaWalletUpdater (l : loc) (hold : bool) : M unit := withdraw l hold.

(** What [Withdraw] checks and builds before it hands the withdrawal over: the
    request with the address it settled on, the transaction, and whether to
    hold it. [hot] and [cold] are the wallet's addresses. *)
Definition prepare_withdraw (hot cold : string) (request : WithdrawRequest)
    (toColdStorage : bool) : outcome (WithdrawRequest * Transaction * bool) :=
  feeType ← FeeTypeFromString (wr_FeeType request);
  needManualConfirmation ←
    (if toColdStorage then Ok false else checkWithdrawLimits request feeType);
  request ←
    (if decide (wr_Address request = "") then
       if negb toColdStorage then
         Err (ErrMsg "Can't process withdraw: address is empty")
       else if decide (cold = "") then
         Err (ErrMsg "Withdraw to cold storage failed: address is not given in request and not set in config")
       else Ok (set_wr_Address cold request)
     else Ok request);
  if decide (wr_Address request = hot) then
    Err (ErrMsg "Refusing to withdraw to hot wallet address: this operation makes no sence because hot wallet address belongs to wallet of bitcoin processing app")
  else
    let outgoingTx :=
      {| tx_ID := wr_ID request; tx_Hash := ""; tx_BlockHash := "";
         tx_Confirmations := 0; tx_Address := wr_Address request;
         tx_Direction := OutgoingDirection; tx_Status := NewTransaction;
         tx_Amount := wr_Amount request; tx_Metainfo := wr_Metainfo request;
         tx_Fee := wr_Fee request; tx_FeeType := feeType;
         tx_ColdStorage := toColdStorage; tx_Fresh := true;
         tx_ReportedConfirmations := -1 |} in
    Ok (request, outgoingTx, negb toColdStorage && needManualConfirmation).

(** [Withdraw] also returns the request, whose address it may have set. *)
Definition Withdraw (request : WithdrawRequest) (toColdStorage : bool) : M WithdrawRequest :=
  p ← gets wallet_proc;
  '(request, outgoingTx, shouldHold) ←
    lift (prepare_withdraw (wp_hotWalletAddress p) (wp_coldWalletAddress p)
            request toColdStorage);
  l ← alloc outgoingTx;
  withdrawViaWalletUpdater l shouldHold ;;
  mret request.

End Withdraw.
