(* ===== verification/NotifySpec.v ===== *)
(** * What [notifyTransaction] does on PostgreSQL

    The events it stores, the row it updates and the object it leaves, as a
    function on the tables; and that, under any faults, a run that succeeds did
    exactly that. *)
From S2P Require Import Prelude.
From S2P Require Import Go.
From S2P Require Import Util.
From S2P Require Import Bitcoin.
From S2P Require Import TxTypes.
From S2P Require Import EventTypes.
From S2P Require Import World.
From S2P Require Import Effects.
From S2P Require Import Storage.
From S2P Require Import WalletStorage.
From S2P Require Import PgWallet.
From S2P Require Import EventStorage.
From S2P Require Import PgSpec.
From S2P Require Import Broadcaster.
From S2P Require Import Broker.
From S2P Require Import NodeAPI.
From S2P Require Import WalletBase.
From S2P Require Import Withdraw.
Local Open Scope Z_scope.

Section NotifySpec.
Context {E : Env} {EL : EnvLaws E} {CFG : WalletConfig}.
#[local] Existing Instance PostgresStorage.
#[local] Existing Instance PostgresEvents.
Import PostgresWalletStorage PostgresEventStorage.

(** The event for confirmation number [i], with sequence number [s] *)
Definition confirmation_event (tx : Transaction) (s i : Z) : outcome EventRow :=
  et ← getTransactionNotificationType i tx;
  Ok (mkEventRow s (EventType_String et)
        (TxNotification_MarshalJSON (notification_of (notification_copy i tx)))).

Fixpoint notified (tx : Transaction) (confs : list Z) (s : Z) (d : DB) : outcome DB :=
  match confs with
  | [] => Ok d
  | i :: rest =>
      row ← confirmation_event tx s i;
      d ← insert_event row d;
      d ← update_reported (tx_ID tx) i d;
      notified tx rest (s + 1) d
  end.

(** The confirmation numbers that are notified *)
Definition to_notify (tx : Transaction) : list Z :=
  zrange (tx_ReportedConfirmations tx + 1) (Min64 (tx_Confirmations tx) maxConfirmations).

Definition with_reported (confs : list Z) (tx : Transaction) : Transaction :=
  match last confs with Some n => set_ReportedConfirmations n tx | None => tx end.

(** Neither the events nor the row depend on the reported confirmations. *)
Lemma setTxStatus_reported n tx :
  setTxStatusByConfirmations (set_ReportedConfirmations n tx) =
  set_ReportedConfirmations n (setTxStatusByConfirmations tx).
Proof. unfold setTxStatusByConfirmations. simpl. by repeat case_decide. Qed.

Lemma notification_copy_reported i n tx :
  notification_copy i (set_ReportedConfirmations n tx) =
  set_ReportedConfirmations n (notification_copy i tx).
Proof.
  unfold notification_copy. rewrite <- setTxStatus_reported. by case_decide.
Qed.

Lemma confirmation_event_reported n tx s i :
  confirmation_event (set_ReportedConfirmations n tx) s i = confirmation_event tx s i.
Proof. unfold confirmation_event. by rewrite notification_copy_reported. Qed.

Lemma notified_reported n tx confs s d :
  notified (set_ReportedConfirmations n tx) confs s d = notified tx confs s d.
Proof.
  revert s d. induction confs as [|i rest IH]; intros s d; simpl; [done|].
  rewrite confirmation_event_reported.
  destruct (confirmation_event tx s i) as [row| |]; simpl; [|done..].
  destruct (insert_event row d); simpl; [apply IH | done..].
Qed.

Lemma with_reported_step i rest tx :
  with_reported rest (set_ReportedConfirmations i tx) = with_reported (i :: rest) tx.
Proof. unfold with_reported. rewrite last_cons. by destruct (last rest). Qed.

(** Storing one event *)
Lemma wp_Notify ex et data d (Q : outcome unit -> World -> Prop) w :
  target ex w = Some d ->
  (forall r w', same_other ex w w' -> heap w' = heap w -> ~ is_ok r -> Q r w') ->
  (forall w' d', same_other ex w w' -> heap w' = heap w ->
     insert_event (mkEventRow (events_seq w) (EventType_String et)
                     (EventData_MarshalJSON data)) d = Ok d' ->
     target ex w' = Some d' -> events_seq w' = events_seq w + 1 -> Q (Ok tt) w') ->
  wp (Notify ex et data) Q w.
Proof.
  intros Hd Hno Hok. apply wp_bind, wp_bind. unfold wp at 1, next_event_seq. simpl.
  set (w1 := set_events_seq (events_seq w + 1) w). set (row := mkEventRow (events_seq w) _ _).
  assert (Hd1 : target ex w1 = Some d) by by destruct ex.
  apply wp_bind, wp_sql_exec; [by intros; congruence|]. intros d0 Hd0.
  assert (d0 = d) as -> by congruence.
  assert (Hno1 : forall e, Q (Err e) (bump_sql w1)).
  { intros e. by apply Hno; [| |intros []]. }
  split; [apply Hno1|]. destruct (insert_event row d) as [d1|e|pm] eqn:Ei; [| apply Hno1 |].
  2: { exfalso. revert Ei. unfold insert_event. by case_decide. }
  assert (H2 : same_other ex w (put_db ex d1 (bump_sql w1))) by by split; intros ->.
  split; [|apply Hno; [done | by destruct ex | by intros []]].
  by apply wp_ret, wp_ret, (Hok _ d1); destruct ex.
Qed.

(** One confirmation *)
Lemma wp_notify_confirmation ex l i tx d (Q : outcome unit -> World -> Prop) w :
  heap w !! l = Some tx -> target ex w = Some d ->
  (forall r w', same_other ex w w' -> evolves w w' -> ~ is_ok r -> Q r w') ->
  (forall w' row d1 d2, same_other ex w w' -> evolves w w' ->
     confirmation_event tx (events_seq w) i = Ok row -> insert_event row d = Ok d1 ->
     update_reported (tx_ID tx) i d1 = Ok d2 -> target ex w' = Some d2 ->
     heap w' !! l = Some (set_ReportedConfirmations i tx) ->
     events_seq w' = events_seq w + 1 -> Q (Ok tt) w') ->
  wp (notify_confirmation ex l i) Q w.
Proof.
  intros Hl Hd Hno Hok. apply wp_bind, wp_load. rewrite Hl.
  apply wp_bind, wp_lift.
  destruct (getTransactionNotificationType i tx) as [et|e|pm] eqn:Et;
    [|apply Hno; [done | done | by intros []] ..].
  apply wp_bind, (wp_Notify _ _ _ d); [done | |].
  { intros r w1 Hs Hh Hr.
    destruct r; [by destruct Hr | apply Hno; [done | by apply evolves_heap | done] ..]. }
  intros w2 d1 Hs2 Hh2 Hi Hd1 Hseq.
  unfold updateReportedConfirmations. simpl. unfold PostgresWalletStorage.updateReportedConfirmations.
  apply wp_bind, wp_load. rewrite Hh2, Hl. apply wp_bind, wp_sql_exec; [by intros; congruence|].
  intros d0 Hd0. assert (d0 = d1) as -> by congruence.
  split; [apply Hno; [by destruct Hs2; split | by apply evolves_heap | by intros []]|].
  set (d2 := with_transactions (map_id (tx_ID tx) (set_reported i) (db_transactions d1)) d1).
  set (w3 := put_db ex d2 (bump_sql w2)). simpl.
  assert (Hh3 : heap w3 = heap w) by by rewrite <- Hh2; destruct ex.
  assert (H3 : same_other ex w w3) by (destruct Hs2; split; intros ->; auto).
  split; [|apply Hno; [done | by apply evolves_heap | by intros []]].
  apply wp_bind, wp_load. change (put_db ex _ (bump_sql w2)) with w3.
  rewrite Hh3, Hl. unfold wp, store, modify. simpl.
  eapply (Hok _ _ d1 d2); try done.
  - trans w3; [by apply evolves_heap|]. apply (evolves_store w3 l tx); [by rewrite Hh3|].
    exists (tx_ID tx), i. by destruct tx.
  - unfold confirmation_event. by rewrite Et.
  - by destruct ex.
  - simpl. rewrite Hh3. apply list_lookup_insert_eq. by eapply lookup_lt_Some.
  - rewrite <- Hseq. by destruct ex.
Qed.

Lemma wp_notify_confirmations ex l confs tx d (Q : outcome unit -> World -> Prop) w :
  heap w !! l = Some tx -> target ex w = Some d ->
  (forall r w', same_other ex w w' -> evolves w w' -> ~ is_ok r -> Q r w') ->
  (forall w' d', same_other ex w w' -> evolves w w' ->
     notified tx confs (events_seq w) d = Ok d' -> target ex w' = Some d' ->
     heap w' !! l = Some (with_reported confs tx) ->
     events_seq w' = events_seq w + Z.of_nat (length confs) -> Q (Ok tt) w') ->
  wp (forM_ confs (notify_confirmation ex l)) Q w.
Proof.
  revert tx d w. induction confs as [|i rest IH]; intros tx d w Hl Hd Hno Hok; simpl.
  { eapply Hok; try done. simpl. lia. }
  apply wp_bind, (wp_notify_confirmation _ _ _ tx d); [done | done | |].
  - intros r w' Hs He Hr. destruct r as [a| |]; [by destruct Hr | by apply Hno ..].
  - intros w1 row d1 d2 Hs He Hrow Hd1 Hd2 Ht Hl1 Hseq. eapply IH; [done | done | |].
    + intros r w2 Hs2 He2 Hr. apply Hno; [|by trans w1|done]. by trans w1.
    + intros w2 d' Hs2 He2 Hn Ht2 Hl2 Hseq2.
      rewrite with_reported_step in Hl2. rewrite notified_reported in Hn.
      apply (Hok _ d'); [| by trans w1 | | done | done |].
      * by trans w1.
      * simpl. rewrite Hrow. simpl. rewrite Hd1. simpl in Hd2 |- *.
        injection Hd2 as ->. by rewrite <- Hseq.
      * simpl. lia.
Qed.

Lemma wp_notifyTransaction ex l tx d (Q : outcome unit -> World -> Prop) w :
  heap w !! l = Some tx -> target ex w = Some d ->
  (forall r w', same_other ex w w' -> evolves w w' -> ~ is_ok r -> Q r w') ->
  (forall w' d', same_other ex w w' -> evolves w w' ->
     notified tx (to_notify tx) (events_seq w) d = Ok d' -> target ex w' = Some d' ->
     heap w' !! l = Some (with_reported (to_notify tx) tx) ->
     events_seq w' = events_seq w + Z.of_nat (length (to_notify tx)) -> Q (Ok tt) w') ->
  wp (notifyTransaction ex l) Q w.
Proof.
  intros Hl Hd Hno Hok. apply wp_bind, wp_load. rewrite Hl.
  by apply (wp_notify_confirmations _ _ _ tx d).
Qed.

Lemma map_id_twice id a b rows :
  map_id id (set_reported b) (map_id id (set_reported a) rows) =
  map_id id (set_reported b) rows.
Proof.
  unfold map_id. rewrite <- list_fmap_compose. apply list_fmap_ext. intros k r _. simpl.
  by repeat case_decide.
Qed.

(** The tables after the confirmations [confs] *)
Lemma notified_shape tx confs s d d' :
  notified tx confs s d = Ok d' ->
  exists rows,
    db_events d' = db_events d ++ rows /\ length rows = length confs /\
    (forall k i, confs !! k = Some i -> exists row,
       rows !! k = Some row /\ confirmation_event tx (s + Z.of_nat k) i = Ok row) /\
    db_transactions d' =
      match last confs with
      | None => db_transactions d
      | Some n => map_id (tx_ID tx) (set_reported n) (db_transactions d)
      end /\
    db_accounts d' = db_accounts d /\ db_metadata d' = db_metadata d /\
    db_muted d' = db_muted d.
Proof.
  revert s d. induction confs as [|i rest IH]; intros s d; simpl.
  { intros [= <-]. exists []. by rewrite app_nil_r. }
  intros (row & Hrow & H)%outcome_bind_Ok. apply outcome_bind_Ok in H as (d1 & Hi & H).
  revert Hi. unfold insert_event. case_decide; [done|]. intros [= <-].
  apply IH in H as (rows & Hev & Hlen & Hk & Htx & Ha & Hm & Hmu). simpl in *.
  exists (row :: rows). split_and!; [by rewrite Hev, <- app_assoc | by simpl; rewrite Hlen | | | done..].
  - intros [|k] j; simpl.
    + intros [= <-]. exists row. rewrite Z.add_0_r. done.
    + intros (row' & ? & ?)%Hk. exists row'. split; [done|].
      by replace (s + Z.of_nat (S k)) with (s + 1 + Z.of_nat k) by lia.
  - rewrite Htx, last_cons. destruct (last rest); [apply map_id_twice | done].
Qed.

(** *** Changing the status of a pending transaction *)
Definition pending_event_type (status : TransactionStatus) : EventType :=
  if decide (status = CancelledTransaction)
  then PendingTxCancelledEvent else PendingStatusUpdatedEvent.

(** Objects other than the one at [l] *)
Definition evolves_except (l : loc) (w w' : World) : Prop :=
  forall i tx, i <> l -> heap w !! i = Some tx ->
    exists tx', heap w' !! i = Some tx' /\ reidentified tx tx'.

(** The tables after the change: the row, and one event *)
Definition status_changed (tx : Transaction) (status : TransactionStatus) (s : Z)
    (d d' : DB) (tx' : Transaction) : Prop :=
  exists d1 tx1, stored d (set_Status status tx) d1 tx1 /\
    reidentified (set_Status status tx) tx' /\
    insert_event (mkEventRow s (EventType_String (pending_event_type status))
                    (TxNotification_MarshalJSON (notification_of tx'))) d1 = Ok d'.

Lemma wp_updatePendingTxStatus ex l status tx d (Q : outcome unit -> World -> Prop) w :
  heap w !! l = Some tx -> target ex w = Some d ->
  (forall r w', same_other ex w w' -> evolves_except l w w' -> ~ is_ok r -> Q r w') ->
  (status = tx_Status tx -> Q (Ok tt) w) ->
  (forall w' d' tx', status <> tx_Status tx -> same_other ex w w' -> evolves_except l w w' ->
     status_changed tx status (events_seq w) d d' tx' ->
     target ex w' = Some d' -> heap w' !! l = Some tx' ->
     events_seq w' = events_seq w + 1 -> Q (Ok tt) w') ->
  wp (updatePendingTxStatus ex l status) Q w.
Proof.
  intros Hl Hd Hno Hsame Hok. apply wp_bind, wp_load. rewrite Hl.
  case_decide as Hst; [by apply wp_ret, Hsame|].
  apply wp_bind. unfold wp at 1, store, modify. cbv beta iota. simpl fst. simpl snd.
  set (tx0 := set_Status status tx). set (w0 := set_heap _ w).
  assert (Hl0 : heap w0 !! l = Some tx0).
  { apply list_lookup_insert_eq. by eapply lookup_lt_Some. }
  assert (Hx : forall w', evolves w0 w' -> evolves_except l w w').
  { intros w' He i x Hi Hix. apply He. simpl. by rewrite list_lookup_insert_ne. }
  cbv iota. apply wp_bind, (wp_StoreTransaction ex l tx0 d); [done | by destruct ex | |].
  { intros r w1 Hs He Hr. destruct r; [by destruct Hr | by apply Hno; [|apply Hx|] ..]. }
  intros l1 w1 d1 tx1 Hs He1 Hstored Hd1 _ Hq1.
  destruct (He1 _ _ Hl0) as (tx2 & Hl1 & Hre). cbv zeta.
  apply wp_bind, wp_load. rewrite Hl1. apply (wp_Notify _ _ _ d1); [done | |].
  - intros r w2 Hs2 Hh2 Hr. apply Hno; [by trans w1 | | done]. apply Hx.
    trans w1; [done | by apply evolves_heap].
  - intros w2 d' Hs2 Hh2 Hi Hd' Hq2.
    apply (Hok w2 d' tx2); [done | by trans w1 | | | done | by rewrite Hh2 | by rewrite Hq2, Hq1].
    + apply Hx. trans w1; [done | by apply evolves_heap].
    + exists d1, tx1. split_and!; [done | done|]. rewrite Hq1 in Hi. exact Hi.
Qed.

End NotifySpec.
