(* ===== verification/Pending.v ===== *)
(** * wallet/pending.go: pending withdrawals, their cancellation and confirmation *)
From S2P Require Import Prelude.
From S2P Require Import Go.
From S2P Require Import Util.
From S2P Require Import Bitcoin.
From S2P Require Import TxTypes.
From S2P Require Import EventTypes.
From S2P Require Import World.
From S2P Require Import Effects.
From S2P Require Import Storage.
From S2P Require Import WalletStorage.
From S2P Require Import EventStorage.
From S2P Require Import Broadcaster.
From S2P Require Import Broker.
From S2P Require Import NodeAPI.
From S2P Require Import WalletBase.
From S2P Require Import Withdraw.
Local Open Scope Z_scope.

Section Pending.
Context {E : Env} {ST : Storage} {ES : EventStorage} {N : NodeAPI} {CFG : WalletConfig}.

(** [sort.Slice] by amount; the comparison reads the pointed-to objects *)
Definition sort_by_amount (pendingTxns : list loc) : M (list loc) :=
  keyed ← mapM_list (fun l => tx ← load l; mret (tx_Amount tx, l)) pendingTxns;
  mret (snd <$> env_sort (fun a b => bool_decide (a.1 < b.1)) keyed).

(** A loop over [pendingTxns] that stops at the first amount that exceeds the
    balance: what is left of the list from there on (empty when there was no
    such transaction) and the balance left. *)
Fixpoint while_affordable (act : loc -> M unit) (pendingTxns : list loc)
    (availableBalance : Z) : M (list loc * Z) :=
  match pendingTxns with
  | [] => mret ([], availableBalance)
  | l :: rest =>
      tx ← load l;
      let amount := i64 (tx_Amount tx) in
      if decide (0 <= i64 (availableBalance - amount)) then
        act l ;; while_affordable act rest (i64 (availableBalance - amount))
      else mret (pendingTxns, availableBalance)
  end.

(** The last loop: what cannot be paid waits for cold storage. *)
Fixpoint wait_cold_storage (ex : Exec) (pendingTxns : list loc) (availableBalance : Z) : M Z :=
  match pendingTxns with
  | [] => mret availableBalance
  | l :: rest =>
      tx ← load l;
      updatePendingTxStatus ex l PendingColdStorageTransaction ;;
      wait_cold_storage ex rest (i64 (availableBalance - i64 (tx_Amount tx)))
  end.

(** The body of the database transaction *)
Definition update_unfunded (pendingTxns : list loc) (availableBalance unconfBal : Z)
    (ex : Exec) : M unit :=
  '(pendingTxns, availableBalance) ←
    (if decide (0 < unconfBal) then
       while_affordable (fun l => updatePendingTxStatus ex l PendingTransaction)
         pendingTxns (i64 (availableBalance + i64 unconfBal))
     else mret (pendingTxns, availableBalance));
  match pendingTxns with
  | [] => SetMoneyRequiredFromColdStorage ex 0
  | _ =>
      availableBalance ← wait_cold_storage ex pendingTxns availableBalance;
      SetMoneyRequiredFromColdStorage ex (u64 (- availableBalance))
  end.

Definition tryToUpdatePendingTxns : M unit :=
  pendingTxns ← GetPendingTransactions OnDB;
  pendingTxns ← sort_by_amount pendingTxns;
  '(confBal, unconfBal) ← GetConfirmedAndUnconfirmedBalance;
  '(pendingTxns, availableBalance) ←
    while_affordable (fun l => sendWithdrawal l false) pendingTxns (i64 confBal);
  match pendingTxns with
  | [] => SetMoneyRequiredFromColdStorage OnDB 0
  | _ => MakeTransactIfAvailable_wallet (update_unfunded pendingTxns availableBalance unconfBal)
  end.

Definition updatePendingTxns : M unit :=
  r ← try tryToUpdatePendingTxns;
  match r with
  | inr _ => upd_wallet (add_wallet_timer 7)
  | inl _ => SendNotifications
  end.

Definition cancelPendingTx (id : UUID) : M unit :=
  MakeTransactIfAvailable_wallet (fun ex =>
    l ← GetTransactionByID ex id;
    tx ← load l;
    match tx_Status tx with
    | PendingTransaction | PendingColdStorageTransaction
    | PendingManualConfirmationTransaction =>
        updatePendingTxStatus ex l CancelledTransaction
    | _ => throw (ErrMsg "Transaction is not pending")
    end) ;;
  upd_wallet (fun p => set_manual (wp_manualConfirmationCount p - 1) p) ;;
  updatePendingTxns ;;
  SendNotifications.

Definition confirmPendingTx (id : UUID) : M unit :=
  l ← MakeTransactIfAvailable_wallet (fun ex => GetTransactionByID ex id);
  tx ← load l;
  if decide (tx_Status tx <> PendingManualConfirmationTransaction) then
    throw (ErrMsg ("Tx " +:+ uuid_String id +:+
      " is not pending manual confirmation. Its status is " +:+ Status_String (tx_Status tx)))
  else
    sendWithdrawal l true ;;
    upd_wallet (fun p => set_manual (wp_manualConfirmationCount p - 1) p).

(** The requests go through [cancelQueue] and [confirmQueue] to the wallet's
    goroutine, which answers with the error. *)
Definition CancelPendingTx (id : UUID) : M unit := cancelPendingTx id.
Definition ConfirmPendingTransaction (id : UUID) : M unit := confirmPendingTx id.

Definition initPendingManualConfirmationsTxMetric : M unit :=
  txns ← GetTransactionsWithFilter_wallet ""
           (Status_String PendingManualConfirmationTransaction);
  upd_wallet (set_manual (Z.of_nat (length txns))).

End Pending.
