(* ===== verification/Updates.v ===== *)
(** * wallet/updates.go: updates from the Bitcoin node, and the wallet's main loop *)
From S2P Require Import Prelude.
From S2P Require Import Go.
From S2P Require Import Util.
From S2P Require Import Bitcoin.
From S2P Require Import TxTypes.
From S2P Require Import EventTypes.
From S2P Require Import World.
From S2P Require Import Effects.
From S2P Require Import Storage.
From S2P Require Import WalletStorage.
From S2P Require Import EventStorage.
From S2P Require Import Broadcaster.
From S2P Require Import Broker.
From S2P Require Import NodeAPI.
From S2P Require Import WalletBase.
From S2P Require Import Withdraw.
From S2P Require Import Pending.
Local Open Scope Z_scope.

Section Updates.
Context {E : Env} {ST : Storage} {ES : EventStorage} {N : NodeAPI} {CFG : WalletConfig}.

Definition unknownAccountError : json := JObj [("error", JStr "account not found")].
Definition hotStorageMeta : json := JObj [("kind", JStr "input to hot storage")].

Definition getAccountMetainfo (ex : Exec) (tx : Transaction) : M json :=
  account ← GetAccountByAddress ex (tx_Address tx);
  mret (match account with None => unknownAccountError | Some a => acc_Metainfo a end).

Definition updateTxInfo (ex : Exec) (l : loc) : M bool :=
  tx ← load l;
  p ← gets wallet_proc;
  let isHotStorageTx := bool_decide (tx_Address tx = wp_hotWalletAddress p) in
  (if decide (tx_Direction tx = IncomingDirection) then
     if isHotStorageTx then update_at l (set_Metainfo hotStorageMeta)
     else metainfo ← getAccountMetainfo ex tx; update_at l (set_Metainfo metainfo)
   else mret tt) ;;
  let oldStatus := tx_Status tx in
  update_at l setTxStatusByConfirmations ;;
  l' ← StoreTransaction ex l;
  tx' ← load l';
  let txInfoChanged := tx_Fresh tx' || bool_decide (oldStatus <> tx_Status tx') in
  (if negb isHotStorageTx && negb (tx_ColdStorage tx')
   then notifyTransaction ex l' else mret tt) ;;
  mret txInfoChanged.

(** The two loops; [any] is [anyTxInfoChanged]. *)
Fixpoint process_new (ex : Exec) (txs : list ListTransactionsResult) (any : bool) : M bool :=
  match txs with
  | [] => mret any
  | btcNodeTransaction :: rest =>
      l ← alloc (NewTransactionFromBTCJSON btcNodeTransaction);
      changed ← updateTxInfo ex l;
      process_new ex rest (any || changed)
  end.

Definition new_transactions_body (ex : Exec) : M bool :=
  lastSeenBlock ← GetLastSeenBlockHash ex;
  lastTxData ← ListTransactionsSinceBlock lastSeenBlock;
  any ← process_new ex (ls_Transactions lastTxData) false;
  SetLastSeenBlockHash ex (ls_LastBlock lastTxData) ;;
  mret any.

(** After either check: the error is only logged. *)
Definition after_check (r : bool + error) : M unit :=
  match r with
  | inr _ => mret tt
  | inl anyTxInfoChanged =>
      SendNotifications ;;
      (if anyTxInfoChanged then updatePendingTxns else mret tt)
  end.

Definition checkForNewTransactions : M unit :=
  r ← try (MakeTransactIfAvailable_wallet new_transactions_body);
  after_check r.

Fixpoint process_existing (ex : Exec) (txs : list loc) (any : bool) : M bool :=
  match txs with
  | [] => mret any
  | l :: rest =>
      tx ← load l;
      fullTxInfo ← GetTransaction (tx_Hash tx);
      tx' ← lift (UpdateFromFullTxInfo tx fullTxInfo);
      store l tx' ;;
      changed ← updateTxInfo ex l;
      tx'' ← load l;
      (if decide (tx_Status tx'' <> NewTransaction /\ tx_Status tx'' <> ConfirmedTransaction)
       then upd_wallet (fun p => set_blockchain (wp_blockchainConfirmationCount p - 1) p)
       else mret tt) ;;
      process_existing ex rest (any || changed)
  end.

Definition existing_transactions_body (ex : Exec) : M bool :=
  transactionsToCheck ← GetBroadcastedTransactionsWithLessConfirmations ex maxConfirmations;
  upd_wallet (set_blockchain (Z.of_nat (length transactionsToCheck))) ;;
  process_existing ex transactionsToCheck false.

Definition checkForExistingTransactionUpdates : M unit :=
  r ← try (MakeTransactIfAvailable_wallet existing_transactions_body);
  after_check r.

Definition checkForWalletUpdates : M unit :=
  checkForNewTransactions ;; checkForExistingTransactionUpdates.

(** ** The main loop
    One iteration: one ready channel operation, then a check for updates
    unless [Stop] was called meanwhile ([stopped]). The result is what the
    requester of an operation receives. *)
Inductive WalletInput :=
| InTick
| InExternal
| InWithdraw (l : loc) (hold : bool)
| InCancel (id : UUID)
| InConfirm (id : UUID)
| InPendingTrigger.

Definition handle_input (i : WalletInput) : M (option (unit + error)) :=
  match i with
  | InTick => mret None
  | InExternal =>
      upd_wallet (fun p => set_wallet_triggers (pred (wp_externalTxNotifications p))
                             (wp_pendingTxUpdateTrigger p) p) ;; mret None
  | InWithdraw l hold => r ← try (withdraw l hold); mret (Some r)
  | InCancel id => r ← try (cancelPendingTx id); mret (Some r)
  | InConfirm id => r ← try (confirmPendingTx id); mret (Some r)
  | InPendingTrigger =>
      upd_wallet (fun p => set_wallet_triggers (wp_externalTxNotifications p)
                             (pred (wp_pendingTxUpdateTrigger p)) p) ;;
      updatePendingTxns ;; mret None
  end.

Definition loop_iteration (i : WalletInput) (stopped : bool) : M (option (unit + error)) :=
  r ← handle_input i;
  (if stopped then mret tt else checkForWalletUpdates) ;;
  mret r.

(** [mainLoop] recovers a panic of an iteration and ends with an error. *)
Fixpoint mainLoop (inputs : list (WalletInput * bool)) : M unit :=
  match inputs with
  | [] => mret tt                  (* stopTrigger *)
  | (i, stopped) :: rest => fun w =>
      match loop_iteration i stopped w with
      | (Panic msg, w') => (Err (ErrMsg ("Wallet broker stopped by panic: " +:+ msg)), w')
      | (Err e, w') => (Err e, w')
      | (Ok _, w') => if stopped then (Ok tt, w') else mainLoop rest w'
      end
  end.

(** A non-blocking send to a channel of capacity 3 *)
Definition TriggerWalletUpdate : M unit :=
  upd_wallet (fun p => set_wallet_triggers (Nat.min 3 (S (wp_externalTxNotifications p)))
                         (wp_pendingTxUpdateTrigger p) p).

(** ** wallet.go: [Run] *)
Definition Run_wallet (inputs : list (WalletInput * bool)) : M unit :=
  initPendingManualConfirmationsTxMetric ;;
  initHotWallet ;;
  initColdWallet ;;
  checkForWalletUpdates ;;
  updatePendingTxns ;;
  mainLoop inputs.

End Updates.
