(* ===== verification/Program.v ===== *)
(** * cmd/bitcoin-processing: what main makes of the settings, and the component runner *)
From S2P Require Import Prelude.
From S2P Require Import Go.
From S2P Require Import Json.
From S2P Require Import Bitcoin.
From S2P Require Import TxTypes.
From S2P Require Import EventTypes.
From S2P Require Import World.
From S2P Require Import Effects.
From S2P Require Import Storage.
From S2P Require Import WalletStorage.
From S2P Require Import EventStorage.
From S2P Require Import PgWallet.
From S2P Require Import MemWallet.
From S2P Require Import Broadcaster.
From S2P Require Import Broker.
From S2P Require Import NodeAPI.
From S2P Require Import Rpc.
From S2P Require Import Settings.
From S2P Require Import WalletBase.
From S2P Require Import Updates.
Local Open Scope Z_scope.

(** ** The settings that the components read when they are made *)
Section Configure.
Context {E : Env} {V : ViperLib} {R : RpcLib}.

Definition NewNodeAPI_settings (s : Settings) : M RpcConfig :=
  host ← lift (GetStringMandatory s "bitcoin.node.address");
  user ← lift (GetStringMandatory s "bitcoin.node.user");
  pass ← lift (GetStringMandatory s "bitcoin.node.password");
  NewNodeAPI host user pass (GetBool s "bitcoin.node.tls").

Definition Open_settings (s : Settings) (pg_reachable : bool) : outcome bool :=
  storageType ← GetStringMandatory s "storage.type";
  (if decide (storageType = "postgres") then
     dsn ← GetStringMandatory s "storage.dsn"; Ok tt
   else Ok tt) ;;
  Open storageType pg_reachable.

Definition NewEventBroker_settings (s : Settings) : outcome BrokerConfig :=
  url ← GetURL s "transaction.callback.url";
  Ok {| callbackURL := url; httpCallbackBackoff := GetInt s "transaction.callback.backoff" |}.

Definition NewWallet_settings (s : Settings) : outcome WalletConfig :=
  let max := GetInt s "transaction.max_confirmations" in
  withoutConfirmation ← GetBTCAmount s "wallet.min_withdraw_without_manual_confirmation";
  withdraw ← GetBTCAmount s "wallet.min_withdraw";
  feePerKb ← GetBTCAmount s "wallet.min_fee.per_kb";
  feeFixed ← GetBTCAmount s "wallet.min_fee.fixed";
  Ok {| minWithdraw := withdraw; minFeePerKb := feePerKb; minFeeFixed := feeFixed;
        minWithdrawWithoutManualConfirmation := withoutConfirmation; maxConfirmations := max;
        setting_hot_wallet_address := GetString s "wallet.hot_wallet_address";
        setting_cold_wallet_address := GetString s "wallet.cold_wallet_address" |}.

(** api/server.go: the server, without its http.Server. [Run] ends with what
    [ListenAndServe] returned ([None] is http.ErrServerClosed, after [Stop]). *)
Record Server := mkServer { listenAddress : string; server_allowWithdrawalWithoutID : bool }.

Definition NewServer (listenAddress : string) (allowWithdrawalWithoutID : bool) : Server :=
  mkServer listenAddress allowWithdrawalWithoutID.

Definition Server_Run (listened : option error) : outcome unit :=
  match listened with None => Ok tt | Some err => Err err end.

(** What [main] has made before it starts the components *)
Record Program := mkProgram {
  prog_node : RpcConfig;
  prog_db : bool;
  prog_broker : BrokerConfig;
  prog_wallet : WalletConfig;
  prog_server : Server;
}.

Definition configure (s : Settings) (pg_reachable : bool) : M Program :=
  nodeAPI ← NewNodeAPI_settings s;
  db ← lift (Open_settings s pg_reachable);
  eventBroker ← lift (NewEventBroker_settings s);
  bitcoinWallet ← lift (NewWallet_settings s);
  let apiServer := NewServer (GetString s "api.http.address")
                     (GetBool s "wallet.allow_withdrawal_without_id") in
  mret (mkProgram nodeAPI db eventBroker bitcoinWallet apiServer).

(** Up to the two checks, which refuse to start after an interruption *)
Definition prepare (s : Settings) (pg_reachable : bool) : M Program :=
  p ← configure s pg_reachable;
  Check_wallet (ST := NewStorage PostgresStorage MemoryStorage (prog_db p)) ;;
  Check_broker (ES := NewEventStorage PostgresEvents MemoryEvents (prog_db p)) ;;
  mret p.

End Configure.

(** ** componentrunner.go, and the goroutine that stops everything
    A component is in the wait group until its [Run] returns, which then closes its
    channel. The goroutine of [main] waits for one of these or a signal, and calls
    [Stop] of all three. [Run] returns nil only after [Stop]: the main loops return nil
    from their stop channel only, and [ListenAndServe] gives http.ErrServerClosed only
    after a shutdown. *)
Inductive Component := APIServer | WalletComponent | EventBrokerComponent.

#[export] Instance component_eq_dec : EqDecision Component.
Proof. solve_decision. Defined.

Record Runner := mkRunner {
  r_running : list Component;      (* in the wait group *)
  r_failed : bool;
  r_signalled : bool;              (* a signal waits in the channel *)
  r_stopping : bool;               (* the goroutine has called Stop of all *)
}.

Definition newProcessingComponentRunner : Runner := mkRunner [] false false false.

(** [run], for the part before the component's [Run] *)
Definition run_component (c : Component) (r : Runner) : Runner :=
  mkRunner (r_running r ++ [c]) (r_failed r) (r_signalled r) (r_stopping r).

Definition all_components : list Component := [APIServer; WalletComponent; EventBrokerComponent].

Definition started : Runner := foldl (fun r c => run_component c r) newProcessingComponentRunner all_components.

Inductive RunnerEvent :=
| Signal                                   (* SIGINT or SIGTERM *)
| Ended (c : Component) (err : bool)       (* [Run] of [c] returned, with an error or nil *)
| StopAll.                                 (* the goroutine of [main] goes on *)

Definition one_ended (r : Runner) : bool :=
  negb (forallb (fun c => bool_decide (c ∈ r_running r)) all_components).

(** [None]: the event cannot happen. *)
Definition runner_step (e : RunnerEvent) (r : Runner) : option Runner :=
  match e with
  | Signal => Some (mkRunner (r_running r) (r_failed r) true (r_stopping r))
  | Ended c err =>
      if decide (c ∈ r_running r /\ (err = false -> r_stopping r = true)) then
        Some (mkRunner (filter (fun c' => c' <> c) (r_running r)) (r_failed r || err)
                (r_signalled r) (r_stopping r))
      else None
  | StopAll =>
      if negb (r_stopping r) && (one_ended r || r_signalled r)
      then Some (mkRunner (r_running r) (r_failed r) (r_signalled r) true) else None
  end.

Fixpoint runner_run (es : list RunnerEvent) (r : Runner) : option Runner :=
  match es with
  | [] => Some r
  | e :: es => r' ← runner_step e r; runner_run es r'
  end.

(** [wait] returns when nothing runs; what [main] then ends with: [Some true] is
    [log.Fatal]. *)
Definition wait (r : Runner) : option bool :=
  match r_running r with [] => Some (r_failed r) | _ => None end.
