(* ===== verification/Api.v ===== *)
(** * api: the HTTP and websocket server (http.go, websocket.go, server.go)

    A handler reads the request's body, calls the wallet or the event broker and
    answers with a JSON object. Calls that the wallet or the broker make in their
    own goroutine are modelled where that goroutine runs them: the handler waits
    for their result. *)
From Stdlib Require Import Ascii.
From S2P Require Import Prelude.
From S2P Require Import Go.
From S2P Require Import Json.
From S2P Require Import Bitcoin.
From S2P Require Import TxTypes.
From S2P Require Import EventTypes.
From S2P Require Import World.
From S2P Require Import Effects.
From S2P Require Import Storage.
From S2P Require Import WalletStorage.
From S2P Require Import EventStorage.
From S2P Require Import Broadcaster.
From S2P Require Import Broker.
From S2P Require Import NodeAPI.
From S2P Require Import WalletBase.
From S2P Require Import Withdraw.
From S2P Require Import Pending.
From S2P Require Import Updates.
Local Open Scope Z_scope.

(** ** Paths *)
Definition NewWalletURL : string := "/new_wallet".
Definition NotifyWalletURL : string := "/notify_wallet".
Definition WithdrawURL : string := "/withdraw".
Definition GetHotStorageAddressURL : string := "/get_hot_storage_address".
Definition GetTransactionsURL : string := "/get_transactions".
Definition GetBalanceURL : string := "/get_balance".
Definition GetRequiredFromColdStorageURL : string := "/get_required_from_cold_storage".
Definition CancelPendingURL : string := "/cancel_pending".
Definition WithdrawToColdStorageURL : string := "/withdraw_to_cold_storage".
Definition ConfirmURL : string := "/confirm".
Definition GetEventsURL : string := "/get_events".
Definition MuteEventsURL : string := "/mute_events".

(** ** Requests and responses
    [None] for a body whose reading fails. [resp_error] is "ok", or the text of
    the error. *)
Definition Body : Type := option string.

Record Response := mkResponse { resp_error : option error; resp_result : json }.

Record GetTransactionsFilter := mkFilter { filter_Direction : string; filter_Status : string }.
Record BalanceInfo := mkBalanceInfo { bi_Balance : BTCAmount; bi_BalanceWithUnconf : BTCAmount }.
Record SubscribeMessage := mkSubscribe { sm_Seq : Z }.

Definition respond (data : json) (err : option error) : Response :=
  match err with
  | Some e => mkResponse (Some e) JNull
  | None => mkResponse None data
  end.

(** The texts of the errors that come from the database driver, encoding/json and
    net/http *)
Class ErrorTexts := { library_text : error -> string }.

(** [err.Error()]; of a wrapped error the prefix and the inner text *)
Fixpoint error_Error `{ErrorTexts} {U : UuidLib} (err : error) : string :=
  match err with
  | ErrMsg msg => msg
  | ErrWrap prefix err => prefix +:+ error_Error err
  | ErrNoRows => "sql: no rows in result set"
  | ErrTxDone => "sql: transaction has already been committed or rolled back"
  | ErrJSONRPC code msg =>
      "Bitcoin node returned error code " +:+ itoa code +:+ " message " +:+ msg
  | ErrHotWalletAddressNotGeneratedYet => "Hot wallet address not generated yet"
  | ErrNoTxWithSuchID id => "Transaction with id " +:+ uuid_String id +:+ " not found"
  | ErrNoTxWithSuchTxHashAndDirection =>
      "Transaction with such hash, direction and address is not in db"
  | ErrAlreadyMuted => "This tx id is already muted"
  | ErrNoSuchEvent => "There is no event with given seqnum"
  | ErrDB | ErrUnique | ErrUint64HighBit | ErrJSON | ErrTransport => library_text err
  end.

(** [httpAPIResponse] as the body of the answer *)
Definition httpAPIResponse_MarshalJSON `{ErrorTexts} {U : UuidLib} (r : Response) : json :=
  JObj [("error", JStr (match resp_error r with None => "ok" | Some e => error_Error e end));
        ("result", resp_result r)].

Section Codec.
Context {D : DecimalLib} {U : UuidLib}.

Definition filter_UnmarshalJSON (j : json) : outcome GetTransactionsFilter :=
  is_struct j ;;
  direction ← unmarshal_string (struct_field "direction" j);
  status ← unmarshal_string (struct_field "status" j);
  Ok (mkFilter direction status).

Definition SubscribeMessage_UnmarshalJSON (j : json) : outcome SubscribeMessage :=
  is_struct j ;;
  seq ← unmarshal_int (struct_field "seq" j);
  Ok (mkSubscribe seq).

Definition WithdrawRequest_UnmarshalJSON (j : json) : outcome WithdrawRequest :=
  is_struct j ;;
  id ← unmarshal_uuid (struct_field "id" j);
  address ← unmarshal_string (struct_field "address" j);
  amount ← field_with 0 BTCAmount_UnmarshalJSON "amount" j;
  fee ← field_with 0 BTCAmount_UnmarshalJSON "fee" j;
  fee_type ← unmarshal_string (struct_field "fee_type" j);
  Ok (mkWithdrawRequest id address amount fee fee_type (struct_field "metainfo" j)).

(** Fields marked omitempty are absent when they have their zero value. *)
Definition omitempty (empty : bool) (key : string) (v : json) : list (string * json) :=
  if empty then [] else [(key, v)].

Definition WithdrawRequest_MarshalJSON (r : WithdrawRequest) : json :=
  JObj ([("id", JStr (uuid_String (wr_ID r)))] ++
        omitempty (bool_decide (wr_Address r = "")) "address" (JStr (wr_Address r)) ++
        [("amount", BTCAmount_MarshalJSON (wr_Amount r))] ++
        omitempty (bool_decide (wr_Fee r = 0)) "fee" (BTCAmount_MarshalJSON (wr_Fee r)) ++
        omitempty (bool_decide (wr_FeeType r = "")) "fee_type" (JStr (wr_FeeType r)) ++
        [("metainfo", wr_Metainfo r)]).

Definition BalanceInfo_MarshalJSON (b : BalanceInfo) : json :=
  JObj [("balance", BTCAmount_MarshalJSON (bi_Balance b));
        ("balance_including_unconfirmed", BTCAmount_MarshalJSON (bi_BalanceWithUnconf b))].

(** What a decoded withdrawal is made of *)
Lemma withdraw_request_u64 j r :
  WithdrawRequest_UnmarshalJSON j = Ok r -> is_u64 (wr_Amount r) /\ is_u64 (wr_Fee r).
Proof.
  unfold WithdrawRequest_UnmarshalJSON.
  intros (_ & _ & H)%outcome_bind_Ok. apply outcome_bind_Ok in H as (id & _ & H).
  apply outcome_bind_Ok in H as (a & _ & H). apply outcome_bind_Ok in H as (amt & Hamt & H).
  apply outcome_bind_Ok in H as (fee & Hfee & H). apply outcome_bind_Ok in H as (ft & _ & H).
  injection H as <-. simpl.
  assert (Hu : forall name v, field_with 0 BTCAmount_UnmarshalJSON name j = Ok v -> is_u64 v).
  { intros name v. unfold field_with. destruct (struct_field_opt name j) as [jv|].
    - unfold BTCAmount_UnmarshalJSON. intros (s & _ & Hs)%outcome_bind_Ok.
      unfold BTCAmountFromStringedFloat in Hs. destruct (dec_NewFromString s); [|done].
      injection Hs as <-. apply u64_range.
    - intros [= <-]. unfold is_u64. lia. }
  split; by eapply Hu.
Qed.

End Codec.

Section Api.
Context {E : Env} {ST : Storage} {ES : EventStorage} {N : NodeAPI} {CFG : WalletConfig}.
Context {HC : HTTPClient} {BCFG : BrokerConfig}.

(** [Server]'s configuration *)
Context (allowWithdrawalWithoutID : bool).

(** The answer made of a result or an error *)
Definition respond_with {A} (marshal : A -> json) (m : M A) : M Response :=
  r ← try m;
  mret (match r with inl a => respond (marshal a) None | inr e => respond JNull (Some e) end).

Definition null_result {A} (_ : A) : json := JNull.

Definition read_failed : error := ErrMsg "http: request body".

Definition newBitcoinAddress (body : Body) : M Response :=
  match body with
  | None => mret (respond JNull (Some read_failed))
  | Some text =>
      let metainfo :=
        if decide (text = "") then Ok JNull
        else j ← of_option ErrJSON (parse_json text); unmarshal_map j in
      match metainfo with
      | Ok metainfo => respond_with Account_MarshalJSON (CreateAccount metainfo)
      | Err e => mret (respond JNull (Some e))
      | Panic p => panic p
      end
  end.

Definition notifyWalletTxStatusChanged (body : Body) : M Response :=
  TriggerWalletUpdate ;; mret (respond JNull None).

(** The defaults of a decoded request *)
Definition default_fee_type (req : WithdrawRequest) : WithdrawRequest :=
  if decide (wr_FeeType req = "") then
    mkWithdrawRequest (wr_ID req) (wr_Address req) (wr_Amount req) (wr_Fee req) "fixed"
      (wr_Metainfo req)
  else req.

Definition set_wr_ID id (req : WithdrawRequest) : WithdrawRequest :=
  mkWithdrawRequest id (wr_Address req) (wr_Amount req) (wr_Fee req) (wr_FeeType req)
    (wr_Metainfo req).

Definition withdraw_request (toColdStorage : bool) (req : WithdrawRequest) : M WithdrawRequest :=
  req ← (if decide (wr_ID req = uuid_Nil) then
           if allowWithdrawalWithoutID then
             id ← uuid_NewV4; mret (set_wr_ID id req)
           else throw (ErrMsg "Withdrawal without id is not allowed")
         else mret req);
  Withdraw (default_fee_type req) toColdStorage.

Definition withdraw_handler (toColdStorage : bool) (body : Body) : M Response :=
  let decoded :=
    text ← of_option read_failed body;
    j ← of_option ErrJSON (parse_first text);
    WithdrawRequest_UnmarshalJSON j in
  match decoded with
  | Ok req => respond_with WithdrawRequest_MarshalJSON (withdraw_request toColdStorage req)
  | Err e => mret (respond JNull (Some e))
  | Panic p => panic p
  end.

Definition withdrawRegular (body : Body) : M Response := withdraw_handler false body.
Definition withdrawToColdStorage (body : Body) : M Response := withdraw_handler true body.

Definition getHotStorageAddress (body : Body) : M Response :=
  respond_with JStr GetHotWalletAddress_wallet.

Definition getTransactions (body : Body) : M Response :=
  let filter :=
    text ← of_option read_failed body;
    if decide (text = "") then Ok (mkFilter "" "")
    else j ← of_option ErrJSON (parse_json text); filter_UnmarshalJSON j in
  match filter with
  | Ok txFilter =>
      respond_with JArr
        (txns ← GetTransactionsWithFilter_wallet (filter_Direction txFilter) (filter_Status txFilter);
         mapM_list (fun l => tx ← load l; mret (Transaction_MarshalJSON tx)) txns)
  | Err e => mret (respond JNull (Some e))
  | Panic p => panic p
  end.

Definition getBalance (body : Body) : M Response :=
  respond_with BalanceInfo_MarshalJSON
    ('(balance, balanceWithUnconf) ← GetBalance; mret (mkBalanceInfo balance balanceWithUnconf)).

Definition getRequiredFromColdStorage (body : Body) : M Response :=
  respond_with BTCAmount_MarshalJSON GetMoneyRequiredFromColdStorage_wallet.

(** The body of two handlers: an id, and the operation on it *)
Definition with_id (operation : UUID -> M unit) (body : Body) : M Response :=
  let id :=
    text ← of_option read_failed body;
    j ← of_option ErrJSON (parse_json text);
    unmarshal_uuid j in
  match id with
  | Ok id => respond_with null_result (operation id)
  | Err e => mret (respond JNull (Some e))
  | Panic p => panic p
  end.

Definition cancelPending (body : Body) : M Response := with_id CancelPendingTx body.
Definition confirmPendingTransaction (body : Body) : M Response :=
  with_id ConfirmPendingTransaction body.

Definition getEvents (body : Body) : M Response :=
  let seq :=
    text ← of_option read_failed body;
    if decide (text = "") then Ok 0
    else j ← of_option ErrJSON (parse_json text);
         subscription ← SubscribeMessage_UnmarshalJSON j; Ok (sm_Seq subscription) in
  match seq with
  | Ok seq =>
      respond_with (fun events => JArr (NotificationWithSeq_MarshalJSON <$> events))
        (GetEventsFromSeq_broker seq)
  | Err e => mret (respond JNull (Some e))
  | Panic p => panic p
  end.

(** The request goes through [muteRequests] to the broker's goroutine. *)
Definition MuteEventsWithTxID_broker (txID : UUID) : M unit := mute txID.

Definition current_problematic : string := quote "current_problematic".

Definition muteEvents (body : Body) : M Response :=
  let id :=
    text ← of_option read_failed body;
    if decide (text = current_problematic) then Ok uuid_Nil
    else j ← of_option ErrJSON (parse_json text); unmarshal_uuid j in
  match id with
  | Ok id => respond_with null_result (MuteEventsWithTxID_broker id)
  | Err e => mret (respond JNull (Some e))
  | Panic p => panic p
  end.

(** [initHTTPAPIServer]: the handler of each path, without the metrics' own *)
Definition serve (path : string) : option (Body -> M Response) :=
  snd <$> find_first (fun p => bool_decide (p.1 = path))
    [ (NewWalletURL, newBitcoinAddress);
      (NotifyWalletURL, notifyWalletTxStatusChanged);
      (WithdrawURL, withdrawRegular);
      (GetHotStorageAddressURL, getHotStorageAddress);
      (GetTransactionsURL, getTransactions);
      (GetBalanceURL, getBalance);
      (GetRequiredFromColdStorageURL, getRequiredFromColdStorage);
      (CancelPendingURL, cancelPending);
      (WithdrawToColdStorageURL, withdrawToColdStorage);
      (ConfirmURL, confirmPendingTransaction);
      (GetEventsURL, getEvents);
      (MuteEventsURL, muteEvents) ].

(** ** websocket.go
    A connection after its upgrade: the subscription message (an error when it
    cannot be read), then the turns of the handler's loop, and what it wrote. *)
Definition readSeqFromClient (message : outcome string) : outcome SubscribeMessage :=
  text ← message;
  j ← of_option ErrJSON (parse_first text);
  SubscribeMessage_UnmarshalJSON j.

(** One turn: the client closed the connection, or a batch is received whose
    first [writable] events can be written (all of them for [None]). *)
Inductive WsTurn :=
| WsClientClosed
| WsBatch (writable : option nat).

Definition write_events (writable : option nat) (events : list NotificationWithSeq)
    : list NotificationWithSeq * bool :=
  match writable with
  | Some n => if decide (n < length events)%nat then (take n events, false) else (events, true)
  | None => (events, true)
  end.

(** Whether the channel was closed, when nothing is left in it *)
Definition channel_closed (ch : nat) : M bool :=
  b ← gets broker_proc;
  mret (match bp_chans b !! ch with Some c => ch_closed c | None => true end).

Fixpoint ws_loop (ch : nat) (turns : list WsTurn) (written : list NotificationWithSeq)
    : M (list NotificationWithSeq) :=
  match turns with
  | [] => mret written
  | WsClientClosed :: _ => UnsubscribeFromSeq ch ;; mret written
  | WsBatch writable :: rest =>
      batch ← receive ch;
      match batch with
      | Some events =>
          let '(sent, ok) := write_events writable events in
          if ok : bool then ws_loop ch rest (written ++ sent)
          else UnsubscribeFromSeq ch ;; mret (written ++ sent)
      | None =>
          closed ← channel_closed ch;
          if closed : bool then UnsubscribeFromSeq ch ;; mret written
          else ws_loop ch rest written       (* the select is still waiting *)
      end
  end.

Definition handleWebsocketConnection (message : outcome string) (turns : list WsTurn)
    : M (list NotificationWithSeq) :=
  match readSeqFromClient message with
  | Ok subscribeMessage =>
      eventSequenceQueue ← SubscribeFromSeq (sm_Seq subscribeMessage);
      ws_loop eventSequenceQueue turns []
  | _ => mret []
  end.

End Api.
