(* ===== verification/Client.v ===== *)
(** * api/client: the Go client of the HTTP and websocket API

    A call marshals its request, posts it, and decodes the answer with the function
    that the caller gives for the result. The transport (http.Post, the websocket
    dialer) is a parameter; [ServedBy] is the transport that runs the handlers of Api.v,
    so that client and server can be composed. *)
From Stdlib Require Import Ascii.
From S2P Require Import Prelude.
From S2P Require Import Go.
From S2P Require Import Json.
From S2P Require Import Bitcoin.
From S2P Require Import TxTypes.
From S2P Require Import EventTypes.
From S2P Require Import World.
From S2P Require Import Effects.
From S2P Require Import Storage.
From S2P Require Import WalletStorage.
From S2P Require Import EventStorage.
From S2P Require Import Broadcaster.
From S2P Require Import Broker.
From S2P Require Import NodeAPI.
From S2P Require Import WalletBase.
From S2P Require Import Withdraw.
From S2P Require Import Api.
Local Open Scope Z_scope.

(** ** util/urljoin.go, and the URLs of net/url *)
Class UrlLib := {
  URL : Type;
  url_Parse : string -> outcome URL;
  url_ResolveReference : URL -> URL -> URL;
  url_String : URL -> string;
  url_Scheme : URL -> string;
  url_with : string -> string -> URL -> URL;       (* another scheme and path *)
  request_path : string -> string;                 (* the path a request for a URL asks for *)
}.

(** A reference that is an absolute path replaces the path of the base (RFC 3986, 5.2.2). *)
Class UrlLaws (L : UrlLib) (paths : list string) := {
  url_resolve_path base b path p :
    path ∈ paths -> url_Parse base = Ok b -> url_Parse path = Ok p ->
    request_path (url_String (url_ResolveReference b p)) = path;
  url_path_parses path : path ∈ paths -> exists p, url_Parse path = Ok p;
}.

Definition URLJoin {L : UrlLib} (base relative : string) : outcome string :=
  baseURL ← url_Parse base;
  relativeURL ← url_Parse relative;
  Ok (url_String (url_ResolveReference baseURL relativeURL)).

Definition MustURLJoin {L : UrlLib} (base relative : string) : outcome string :=
  match URLJoin base relative with
  | Ok result => Ok result
  | Err _ => Panic "MustURLJoin"
  | Panic p => Panic p
  end.

(** [http.Post] with the reading of the body, and [websocket.DefaultDialer.Dial] *)
Class ClientTransport := {
  transport_Post : string -> string -> M string;
  transport_Dial : string -> M unit;
}.

(** The fields of [Client]; a websocket client is a number. *)
Record Client := mkClient { apiBaseURL : string; websocketClients : list nat }.

Definition NewClient (apiBaseURL : string) : Client := mkClient apiBaseURL [].

Section Client.
Context {D : DecimalLib} {U : UuidLib} {L : UrlLib} {CT : ClientTransport}.
Variable cli : Client.

(** ** http.go *)

(** The decoding of [callbackedHTTPAPIResponse]: the callback gets the result when the
    answer has one; the error is looked at afterwards. *)
Definition decode_response {A} (zero : A) (resultCb : json -> outcome A) (body : string)
    : outcome A :=
  apiResponse ← of_option ErrJSON (parse_first body);
  is_struct apiResponse ;;
  err ← unmarshal_string (struct_field "error" apiResponse);
  result ← field_with zero resultCb "result" apiResponse;
  if decide (err <> "ok") then Err (ErrMsg err) else Ok result.

Definition sendHTTPAPIRequest {A} (relativeURL : string) (request : option json) (zero : A)
    (resultCb : json -> outcome A) : M A :=
  let requestBody := match request with Some request => json_text request | None => "" end in
  fullURL ← lift (URLJoin (apiBaseURL cli) relativeURL);
  resp ← transport_Post fullURL requestBody;
  lift (decode_response zero resultCb resp).

(** A nil callback *)
Definition no_result (_ : json) : outcome unit := Ok tt.

(** A slice of pointers: [None] is the nil slice *)
Fixpoint all_Ok {A} (l : list (outcome A)) : outcome (list A) :=
  match l with [] => Ok [] | r :: rest => a ← r; as' ← all_Ok rest; Ok (a :: as') end.

Definition unmarshal_ptrs {A} (dec : json -> outcome A) (j : json) : outcome (option (list (option A))) :=
  match j with
  | JNull => Ok None
  | JArr l => l ← all_Ok (unmarshal_ptr dec <$> l); Ok (Some l)
  | _ => Err ErrJSON
  end.

(** ** The operations, one per file *)
Definition Cancel (id : UUID) : M unit :=
  sendHTTPAPIRequest CancelPendingURL (Some (JStr (uuid_String id))) tt no_result.

Definition Confirm (id : UUID) : M unit :=
  sendHTTPAPIRequest ConfirmURL (Some (JStr (uuid_String id))) tt no_result.

Definition SubscribeMessage_MarshalJSON (m : SubscribeMessage) : json :=
  JObj [("seq", JNum (itoa (sm_Seq m)))].

Definition GetEvents (startSeq : Z) : M (option (list (option NotificationWithSeq))) :=
  sendHTTPAPIRequest GetEventsURL (Some (SubscribeMessage_MarshalJSON (mkSubscribe startSeq))) None
    (unmarshal_ptrs NotificationWithSeq_UnmarshalJSON).

Definition filter_MarshalJSON (f : GetTransactionsFilter) : json :=
  JObj (omitempty (bool_decide (filter_Direction f = "")) "direction" (JStr (filter_Direction f)) ++
        omitempty (bool_decide (filter_Status f = "")) "status" (JStr (filter_Status f))).

Definition GetTransactions (filter : GetTransactionsFilter) : M (option (list (option Transaction))) :=
  sendHTTPAPIRequest GetTransactionsURL (Some (filter_MarshalJSON filter)) None
    (unmarshal_ptrs Transaction_UnmarshalJSON).

Definition MuteEventsForTxID (tx : string) : M unit :=
  sendHTTPAPIRequest MuteEventsURL (Some (JStr tx)) tt no_result.

(** A nil [metainfo] is no body at all. *)
Definition NewWallet_client (metainfo : option json) : M Account :=
  sendHTTPAPIRequest NewWalletURL metainfo (mkAccount "" JNull) Account_UnmarshalJSON.

Definition GetHotStorageAddress : M string :=
  sendHTTPAPIRequest GetHotStorageAddressURL None "" unmarshal_string.

Definition BalanceInfo_UnmarshalJSON (j : json) : outcome BalanceInfo :=
  is_struct j ;;
  balance ← field_with 0 BTCAmount_UnmarshalJSON "balance" j;
  withUnconf ← field_with 0 BTCAmount_UnmarshalJSON "balance_including_unconfirmed" j;
  Ok (mkBalanceInfo balance withUnconf).

Definition GetBalance_client : M BalanceInfo :=
  sendHTTPAPIRequest GetBalanceURL None (mkBalanceInfo 0 0) BalanceInfo_UnmarshalJSON.

Definition GetRequiredFromColdStorage_client : M BTCAmount :=
  sendHTTPAPIRequest GetRequiredFromColdStorageURL None 0 BTCAmount_UnmarshalJSON.

Definition zero_request : WithdrawRequest := mkWithdrawRequest uuid_Nil "" 0 0 "" JNull.

Definition withdraw_client (relativeURL : string) (request : WithdrawRequest) : M WithdrawRequest :=
  sendHTTPAPIRequest relativeURL (Some (WithdrawRequest_MarshalJSON request)) zero_request
    WithdrawRequest_UnmarshalJSON.

Definition Withdraw_client (request : WithdrawRequest) : M WithdrawRequest :=
  withdraw_client WithdrawURL request.
Definition WithdrawToColdStorage (request : WithdrawRequest) : M WithdrawRequest :=
  withdraw_client WithdrawToColdStorageURL request.

(** ** websocket.go *)

(** [strings.Replace(s, "http", "ws", 1)] *)
Fixpoint replace_http (s : string) : string :=
  match strip "http" s with
  | Some rest => "ws" +:+ rest
  | None => match s with EmptyString => "" | String c s' => String c (replace_http s') end
  end.

Definition websocket_url : outcome string :=
  u ← url_Parse (apiBaseURL cli);
  Ok (url_String (url_with (replace_http (url_Scheme u)) "/ws" u)).

(** [WriteJSON] writes the value and a line feed, as json.Encoder does. *)
Definition message_text (j : json) : string := json_text j +:+ String (ascii_of_nat 10) "".

(** What is written first on the connection *)
Definition subscribe_text (startSeq : Z) : string :=
  message_text (SubscribeMessage_MarshalJSON (mkSubscribe startSeq)).

(** The reading goroutine: the notifications passed to [messageCb], up to the first
    message that cannot be read *)
Fixpoint read_notifications (messages : list (outcome string)) : list NotificationWithSeq :=
  match messages with
  | [] => []
  | message :: rest =>
      match (text ← message; j ← of_option ErrJSON (parse_first text);
             NotificationWithSeq_UnmarshalJSON j) with
      | Ok notification => notification :: read_notifications rest
      | _ => []
      end
  end.

(** The new websocket client gets the first free number. *)
Definition NewWebsocketClient (next : nat) : M (nat * Client) :=
  u ← lift websocket_url;
  transport_Dial u ;;
  mret (next, mkClient (apiBaseURL cli) (websocketClients cli ++ [next])).

(** [Close] of the websocket client [w], whose owner is [cli] unless it was closed *)
Fixpoint remove_first (w : nat) (l : list nat) : list nat :=
  match l with
  | [] => []
  | x :: rest => if decide (x = w) then rest else x :: remove_first w rest
  end.

Definition Close_client (w : nat) (closed : bool) : Client :=
  if closed then cli else mkClient (apiBaseURL cli) (remove_first w (websocketClients cli)).

End Client.

(** ** The server as the other end
    A panic of a handler closes the connection (net/http recovers it). *)
Section Served.
Context {E : Env} {ST : Storage} {ES : EventStorage} {N : NodeAPI} {CFG : WalletConfig}.
Context {HC : HTTPClient} {BCFG : BrokerConfig} {T : ErrorTexts} {L : UrlLib}.
Context (allowWithdrawalWithoutID : bool).

Definition serve_request (path body : string) : M string := fun w =>
  match serve allowWithdrawalWithoutID path with
  | None => (Ok "404 page not found", w)
  | Some handler =>
      match handler (Some body) w with
      | (Ok response, w') => (Ok (json_text (httpAPIResponse_MarshalJSON response)), w')
      | (_, w') => (Err ErrTransport, w')
      end
  end.

Definition ServedBy : ClientTransport := {|
  transport_Post url body := serve_request (request_path url) body;
  transport_Dial url := mret tt;
|}.

End Served.
