(* ===== verification/Cli.v ===== *)
(** * cmd/bitcoin-processing-client: the command-line client

    A command is what cobra is given: its name, the check of its arguments, the check
    before it runs, and its [Run], whose result is what it prints on the standard output.
    [log.Fatal] is a panic that nothing recovers; the log itself is left out. What
    [uuid.FromString] leaves in its result next to an error is a parameter. *)
From Stdlib Require Import Ascii.
From S2P Require Import Prelude.
From S2P Require Import Go.
From S2P Require Import Json.
From S2P Require Import Bitcoin.
From S2P Require Import TxTypes.
From S2P Require Import EventTypes.
From S2P Require Import World.
From S2P Require Import Effects.
From S2P Require Import Settings.
From S2P Require Import Withdraw.
From S2P Require Import Api.
From S2P Require Import Client.
Local Open Scope Z_scope.

(** ** util/prettyprint.go, with encoding/json's Indent *)
Definition newline (prefix : string) : string := String (ascii_of_nat 10) prefix.

Definition indented_block (opening closing prefix : string) (items : list string) : string :=
  match items with
  | [] => opening +:+ closing
  | item :: items =>
      opening +:+ newline (prefix +:+ "    ") +:+ item +:+
      foldr (fun x rest => "," +:+ newline (prefix +:+ "    ") +:+ x +:+ rest) "" items +:+
      newline prefix +:+ closing
  end.

Fixpoint indent (prefix : string) (j : json) : string :=
  match j with
  | JArr l => indented_block "[" "]" prefix (indent (prefix +:+ "    ") <$> l)
  | JObj fields =>
      indented_block "{" "}" prefix
        ((fun kv => quote kv.1 +:+ ": " +:+ indent (prefix +:+ "    ") kv.2) <$> fields)
  | _ => json_text j
  end.

Definition PrettyPrint (obj : json) : string := indent "" obj +:+ newline "".

Example indent_ex :
  indent "" (JObj [("a", JArr [JNum "1"; JArr [] ]); ("b", JNull)]) =
  "{" +:+ newline "    " +:+ quote "a" +:+ ": [" +:+ newline "        1," +:+ newline "        []" +:+
  newline "    ]," +:+ newline "    " +:+ quote "b" +:+ ": null" +:+ newline "}".
Proof. by vm_compute. Qed.

(** [uuid.FromString] *)
Class UuidPartial := uuid_partial : string -> UUID.

Definition uuid_FromString {U : UuidLib} {P : UuidPartial} (s : string) : UUID * option error :=
  match uuid_UnmarshalText s with
  | Some id => (id, None)
  | None => (uuid_partial s, Some ErrTransport)
  end.

(** [cobra.ExactArgs] and [cobra.RangeArgs] *)
Definition ExactArgs (n : nat) (args : list string) : bool := Nat.eqb (length args) n.
Definition RangeArgs (m n : nat) (args : list string) : bool :=
  Nat.leb m (length args) && Nat.leb (length args) n.

Record Command := mkCommand {
  cmd_Use : string;                       (* the first word of it *)
  cmd_Args : list string -> bool;
  cmd_PreRunE : outcome unit;
  cmd_Run : list string -> M string;
}.

(** The variables that cobra sets from the flags of a command, with its defaults *)
Record CliFlags := mkCliFlags {
  startSeq : Z;
  directionFilter : string;
  statusFilter : string;
  metainfoString : string;
  withdrawID : string;
  withdrawFeeType : string;
}.

Definition default_flags : CliFlags := mkCliFlags 0 "" "" "" "" "".

Section Cli.
Context {D : DecimalLib} {BU : BtcUtil} {U : UuidLib} {P : UuidPartial} {L : UrlLib}.
Context {CT : ClientTransport} {T : ErrorTexts}.

(** ** response.go *)
Definition log_Fatal {A} (err : error) : M A := panic (error_Error err).

Definition showResponse {A} (marshal : A -> json) (call : M A) : M string :=
  r ← try call;
  match r with
  | inr respErr => log_Fatal respErr
  | inl responseData => mret (PrettyPrint (marshal responseData))
  end.

(** An operation without a result: [OK] goes to the log. *)
Definition show_OK (call : M unit) : M string :=
  r ← try call;
  match r with inr err => log_Fatal err | inl _ => mret "" end.

Definition marshal_ptr {A} (marshal : A -> json) (a : option A) : json :=
  match a with Some a => marshal a | None => JNull end.

Definition marshal_ptrs {A} (marshal : A -> json) (l : option (list (option A))) : json :=
  match l with Some l => JArr (marshal_ptr marshal <$> l) | None => JNull end.

(** [args[i]], which panics out of range *)
Definition arg (args : list string) (i : nat) : outcome string :=
  match args !! i with Some a => Ok a | None => Panic "index out of range" end.

(** A metainfo flag: nothing, or JSON; a [null] is the nil interface. *)
Definition metainfo_of (s : string) : outcome json :=
  if decide (s = "") then Ok JNull
  else match parse_json s with
       | Some j => Ok j
       | None => Panic "Checking that metainfo is a valid JSON failed"
       end.

Section Commands.
Variable apiURL : string.
Variable flags : CliFlags.
Let cli : Client := NewClient apiURL.

(** ** confirmcancel.go *)
Definition run_confirm_cancel (command : string) (args : list string) : M string :=
  txID ← lift (arg args 0);
  match uuid_FromString txID with
  | (_, Some err) => log_Fatal err
  | (id, None) =>
      if decide (command = "confirm") then show_OK (Confirm cli id)
      else if decide (command = "cancel_pending") then show_OK (Cancel cli id)
      else panic ("Unexpected command " +:+ command)
  end.

(** ** getevents.go, gettransactions.go *)
Definition run_get_events (args : list string) : M string :=
  showResponse (marshal_ptrs NotificationWithSeq_MarshalJSON) (GetEvents cli (startSeq flags)).

Definition prerun_get_transactions : outcome unit :=
  (if decide (directionFilter flags <> "") then
     _ ← TransactionDirectionFromString (directionFilter flags); Ok tt
   else Ok tt) ;;
  (if decide (statusFilter flags <> "") then
     _ ← TransactionStatusFromString (statusFilter flags); Ok tt
   else Ok tt).

Definition run_get_transactions (args : list string) : M string :=
  showResponse (marshal_ptrs Transaction_MarshalJSON)
    (GetTransactions cli (mkFilter (directionFilter flags) (statusFilter flags))).

(** ** mute.go *)
Definition run_mute_events (args : list string) : M string :=
  tx ← lift (arg args 0);
  match (if decide (tx = "current_problematic") then None else (uuid_FromString tx).2) with
  | Some err => log_Fatal err
  | None => show_OK (MuteEventsForTxID cli tx)
  end.

(** ** newwallet.go *)
Definition run_new_wallet (args : list string) : M string :=
  newWalletMetainfo ← lift (metainfo_of (metainfoString flags));
  showResponse Account_MarshalJSON
    (NewWallet_client cli (match newWalletMetainfo with JNull => None | j => Some j end)).

(** ** walletinfo.go *)
Definition runWalletInfoCommand (use : string) (args : list string) : M string :=
  if decide (use = "get_hot_storage_address") then showResponse JStr (GetHotStorageAddress cli)
  else if decide (use = "get_balance") then
    showResponse BalanceInfo_MarshalJSON (GetBalance_client cli)
  else if decide (use = "get_required_from_cold_storage") then
    showResponse BTCAmount_MarshalJSON (GetRequiredFromColdStorage_client cli)
  else panic ("Unknown command " +:+ use).

(** ** withdraw.go *)
Definition withdraw_args (toColdStorage : bool) (args : list string)
    : outcome (string * string * string) :=
  if decide (length args = 3%nat) then
    address ← arg args 0; amountStr ← arg args 1; feeStr ← arg args 2;
    Ok (address, amountStr, feeStr)
  else if negb toColdStorage then Panic "Regular withdraw requires 3 args"
  else amountStr ← arg args 0; feeStr ← arg args 1; Ok ("", amountStr, feeStr).

Definition amount_arg (what s : string) : outcome BTCAmount :=
  match BTCAmountFromStringedFloat s with
  | Err _ => Panic ("Failed to convert given " +:+ what +:+ " value to bitcoin amount")
  | r => r
  end.

(** The request: the error of [uuid.FromString] is dropped. *)
Definition withdraw_requestData (toColdStorage : bool) (args : list string)
    : outcome WithdrawRequest :=
  let withdrawIDParsed := (uuid_FromString (withdrawID flags)).1 in
  '(address, amountStr, feeStr) ← withdraw_args toColdStorage args;
  amount ← amount_arg "amount" amountStr;
  fee ← amount_arg "fee" feeStr;
  withdrawMetainfo ← metainfo_of (metainfoString flags);
  Ok (mkWithdrawRequest withdrawIDParsed address amount fee (withdrawFeeType flags)
        withdrawMetainfo).

Definition run_withdraw (toColdStorage : bool) (args : list string) : M string :=
  requestData ← lift (withdraw_requestData toColdStorage args);
  showResponse WithdrawRequest_MarshalJSON
    (if toColdStorage then WithdrawToColdStorage cli requestData
     else Withdraw_client cli requestData).

(** ** websocket.go
    What is printed until the connection ends or the interrupt comes: the client is in
    [select] while its goroutine reads [messages]. *)
Definition run_websocket (messages : list (outcome string)) (args : list string) : M string :=
  r ← try (NewWebsocketClient cli 0);
  match r with
  | inr err => log_Fatal err
  | inl _ =>
      mret (foldr (fun n rest => PrettyPrint (NotificationWithSeq_MarshalJSON n) +:+ rest) ""
              (read_notifications messages))
  end.

(** ** The commands of main.go's [cli] *)
Definition any_args (args : list string) : bool := true.

Definition commands (messages : list (outcome string)) : list Command :=
  [ mkCommand "confirm" (ExactArgs 1) (Ok tt) (run_confirm_cancel "confirm");
    mkCommand "cancel_pending" (ExactArgs 1) (Ok tt) (run_confirm_cancel "cancel_pending");
    mkCommand "get_events" any_args (Ok tt) run_get_events;
    mkCommand "get_transactions" any_args prerun_get_transactions run_get_transactions;
    mkCommand "mute_events" (ExactArgs 1) (Ok tt) run_mute_events;
    mkCommand "new_wallet" any_args (Ok tt) run_new_wallet;
    mkCommand "get_hot_storage_address" any_args (Ok tt)
      (runWalletInfoCommand "get_hot_storage_address");
    mkCommand "get_balance" any_args (Ok tt) (runWalletInfoCommand "get_balance");
    mkCommand "get_required_from_cold_storage" any_args (Ok tt)
      (runWalletInfoCommand "get_required_from_cold_storage");
    mkCommand "withdraw" (ExactArgs 3) (Ok tt) (run_withdraw false);
    mkCommand "withdraw_to_cold_storage" (RangeArgs 2 3) (Ok tt) (run_withdraw true);
    mkCommand "websocket" any_args (Ok tt) (run_websocket messages) ].

End Commands.

(** ** main.go *)
Section Main.
Context {V : ViperLib}.

(** [serverSettings] after cobra's initialisation: the settings are kept when there is no
    configuration file. *)
Definition client_flags : (string -> option string) -> FlagSet :=
  string_flags [("api-url", "http://localhost:8000")].

Definition serverSettings (given : string -> option string) : Settings :=
  let cli_flags := client_flags given in
  let s := (NewSettings "" cli_flags).1 in
  mkSettings _ (s_cfgFile s)
    (viper_BindPFlag "api.http.address" (cli_flags "api-url") (s_viper s)).

Definition api_url (address : string) : string :=
  match strip "http" address with Some _ => address | None => "http://" +:+ address end.

Definition PersistentPreRun (given : string -> option string) : string :=
  api_url (GetString (serverSettings given) "api.http.address").

(** [cli.Execute()] for the command that was named; an error of it ends the process
    with status 1. *)
Definition execute_command (given : string -> option string) (flags : CliFlags)
    (messages : list (outcome string)) (name : string) (args : list string) : M string :=
  let apiURL := PersistentPreRun given in
  match find_first (fun c => bool_decide (cmd_Use c = name)) (commands apiURL flags messages) with
  | None => throw (ErrMsg ("unknown command " +:+ name))
  | Some c =>
      if negb (cmd_Args c args) then throw (ErrMsg "wrong number of arguments")
      else lift (cmd_PreRunE c) ;; cmd_Run c args
  end.

End Main.
End Cli.
