(* ===== verification/WalletKeeps.v ===== *)
(** * What the operations of the wallet keep

    For any invariant that the storage and the event storage keep, that allows
    the wallet's requests to the node and is closed under its assignments to
    transactions, every operation of the wallet keeps it, however it ends. The
    proofs are against the interfaces: they hold for every storage. *)
From S2P Require Import Prelude.
From S2P Require Import Go.
From S2P Require Import Util.
From S2P Require Import Bitcoin.
From S2P Require Import TxTypes.
From S2P Require Import EventTypes.
From S2P Require Import World.
From S2P Require Import Effects.
From S2P Require Import Storage.
From S2P Require Import WalletStorage.
From S2P Require Import EventStorage.
From S2P Require Import Broadcaster.
From S2P Require Import Broker.
From S2P Require Import NodeAPI.
From S2P Require Import WalletBase.
From S2P Require Import Withdraw.
From S2P Require Import Pending.
From S2P Require Import Updates.
Local Open Scope Z_scope.

(** The assignments of the wallet to a transaction. *)
Class TxClosed {B : BtcUtil} (I : Inv) : Prop := {
  closed_Status st tx : st <> InvalidTransaction -> iv_ok I tx -> iv_ok I (set_Status st tx);
  closed_Hash h tx : iv_ok I tx -> iv_ok I (set_Hash h tx);
  closed_BlockHash h tx : iv_ok I tx -> iv_ok I (set_BlockHash h tx);
  closed_Confirmations n tx : iv_ok I tx -> iv_ok I (set_Confirmations n tx);
  closed_Reported n tx : iv_ok I tx -> iv_ok I (set_ReportedConfirmations n tx);
  closed_Metainfo m tx : iv_ok I tx -> iv_ok I (set_Metainfo m tx);
  closed_ID id tx : iv_ok I tx -> iv_ok I (set_ID id tx);
  closed_Incoming tx : iv_ok I tx -> iv_ok I (set_Direction IncomingDirection tx);
  closed_Amount a tx : is_u64 a -> iv_ok I tx -> iv_ok I (set_Amount a tx);
  closed_Fee a tx : is_u64 a -> iv_ok I tx -> iv_ok I (set_Fee a tx);
  closed_btcjson t : iv_ok I (NewTransactionFromBTCJSON t);
}.
#[export] Hint Resolve closed_Hash closed_BlockHash closed_Confirmations closed_Reported
  closed_Metainfo closed_ID closed_Incoming closed_btcjson : keeps.

Section Fields.
Context {E : Env} (I : Inv) `{!TxClosed I}.

Lemma keeps_upd_wallet f : Keeps (holds I) (upd_wallet f).
Proof. by apply keeps_modify_same. Qed.
Lemma keeps_upd_broker f : Keeps (holds I) (upd_broker f).
Proof. by apply keeps_modify_same. Qed.

Lemma closed_setTxStatus `{WalletConfig} tx :
  iv_ok I tx -> iv_ok I (setTxStatusByConfirmations tx).
Proof.
  intros. unfold setTxStatusByConfirmations. repeat case_decide; try done;
    by apply closed_Status.
Qed.
End Fields.

#[export] Hint Resolve keeps_upd_wallet keeps_upd_broker closed_setTxStatus : keeps.

(** ** Notifications, on the executors the invariant is for *)
Section NotificationKeeps.
Context {E : Env} {ST : Storage} {ES : EventStorage} {CFG : WalletConfig}.
Context (I : Inv) (exs : Exec -> Prop).
Context {HE : EventStorageKeeps I exs ES}.
Context (Hrep : forall ex l n, exs ex -> Keeps (holds I) (updateReportedConfirmations ex l n)).

Lemma keeps_Notify ex et data :
  exs ex -> et <> InvalidEvent -> Keeps (holds I) (Notify ex et data).
Proof. intros. apply keeps_bind; [by apply (keeps_StoreEvent (exs := exs))|]. solve_keeps. Qed.

Lemma notification_type_valid n tx et :
  getTransactionNotificationType n tx = Ok et -> et <> InvalidEvent.
Proof.
  unfold getTransactionNotificationType.
  destruct (tx_Direction tx); try done; case_decide; by intros [= <-].
Qed.

Lemma keeps_notifyTransaction ex l : exs ex -> Keeps (holds I) (notifyTransaction ex l).
Proof.
  intros He. apply keeps_load_bind. intros tx _. apply keeps_forM. intros i.
  apply keeps_load_bind. intros tx' _. intros w Hw.
  unfold mbind, M_bind, lift.
  destruct (getTransactionNotificationType i tx') eqn:Et; [|done..].
  assert (Hk : Keeps (holds I)
    (NotifyTransaction ex a (notification_copy i tx') ;; updateReportedConfirmations ex l i)).
  { apply keeps_bind; [|by intros; apply Hrep]. apply keeps_Notify; [done|].
    by eapply notification_type_valid. }
  apply (Hk w Hw).
Qed.

End NotificationKeeps.

Section WalletKeeps.
Context {E : Env} {ST : Storage} {ES : EventStorage} {N : NodeAPI} {CFG : WalletConfig}.
Context {NL : NodeAPILaws N}.
Context (I : Inv) {HS : StorageKeeps I any_exec ST} {HE : EventStorageKeeps I any_exec ES}.
Context {HC : Coherent I} {HT : TxClosed I} {HA : AsksAllowed I}.
Context {HW : forall n, Allowed I (ASleep n)}.

Lemma keeps_notify ex l : Keeps (holds I) (notifyTransaction ex l).
Proof. apply (keeps_notifyTransaction _ any_exec); [|done]. intros. by eauto with keeps. Qed.
Lemma keeps_SendNotifications : Keeps (holds I) SendNotifications.
Proof. apply keeps_bind; intros; apply keeps_upd_broker. Qed.
Lemma keeps_schedule : Keeps (holds I) schedulePendingTxUpdate.
Proof. apply keeps_upd_wallet. Qed.

Hint Resolve keeps_notify keeps_SendNotifications keeps_schedule : keeps.

Lemma keeps_updatePendingTxStatus ex l status :
  status <> InvalidTransaction -> Keeps (holds I) (updatePendingTxStatus ex l status).
Proof.
  intros Hst. apply keeps_load_bind. intros tx Htx. case_decide; [solve_keeps|].
  apply keeps_bind; [by apply keeps_store, closed_Status|]. solve_keeps.
  apply (keeps_Notify _ any_exec); [done|]. by case_decide.
Qed.
Hint Resolve keeps_updatePendingTxStatus : keeps.

(** *** Withdrawals *)
(** An assignment [tx.F = v] through a pointer. *)
Ltac keeps_assign := apply keeps_update_at; intros; solve
  [ eauto with keeps | by apply closed_Status | apply closed_Amount; [apply u64_range | done] ].
Hint Extern 2 (Keeps _ (update_at _ _)) => keeps_assign : keeps.

Lemma keeps_internal_body l account ex :
  Keeps (holds I) (internal_withdraw_body l account ex).
Proof. unfold internal_withdraw_body. solve_keeps. Qed.

Lemma keeps_internal l account : Keeps (holds I) (internalWithdrawBetweenOurAccounts l account).
Proof.
  apply keeps_load_bind. intros tx Htx. apply keeps_bind.
  - case_decide; [solve_keeps|]. by apply keeps_store, closed_Fee.
  - intros _. apply keeps_load_bind. intros tx' Htx'. case_decide; [solve_keeps|].
    apply keeps_bind; [|solve_keeps]. apply keeps_transaction; [done|].
    intros ex. apply keeps_internal_body.
Qed.

Lemma keeps_success_body l ex : Keeps (holds I) (withdrawal_success_body l ex).
Proof. unfold withdrawal_success_body. solve_keeps. Qed.

Lemma keeps_error_body l pending ex : Keeps (holds I) (withdrawal_error_body l pending ex).
Proof.
  apply keeps_load_bind. intros tx Htx. apply keeps_bind; [by apply keeps_alloc|].
  intros copy. destruct pending; [|solve_keeps].
  apply keeps_bind; [by apply keeps_updatePendingTxStatus | solve_keeps].
Qed.
Hint Resolve keeps_internal keeps_success_body keeps_error_body : keeps.

Lemma keeps_handleWithdrawalSuccess l h : Keeps (holds I) (handleWithdrawalSuccess l h).
Proof.
  unfold handleWithdrawalSuccess, persistWithdrawResultWithRetry,
    MakeTransactIfAvailable_wallet.
  solve_keeps.
Qed.

Lemma keeps_handleWithdrawalError err l : Keeps (holds I) (handleWithdrawalError err l).
Proof.
  apply keeps_load_bind. intros tx _.
  unfold persistWithdrawResultWithRetry, MakeTransactIfAvailable_wallet. solve_keeps.
Qed.
Hint Resolve keeps_handleWithdrawalSuccess keeps_handleWithdrawalError : keeps.

Lemma keeps_lock op :
  Keeps (holds I) (MakeTransactIfAvailable_wallet (fun ex => LockWallet ex op)).
Proof. apply keeps_transaction; [done|]. intros ex. by eauto with keeps. Qed.

(** An invariant that allows payments survives [sendWithdrawal]. *)
Lemma keeps_sendWithdrawal `{!SendsAllowed I} l upd : Keeps (holds I) (sendWithdrawal l upd).
Proof.
  apply keeps_load_bind. intros tx _. apply keeps_bind; [solve_keeps|].
  intros [account|]; [by eauto with keeps|].
  destruct (sendMoneyFunc (tx_FeeType tx)) as [send|] eqn:Es; [|solve_keeps].
  apply keeps_bind; [apply keeps_lock | intros _]. apply keeps_bind.
  - apply keeps_try. destruct (tx_FeeType tx); simplify_eq/=.
    + eapply keeps_sends, requests_SendWithPerKBFee. done.
    + eapply keeps_sends, requests_SendWithFixedFee. done.
  - solve_keeps.
Qed.

(** *** The other operations, given [sendWithdrawal] *)
Section WithSend.
Context (Hsend : forall l upd, Keeps (holds I) (sendWithdrawal l upd)).
Hint Resolve Hsend : keeps.

Lemma keeps_hold l : Keeps (holds I) (holdWithdrawalUntilConfirmed l).
Proof.
  apply keeps_bind; [|solve_keeps]. apply keeps_transaction; [done|].
  intros ex. by apply keeps_updatePendingTxStatus.
Qed.

Lemma keeps_withdraw l hold : Keeps (holds I) (withdraw l hold).
Proof.
  apply keeps_load_bind. intros tx _.
  apply keeps_bind; [unfold ensureTxIDIsFree; solve_keeps|].
  intros _. destruct hold; [apply keeps_hold | apply Hsend].
Qed.

Lemma keeps_Withdraw request cold :
  (forall hot c r tx hold,
     prepare_withdraw hot c request cold = Ok (r, tx, hold) -> iv_ok I tx) ->
  Keeps (holds I) (Withdraw request cold).
Proof.
  intros Hok. apply keeps_bind; [solve_keeps|]. intros p w Hw.
  unfold mbind at 1, M_bind at 1, lift at 1.
  destruct (prepare_withdraw _ _ request cold) as [[[r tx] hold]| |] eqn:Ep; [|done..].
  apply Hok in Ep as Htx.
  revert w Hw. change (Keeps (holds I) (l ← alloc tx; withdrawViaWalletUpdater l hold ;; mret r)).
  apply keeps_bind; [by apply keeps_alloc|]. intros l.
  apply keeps_bind; [apply keeps_withdraw | solve_keeps].
Qed.

(** *** Pending withdrawals *)
Lemma keeps_while_affordable act l b :
  (forall x, Keeps (holds I) (act x)) -> Keeps (holds I) (while_affordable act l b).
Proof.
  intros Ha. revert b. induction l as [|x l IH]; intros b; simpl; [solve_keeps|].
  apply keeps_load_bind. intros tx _. case_decide; [|solve_keeps].
  apply keeps_bind; [apply Ha | intros; apply IH].
Qed.

Lemma keeps_wait_cold_storage ex l b : Keeps (holds I) (wait_cold_storage ex l b).
Proof.
  revert b. induction l as [|x l IH]; intros b; simpl; [solve_keeps|].
  apply keeps_load_bind. intros tx _.
  apply keeps_bind; [by apply keeps_updatePendingTxStatus | intros; apply IH].
Qed.

Lemma keeps_set_money ex a : is_u64 a -> Keeps (holds I) (SetMoneyRequiredFromColdStorage ex a).
Proof. by eauto with keeps. Qed.

Lemma keeps_update_unfunded l b unconf ex : Keeps (holds I) (update_unfunded l b unconf ex).
Proof.
  apply keeps_bind.
  - case_decide; [|solve_keeps]. apply keeps_while_affordable. intros.
    by apply keeps_updatePendingTxStatus.
  - intros [[|x rest] b']; [by apply keeps_set_money|].
    apply keeps_bind; [apply keeps_wait_cold_storage|].
    intros. apply keeps_set_money, u64_range.
Qed.

Lemma keeps_tryToUpdatePendingTxns : Keeps (holds I) tryToUpdatePendingTxns.
Proof.
  apply keeps_bind; [solve_keeps|]. intros pend.
  apply keeps_bind; [unfold sort_by_amount; solve_keeps|]. intros sorted.
  apply keeps_bind; [solve_keeps|]. intros [conf unconf].
  apply keeps_bind; [by apply keeps_while_affordable|].
  intros [[|x rest] b']; [by apply keeps_set_money|].
  apply keeps_transaction; [done|]. intros. apply keeps_update_unfunded.
Qed.

Lemma keeps_updatePendingTxns : Keeps (holds I) updatePendingTxns.
Proof.
  apply keeps_bind; [apply keeps_try, keeps_tryToUpdatePendingTxns | solve_keeps].
Qed.
Hint Resolve keeps_updatePendingTxns : keeps.

Lemma keeps_cancelPendingTx id : Keeps (holds I) (cancelPendingTx id).
Proof.
  apply keeps_bind; [|solve_keeps]. apply keeps_transaction; [done|]. intros ex.
  apply keeps_bind; [solve_keeps|]. intros l. apply keeps_load_bind. intros tx _.
  destruct (tx_Status tx); solve [solve_keeps | by apply keeps_updatePendingTxStatus].
Qed.

Lemma keeps_confirmPendingTx id : Keeps (holds I) (confirmPendingTx id).
Proof. unfold confirmPendingTx, MakeTransactIfAvailable_wallet. solve_keeps. Qed.
Hint Resolve keeps_withdraw keeps_cancelPendingTx keeps_confirmPendingTx : keeps.

(** *** Updates from the node *)
Lemma keeps_updateTxInfo ex l : Keeps (holds I) (updateTxInfo ex l).
Proof.
  apply keeps_load_bind. intros tx Htx. apply keeps_bind; [solve_keeps|]. intros p.
  cbv zeta. apply keeps_bind.
  { case_decide; [|solve_keeps]. case_bool_decide.
    - apply keeps_update_at. by eauto with keeps.
    - apply keeps_bind; [unfold getAccountMetainfo; solve_keeps|]. intros m.
      apply keeps_update_at. by eauto with keeps. }
  intros _. apply keeps_bind; [apply keeps_update_at; by eauto with keeps|].
  intros _. solve_keeps.
Qed.
Hint Resolve keeps_updateTxInfo : keeps.

Lemma keeps_process_new ex txs any : Keeps (holds I) (process_new ex txs any).
Proof.
  revert any. induction txs as [|t txs IH]; intros any; simpl; [solve_keeps|].
  apply keeps_bind; [apply keeps_alloc, closed_btcjson|]. intros l.
  apply keeps_bind; [apply keeps_updateTxInfo | intros; apply IH].
Qed.

Lemma keeps_process_existing ex txs any : Keeps (holds I) (process_existing ex txs any).
Proof.
  revert any. induction txs as [|l txs IH]; intros any; simpl; [solve_keeps|].
  apply keeps_load_bind. intros tx Htx. apply keeps_bind; [solve_keeps|]. intros full.
  intros w Hw. unfold mbind at 1, M_bind at 1, lift at 1.
  destruct (UpdateFromFullTxInfo tx full) as [tx'| |] eqn:Eu; [|done..].
  assert (Htx' : iv_ok I tx').
  { revert Eu. unfold UpdateFromFullTxInfo. case_decide; [done|]. intros [= <-].
    by eauto with keeps. }
  apply keeps_bind; [by apply keeps_store | | done]. intros _.
  apply keeps_bind; [apply keeps_updateTxInfo|]. intros changed.
  apply keeps_load_bind. intros tx2 _. apply keeps_bind; [solve_keeps | intros; apply IH].
Qed.

Lemma keeps_checkForNewTransactions : Keeps (holds I) checkForNewTransactions.
Proof.
  apply keeps_bind; [|unfold after_check; solve_keeps].
  apply keeps_try, keeps_transaction; [done|]. intros ex.
  apply keeps_bind; [solve_keeps|]. intros last. apply keeps_bind; [solve_keeps|].
  intros data. apply keeps_bind; [apply keeps_process_new|]. solve_keeps.
Qed.

Lemma keeps_checkForExisting : Keeps (holds I) checkForExistingTransactionUpdates.
Proof.
  apply keeps_bind; [|unfold after_check; solve_keeps].
  apply keeps_try, keeps_transaction; [done|]. intros ex.
  apply keeps_bind; [solve_keeps|]. intros txs. apply keeps_bind; [solve_keeps|].
  intros _. apply keeps_process_existing.
Qed.

Lemma keeps_checkForWalletUpdates : Keeps (holds I) checkForWalletUpdates.
Proof.
  apply keeps_bind; intros; [apply keeps_checkForNewTransactions | apply keeps_checkForExisting].
Qed.

Lemma keeps_loop_iteration i stopped : Keeps (holds I) (loop_iteration i stopped).
Proof.
  apply keeps_bind; [destruct i; simpl; solve_keeps|]. intros r.
  apply keeps_bind; [|solve_keeps].
  destruct stopped; [solve_keeps | apply keeps_checkForWalletUpdates].
Qed.

Lemma keeps_mainLoop inputs : Keeps (holds I) (mainLoop inputs).
Proof.
  induction inputs as [|[i stopped] rest IH]; simpl; [solve_keeps|].
  intros w Hw. pose proof (keeps_loop_iteration i stopped w Hw) as Hi.
  destruct (loop_iteration i stopped w) as [[a|e|p] w']; [|done..].
  destruct stopped; [done | by apply IH].
Qed.

Lemma keeps_initHotWallet : Keeps (holds I) initHotWallet.
Proof.
  unfold initHotWallet, getOrCreateHotWallet, generateHotWalletAddress,
    checkHotWalletAddress, generateNewAddress. solve_keeps.
Qed.

Lemma keeps_initColdWallet : Keeps (holds I) initColdWallet.
Proof. unfold initColdWallet. solve_keeps. Qed.

Lemma keeps_CreateAccount metainfo :
  is_go_map metainfo -> Keeps (holds I) (CreateAccount metainfo).
Proof.
  intros Hm. unfold CreateAccount, generateNewAddress. apply keeps_bind; [solve_keeps|].
  intros a. cbv zeta. apply keeps_bind; [|solve_keeps]. apply keeps_transaction; [done|].
  intros ex. apply keeps_bind; [by apply (keeps_StoreAccount (exs := any_exec))|].
  intros _. by apply (keeps_Notify _ any_exec).
Qed.

(** The whole wallet: start-up and any sequence of inputs. *)
Lemma keeps_Run_wallet inputs : Keeps (holds I) (Run_wallet inputs).
Proof.
  apply keeps_bind.
  { unfold initPendingManualConfirmationsTxMetric, GetTransactionsWithFilter_wallet.
    solve_keeps. }
  intros _. apply keeps_bind; [apply keeps_initHotWallet | intros _].
  apply keeps_bind; [apply keeps_initColdWallet | intros _].
  apply keeps_bind; [apply keeps_checkForWalletUpdates | intros _].
  apply keeps_bind; [apply keeps_updatePendingTxns | intros _]. apply keeps_mainLoop.
Qed.

End WithSend.

End WalletKeeps.
