(* ===== verification/ApiKeeps.v ===== *)
(** * What the operations of the event broker and the handlers of the server keep

    For any invariant that the storages and the node keep and that is closed under the
    posting of a callback, every operation of the broker keeps it, however it ends; so
    does any HTTP request. *)
From S2P Require Import Prelude.
From S2P Require Import Go.
From S2P Require Import Util.
From S2P Require Import Bitcoin.
From S2P Require Import TxTypes.
From S2P Require Import EventTypes.
From S2P Require Import World.
From S2P Require Import Effects.
From S2P Require Import Storage.
From S2P Require Import WalletStorage.
From S2P Require Import EventStorage.
From S2P Require Import Broadcaster.
From S2P Require Import Broker.
From S2P Require Import NodeAPI.
From S2P Require Import WalletBase.
From S2P Require Import Withdraw.
From S2P Require Import Pending.
From S2P Require Import Updates.
From S2P Require Import WalletKeeps.
From S2P Require Import Api.
Local Open Scope Z_scope.

Section BrokerKeeps.
Context {E : Env} {ES : EventStorage} {HC : HTTPClient} {CFG : BrokerConfig}.
Context (I : Inv) {HE : EventStorageKeeps I any_exec ES} {CO : Coherent I}.
Context {HW : forall n, Allowed I (ASleep n)}.

Lemma keeps_Broadcast : Keeps (holds I) Broadcast.
Proof. unfold Broadcast. solve_keeps. Qed.

Lemma keeps_Subscribe seq : Keeps (holds I) (SubscribeFromSeq seq).
Proof.
  unfold SubscribeFromSeq, SubscribeFromSeq_broadcaster, triggerWSNotificationSending.
  solve_keeps.
Qed.

Lemma keeps_Unsubscribe ch : Keeps (holds I) (UnsubscribeFromSeq ch).
Proof. apply keeps_upd_broker. Qed.

Lemma keeps_Close : Keeps (holds I) Close.
Proof. apply keeps_upd_broker. Qed.

Lemma keeps_receive ch : Keeps (holds I) (receive ch).
Proof. unfold receive. solve_keeps. Qed.

Lemma keeps_mute id : Keeps (holds I) (mute id).
Proof. unfold mute. solve_keeps. Qed.

Lemma keeps_persist_sent event : Keeps (holds I) (persist_sent event).
Proof.
  unfold persist_sent, persistHTTPCallbackSendResultWithRetry, MakeTransactIfAvailable_broker.
  solve_keeps.
Qed.
Hint Resolve keeps_Broadcast keeps_mute keeps_persist_sent : keeps.

(** The posting of one event is left to the invariant: it knows what holds after
    the lock. *)
Definition lock_event (event : NotificationWithSeq) : M unit :=
  MakeTransactIfAvailable_broker (fun ex => LockHTTPCallback ex (ns_Seq event)).

Context (Hpost : forall event w w1, holds I w -> lock_event event w = (Ok tt, w1) ->
  holds I (sendDataToHTTPCallback event w1).2).

(** After the POST, whatever its result *)
Definition after_post (event : NotificationWithSeq) (rest : list NotificationWithSeq)
    (r : unit + error) : M unit :=
  upd_broker (fun b => set_retries (bp_httpCallbackRetries b + 1)
                         (bp_httpCallbackRetryDelay b + 1) b) ;;
  b ← gets broker_proc;
  match r with
  | inr _ =>
      if handleHTTPCallbackError b then
        persistHTTPCallbackSendResultWithRetry
          (MakeTransactIfAvailable_broker ClearHTTPCallback) ;;
        upd_broker (fun b =>
          add_timer (TimerRetry (bp_httpCallbackRetryDelay b))
            (set_retrying true (ns_Seq event) b))
      else persist_sent event ;; send_events rest
  | inl _ => persist_sent event ;; send_events rest
  end.

Lemma send_events_cons event rest w :
  send_events (event :: rest) w =
  if decide (ns_Type event = NewAddressEvent) then send_events rest w
  else match lock_event event w with
       | (Ok _, w1) => (r ← try (sendDataToHTTPCallback event); after_post event rest r) w1
       | (Err _, w1) => handleEarlyErrorPreparingHTTPCallback w1
       | (Panic p, w1) => (Panic p, w1)
       end.
Proof.
  simpl. case_decide; [done|]. unfold mbind at 1, M_bind at 1, try at 1, lock_event.
  destruct (MakeTransactIfAvailable_broker _ w) as [[[]| |] w1]; reflexivity.
Qed.

Lemma keeps_send_events events : Keeps (holds I) (send_events events).
Proof.
  induction events as [|event rest IH]; [apply keeps_ret|]. intros w Hw.
  rewrite send_events_cons. case_decide; [by apply IH|].
  assert (Hl : Keeps (holds I) (lock_event event)).
  { apply keeps_transaction; [done|]. intros ex. by eauto with keeps. }
  specialize (Hl w Hw). destruct (lock_event event w) as [[[]|e|p] w1] eqn:El; [|..|done].
  - specialize (Hpost _ _ _ Hw El). unfold mbind, M_bind, try.
    assert (Ha : forall r, Keeps (holds I) (after_post event rest r)).
    { intros r. unfold after_post, persistHTTPCallbackSendResultWithRetry,
        MakeTransactIfAvailable_broker. solve_keeps. }
    destruct (sendDataToHTTPCallback event w1) as [[r|e|p] w2]; simpl in *; try done;
      by apply Ha.
  - by apply keeps_upd_broker.
Qed.

Lemma keeps_sendHTTP isRetry : Keeps (holds I) (sendHTTPCallbackNotifications isRetry).
Proof.
  pose proof keeps_send_events.
  unfold sendHTTPCallbackNotifications, GetEventsFromSeq_broker,
    handleEarlyErrorPreparingHTTPCallback. solve_keeps.
Qed.

Lemma keeps_broker_iteration i : Keeps (holds I) (broker_iteration i).
Proof.
  pose proof keeps_sendHTTP.
  destruct i; unfold broker_iteration, sendWSNotifications; solve_keeps.
Qed.

Lemma keeps_Run_broker inputs : Keeps (holds I) (Run_broker inputs).
Proof.
  apply keeps_bind; [apply keeps_sendHTTP | intros _].
  induction inputs as [|[i stopped] rest IH]; simpl; [solve_keeps|].
  intros w Hw. pose proof (keeps_broker_iteration i w Hw) as Hi.
  destruct (broker_iteration i w) as [[a|e|p] w']; [|done..].
  destruct stopped; [done | by apply IH].
Qed.

End BrokerKeeps.

(** An invariant that allows every POST survives the posting of an event. *)
Section PostKeeps.
Context {E : Env} {ES : EventStorage} {HC : HTTPClient} {CFG : BrokerConfig}.
Context (I : Inv) {HE : EventStorageKeeps I any_exec ES} {CO : Coherent I}.
Context {HP : forall body, Allowed I (APost body)}.

Lemma keeps_sendData event : Keeps (holds I) (sendDataToHTTPCallback event).
Proof.
  unfold sendDataToHTTPCallback. apply keeps_bind; [solve_keeps|]. intros data.
  apply keeps_bind; [solve_keeps|]. intros h.
  apply keeps_bind; [by apply keeps_log_act|]. solve_keeps.
Qed.

End PostKeeps.

Section ApiKeeps.
Context {E : Env} {EL : EnvLaws E} {ST : Storage} {ES : EventStorage} {N : NodeAPI}.
Context {NL : NodeAPILaws N} {CFG : WalletConfig} {HTTP : HTTPClient} {BCFG : BrokerConfig}.
Context (I : Inv) {HS : StorageKeeps I any_exec ST} {HE : EventStorageKeeps I any_exec ES}.
Context {CO : Coherent I} {TC : TxClosed I} {AA : AsksAllowed I}.
Context {AS : forall n, Allowed I (ASleep n)}.
Context (Hsend : forall l upd, Keeps (holds I) (sendWithdrawal l upd)).
Context (Hreq : forall request cold hot c r tx hold,
  is_u64 (wr_Amount request) -> is_u64 (wr_Fee request) ->
  prepare_withdraw hot c request cold = Ok (r, tx, hold) -> iv_ok I tx).

Lemma keeps_respond_with {A} (marshal : A -> json) m :
  Keeps (holds I) m -> Keeps (holds I) (respond_with marshal m).
Proof. intros Hm. unfold respond_with. solve_keeps. Qed.
Hint Resolve keeps_respond_with : keeps.

Lemma keeps_withdraw_request allow cold req :
  is_u64 (wr_Amount req) -> is_u64 (wr_Fee req) ->
  Keeps (holds I) (withdraw_request allow cold req).
Proof.
  intros Ha Hf. unfold withdraw_request.
  assert (Hk : forall req', wr_Amount req' = wr_Amount req -> wr_Fee req' = wr_Fee req ->
            Keeps (holds I) (Withdraw (default_fee_type req') cold)).
  { intros req' Ea Ef. apply (keeps_Withdraw I Hsend). intros hot c r tx hold Hp.
    eapply Hreq; [| | exact Hp]; unfold default_fee_type; case_decide; simpl; congruence. }
  case_decide; [destruct allow|].
  - intros w Hw. exact (Hk (set_wr_ID _ req) eq_refl eq_refl (set_uuid_count _ w) Hw).
  - intros w Hw. exact Hw.
  - by apply (Hk req).
Qed.

Lemma keeps_withdraw_handler allow cold body : Keeps (holds I) (withdraw_handler allow cold body).
Proof.
  unfold withdraw_handler. cbv zeta. case_match eqn:Hd; [|solve_keeps..].
  apply outcome_bind_Ok in Hd as (text & _ & Hd). apply outcome_bind_Ok in Hd as (j & _ & Hd).
  apply withdraw_request_u64 in Hd as [? ?].
  by apply keeps_respond_with, keeps_withdraw_request.
Qed.

Lemma keeps_newBitcoinAddress body : Keeps (holds I) (newBitcoinAddress body).
Proof.
  unfold newBitcoinAddress. destruct body as [text|]; [|solve_keeps]. cbv zeta.
  case_match eqn:Hd; [|solve_keeps..]. apply keeps_respond_with, (keeps_CreateAccount I).
  case_decide; [by injection Hd as <-|].
  apply outcome_bind_Ok in Hd as (j & _ & Hd). unfold is_go_map. unfold unmarshal_map in *.
  by destruct j; simplify_eq.
Qed.

Lemma keeps_with_id operation body :
  (forall id, Keeps (holds I) (operation id)) -> Keeps (holds I) (with_id operation body).
Proof. intros Hop. unfold with_id. cbv zeta. solve_keeps. Qed.

Lemma keeps_serve allow path body handler :
  serve allow path = Some handler -> Keeps (holds I) (handler body).
Proof.
  pose proof (keeps_withdraw_handler allow). pose proof keeps_newBitcoinAddress.
  assert (forall id, Keeps (holds I) (cancelPendingTx id)) by by apply (keeps_cancelPendingTx I).
  assert (forall id, Keeps (holds I) (confirmPendingTx id)) by by apply (keeps_confirmPendingTx I Hsend).
  assert (forall id, Keeps (holds I) (mute id)) by apply (keeps_mute I).
  unfold serve. intros (p & Hp & ->)%fmap_Some. apply find_first_Some in Hp as [Hin _].
  repeat (apply elem_of_cons in Hin as [-> | Hin]); [..| by apply not_elem_of_nil in Hin]; simpl.
  all: unfold withdrawRegular, withdrawToColdStorage, notifyWalletTxStatusChanged,
    TriggerWalletUpdate, getHotStorageAddress, GetHotWalletAddress_wallet, getTransactions,
    GetTransactionsWithFilter_wallet, getBalance, GetBalance, getRequiredFromColdStorage,
    GetMoneyRequiredFromColdStorage_wallet, cancelPending, confirmPendingTransaction, getEvents,
    GetEventsFromSeq_broker, muteEvents, MuteEventsWithTxID_broker, respond_with; cbv zeta;
    try (apply keeps_with_id; done); solve_keeps.
Qed.

End ApiKeeps.
