(* ===== verification/WithdrawSafety.v ===== *)
(** * Crash safety of withdrawals and callbacks on PostgreSQL

    The locks that are in the database whenever money or an event leaves the
    program, and what is recorded when the program could not store a result. *)
From S2P Require Import Prelude.
From S2P Require Import Go.
From S2P Require Import Util.
From S2P Require Import Bitcoin.
From S2P Require Import TxTypes.
From S2P Require Import EventTypes.
From S2P Require Import World.
From S2P Require Import Effects.
From S2P Require Import Storage.
From S2P Require Import WalletStorage.
From S2P Require Import PgWallet.
From S2P Require Import EventStorage.
From S2P Require Import PgInvariants.
From S2P Require Import PgSpec.
From S2P Require Import Broadcaster.
From S2P Require Import Broker.
From S2P Require Import NodeAPI.
From S2P Require Import WalletBase.
From S2P Require Import Withdraw.
From S2P Require Import NotifySpec.
From S2P Require Import Pending.
From S2P Require Import Updates.
From S2P Require Import WalletKeeps.
From S2P Require Import ApiKeeps.
Local Open Scope Z_scope.

Definition wallet_locked (d : DB) : Prop :=
  exists op, db_metadata d !! "wallet_operation" = Some op /\ op <> "".
Definition callback_locked (d : DB) : Prop :=
  exists op, db_metadata d !! "http_callback_operation" = Some op /\ op <> "".

Definition is_post (a : Act) : bool := match a with APost _ => true | _ => false end.

(** Money moves only under the wallet's lock, events leave only under the
    broker's; both in the tables as committed at that moment. *)
Definition locked_act (a : Act) (d : DB) : Prop :=
  (moves_money a = true -> wallet_locked d) /\ (is_post a = true -> callback_locked d).

(** ** Invariants of the interactions alone
    [T] sees only payments and callbacks. *)
Definition trace_inv (T : list (Act * DB) -> Prop) : Inv := {|
  iv_committed _ _ := True; iv_inflight _ _ := True; iv_trace := T; iv_ok _ := True |}.

Class Ignores (T : list (Act * DB) -> Prop) : Prop :=
  ignores a d t : moves_money a = false -> is_post a = false -> T t -> T ((a, d) :: t).

Section TraceInv.
Context {E : Env} (T : list (Act * DB) -> Prop) {HI : Ignores T}.

Lemma trace_allows a d : moves_money a = false -> is_post a = false -> allows (trace_inv T) a d.
Proof. intros Hm Hp t. by apply ignores. Qed.

Lemma trace_stmt ex stmt : stmt_ok (trace_inv T) ex stmt.
Proof. intros s d d' _ _. split; [by destruct ex|]. intros _. by apply trace_allows. Qed.

#[export] Instance trace_statements : PgStatements (trace_inv T) any_exec.
Proof. split; try done; intros; apply trace_stmt. Qed.
#[export] Instance trace_event_statements : PgEventStatements (trace_inv T) any_exec.
Proof.
  split; intros; try apply trace_stmt; [|by destruct ex].
  split; [by destruct ex|]. intros _. by apply trace_allows.
Qed.
#[export] Instance trace_coherent : Coherent (trace_inv T).
Proof. split; try done. intros s d _. by apply trace_allows. Qed.
#[export] Instance trace_closed : TxClosed (trace_inv T).
Proof. done. Qed.
#[export] Instance trace_asks : AsksAllowed (trace_inv T).
Proof. intros [] Hr Hm; try done. intros s d _. by apply trace_allows. Qed.
#[export] Instance trace_sleeps n : Allowed (trace_inv T) (ASleep n).
Proof. intros s d _. by apply trace_allows. Qed.

Context {EL : EnvLaws E}.
#[export] Instance trace_storage : StorageKeeps (trace_inv T) any_exec PostgresStorage.
Proof. apply _. Qed.
#[export] Instance trace_events : EventStorageKeeps (trace_inv T) any_exec PostgresEvents.
Proof. apply _. Qed.
End TraceInv.

#[export] Hint Resolve trace_storage trace_events : keeps.
#[export] Hint Extern 0 (Ignores _) => typeclasses eauto : keeps.
#[export] Hint Extern 0 (EnvLaws _) => typeclasses eauto : keeps.

(** Every interaction so far was under its lock. *)
Definition all_locked (t : list (Act * DB)) : Prop := Forall (fun p => locked_act p.1 p.2) t.

(** The payments so far are [t0]. *)
Definition payments (t : list (Act * DB)) : list (Act * DB) :=
  filter (fun p => moves_money p.1 = true) t.
Definition paid (t0 t : list (Act * DB)) : Prop := payments t = t0.

#[export] Instance all_locked_ignores : Ignores all_locked.
Proof. intros a d t Hm Hp Ht. constructor; [|done]. split; simpl; congruence. Qed.
#[export] Instance paid_ignores t0 : Ignores (paid t0).
Proof.
  intros a d t Hm _ Ht. unfold paid, payments. rewrite filter_cons_False; [done|].
  simpl. congruence.
Qed.

Abbreviation locks_inv := (trace_inv all_locked).

Lemma locks_allow a d : locked_act a d -> allows locks_inv a d.
Proof. intros Ha t Ht. by constructor. Qed.

(** ** The effect of a transaction that succeeds *)
Section Transactions.
Context {E : Env}.

Lemma wp_transaction_Ok {A} (f : Exec -> M A) (P : DB -> Prop) w :
  (forall w, inflight w <> None ->
     wp (f OnTx) (fun r w' => is_ok r -> forall d, inflight w' = Some d -> P d) w) ->
  wp (MakeTransactIfAvailable true f) (fun r w' => is_ok r -> P (committed w')) w.
Proof.
  intros Hf. apply wp_transaction; [by intros []|].
  eapply wp_mono; [by apply Hf|].
  intros [a|e|p] w' Hr; simpl in *; [|by intros [] ..]. split; [by intros ? []|].
  intros d Hd. split; [|by intros []]. intros _. by apply Hr.
Qed.

Lemma wp_SetMeta_Ok name value w :
  inflight w <> None ->
  wp (SetMeta OnTx name value)
    (fun r w' => is_ok r -> forall d, inflight w' = Some d -> db_metadata d !! name = Some value)
    w.
Proof.
  intros Hw. apply wp_sql_exec; [by intros ? []|]. intros d _. split; [by intros []|].
  split; [|by intros []]. intros _ d'. simpl. intros [= <-]. simpl. apply lookup_insert_eq.
Qed.
End Transactions.

(** ** The locks *)
Section Locks.
Context {E : Env} {EL : EnvLaws E} {N : NodeAPI} {NL : NodeAPILaws N} {CFG : WalletConfig}.
Context {HC : HTTPClient} {BCFG : BrokerConfig}.
#[local] Existing Instance PostgresStorage.
#[local] Existing Instance PostgresEvents.

Lemma LockWallet_locks tx w :
  wp (MakeTransactIfAvailable_wallet (fun ex => LockWallet ex (lock_operation tx)))
    (fun r w' => is_ok r -> wallet_locked (committed w')) w.
Proof.
  apply wp_transaction_Ok. intros w1 H1. eapply wp_mono; [by apply wp_SetMeta_Ok|].
  intros r w2 H2 Hr d Hd. eexists. split; [by apply H2 | done].
Qed.

(** What [sendWithdrawal] does with the node's answer *)
Definition after_send (l : loc) (upd : bool) (r : string + error) : M unit :=
  (match r with
   | inr err => handleWithdrawalError err l
   | inl txHash => handleWithdrawalSuccess l txHash
   end) ;;
  SendNotifications ;;
  (if upd then schedulePendingTxUpdate else mret tt).

Lemma keeps_after_send T `{!Ignores T} l upd r : Keeps (holds (trace_inv T)) (after_send l upd r).
Proof.
  pose proof (keeps_handleWithdrawalSuccess (trace_inv T) l).
  pose proof (fun e => keeps_handleWithdrawalError (trace_inv T) e l).
  pose proof (keeps_SendNotifications (trace_inv T)).
  pose proof (keeps_schedule (trace_inv T)).
  unfold after_send. solve_keeps.
Qed.

Lemma locks_sendWithdrawal l upd : Keeps (holds locks_inv) (sendWithdrawal l upd).
Proof.
  apply keeps_load_bind. intros tx _. apply keeps_bind; [solve_keeps|].
  intros [account|]; [by apply keeps_internal; apply _|].
  destruct (sendMoneyFunc (tx_FeeType tx)) as [send|] eqn:Es; [|solve_keeps].
  assert (Hsend : forall a amt fee b, only_requests true (send a amt fee b)).
  { destruct (tx_FeeType tx); simplify_eq/=; intros;
      [apply requests_SendWithPerKBFee | apply requests_SendWithFixedFee]. }
  intros w Hw. pose proof (LockWallet_locks tx w) as Hlock.
  pose proof (keeps_lock (E := E) locks_inv (lock_operation tx) w Hw) as Hw1.
  unfold wp in Hlock. unfold mbind at 1, M_bind at 1.
  destruct (MakeTransactIfAvailable_wallet _ w) as [[[]|e|p] w1]; simpl in *; try done.
  specialize (Hlock I). unfold mbind at 1, M_bind at 1, try.
  destruct (Hsend (tx_Address tx) (tx_Amount tx) (tx_Fee tx) true w1) as (acts & Hs & Hreq & _).
  assert (Hw2 : holds locks_inv (after_acts acts w1)).
  { apply holds_after_acts; [|done]. apply (Forall_impl _ _ _ Hreq). intros a Ha.
    apply locks_allow. split; [by intros _ | by destruct a]. }
  rewrite <- Hs in Hw2. destruct (send _ _ _ _ w1) as [[h|e|p] w2]; simpl in *; [..|done].
  - exact (keeps_after_send all_locked l upd (inl h) w2 Hw2).
  - exact (keeps_after_send all_locked l upd (inr e) w2 Hw2).
Qed.

(** The broker *)
Lemma lock_event_locks event w :
  wp (lock_event event) (fun r w' => is_ok r -> callback_locked (committed w')) w.
Proof.
  apply wp_transaction_Ok. intros w1 H1. eapply wp_mono; [by apply wp_SetMeta_Ok|].
  intros r w2 H2 Hr d Hd. eexists. split; [by apply H2 | apply itoa_nonempty].
Qed.

Lemma locks_post event w w1 :
  holds locks_inv w -> lock_event event w = (Ok tt, w1) ->
  holds locks_inv (sendDataToHTTPCallback event w1).2.
Proof.
  intros Hw Hl. pose proof (lock_event_locks event w) as Hlock.
  apply (wp_run _ _ _ _ _ Hl) in Hlock. specialize (Hlock I).
  assert (Hw1 : holds locks_inv w1).
  { assert (Hk : Keeps (holds locks_inv) (lock_event event)).
    { apply keeps_transaction; [apply _|]. intros ex. by eauto with keeps. }
    specialize (Hk w Hw). by rewrite Hl in Hk. }
  unfold sendDataToHTTPCallback, mbind, M_bind, lift, gets, log_act, modify.
  destruct (marshalFlattenedEvent event); simpl; [|done..].
  set (w2 := set_trace _ w1). assert (Hw2 : holds locks_inv w2).
  { destruct Hw1 as (_ & _ & Ht & Hh). split_and!; [done | done | | done]. simpl.
    constructor; [|done]. by split. }
  destruct (http_Post _ _ _) as [[code body]| |]; simpl; [|done..].
  by case_decide.
Qed.

End Locks.

(** ** What is recorded of a payment *)
Section Recorded.
Context {E : Env} {EL : EnvLaws E} {N : NodeAPI} {NL : NodeAPILaws N} {CFG : WalletConfig}.
#[local] Existing Instance PostgresStorage.
#[local] Existing Instance PostgresEvents.
Import PostgresWalletStorage.

(** A row with this hash and status *)
Definition recorded (hash : string) (ts : TransactionStatus) (d : DB) : Prop :=
  exists row, row ∈ db_transactions d /\ r_hash row = hash /\ r_status row = Status_String ts.

Definition wallet_unlocked (d : DB) : Prop := db_metadata d !! "wallet_operation" = Some "".

Lemma stored_recorded d tx d' tx' :
  stored d tx d' tx' -> recorded (tx_Hash tx) (tx_Status tx) d'.
Proof.
  intros [(row & ext & [Hrow _] & _ & [= <-] & _)|(_ & Htx' & Hins)].
  - exists (update_row tx row). split_and!; [|done|done]. simpl.
    apply list_elem_of_fmap. exists row. by rewrite decide_True.
  - revert Hins. unfold insert_transaction. case_decide; [done|]. case_decide; [done|].
    intros [= <-]. exists (row_of_transaction tx'). split_and!.
    + simpl. apply elem_of_app. right. by left.
    + by destruct Htx' as [[-> _]|(id & -> & _)].
    + by destruct Htx' as [[-> _]|(id & -> & _)].
Qed.

Lemma recorded_reported h ts id n d :
  recorded h ts d ->
  recorded h ts (with_transactions (map_id id (set_reported n) (db_transactions d)) d).
Proof.
  intros (row & Hrow & Hh & Hst).
  exists (if decide (r_id row = id) then set_reported n row else row). split_and!.
  - simpl. apply list_elem_of_fmap. by exists row.
  - by case_decide.
  - by case_decide.
Qed.

(** Notifying changes neither what is recorded nor the metadata. *)
Lemma notified_recorded tx confs s d d' h ts :
  notified tx confs s d = Ok d' -> recorded h ts d ->
  recorded h ts d' /\ db_metadata d' = db_metadata d.
Proof.
  revert s d. induction confs as [|i rest IH]; intros s d; simpl; [by intros [= <-]|].
  intros (row & _ & H)%outcome_bind_Ok Hrec.
  apply outcome_bind_Ok in H as (d1 & Hi & H). revert Hi.
  unfold PostgresEventStorage.insert_event. case_decide; [done|]. intros [= <-].
  apply IH in H as [? Hm]; [done|]. by apply recorded_reported.
Qed.

Definition settled (hash : string) (d : DB) : Prop :=
  recorded hash NewTransaction d /\ wallet_unlocked d.

(** The database transaction that records a successful payment *)
Lemma wp_success_body l tx d (Q : outcome unit -> World -> Prop) w :
  heap w !! l = Some tx -> inflight w = Some d ->
  (forall r w', committed w' = committed w -> evolves w w' -> ~ is_ok r -> Q r w') ->
  (forall w' d', committed w' = committed w -> evolves w w' -> inflight w' = Some d' ->
     recorded (tx_Hash tx) (tx_Status tx) d' -> wallet_unlocked d' -> Q (Ok tt) w') ->
  wp (withdrawal_success_body l OnTx) Q w.
Proof.
  intros Hl Hd Hno Hok.
  apply wp_bind, (wp_StoreTransaction OnTx l tx d); [done | done | |].
  { intros r w1 [Hc _] He Hr. destruct r; [by destruct Hr | apply Hno; auto ..]. }
  intros l' w1 d1 tx1 [Hc1 _] He1 Hst%stored_recorded Hd1 _ _. specialize (Hc1 eq_refl).
  destruct (He1 _ _ Hl) as (tx2 & Hl1 & id & n & ->).
  apply wp_bind, wp_load. rewrite Hl1.
  assert (Hclear : forall w2 d2, committed w2 = committed w -> evolves w w2 ->
    inflight w2 = Some d2 -> recorded (tx_Hash tx) (tx_Status tx) d2 ->
    wp (ClearWallet OnTx) Q w2).
  { intros w2 d2 Hc2 He2 Hd2 Hrec. apply wp_sql_exec.
    - intros. apply Hno; [done | by trans w2; [|by apply evolves_heap] | by intros []].
    - intros d0 Hd0. simpl in Hd0. assert (d0 = d2) as -> by congruence.
      assert (He3 : evolves w (bump_sql w2)) by by trans w2; [|by apply evolves_heap].
      split; [by apply Hno; [| |intros []]|]. split; [|by apply Hno; [| |intros []]].
      eapply Hok; [done | done | reflexivity | done |]. apply lookup_insert_eq. }
  apply wp_bind. case_match.
  - by apply wp_ret, (Hclear w1 d1).
  - eapply wp_notifyTransaction; [exact Hl1 | exact Hd1 | |].
    + intros r w2 [Hc2 _] He2 Hr. specialize (Hc2 eq_refl).
      destruct r; [by destruct Hr | apply Hno; [congruence | by trans w1 | by intros []] ..].
    + intros w2 d2 [Hc2 _] He2 Hn Hd2 _ _. specialize (Hc2 eq_refl).
      apply (Hclear w2 d2); [congruence | by trans w1 | done |].
      by eapply notified_recorded in Hn as [? _].
Qed.

(** Persisting with retries *)
Lemma wp_retry (Inv Done Failed : World -> Prop) f retries interval msg w :
  (forall w, Inv w -> wp f (fun r w' => match r with
     | Ok _ => Done w' | Err _ => Inv w' | Panic _ => Failed w' end) w) ->
  (forall n w, Inv w -> Inv (log_act (ASleep n) w).2) ->
  (forall w, Inv w -> Failed w) ->
  Inv w ->
  wp (retry_loop retries interval msg f) (fun r w' => match r with
     | Ok _ => Done w' | Err _ => False | Panic _ => Failed w' end) w.
Proof.
  intros Hf Hs Hfail. revert interval w.
  induction retries as [|n IH]; intros interval w Hw; simpl;
    apply wp_bind, wp_try; (eapply wp_mono; [by apply Hf|]);
    intros [[]|e|p] w' H; try done.
  - by apply wp_panic, Hfail.
  - apply wp_bind. unfold wp at 1, log_act, modify. cbv beta iota. apply IH.
    by apply (Hs interval).
Qed.

Lemma wp_handleWithdrawalSuccess l tx h w :
  heap w !! l = Some tx -> wallet_locked (committed w) ->
  wp (handleWithdrawalSuccess l h) (fun r w' => match r with
    | Ok _ => settled h (committed w')
    | Err _ => False
    | Panic _ => wallet_locked (committed w') \/ settled h (committed w') end) w.
Proof.
  intros Hl Hlock. unfold handleWithdrawalSuccess.
  apply wp_bind, wp_bind, wp_load. rewrite Hl. unfold wp at 1, store, modify. simpl.
  set (w1 := set_heap _ w).
  assert (Hl1 : heap w1 !! l = Some (set_Status NewTransaction tx)).
  { apply list_lookup_insert_eq. by eapply lookup_lt_Some. }
  apply wp_bind, wp_bind, wp_load. rewrite Hl1. unfold wp at 1, store, modify. simpl.
  set (tx2 := set_Hash h _). set (w2 := set_heap _ w1).
  assert (Hl2 : heap w2 !! l = Some tx2).
  { apply list_lookup_insert_eq. by eapply lookup_lt_Some. }
  apply (wp_retry (fun w => (wallet_locked (committed w) \/ settled h (committed w)) /\
                            exists tx, heap w !! l = Some tx /\ reidentified tx2 tx)).
  - intros w3 [Hor (tx3 & Hl3 & Hre)].
    assert (Hh3 : tx_Hash tx3 = h /\ tx_Status tx3 = NewTransaction).
    { by destruct Hre as (id & n & ->). }
    assert (Hheap : forall w', evolves w3 w' ->
      exists tx, heap w' !! l = Some tx /\ reidentified tx2 tx).
    { intros w' He. destruct (He _ _ Hl3) as (tx4 & Hl4 & id & n & ->). eexists.
      split; [done|]. destruct Hre as (id' & n' & ->). by exists id, n. }
    apply wp_transaction; [by split; [|apply Hheap; apply evolves_heap]|].
    apply (wp_success_body l tx3 (committed w3)); [done | done | |].
    + intros r w4 Hc He Hr. simpl in Hc.
      destruct r; [by destruct Hr | |]; simpl; rewrite Hc; [|done]. split; [done|].
      by apply (Hheap w4).
    + intros w4 d' Hc He Hd' Hrec Hun. simpl in Hc. split.
      * intros e. simpl. rewrite Hc. split; [done|]. by apply (Hheap w4).
      * intros d0 Hd0. assert (d0 = d') as -> by congruence.
        assert (settled h d').
        { destruct Hh3 as [Hh Hs]. split; [by rewrite <- Hh, <- Hs | done]. }
        split; [done|]. split; [by right|]. by apply (Hheap w4).
  - intros n w3. done.
  - by intros w3 [? _].
  - split; [by left|]. exists tx2. split; [done | apply reidentified_refl].
Qed.

(** *** A payment the node refused *)
Lemma insert_event_frame row d d' :
  PostgresEventStorage.insert_event row d = Ok d' ->
  db_transactions d' = db_transactions d /\ db_metadata d' = db_metadata d.
Proof. unfold PostgresEventStorage.insert_event. case_decide; [done|]. by intros [= <-]. Qed.

Lemma status_changed_recorded tx status s d d' tx' :
  status_changed tx status s d d' tx' -> recorded (tx_Hash tx) status d'.
Proof.
  intros (d1 & tx1 & Hst%stored_recorded & _ & Hi%insert_event_frame).
  destruct Hst as (row & ? & ? & ?), Hi as [Ht _]. exists row. by rewrite Ht.
Qed.

Definition pending_recorded (tx : Transaction) (d : DB) : Prop :=
  tx_Status tx = PendingTransaction \/ recorded (tx_Hash tx) PendingTransaction d.

Definition refused (tx : Transaction) (makePending : bool) (d : DB) : Prop :=
  wallet_unlocked d /\ (makePending = true -> pending_recorded tx d).

Lemma wp_error_body l tx makePending d (Q : outcome unit -> World -> Prop) w :
  heap w !! l = Some tx -> inflight w = Some d ->
  (forall r w', committed w' = committed w -> evolves w w' -> ~ is_ok r -> Q r w') ->
  (forall w' d', committed w' = committed w -> evolves w w' -> inflight w' = Some d' ->
     refused tx makePending d' -> Q (Ok tt) w') ->
  wp (withdrawal_error_body l makePending OnTx) Q w.
Proof.
  intros Hl Hd Hno Hok. apply wp_bind, wp_load. rewrite Hl.
  apply wp_bind. unfold wp at 1, alloc. cbv beta iota. simpl fst. simpl snd. cbv iota.
  set (c := length (heap w)). set (w0 := set_heap _ w).
  assert (Hl0 : heap w0 !! c = Some tx) by by apply list_lookup_middle.
  assert (He0 : evolves w w0).
  { intros i x Hi. exists x. split; [by apply lookup_app_l_Some | apply reidentified_refl]. }
  assert (Hclear : forall w2 d2, committed w2 = committed w -> evolves w w2 ->
    inflight w2 = Some d2 -> (makePending = true -> pending_recorded tx d2) ->
    wp (ClearWallet OnTx) Q w2).
  { intros w2 d2 Hc2 He2 Hd2 Hp. apply wp_sql_exec.
    - intros. apply Hno; [done | by trans w2; [|by apply evolves_heap] | by intros []].
    - intros d3 Hd3. simpl in Hd3. assert (d3 = d2) as -> by congruence.
      assert (He3 : evolves w (bump_sql w2)) by by trans w2; [|by apply evolves_heap].
      split; [by apply Hno; [| |intros []]|]. split; [|by apply Hno; [| |intros []]].
      eapply Hok; [done | done | reflexivity |]. split; [apply lookup_insert_eq | done]. }
  apply wp_bind. destruct makePending; [|by apply wp_ret, (Hclear w0 d)].
  assert (Hexc : forall w', evolves_except c w0 w' -> evolves w w').
  { intros w' Hx i x Hi. destruct (He0 _ _ Hi) as (x1 & Hx1 & id & n & ->).
    apply Hx in Hx1 as (x2 & Hx2 & id' & n' & ->).
    - eexists. split; [done|]. by exists id', n'.
    - pose proof (lookup_lt_Some _ _ _ Hi). subst c. lia. }
  apply (wp_updatePendingTxStatus OnTx c _ tx d); [done | done | | |].
  - intros r w1 [Hc1 _] Hx Hr. specialize (Hc1 eq_refl).
    destruct r; [by destruct Hr | apply Hno; auto ..].
  - intros Hst. apply (Hclear w0 d); [done | done | done |]. by left.
  - intros w1 d1 tx1 _ [Hc1 _] Hx Hch Hd1 _ _. specialize (Hc1 eq_refl).
    apply (Hclear w1 d1); [done | by apply Hexc | done |].
    intros _. right. by eapply status_changed_recorded.
Qed.

Definition makes_pending (err : error) (tx : Transaction) : bool :=
  isInsufficientFundsError err && negb (tx_ColdStorage tx).

Lemma refused_reidentified tx tx' b d : reidentified tx tx' -> refused tx' b d -> refused tx b d.
Proof. by intros (id & n & ->). Qed.

Lemma wp_handleWithdrawalError err l tx w :
  heap w !! l = Some tx -> wallet_locked (committed w) ->
  wp (handleWithdrawalError err l) (fun r w' => match r with
    | Ok _ => makes_pending err tx = true /\ refused tx true (committed w')
    | Err e => e = err /\ makes_pending err tx = false /\ refused tx false (committed w')
    | Panic _ => wallet_locked (committed w') \/
                 refused tx (makes_pending err tx) (committed w') end) w.
Proof.
  intros Hl Hlock. apply wp_bind, wp_load. rewrite Hl. cbv zeta.
  fold (makes_pending err tx). set (pend := makes_pending err tx).
  apply wp_bind. eapply wp_mono.
  - apply (wp_retry (fun w => (wallet_locked (committed w) \/ refused tx pend (committed w)) /\
                              exists tx', heap w !! l = Some tx' /\ reidentified tx tx')
             (fun w => refused tx pend (committed w))
             (fun w => wallet_locked (committed w) \/ refused tx pend (committed w))).
    + intros w3 [Hor (tx3 & Hl3 & Hre)].
      assert (Hheap : forall w', evolves w3 w' ->
        exists tx', heap w' !! l = Some tx' /\ reidentified tx tx').
      { intros w' He. destruct (He _ _ Hl3) as (tx4 & Hl4 & id & n & ->). eexists.
        split; [done|]. destruct Hre as (id' & n' & ->). by exists id, n. }
      apply wp_transaction; [by split; [|apply Hheap; apply evolves_heap]|].
      apply (wp_error_body l tx3 pend (committed w3)); [done | done | |].
      * intros r w4 Hc He Hr. simpl in Hc.
        destruct r; [by destruct Hr | |]; simpl; rewrite Hc; [|done]. split; [done|].
        by apply (Hheap w4).
      * intros w4 d' Hc He Hd' Href. simpl in Hc.
        apply (refused_reidentified tx) in Href; [|done]. split.
        -- intros e. simpl. rewrite Hc. split; [done|]. by apply (Hheap w4).
        -- intros d0 Hd0. assert (d0 = d') as -> by congruence.
           split; [done|]. split; [by right|]. by apply (Hheap w4).
    + done.
    + by intros w3 [? _].
    + split; [by left|]. exists tx. split; [done | apply reidentified_refl].
  - intros [[]|e|p] w1 H; [|done|done].
    destruct pend; [apply wp_ret | apply wp_throw]; done.
Qed.

(** *** The whole of [sendWithdrawal] *)
Lemma wp_GetAccountByAddress ex a (Q : outcome (option Account) -> World -> Prop) w :
  (forall r, Q r (bump_sql w)) -> wp (WalletStorage.GetAccountByAddress ex a) Q w.
Proof.
  intros HQ. apply wp_bind, wp_try, wp_sql_query_row.
  - intros e He. destruct e; apply HQ || done.
  - intros d Hd. split; [intros _; apply HQ|]. intros j _. apply wp_bind, wp_lift.
    destruct (unmarshal_map j); apply HQ.
Qed.

Lemma wp_LockWallet tx w :
  wp (MakeTransactIfAvailable_wallet (fun ex => WalletStorage.LockWallet ex (lock_operation tx)))
    (fun r w' => (is_ok r -> wallet_locked (committed w')) /\ heap w' = heap w) w.
Proof.
  apply wp_transaction; [by split; [intros []|]|].
  apply wp_sql_exec; [by intros; split; [intros []|]|].
  intros d _. split; [by split; [intros []|]|].
  split; [|by split; [intros []|]]. split; [by intros e; split; [intros []|]|].
  intros d' Hd'. simpl in Hd'. injection Hd' as <-.
  split; (split; [|done]); [|by intros []]. intros _. eexists.
  split; [apply lookup_insert_eq | done].
Qed.

(** What became of a payment that the node answered with [sent], when
    [sendWithdrawal] ends with [r] and leaves the tables [d] committed. *)
Definition withdrawal_outcome (tx : Transaction) (sent : outcome string) (r : outcome unit)
    (d : DB) : Prop :=
  match sent with
  | Ok h =>
      match r with
      | Ok _ => settled h d
      | Err _ => False
      | Panic _ => wallet_locked d \/ settled h d
      end
  | Err e =>
      match r with
      | Ok _ => makes_pending e tx = true /\ refused tx true d
      | Err e' => e' = e /\ makes_pending e tx = false /\ refused tx false d
      | Panic _ => wallet_locked d \/ refused tx (makes_pending e tx) d
      end
  | Panic _ => wallet_locked d
  end.

Lemma wp_after_send l upd tx sent w :
  heap w !! l = Some tx -> wallet_locked (committed w) ->
  wp (after_send l upd sent) (fun r w' =>
    withdrawal_outcome tx (match sent with inl h => Ok h | inr e => Err e end) r (committed w'))
    w.
Proof.
  intros Hl Hlock. apply wp_bind. destruct sent as [h|e].
  - eapply wp_mono; [by apply (wp_handleWithdrawalSuccess l tx)|].
    intros [a|e|p] w1 H; [|done|done]. by destruct upd.
  - eapply wp_mono; [by apply (wp_handleWithdrawalError e l tx)|].
    intros [a|e'|p] w1 H; [|done|done]. by destruct upd.
Qed.

(** Running an operation that keeps the payments. *)
Lemma keeps_paid {A} (m : M A) w :
  (forall T, Ignores T -> Keeps (holds (trace_inv T)) m) ->
  payments (trace (m w).2) = payments (trace w).
Proof.
  intros Hm. assert (Hw : holds (trace_inv (paid (payments (trace w)))) w).
  { split_and!; try done. by apply Forall_true. }
  by destruct (Hm _ _ w Hw) as (_ & _ & Ht & _).
Qed.

Lemma sendWithdrawal_cases l upd w tx r w' :
  heap w !! l = Some tx -> sendWithdrawal l upd w = (r, w') ->
  payments (trace w') = payments (trace w) \/
  exists send w1, sendMoneyFunc (tx_FeeType tx) = Some send /\
    let sent := send (tx_Address tx) (tx_Amount tx) (tx_Fee tx) true w1 in
    wallet_locked (committed w1) /\
    payments (trace w1) = payments (trace w) /\
    payments (trace w') = payments (trace sent.2) /\
    withdrawal_outcome tx sent.1 r (committed w').
Proof.
  intros Hl. unfold sendWithdrawal.
  unfold mbind at 1, M_bind at 1, load. rewrite Hl.
  unfold mbind at 1, M_bind at 1.
  pose proof (keeps_paid (WalletStorage.GetAccountByAddress OnDB (tx_Address tx)) w) as Hacc.
  specialize (Hacc ltac:(intros; by eauto with keeps)).
  pose proof (wp_GetAccountByAddress OnDB (tx_Address tx) (fun r w1 => heap w1 = heap w) w
                ltac:(done)) as Hh. unfold wp in Hh.
  destruct (WalletStorage.GetAccountByAddress OnDB (tx_Address tx) w) as [[[account|]|e|p] w1];
    simpl in Hacc, Hh.
  - intros Hrun. left. rewrite <- Hacc.
    apply (f_equal snd) in Hrun. simpl in Hrun. subst w'. apply keeps_paid. intros.
    apply keeps_internal; apply _.
  - destruct (sendMoneyFunc (tx_FeeType tx)) as [send|] eqn:Es.
    2: { intros [= <- <-]. by left. }
    unfold mbind at 1, M_bind at 1.
    pose proof (keeps_paid (MakeTransactIfAvailable_wallet
      (fun ex => WalletStorage.LockWallet ex (lock_operation tx))) w1) as Hp2.
    specialize (Hp2 ltac:(intros; apply keeps_lock; apply _)).
    pose proof (wp_LockWallet tx w1) as Hlock. unfold wp in Hlock.
    destruct (MakeTransactIfAvailable_wallet _ w1) as [[[]|e|p] w2]; simpl in Hp2, Hlock.
    2,3: intros [= <- <-]; left; by rewrite Hp2.
    destruct Hlock as [Hlock Hh2]. specialize (Hlock I).
    intros Hrun. right. exists send, w2. split; [done|]. cbv zeta.
    split; [done|]. split; [by rewrite Hp2|].
    assert (Hsend : only_requests true (send (tx_Address tx) (tx_Amount tx) (tx_Fee tx) true)).
    { destruct (tx_FeeType tx); simplify_eq/=;
        [apply requests_SendWithPerKBFee | apply requests_SendWithFixedFee]. }
    destruct (Hsend w2) as (acts & Hs & _). revert Hrun.
    unfold mbind at 1, M_bind at 1, try.
    destruct (send _ _ _ _ w2) as [sent w3]. simpl in Hs.
    assert (Hl3 : heap w3 !! l = Some tx) by by rewrite Hs; simpl; rewrite Hh2, Hh.
    assert (Hlock3 : wallet_locked (committed w3)) by by rewrite Hs.
    simpl. destruct sent as [h|e|p]; intros Hrun.
    3: { simplify_eq. done. }
    + change (after_send l upd (inl h) w3 = (r, w')) in Hrun. split.
      * apply (f_equal snd) in Hrun. simpl in Hrun. subst w'. apply keeps_paid. intros.
        by apply keeps_after_send.
      * exact (wp_run _ _ _ _ _ Hrun (wp_after_send l upd tx (inl h) w3 Hl3 Hlock3)).
    + change (after_send l upd (inr e) w3 = (r, w')) in Hrun. split.
      * apply (f_equal snd) in Hrun. simpl in Hrun. subst w'. apply keeps_paid. intros.
        by apply keeps_after_send.
      * exact (wp_run _ _ _ _ _ Hrun (wp_after_send l upd tx (inr e) w3 Hl3 Hlock3)).
  - intros [= <- <-]. by left.
  - intros [= <- <-]. by left.
Qed.

End Recorded.
