(* ===== verification/WithdrawSpec.v ===== *)
(** * What a withdrawal does to the objects and, inside the wallet, to the tables

    The rule of an internal transfer, and the frame of [sendWithdrawal]: other
    transactions than the withdrawn one keep all fields but the two that storing
    assigns. *)
From S2P Require Import Prelude.
From S2P Require Import Go.
From S2P Require Import Util.
From S2P Require Import Bitcoin.
From S2P Require Import TxTypes.
From S2P Require Import EventTypes.
From S2P Require Import World.
From S2P Require Import Effects.
From S2P Require Import Storage.
From S2P Require Import WalletStorage.
From S2P Require Import PgWallet.
From S2P Require Import EventStorage.
From S2P Require Import PgInvariants.
From S2P Require Import PgSpec.
From S2P Require Import Broadcaster.
From S2P Require Import Broker.
From S2P Require Import NodeAPI.
From S2P Require Import WalletBase.
From S2P Require Import Withdraw.
From S2P Require Import NotifySpec.
From S2P Require Import Pending.
From S2P Require Import Updates.
From S2P Require Import WalletKeeps.
From S2P Require Import ApiKeeps.
From S2P Require Import WithdrawSafety.
Local Open Scope Z_scope.

Section InternalTransfer.
Context {E : Env} {EL : EnvLaws E} {CFG : WalletConfig}.
#[local] Existing Instance PostgresStorage.
#[local] Existing Instance PostgresEvents.
Import PostgresWalletStorage.

(** The outgoing and the incoming side of an internal transfer *)
Definition outgoing_side (tx : Transaction) : Transaction :=
  set_Status FullyConfirmedTransaction (set_Confirmations maxConfirmations tx).

Definition incoming_side (account : Account) (tx : Transaction) : Transaction :=
  let tx' := outgoing_side tx in
  set_Amount (u64 (tx_Amount tx' - tx_Fee tx')) (set_ID uuid_Nil
    (set_Metainfo (acc_Metainfo account) (set_Direction IncomingDirection
      (set_ReportedConfirmations (-1) tx')))).

(** [tx] is stored and its confirmations are notified. *)
Definition stored_and_notified (tx : Transaction) (d d' : DB) (tx' : Transaction) : Prop :=
  exists d1 s, stored d tx d1 tx' /\ notified tx' (to_notify tx') s d1 = Ok d'.

Lemma wp_store_and_notify l tx d (Q : outcome unit -> World -> Prop) w :
  heap w !! l = Some tx -> inflight w = Some d ->
  (forall r w', committed w' = committed w -> evolves w w' -> ~ is_ok r -> Q r w') ->
  (forall w' d' tx', committed w' = committed w -> evolves w w' -> inflight w' = Some d' ->
     stored_and_notified tx d d' tx' -> Q (Ok tt) w') ->
  wp (l' ← WalletStorage.StoreTransaction OnTx l; notifyTransaction OnTx l') Q w.
Proof.
  intros Hl Hd Hno Hok.
  apply wp_bind, (wp_StoreTransaction OnTx l tx d); [done | done | |].
  { intros r w1 [Hc _] He Hr. destruct r; [by destruct Hr | apply Hno; auto ..]. }
  intros l' w1 d1 tx1 [Hc1 _] He1 Hst Hd1 Hl1 _. specialize (Hc1 eq_refl).
  apply (wp_notifyTransaction OnTx l' tx1 d1); [done | done | |].
  - intros r w2 [Hc2 _] He2 Hr. specialize (Hc2 eq_refl).
    apply Hno; [congruence | by trans w1 | done].
  - intros w2 d2 [Hc2 _] He2 Hn Hd2 _ _. specialize (Hc2 eq_refl).
    apply (Hok w2 d2 tx1); [congruence | by trans w1 | done |]. by exists d1, (events_seq w1).
Qed.

Lemma wp_update_at l f tx (Q : outcome unit -> World -> Prop) w :
  heap w !! l = Some tx -> Q (Ok tt) (set_heap (<[l := f tx]> (heap w)) w) ->
  wp (update_at l f) Q w.
Proof. intros Hl HQ. apply wp_bind, wp_load. rewrite Hl. exact HQ. Qed.

(** A run of assignments to one object *)
Lemma set_heap_twice l tx tx' w :
  set_heap (<[l := tx']> (heap (set_heap (<[l := tx]> (heap w)) w)))
    (set_heap (<[l := tx]> (heap w)) w) = set_heap (<[l := tx']> (heap w)) w.
Proof. unfold set_heap. simpl. by rewrite list_insert_insert_eq. Qed.

Lemma lookup_set_heap l tx tx' w :
  heap w !! l = Some tx -> heap (set_heap (<[l := tx']> (heap w)) w) !! l = Some tx'.
Proof. intros Hl. apply list_lookup_insert_eq. by eapply lookup_lt_Some. Qed.

Lemma evolves_except_refl l w : evolves_except l w w.
Proof. intros i x _ Hi. exists x. split; [done | apply reidentified_refl]. Qed.

Lemma evolves_except_of l w w' : evolves w w' -> evolves_except l w w'.
Proof. intros He i x _ Hi. by apply He. Qed.

Lemma evolves_except_trans l w1 w2 w3 :
  evolves_except l w1 w2 -> evolves_except l w2 w3 -> evolves_except l w1 w3.
Proof.
  intros H12 H23 i x Hi Hx. apply H12 in Hx as (x2 & Hx2 & id & n & ->); [|done].
  apply H23 in Hx2 as (x3 & Hx3 & id' & n' & ->); [|done].
  eexists. split; [done|]. by exists id', n'.
Qed.

Lemma evolves_except_set l tx w : evolves_except l w (set_heap (<[l := tx]> (heap w)) w).
Proof.
  intros i x Hi Hx. exists x. simpl. rewrite list_lookup_insert_ne by done.
  split; [done | apply reidentified_refl].
Qed.

Lemma wp_internal_body l account tx d (Q : outcome unit -> World -> Prop) w :
  heap w !! l = Some tx -> inflight w = Some d ->
  (forall r w', committed w' = committed w -> evolves_except l w w' -> ~ is_ok r -> Q r w') ->
  (forall w' d1 d' tx1 tx2, committed w' = committed w -> evolves_except l w w' ->
     inflight w' = Some d' ->
     (if tx_ColdStorage tx then d1 = d
      else stored_and_notified (outgoing_side tx) d d1 tx1) ->
     stored_and_notified (incoming_side account tx) d1 d' tx2 -> Q (Ok tt) w') ->
  wp (internal_withdraw_body l account OnTx) Q w.
Proof.
  intros Hl Hd Hno Hok. unfold internal_withdraw_body.
  apply wp_bind, (wp_update_at _ _ tx); [done|].
  apply wp_bind, (wp_update_at _ _ (set_Confirmations maxConfirmations tx));
    [by eapply lookup_set_heap|].
  rewrite set_heap_twice. fold (outgoing_side tx). set (w1 := set_heap _ w).
  assert (Hl1 : heap w1 !! l = Some (outgoing_side tx)) by by eapply lookup_set_heap.
  assert (Hx1 : evolves_except l w w1) by apply evolves_except_set.
  apply wp_bind, wp_load. rewrite Hl1.
  assert (Hin : forall w2 d1 tx1, committed w2 = committed w -> evolves_except l w w2 ->
    evolves w1 w2 -> inflight w2 = Some d1 ->
    (if tx_ColdStorage tx then d1 = d
     else stored_and_notified (outgoing_side tx) d d1 tx1) ->
    wp (update_at l (set_ReportedConfirmations (-1)) ;;
        update_at l (set_Direction IncomingDirection) ;;
        update_at l (set_Metainfo (acc_Metainfo account)) ;;
        update_at l (set_ID uuid_Nil) ;;
        update_at l (fun tx => set_Amount (u64 (tx_Amount tx - tx_Fee tx)) tx) ;;
        l' ← WalletStorage.StoreTransaction OnTx l;
        notifyTransaction OnTx l') Q w2).
  { intros w2 d1 tx1 Hc2 Hx2 He2 Hd2 Hout.
    destruct (He2 _ _ Hl1) as (tx0 & Hl2 & id & n & ->).
    do 5 (apply wp_bind; eapply wp_update_at;
      [first [exact Hl2 | eapply lookup_set_heap; exact Hl2] |];
      rewrite ?set_heap_twice).
    match goal with |- wp _ _ (set_heap (<[l := ?t]> _) _) =>
      change t with (incoming_side account tx) end.
    set (w3 := set_heap _ w2).
    assert (Hx3 : evolves_except l w w3).
    { eapply evolves_except_trans; [exact Hx2 | apply evolves_except_set]. }
    apply (wp_store_and_notify l (incoming_side account tx) d1);
      [by eapply lookup_set_heap | done | |].
    - intros r w4 Hc4 He4 Hr. apply Hno; [by rewrite Hc4 | | done].
      eapply evolves_except_trans; [exact Hx3 | by apply evolves_except_of].
    - intros w4 d' tx2 Hc4 He4 Hd' Hs. apply (Hok w4 d1 d' tx1 tx2); [by rewrite Hc4 | | done..].
      eapply evolves_except_trans; [exact Hx3 | by apply evolves_except_of]. }
  apply wp_bind. change (tx_ColdStorage (outgoing_side tx)) with (tx_ColdStorage tx).
  destruct (tx_ColdStorage tx) eqn:Ecold.
  - by apply wp_ret, (Hin w1 d tx).
  - apply (wp_store_and_notify l (outgoing_side tx) d); [done | done | |].
    + intros r w2 Hc2 He2 Hr. destruct r; [by destruct Hr | |];
        (apply Hno; [done | | by intros []];
         eapply evolves_except_trans; [exact Hx1 | by apply evolves_except_of]).
    + intros w2 d1 tx1 Hc2 He2 Hd2 Hs. apply (Hin w2 d1 tx1); [done | | done..].
      eapply evolves_except_trans; [exact Hx1 | by apply evolves_except_of].
Qed.

End InternalTransfer.

(** ** The frame of [sendWithdrawal] *)
Section Frame.
Context {E : Env} {EL : EnvLaws E} {N : NodeAPI} {NL : NodeAPILaws N} {CFG : WalletConfig}.
#[local] Existing Instance PostgresStorage.
#[local] Existing Instance PostgresEvents.

Definition framed (l : loc) {A} (m : M A) : Prop := forall w, evolves_except l w (m w).2.

Lemma framed_heap l {A} (m : M A) : (forall w, heap (m w).2 = heap w) -> framed l m.
Proof. intros Hm w. apply evolves_except_of, evolves_heap, Hm. Qed.

Lemma framed_bind l {A B} (m : M A) (f : A -> M B) :
  framed l m -> (forall a, framed l (f a)) -> framed l (m ≫= f).
Proof.
  intros Hm Hf w. specialize (Hm w). unfold mbind, M_bind.
  destruct (m w) as [[a|e|p] w1]; simpl in *; [|done..].
  eapply evolves_except_trans; [exact Hm | apply Hf].
Qed.

Lemma framed_try l {A} (m : M A) : framed l m -> framed l (try m).
Proof. intros Hm w. specialize (Hm w). unfold try. by destruct (m w) as [[] ?]. Qed.

Lemma framed_retry l n i msg f : framed l f -> framed l (retry_loop n i msg f).
Proof.
  intros Hf. revert i. induction n as [|n IH]; intros i; simpl;
    (apply framed_bind; [by apply framed_try|]; intros []; [by apply framed_heap|]).
  - by apply framed_heap.
  - apply framed_bind; [by apply framed_heap | intros; apply IH].
Qed.

(** A database transaction: its body runs with tables of its own. *)
Lemma framed_transaction l {A} (f : Exec -> M A) :
  (forall w, is_Some (inflight w) -> evolves_except l w (f OnTx w).2) ->
  framed l (MakeTransactIfAvailable true f).
Proof.
  intros Hf w. apply (wp_transaction f (fun _ w' => evolves_except l w w')).
  { apply evolves_except_of, evolves_heap. done. }
  set (w1 := set_inflight _ _). specialize (Hf w1 ltac:(by eexists)).
  assert (H : evolves_except l w (f OnTx w1).2).
  { intros i x Hi Hx. by apply Hf. }
  unfold wp. destruct (f OnTx w1) as [[a|e|p] w2]; simpl in *; try exact H.
  split; [by intros ? i x Hi Hx; apply H | intros d _; split; exact H].
Qed.

Lemma sql_exec_heap ex stmt w : heap (sql_exec ex stmt w).2 = heap w.
Proof.
  apply (wp_sql_exec ex stmt (fun _ w' => heap w' = heap w)); [done|].
  intros d _. split; [done|]. destruct (stmt d); try done. by destruct ex.
Qed.

Lemma framed_internal l account : framed l (internalWithdrawBetweenOurAccounts l account).
Proof.
  assert (Hset : forall tx, framed l (store l tx)).
  { intros tx w. apply evolves_except_set. }
  assert (Hload : framed l (load l)).
  { apply framed_heap. intros w. unfold load. by destruct (heap w !! l). }
  apply framed_bind; [exact Hload|]. intros tx.
  apply framed_bind; [case_decide; [by apply framed_heap | apply Hset]|]. intros _.
  apply framed_bind; [exact Hload|]. intros tx'. case_decide; [by apply framed_heap|].
  apply framed_bind; [|by intros; apply framed_heap].
  apply framed_transaction. intros w [d Hd].
  destruct (heap w !! l) as [tx0|] eqn:Hl.
  - apply (wp_internal_body l account tx0 d (fun _ w' => evolves_except l w w')); done.
  - unfold internal_withdraw_body, mbind, M_bind, update_at, load. simpl.
    unfold mbind, M_bind, load. rewrite Hl. apply evolves_except_refl.
Qed.

Lemma framed_sendWithdrawal l upd : framed l (sendWithdrawal l upd).
Proof.
  assert (Hload : framed l (load l)).
  { apply framed_heap. intros w. unfold load. by destruct (heap w !! l). }
  assert (Hupd : forall f, framed l (update_at l f)).
  { intros f. apply framed_bind; [exact Hload|]. intros tx w. apply evolves_except_set. }
  apply framed_bind; [exact Hload|]. intros tx. apply framed_bind.
  { apply framed_heap. intros w.
    by apply (wp_GetAccountByAddress OnDB (tx_Address tx) (fun _ w' => heap w' = heap w)). }
  intros [account|]; [apply framed_internal|].
  destruct (sendMoneyFunc (tx_FeeType tx)) as [send|] eqn:Es; [|by apply framed_heap].
  apply framed_bind; [apply framed_heap; intros w; apply wp_LockWallet|]. intros _.
  apply framed_bind.
  { apply framed_try, framed_heap. intros w.
    assert (Hs : only_requests true (send (tx_Address tx) (tx_Amount tx) (tx_Fee tx) true)).
    { destruct (tx_FeeType tx); simplify_eq/=;
        [apply requests_SendWithPerKBFee | apply requests_SendWithFixedFee]. }
    by destruct (Hs w) as (acts & -> & _). }
  intros r. apply framed_bind; [|intros _; apply framed_bind;
    [|intros _; destruct upd]; by apply framed_heap].
  destruct r as [h|e].
  - unfold handleWithdrawalSuccess. apply framed_bind; [apply Hupd | intros _].
    apply framed_bind; [apply Hupd | intros _]. apply framed_retry, framed_transaction.
    intros w [d Hd]. destruct (heap w !! l) as [tx0|] eqn:Hl.
    + apply evolves_except_of.
      apply (wp_success_body l tx0 d (fun _ w' => evolves w w')); done.
    + unfold withdrawal_success_body, mbind, M_bind. simpl.
      unfold PostgresWalletStorage.StoreTransaction, mbind, M_bind, load. rewrite Hl.
      apply evolves_except_refl.
  - unfold handleWithdrawalError. apply framed_bind; [exact Hload|]. intros tx'.
    apply framed_bind; [|intros _; cbv zeta; case_match; by apply framed_heap].
    apply framed_retry, framed_transaction.
    intros w [d Hd]. destruct (heap w !! l) as [tx0|] eqn:Hl.
    + apply evolves_except_of.
      apply (wp_error_body l tx0 _ d (fun _ w' => evolves w w')); done.
    + unfold withdrawal_error_body, mbind, M_bind, load. rewrite Hl. apply evolves_except_refl.
Qed.

End Frame.
