(* ===== verification/PendingSpec.v ===== *)
(** * How the pending withdrawals share the balance

    The loops of pending.go on the amounts of the withdrawals: which prefix of the
    sorted list each balance pays for, and what is left. *)
From S2P Require Import Prelude.
From S2P Require Import Go.
From S2P Require Import Util.
From S2P Require Import Bitcoin.
From S2P Require Import TxTypes.
From S2P Require Import EventTypes.
From S2P Require Import World.
From S2P Require Import Effects.
From S2P Require Import Storage.
From S2P Require Import WalletStorage.
From S2P Require Import PgWallet.
From S2P Require Import EventStorage.
From S2P Require Import PgInvariants.
From S2P Require Import WellFormed.
From S2P Require Import PgSpec.
From S2P Require Import Broadcaster.
From S2P Require Import Broker.
From S2P Require Import NodeAPI.
From S2P Require Import WalletBase.
From S2P Require Import Withdraw.
From S2P Require Import NotifySpec.
From S2P Require Import Pending.
From S2P Require Import Updates.
From S2P Require Import WalletKeeps.
From S2P Require Import ApiKeeps.
From S2P Require Import WithdrawSafety.
From S2P Require Import WithdrawSpec.
Local Open Scope Z_scope.

(** No computation on amounts of at most this size leaves [int64]. *)
Definition amount_bound : Z := 2 ^ 61.

Section Affordable.

(** [ls] point to transactions with the amounts [amts]. *)
Definition amounts (w : World) (ls : list loc) (amts : list Z) : Prop :=
  Forall2 (fun l a => exists tx, heap w !! l = Some tx /\ tx_Amount tx = a) ls amts.

Lemma amounts_frame w w' l ls amts :
  evolves_except l w w' -> l ∉ ls -> amounts w ls amts -> amounts w' ls amts.
Proof.
  intros He Hl Ha. induction Ha as [|l' a ls amts (tx & Hx & Htx) Ha IH]; constructor.
  - apply not_elem_of_cons in Hl as [Hne _].
    apply He in Hx as (tx' & Hx' & id & n & ->); [|done]. by eexists.
  - apply IH. set_solver.
Qed.

(** What a loop that pays from [b] while it can leaves of [amts]: the balance left,
    and how many it paid. *)
Fixpoint affordable (b : Z) (amts : list Z) : Z * nat :=
  match amts with
  | [] => (b, 0%nat)
  | a :: rest =>
      if decide (0 <= b - a) then let '(b', k) := affordable (b - a) rest in (b', S k)
      else (b, 0%nat)
  end.

Lemma affordable_spec b amts b' k :
  affordable b amts = (b', k) ->
  b' = b - sum_Z (take k amts) /\ (k <= length amts)%nat /\
  (forall a, amts !! k = Some a -> b' < a) /\ ((0 < k)%nat -> 0 <= b').
Proof.
  revert b b' k. induction amts as [|a rest IH]; intros b b' k; simpl.
  { intros [= <- <-]. simpl. split_and!; [lia | lia | done | lia]. }
  case_decide as Ha.
  - destruct (affordable (b - a) rest) as [b1 k1] eqn:E. intros [= <- <-].
    destruct (IH _ _ _ E) as (Hb & Hk & Hnext & Hpos). simpl.
    split_and!; [lia | lia | done |]. intros _.
    destruct k1; [|apply Hpos; lia]. simpl in Hb. lia.
  - intros [= <- <-]. simpl. split_and!; [lia | lia | | lia]. intros ? [= <-]. lia.
Qed.

Context {E : Env}.

(** [J] is what the action needs of the world and keeps when it succeeds. *)
Lemma wp_while_affordable (J : World -> Prop) (act : loc -> M unit) ls amts b
    (Q : outcome (list loc * Z) -> World -> Prop) w :
  (forall l w, J w -> wp (act l) (fun r w' => evolves_except l w w' /\ (is_ok r -> J w')) w) ->
  NoDup ls -> amounts w ls amts -> Forall (fun a => 0 <= a < amount_bound) amts ->
  - amount_bound <= b < 2 * amount_bound -> J w ->
  (forall r w', ~ is_ok r -> Q r w') ->
  (forall w' b' k, affordable b amts = (b', k) -> amounts w' (drop k ls) (drop k amts) ->
     J w' -> Q (Ok (drop k ls, b')) w') ->
  wp (while_affordable act ls b) Q w.
Proof.
  intros Hact. revert amts b w Q.
  induction ls as [|l ls IH]; intros amts b w Q Hnd Ham Hbnd Hb Hw Hno Hok.
  { inversion Ham; subst. apply wp_ret. apply (Hok w b 0%nat); done. }
  inversion Ham as [|l0 a ls0 amts' (tx & Hl & Ha) Ham']; subst.
  apply NoDup_cons in Hnd as [Hnotin Hnd]. apply Forall_cons in Hbnd as [Ha0 Hbnd].
  unfold amount_bound in *.
  simpl. apply wp_bind, wp_load. rewrite Hl.
  rewrite (i64_small (tx_Amount tx)), (i64_small (b - tx_Amount tx))
    by (unfold is_i64; lia).
  case_decide as Hpay.
  - apply wp_bind. eapply wp_mono; [by apply Hact|]. intros r w1 [He HJ].
    destruct r as [u|e|p]; [|by apply Hno; intros [] ..].
    assert (Ham1 : amounts w1 ls amts') by by eapply amounts_frame.
    apply (IH amts'); [done | done | done | lia | by apply HJ | done |].
    intros w2 b' k Haff Ham2 H2. apply (Hok w2 b' (S k)); [|done|done].
    simpl. by rewrite decide_True, Haff by done.
  - apply wp_ret. apply (Hok w b 0%nat); [|done|done]. simpl. by rewrite decide_False.
Qed.

Context {EL : EnvLaws E}.
#[local] Existing Instance PostgresStorage.
#[local] Existing Instance PostgresEvents.

(** [updatePendingTxStatus] in a transaction touches only its own transaction. *)
Definition in_tx (c : DB) (w : World) : Prop := committed w = c /\ is_Some (inflight w).

Lemma wp_update_framed c l st w :
  in_tx c w ->
  wp (updatePendingTxStatus OnTx l st)
    (fun r w' => evolves_except l w w' /\ (is_ok r -> in_tx c w')) w.
Proof.
  intros [Hc [d Hd]]. destruct (heap w !! l) as [tx|] eqn:Hl.
  - apply (wp_updatePendingTxStatus OnTx l st tx d); try done.
    + intros _. split; [apply evolves_except_refl|]. intros _. split; [done | by eexists].
    + intros w' d' tx' _ [Hc' _] He _ Hd' _ _. split; [done|]. intros _.
      split; [by rewrite Hc' | by eexists].
  - unfold wp, updatePendingTxStatus, mbind, M_bind, load. rewrite Hl.
    split; [apply evolves_except_refl | by intros []].
Qed.

Lemma wp_wait_cold_storage c ls amts b (Q : outcome Z -> World -> Prop) w :
  NoDup ls -> amounts w ls amts -> Forall (fun a => 0 <= a < amount_bound) amts ->
  - 2 * amount_bound <= b - sum_Z amts -> b < 2 * amount_bound -> in_tx c w ->
  (forall r w', ~ is_ok r -> Q r w') ->
  (forall w', in_tx c w' -> Q (Ok (b - sum_Z amts)) w') ->
  wp (wait_cold_storage OnTx ls b) Q w.
Proof.
  revert amts b w Q.
  induction ls as [|l ls IH]; intros amts b w Q Hnd Ham Hbnd Hlo Hhi Hw Hno Hok.
  { inversion Ham; subst. apply wp_ret. simpl in Hok. rewrite Z.sub_0_r in Hok. by apply Hok. }
  inversion Ham as [|l0 a ls0 amts' (tx & Hl & Ha) Ham']; subst.
  apply NoDup_cons in Hnd as [Hnotin Hnd]. apply Forall_cons in Hbnd as [Ha0 Hbnd].
  assert (0 <= sum_Z amts').
  { apply sum_Z_nonneg, (Forall_impl _ _ _ Hbnd). simpl. lia. }
  simpl in Hlo, Hok |- *. unfold amount_bound in *.
  apply wp_bind, wp_load. rewrite Hl.
  apply wp_bind. eapply wp_mono; [by apply (wp_update_framed c)|]. intros r w1 [He HJ].
  destruct r as [u|e|p]; [|by apply Hno; intros [] ..].
  rewrite (i64_small (tx_Amount tx)), (i64_small (b - tx_Amount tx))
    by (unfold is_i64; lia).
  apply (IH amts'); [done | by eapply amounts_frame | done | lia | lia | by apply HJ | done |].
  intros w2 H2. replace (b - tx_Amount tx - sum_Z amts') with (b - (tx_Amount tx + sum_Z amts'))
    by lia. by apply Hok.
Qed.

(** The money that the tables say is required from cold storage *)
Definition money_required (d : DB) (n : Z) : Prop :=
  db_metadata d !! money_required_meta = Some (itoa n).

Lemma wp_SetMoney_tx c n (Q : outcome unit -> World -> Prop) w :
  in_tx c w -> (forall r w', ~ is_ok r -> Q r w') ->
  (forall w' d, committed w' = c -> inflight w' = Some d -> money_required d n ->
     Q (Ok tt) w') ->
  wp (SetMoneyRequiredFromColdStorage OnTx n) Q w.
Proof.
  intros [Hc [d Hd]] Hno Hok. apply wp_sql_exec.
  - intros. by apply Hno; intros [].
  - intros d0 Hd0. split; [by apply Hno; intros []|]. split; [|by apply Hno; intros []].
    eapply Hok; [exact Hc | reflexivity |]. apply lookup_insert_eq.
Qed.

(** What the transactions that [b] did not pay for need, when [unconf] may pay
    some of them later. *)
Lemma wp_update_unfunded c ls amts b unconf (Q : outcome unit -> World -> Prop) w :
  NoDup ls -> amounts w ls amts -> Forall (fun a => 0 <= a < amount_bound) amts ->
  ls <> [] -> (forall a, head amts = Some a -> b < a) ->
  - amount_bound <= b < amount_bound -> - amount_bound <= unconf < amount_bound ->
  sum_Z amts < amount_bound -> in_tx c w ->
  (forall r w', ~ is_ok r -> Q r w') ->
  (forall w' d, committed w' = c -> inflight w' = Some d ->
     money_required d (Z.max 0 (sum_Z amts - (b + Z.max 0 unconf))) -> Q (Ok tt) w') ->
  wp (update_unfunded ls b unconf OnTx) Q w.
Proof.
  intros Hnd Ham Hbnd Hne Hhead Hb Hu Hsum Hw Hno Hok. unfold amount_bound in *.
  assert (Hrest : forall ls' amts' b' w', NoDup ls' -> amounts w' ls' amts' ->
    Forall (fun a => 0 <= a < 2 ^ 61) amts' -> b' < 2 * 2 ^ 61 ->
    - 2 * 2 ^ 61 <= b' - sum_Z amts' -> in_tx c w' ->
    (forall a, head amts' = Some a -> b' < a) ->
    (amts' = [] -> 0 <= b') ->
    b' - sum_Z amts' = b + Z.max 0 unconf - sum_Z amts ->
    wp (match ls' with
        | [] => SetMoneyRequiredFromColdStorage OnTx 0
        | _ => availableBalance ← wait_cold_storage OnTx ls' b';
               SetMoneyRequiredFromColdStorage OnTx (u64 (- availableBalance))
        end) Q w').
  { intros ls' amts' b' w' Hnd' Ham' Hb' Hhi' Hlo' Hw' Hh' Hnil' Heq.
    destruct Ham' as [|l a ls' amts' Ha Ham'].
    - apply (wp_SetMoney_tx c); [done | done |]. intros w1 d Hc1 Hd1 Hm.
      apply (Hok w1 d); [done|done|]. specialize (Hnil' eq_refl). simpl in Heq.
      rewrite Z.max_l by lia. exact Hm.
    - assert (Hpos : b' < a) by by apply Hh'.
      assert (Hs : 0 <= sum_Z amts').
      { apply Forall_cons in Hb' as [_ Hb']. apply sum_Z_nonneg, (Forall_impl _ _ _ Hb').
        simpl. lia. }
      apply wp_bind, (wp_wait_cold_storage c _ (a :: amts')); unfold amount_bound;
        [done | by constructor | done | lia | lia | done | |].
      { intros r w1 Hr. destruct r; [by destruct Hr | by apply Hno ..]. }
      intros w1 H1. apply (wp_SetMoney_tx c); [done | done |]. intros w2 d Hc2 Hd2 Hm.
      apply (Hok w2 d); [done|done|]. simpl in *.
      rewrite u64_small in Hm by (unfold is_u64; lia).
      rewrite Z.max_r by lia. by replace (sum_Z amts - (b + Z.max 0 unconf))
        with (- (b' - (a + sum_Z amts'))) by lia. }
  unfold update_unfunded. apply wp_bind. case_decide as Hpos.
  - rewrite (i64_small unconf), (i64_small (b + unconf)) by (unfold is_i64; lia).
    apply (wp_while_affordable (in_tx c) _ _ amts); unfold amount_bound;
      [by intros; apply wp_update_framed | done | done | done | lia | done | |].
    { intros r w1 Hr. destruct r; [by destruct Hr | by apply Hno ..]. }
    intros w1 b' k Haff Ham1 H1. apply affordable_spec in Haff as (Hb' & Hk & Hnext & Hk0).
    assert (Hsplit : sum_Z amts = sum_Z (take k amts) + sum_Z (drop k amts)).
    { by rewrite <- sum_Z_app, take_drop. }
    assert (Hd0 : 0 <= sum_Z (drop k amts)).
    { apply sum_Z_nonneg, Forall_drop, (Forall_impl _ _ _ Hbnd). simpl. lia. }
    assert (Ht0 : 0 <= sum_Z (take k amts)).
    { apply sum_Z_nonneg, Forall_take, (Forall_impl _ _ _ Hbnd). simpl. lia. }
    apply (Hrest (drop k ls) (drop k amts)); [| done | by apply Forall_drop | lia | lia | done | | | lia].
    + rewrite <- (take_drop k ls) in Hnd. by apply NoDup_app in Hnd as (_ & _ & ?).
    + intros a Ha. apply Hnext. by rewrite <- Ha, head_lookup, lookup_drop, Nat.add_0_r.
    + intros Hnil. destruct k; [|apply Hk0; lia]. exfalso.
      rewrite drop_0 in Hnil. subst amts. by inversion Ham; subst.
  - apply wp_ret. apply (Hrest ls amts); [done | done | done | lia | lia | done | done | | lia].
    intros ->. exfalso. by inversion Ham; subst.
Qed.

(** *** The list of pending withdrawals *)
Lemma wp_mapM_decode rows (Q : outcome (list loc) -> World -> Prop) w :
  (forall r w', ~ is_ok r -> Q r w') ->
  (forall w' new, reads w w' -> heap w' = heap w ++ new ->
     Forall2 (fun row tx => PostgresWalletStorage.decode_row row = Ok tx) rows new ->
     Q (Ok (seq (length (heap w)) (length rows))) w') ->
  wp (mapM_list PostgresWalletStorage.transactionFromDatabaseRow rows) Q w.
Proof.
  revert Q w. induction rows as [|row rows IH]; intros Q w Hno Hok; simpl.
  { apply wp_ret. apply (Hok w []); [reflexivity | by rewrite app_nil_r | constructor]. }
  apply wp_bind, wp_bind, wp_lift.
  destruct (PostgresWalletStorage.decode_row row) as [tx|e|p] eqn:Ed;
    [|by apply Hno; intros [] ..].
  unfold wp at 1, alloc. cbv beta iota. simpl fst. simpl snd. cbv iota.
  set (w1 := set_heap _ w).
  assert (H1 : reads w w1) by by split; try done; eexists.
  apply wp_bind, IH; [intros [] w2 Hr; [by destruct Hr | by apply Hno ..]|].
  intros w2 new H2 Hh2 Hf. apply wp_ret.
  replace (length (heap w) :: seq (length (heap w1)) (length rows))
    with (seq (length (heap w)) (length (row :: rows))).
  2: { simpl. subst w1. simpl. rewrite length_app. simpl. by rewrite Nat.add_1_r. }
  apply (Hok w2 (tx :: new)); [by trans w1 | | by constructor].
  rewrite Hh2. subst w1. simpl. by rewrite <- app_assoc.
Qed.

Lemma wp_fetch p (Q : outcome (list loc) -> World -> Prop) w :
  (forall r w', ~ is_ok r -> Q r w') ->
  (forall w' ls rows, reads w w' ->
     rows ≡ₚ PostgresWalletStorage.select_transactions p (committed w) ->
     NoDup ls -> amounts w' ls (r_amount <$> rows) -> Q (Ok ls) w') ->
  wp (PostgresWalletStorage.fetch_transactions OnDB p) Q w.
Proof.
  intros Hno Hok. apply wp_bind, wp_sql_query.
  { intros. by apply Hno; intros []. }
  intros d [= <-]. split; [by apply Hno; intros []|].
  set (rows := env_scan _ _).
  assert (Hperm : rows ≡ₚ PostgresWalletStorage.select_transactions p (committed w))
    by apply env_scan_perm.
  apply wp_mapM_decode; [done|]. intros w1 new H1 Hh1 Hf.
  apply (Hok w1 _ rows); [|done | apply NoDup_ListNoDup, List.seq_NoDup |].
  { trans (bump_sql w); [apply reads_bump | done]. }
  unfold amounts. rewrite Forall2_fmap_r. apply Forall2_same_length_lookup_2.
  { by rewrite length_seq. }
  intros i l row Hl Hrow. apply lookup_seq in Hl as [-> Hi].
  destruct (Forall2_lookup_l _ _ _ _ _ Hf Hrow) as (tx & Htx & Hdec).
  exists tx. split.
  - rewrite Hh1, lookup_app_r by lia. by replace (_ + i - _)%nat with i by lia.
  - revert Hdec. unfold PostgresWalletStorage.decode_row. case_decide; [done|].
    intros (? & _ & Hx)%outcome_bind_Ok. apply outcome_bind_Ok in Hx as (? & _ & Hx).
    by simplify_eq.
Qed.

(** The amounts of sorted pointers *)
Lemma wp_sort ls amts (Q : outcome (list loc) -> World -> Prop) w :
  NoDup ls -> amounts w ls amts ->
  (forall ls' amts', ls' ≡ₚ ls -> amts' ≡ₚ amts -> NoDup ls' -> amounts w ls' amts' ->
     StronglySorted Z.le amts' -> Q (Ok ls') w) ->
  wp (sort_by_amount ls) Q w.
Proof.
  intros Hnd Ham Hok. unfold sort_by_amount.
  assert (Hkeyed : forall ls amts, amounts w ls amts ->
    mapM_list (fun l => tx ← load l; mret (tx_Amount tx, l)) ls w = (Ok (zip amts ls), w)).
  { clear. intros ls amts Ham. induction Ham as [|l a ls amts (tx & Hl & Ha) Ham IH]; [done|].
    simpl. unfold mbind, M_bind, load, mret, M_ret in *. rewrite Hl. rewrite IH. by rewrite Ha. }
  unfold wp, mbind at 1 3, M_bind at 1 3. rewrite (Hkeyed ls amts Ham). simpl.
  set (keyed := zip amts ls). set (sorted := env_sort _ keyed).
  assert (Hperm : sorted ≡ₚ keyed) by apply env_sort_perm.
  assert (Hsorted : StronglySorted (fun a b => a.1 <= b.1) sorted)
    by apply (env_sort_sorted (fun p => p.1)).
  assert (Hlen : length amts = length ls) by (symmetry; by eapply Forall2_length).
  assert (Hall : Forall (fun p => exists tx, heap w !! p.2 = Some tx /\ tx_Amount tx = p.1) keyed).
  { subst keyed. clear -Ham. induction Ham; simpl; [constructor | by constructor]. }
  apply (Hok (snd <$> sorted) (fst <$> sorted)).
  - rewrite Hperm. subst keyed. by rewrite snd_zip by lia.
  - rewrite Hperm. subst keyed. by rewrite fst_zip by lia.
  - rewrite Hperm. subst keyed. by rewrite snd_zip by lia.
  - rewrite <- Hperm in Hall. unfold amounts. rewrite Forall2_fmap.
    clear -Hall. induction Hall; constructor; done.
  - clear -Hsorted. induction Hsorted as [|x l Hl IH Hx]; simpl; constructor; [done|].
    rewrite Forall_fmap. exact Hx.
Qed.

End Affordable.

(** ** A stored transaction by its id *)
Section ById.
Context {E : Env} {EL : EnvLaws E}.
#[local] Existing Instance PostgresStorage.

Lemma wp_get_by_id ex id row s d (Q : outcome loc -> World -> Prop) w :
  wf_db s d -> target ex w = Some d -> row ∈ db_transactions d -> r_id row = id ->
  (forall e w', reads w w' -> e <> ErrNoRows -> Q (Err e) w') ->
  (forall l tx w', reads w w' -> PostgresWalletStorage.decode_row row = Ok tx ->
     heap w' !! l = Some tx -> Q (Ok l) w') ->
  wp (GetTransactionByID ex id) Q w.
Proof.
  intros Hwf Hd Hrow Hid He Hok. apply wp_get_one.
  - intros e w1 H1 Hno. apply He; [done|]. intros ->. specialize (Hno eq_refl _ Hd _ Hrow).
    by rewrite bool_decide_eq_false in Hno.
  - intros d0 l w1 Hd0 H1 (row' & tx & Hrow' & Hp%bool_decide_eq_true & Hdec & Hl) _.
    assert (d0 = d) as -> by congruence.
    assert (row' = row) as ->; [|by eapply Hok].
    pose proof (wf_ids _ _ Hwf) as Hnd.
    apply list_elem_of_lookup in Hrow as [i Hi], Hrow' as [j Hj].
    assert (i = j) as ->; [|congruence].
    eapply (NoDup_lookup _ _ _ id Hnd); rewrite list_lookup_fmap;
      [by rewrite Hi; simpl; rewrite Hid | by rewrite Hj; simpl; rewrite Hp].
Qed.

End ById.
