(* ===== verification/UpdatesSpec.v ===== *)
(** * What the updates from the node do

    Rules for [updateTxInfo] under any faults, and the rows that are known by their hash,
    direction and address, which storing and notifying never lose. *)
From S2P Require Import Prelude.
From S2P Require Import Go.
From S2P Require Import Bitcoin.
From S2P Require Import TxTypes.
From S2P Require Import EventTypes.
From S2P Require Import World.
From S2P Require Import Effects.
From S2P Require Import Storage.
From S2P Require Import WalletStorage.
From S2P Require Import PgWallet.
From S2P Require Import EventStorage.
From S2P Require Import PgInvariants.
From S2P Require Import WellFormed.
From S2P Require Import PgSpec.
From S2P Require Import Broker.
From S2P Require Import NodeAPI.
From S2P Require Import WalletBase.
From S2P Require Import Withdraw.
From S2P Require Import NotifySpec.
From S2P Require Import Updates.
From S2P Require Import WithdrawSpec.
Local Open Scope Z_scope.

Section UpdatesSpec.
Context {E : Env} {EL : EnvLaws E} {N : NodeAPI} {CFG : WalletConfig}.
#[local] Existing Instance PostgresStorage.
#[local] Existing Instance PostgresEvents.

Lemma wp_account address d ex (Q : outcome (option Account) -> World -> Prop) w :
  target ex w = Some d ->
  (forall r, ~ is_ok r -> Q r (bump_sql w)) ->
  (PostgresWalletStorage.select_account address d = [] -> Q (Ok None) (bump_sql w)) ->
  (forall m, m ∈ PostgresWalletStorage.select_account address d ->
     Q (Ok (Some (mkAccount address m))) (bump_sql w)) ->
  wp (GetAccountByAddress ex address) Q w.
Proof.
  intros Hd Hno Hnone Hsome. apply wp_bind, wp_try, wp_sql_query_row.
  - intros e He. destruct e; try done; apply Hno; by intros [].
  - intros d0 Hd0. assert (d0 = d) as -> by congruence. split.
    + intros Hnil. by apply wp_ret, Hnone.
    + intros j Hj. apply wp_bind, wp_lift. unfold unmarshal_map.
      destruct j; try (apply Hno; by intros []); by apply wp_ret, Hsome.
Qed.

(** The metainfo that an update gives a transaction *)
Definition with_metainfo (hot : bool) (d : DB) (tx tx' : Transaction) : Prop :=
  if decide (tx_Direction tx <> IncomingDirection) then tx' = tx
  else if hot then tx' = set_Metainfo hotStorageMeta tx
  else let found := PostgresWalletStorage.select_account (tx_Address tx) d in
       (found = [] /\ tx' = set_Metainfo unknownAccountError tx) \/
       (exists m, m ∈ found /\ tx' = set_Metainfo m tx).

Lemma with_metainfo_incoming (hot : bool) d tx tx' :
  tx_Direction tx = IncomingDirection ->
  (if hot then tx' = set_Metainfo hotStorageMeta tx
   else let found := PostgresWalletStorage.select_account (tx_Address tx) d in
        (found = [] /\ tx' = set_Metainfo unknownAccountError tx) \/
        (exists m, m ∈ found /\ tx' = set_Metainfo m tx)) ->
  with_metainfo hot d tx tx'.
Proof. intros Hi H. unfold with_metainfo. by rewrite decide_False by tauto. Qed.

(** The second half of [updateTxInfo], on the object with its metainfo *)
Definition settle (hot : bool) (l : loc) (old : TransactionStatus) : M bool :=
  update_at l setTxStatusByConfirmations ;;
  l' ← WalletStorage.StoreTransaction OnTx l;
  tx' ← load l';
  (if negb hot && negb (tx_ColdStorage tx') then notifyTransaction OnTx l' else mret tt) ;;
  mret (tx_Fresh tx' || bool_decide (old <> tx_Status tx')).

(** The tables become [d']. *)
Definition settled (hot : bool) (tx : Transaction) (s : Z) (d d' : DB) (tx' : Transaction) : Prop :=
  exists d1, stored d (setTxStatusByConfirmations tx) d1 tx' /\
    if hot || tx_ColdStorage tx' then d' = d1
    else notified tx' (to_notify tx') s d1 = Ok d'.

Lemma wp_settle hot l old tx d (Q : outcome bool -> World -> Prop) w :
  heap w !! l = Some tx -> inflight w = Some d ->
  (forall r w', committed w' = committed w -> ~ is_ok r -> Q r w') ->
  (forall w' d' tx', committed w' = committed w -> settled hot tx (events_seq w) d d' tx' ->
     inflight w' = Some d' -> Q (Ok (tx_Fresh tx' || bool_decide (old <> tx_Status tx'))) w') ->
  wp (settle hot l old) Q w.
Proof.
  intros Hl Hd Hno Hok. apply wp_bind, (wp_update_at _ _ tx); [done|].
  set (w2 := set_heap _ w). apply wp_bind.
  apply (wp_StoreTransaction OnTx l (setTxStatusByConfirmations tx) d);
    [by eapply lookup_set_heap | done | |].
  { intros [l'|e|p] w3 [Hc3 _] _ Hr; [by destruct Hr | by apply Hno; [apply (Hc3 eq_refl)|] ..]. }
  intros l' w3 d1 tx1 [Hc3 _] _ Hstored Hd3 Hl3 Hs3. specialize (Hc3 eq_refl). simpl in Hc3, Hs3.
  apply wp_bind, wp_load. rewrite Hl3. apply wp_bind.
  destruct (negb hot && negb (tx_ColdStorage tx1)) eqn:Hcond.
  - apply andb_true_iff in Hcond as [Hhot%negb_true_iff Hcold%negb_true_iff].
    apply (wp_notifyTransaction OnTx l' tx1 d1); [done | done | |].
    { intros [[]|e|p] w4 [Hc4 _] _ Hr; [by destruct Hr | ..];
        (apply Hno; [by rewrite (Hc4 eq_refl)|done]). }
    intros w4 d' [Hc4 _] _ Hn Hd' _ _. specialize (Hc4 eq_refl). apply wp_ret.
    eapply Hok; [by rewrite Hc4 | | exact Hd']. exists d1. rewrite Hhot, Hcold. simpl.
    split; [done|]. by rewrite <- Hs3.
  - apply wp_ret, wp_ret. eapply Hok; [done | | exact Hd3]. exists d1. split; [done|].
    destruct hot; [done|]. simpl in Hcond |- *. by apply negb_false_iff in Hcond as ->.
Qed.

Lemma wp_updateTxInfo l tx d (Q : outcome bool -> World -> Prop) w :
  let hot := bool_decide (tx_Address tx = wp_hotWalletAddress (wallet_proc w)) in
  heap w !! l = Some tx -> inflight w = Some d ->
  (forall r w', committed w' = committed w -> ~ is_ok r -> Q r w') ->
  (forall w' d1 d' tx0 tx1, committed w' = committed w -> with_metainfo hot d tx tx0 ->
     stored d (setTxStatusByConfirmations tx0) d1 tx1 ->
     (if hot || tx_ColdStorage tx1 then d' = d1
      else notified tx1 (to_notify tx1) (events_seq w) d1 = Ok d') ->
     inflight w' = Some d' ->
     Q (Ok (tx_Fresh tx1 || bool_decide (tx_Status tx <> tx_Status tx1))) w') ->
  wp (updateTxInfo OnTx l) Q w.
Proof.
  intros hot Hl Hd Hno Hok.
  apply wp_bind, wp_load. rewrite Hl. apply wp_bind, wp_gets. fold hot. apply wp_bind.
  change (update_at l setTxStatusByConfirmations ;; _) with (settle hot l (tx_Status tx)).
  assert (Hrest : forall w1 tx0, heap w1 !! l = Some tx0 -> inflight w1 = Some d ->
    committed w1 = committed w -> events_seq w1 = events_seq w -> with_metainfo hot d tx tx0 ->
    wp (settle hot l (tx_Status tx)) Q w1).
  { intros w1 tx0 Hl1 Hd1 Hc1 Hs1 Hm. apply (wp_settle hot l _ tx0 d); [done | done | |].
    - intros r w2 Hc2 Hr. apply Hno; [by rewrite Hc2 | done].
    - intros w2 d' tx' Hc2 (d1 & Hst & Hn) Hd'. apply (Hok w2 d1 d' tx0 tx'); try done.
      + by rewrite Hc2.
      + by rewrite <- Hs1. }
  destruct (decide (tx_Direction tx = IncomingDirection)) as [Hi|Hi];
    [|apply wp_ret, (Hrest w tx); try done; unfold with_metainfo; by rewrite decide_True].
  assert (Hset : forall m w1, heap w1 = heap w -> inflight w1 = Some d ->
      committed w1 = committed w -> events_seq w1 = events_seq w ->
      with_metainfo hot d tx (set_Metainfo m tx) ->
      wp (update_at l (set_Metainfo m)) (fun r w2 => match r with
        | Ok _ => wp (settle hot l (tx_Status tx)) Q w2
        | Err e => Q (Err e) w2 | Panic p => Q (Panic p) w2 end) w1).
  { intros m w1 Hh Hd1 Hc1 Hs1 Hm. eapply wp_update_at; [by rewrite Hh|].
    apply (Hrest _ (set_Metainfo m tx)); try done. eapply lookup_set_heap. by rewrite Hh. }
  assert (Hin := with_metainfo_incoming hot d tx).
  destruct hot; [apply Hset; by auto|].
  unfold getAccountMetainfo. apply wp_bind, wp_bind, (wp_account _ d); [done | | |].
  - by intros [a|e|p] Hr; [destruct Hr | apply Hno ..].
  - intros Hnil. apply wp_ret, Hset; try done. apply Hin; [done|]. by left.
  - intros m Hm. apply wp_ret, Hset; try done. apply Hin; [done|]. right. by exists m.
Qed.

(** ** Transactions known by their hash, direction and address *)
Section Known.
Import PostgresWalletStorage.

Definition known (d : DB) (tx : Transaction) : Prop :=
  exists row, row ∈ db_transactions d /\ by_hash tx row = true.

Definition ids (d : DB) : list UUID := r_id <$> db_transactions d.

(** The tables [d'] know what [d] knows. *)
Definition grows (d d' : DB) : Prop := NoDup (ids d') /\ forall tx, known d tx -> known d' tx.

Lemma known_key d tx tx' :
  tx_Hash tx' = tx_Hash tx -> tx_Direction tx' = tx_Direction tx -> tx_Address tx' = tx_Address tx ->
  known d tx' -> known d tx.
Proof. unfold known, by_hash. by intros -> -> ->. Qed.

Lemma settled_key hot d tx tx0 :
  with_metainfo hot d tx tx0 ->
  let tx1 := setTxStatusByConfirmations tx0 in
  tx_ID tx1 = tx_ID tx /\ tx_Hash tx1 = tx_Hash tx /\ tx_Direction tx1 = tx_Direction tx /\
  tx_Address tx1 = tx_Address tx.
Proof.
  intros H. assert (tx0 = tx \/ exists m, tx0 = set_Metainfo m tx) as [->|[m ->]].
  { revert H. unfold with_metainfo. case_decide; [by left|]. destruct hot; [by eauto|].
    intros [[_ ->]|(m & _ & ->)]; by eauto. }
  all: unfold setTxStatusByConfirmations; by repeat case_decide.
Qed.

Lemma NoDup_same_id (rows : list TxRow) row row' :
  NoDup (r_id <$> rows) -> row ∈ rows -> row' ∈ rows -> r_id row = r_id row' -> row = row'.
Proof.
  intros Hnd [i Hi]%list_elem_of_lookup_1 [j Hj]%list_elem_of_lookup_1 Heq.
  assert (i = j) as ->; [|by simplify_eq].
  eapply (NoDup_lookup _ i j (r_id row)); [exact Hnd | by rewrite list_lookup_fmap, Hi |].
  rewrite list_lookup_fmap, Hj. simpl. by rewrite Heq.
Qed.

Lemma grows_map_id id f d d' :
  NoDup (ids d) -> db_transactions d' = map_id id f (db_transactions d) ->
  (forall row, r_id (f row) = r_id row) ->
  (forall tx row, row ∈ db_transactions d -> r_id row = id -> by_hash tx row = true ->
     by_hash tx (f row) = true) -> grows d d'.
Proof.
  intros Hnd Hd' Hid Hf. split.
  - unfold ids. by rewrite Hd', map_id_ids.
  - intros tx (row & Hin & Hrow).
    exists (if decide (r_id row = id) then f row else row). split.
    + rewrite Hd'. unfold map_id. apply list_elem_of_fmap. by exists row.
    + case_decide; [by apply Hf | done].
Qed.

Lemma stored_grows d tx d' tx' :
  NoDup (ids d) -> tx_ID tx = uuid_Nil -> stored d tx d' tx' -> grows d d' /\ known d' tx.
Proof.
  intros Hnd Hnil [(row & ext & [Hin [[Hid _]|(_ & _ & Hrow)]] & _ & Hup & _)|(_ & Hid & Hins)];
    [done | |].
  - injection Hup as <-.
    assert (Hg : grows d (with_transactions
      (map_id (r_id row) (update_row tx) (db_transactions d)) d)).
    { apply (grows_map_id (r_id row) (update_row tx)); [done | done | done|].
      intros tx2 row2 Hin2 Hid2. rewrite (NoDup_same_id _ _ _ Hnd Hin2 Hin Hid2).
      unfold by_hash in Hrow |- *. apply andb_true_iff in Hrow as [[Hh _]%andb_true_iff _].
      apply bool_decide_eq_true in Hh. simpl. by rewrite Hh. }
    split; [done|]. apply Hg. by exists row.
  - revert Hins. unfold insert_transaction. case_decide; [done|]. case_decide as Hnew; [done|].
    intros [= <-]. split; [split|].
    + unfold ids. simpl. rewrite fmap_app. by apply NoDup_snoc.
    + intros tx2 (row & Hin & Hrow). exists row. split; [|done]. simpl. apply elem_of_app. by left.
    + exists (row_of_transaction tx'). simpl. split; [apply elem_of_app; right; by left|].
      unfold by_hash. rewrite !andb_true_iff, !bool_decide_eq_true.
      by destruct Hid as [[-> _]|(id & -> & _)].
Qed.

Lemma notified_grows tx confs s d d' : NoDup (ids d) -> notified tx confs s d = Ok d' -> grows d d'.
Proof.
  intros Hnd (rows & _ & _ & _ & Htx & _)%notified_shape. destruct (last confs) as [n|].
  - by apply (grows_map_id (tx_ID tx) (set_reported n)).
  - split; [unfold ids; by rewrite Htx|]. intros tx2. unfold known. by rewrite Htx.
Qed.

End Known.

Lemma wp_process_new txs any d (Q : outcome bool -> World -> Prop) w :
  inflight w = Some d -> NoDup (ids d) ->
  (forall r w', committed w' = committed w -> ~ is_ok r -> Q r w') ->
  (forall b w' d', committed w' = committed w -> inflight w' = Some d' -> grows d d' ->
     (forall t, t ∈ txs -> known d' (NewTransactionFromBTCJSON t)) -> Q (Ok b) w') ->
  wp (process_new OnTx txs any) Q w.
Proof.
  revert any d w. induction txs as [|t rest IH]; intros any d w Hd Hnd Hno Hok; simpl.
  { apply wp_ret, (Hok any w d); [done | done | by split | by intros t ?%elem_of_nil]. }
  set (tx := NewTransactionFromBTCJSON t).
  apply wp_bind. unfold wp at 1, alloc. simpl. set (w1 := set_heap _ w).
  apply wp_bind, (wp_updateTxInfo _ tx d); [by apply list_lookup_middle | done | |].
  { intros [b|e|p] w2 Hc Hr; [by destruct Hr | by apply Hno ..]. }
  intros w2 d1 d2 tx0 tx1 Hc2 Hm Hst Hn Hd2.
  destruct (settled_key _ _ _ _ Hm) as (Hid & Hh & Hdir & Ha).
  destruct (stored_grows d (setTxStatusByConfirmations tx0) d1 tx1 Hnd) as [[Hnd1 Hg1] Hk1]; [by rewrite Hid | exact Hst|].
  assert (grows d1 d2) as [Hnd2 Hg2].
  { destruct (_ || _); [by subst d2; split | by eapply notified_grows]. }
  eapply (IH _ d2); [done | done | |].
  - intros r w3 Hc3. apply Hno. by rewrite Hc3.
  - intros b w3 d3 Hc3 Hd3 [Hnd3 Hg3] Hall. apply (Hok b w3 d3); [by rewrite Hc3 | done | |].
    + split; [done|]. intros tx2 H2. by apply Hg3, Hg2, Hg1.
    + intros t' [->|Ht']%elem_of_cons; [|by apply Hall].
      apply Hg3, Hg2. by apply (known_key d1 tx _ Hh Hdir Ha).
Qed.

End UpdatesSpec.
