(* ===== verification/System.v ===== *)
(** * The running program on PostgreSQL

    The wallet's goroutine, the broker's goroutine and the API's calls as handlers
    that run one at a time (cmd/bitcoin-processing/main.go starts the goroutines;
    the handlers of one goroutine never overlap, those of two share only the
    tables). A crash loses everything but the committed tables; [HStart] is a
    start of the program: the two checks, then what [Run] does before its loops. *)
From S2P Require Import Prelude.
From S2P Require Import Go.
From S2P Require Import Util.
From S2P Require Import Bitcoin.
From S2P Require Import TxTypes.
From S2P Require Import EventTypes.
From S2P Require Import World.
From S2P Require Import Effects.
From S2P Require Import Storage.
From S2P Require Import WalletStorage.
From S2P Require Import PgWallet.
From S2P Require Import EventStorage.
From S2P Require Import PgInvariants.
From S2P Require Import WellFormed.
From S2P Require Import PgSpec.
From S2P Require Import Broadcaster.
From S2P Require Import Broker.
From S2P Require Import NodeAPI.
From S2P Require Import WalletBase.
From S2P Require Import Withdraw.
From S2P Require Import NotifySpec.
From S2P Require Import Pending.
From S2P Require Import Updates.
From S2P Require Import WalletKeeps.
From S2P Require Import ApiKeeps.
From S2P Require Import WithdrawSafety.
From S2P Require Import Api.
From S2P Require Import TestEnv.
Local Open Scope Z_scope.

Inductive Handler :=
| HStart
| HCrash
| HWallet (i : WalletInput) (stopped : bool)
| HBroker (i : BrokerInput)
| HApi (path : string) (body : Body)
| HSubscribe (seq : Z)
| HUnsubscribe (ch : nat)
| HReceive (ch : nat).

(** The server's own setting *)
Class ServerConfig := { allowWithdrawalWithoutID : bool }.

(** What a new process finds. *)
Definition crash (w : World) : World := {|
  heap := []; committed := committed w; inflight := None; events_seq := events_seq w;
  sql_count := sql_count w; uuid_count := uuid_count w;
  mem_wallet := mem_wallet w; mem_events := mem_events w;
  wallet_proc := NewWallet; broker_proc := NewEventBroker; trace := trace w;
|}.

Section System.
Context {E : Env} {EL : EnvLaws E} {N : NodeAPI} {NL : NodeAPILaws N} {CFG : WalletConfig}.
Context {HC : HTTPClient} {BCFG : BrokerConfig} {SCFG : ServerConfig}.
#[local] Existing Instance PostgresStorage.
#[local] Existing Instance PostgresEvents.

Definition start : M unit :=
  Check_wallet ;; Check_broker ;;
  Run_wallet [] ;; Run_broker [].

Definition handle (h : Handler) : M unit :=
  match h with
  | HStart => start
  | HCrash => modify crash
  | HWallet i stopped => loop_iteration i stopped ;; mret tt
  | HBroker i => broker_iteration i ;; mret tt
  | HApi path body =>
      match serve allowWithdrawalWithoutID path with
      | Some handler => handler body ;; mret tt
      | None => mret tt                   (* 404 *)
      end
  | HSubscribe seq => SubscribeFromSeq seq ;; mret tt
  | HUnsubscribe ch => UnsubscribeFromSeq ch
  | HReceive ch => receive ch ;; mret tt
  end.

(** Handlers one after the other, whatever each of them ends with. *)
Fixpoint run (hs : list Handler) (w : World) : World :=
  match hs with [] => w | h :: hs' => run hs' (handle h w).2 end.

Section Invariant.
Context (I : Inv) {HS : StorageKeeps I any_exec PostgresStorage}.
Context {HE : EventStorageKeeps I any_exec PostgresEvents}.
Context {CO : Coherent I} {TC : TxClosed I} {AA : AsksAllowed I}.
Context {AS : forall n, Allowed I (ASleep n)}.
Context (Hsend : forall l upd, Keeps (holds I) (sendWithdrawal l upd)).
Context (Hpost : forall event w w1, holds I w -> lock_event event w = (Ok tt, w1) ->
  holds I (sendDataToHTTPCallback event w1).2).
Context (Hreq : forall request cold hot c r tx hold,
  is_u64 (wr_Amount request) -> is_u64 (wr_Fee request) ->
  prepare_withdraw hot c request cold = Ok (r, tx, hold) -> iv_ok I tx).

Lemma keeps_crash : Keeps (holds I) (modify crash).
Proof. intros w (Hc & Hi & Ht & Hh). by split_and!. Qed.

Lemma keeps_start : Keeps (holds I) start.
Proof.
  pose proof (keeps_Run_wallet I Hsend []).
  pose proof (keeps_Run_broker I Hpost []).
  unfold start, Check_wallet, Check_broker. solve_keeps.
Qed.

Lemma keeps_handle h : Keeps (holds I) (handle h).
Proof.
  destruct h; simpl in *.
  - apply keeps_start.
  - apply keeps_crash.
  - apply keeps_bind; [by apply (keeps_loop_iteration I Hsend) | solve_keeps].
  - apply keeps_bind; [by apply (keeps_broker_iteration I Hpost) | solve_keeps].
  - destruct (serve _ path) as [handler|] eqn:Hs; [|solve_keeps].
    apply keeps_bind; [by eapply (keeps_serve I Hsend Hreq) | solve_keeps].
  - apply keeps_bind; [apply keeps_Subscribe | solve_keeps].
  - apply keeps_Unsubscribe.
  - apply keeps_bind; [apply keeps_receive | solve_keeps].
Qed.

Lemma keeps_run hs w : holds I w -> holds I (run hs w).
Proof.
  revert w. induction hs as [|h hs IH]; intros w Hw; simpl; [done|].
  apply IH. by apply keeps_handle.
Qed.
End Invariant.

End System.

(** ** The two invariants of the system *)
Section Theorems.
Context {E : Env} {EL : EnvLaws E} {N : NodeAPI} {NL : NodeAPILaws N} {CFG : WalletConfig}.
Context {HC : HTTPClient} {BCFG : BrokerConfig} {SCFG : ServerConfig}.
#[local] Existing Instance PostgresStorage.
#[local] Existing Instance PostgresEvents.

Lemma prepare_withdraw_tx hot c request cold r tx hold :
  prepare_withdraw hot c request cold = Ok (r, tx, hold) ->
  tx_Amount tx = wr_Amount request /\ tx_Fee tx = wr_Fee request /\
  tx_Direction tx = OutgoingDirection /\ tx_Status tx = NewTransaction.
Proof.
  unfold prepare_withdraw. intros (ft & _ & H)%outcome_bind_Ok.
  apply outcome_bind_Ok in H as (b & _ & H). apply outcome_bind_Ok in H as (rq & Hrq & H).
  assert (wr_Amount rq = wr_Amount request /\ wr_Fee rq = wr_Fee request) as [Ha Hf].
  { clear H. revert Hrq. repeat case_match; intros Hrq; by simplify_eq. }
  case_decide; [done|]. simplify_eq. simpl. by rewrite Ha, Hf.
Qed.

#[export] Instance wf_closed : TxClosed wf_inv.
Proof.
  split; unfold wf_inv, tx_ok; simpl; try tauto; [naive_solver|].
  intros t. refine (conj _ (conj _ (conj _ _))).
  - destruct (NewAmount (lt_Amount t)); [apply u64_range | unfold is_u64; lia].
  - unfold is_u64. lia.
  - by repeat case_decide.
  - done.
Qed.

#[export] Instance wf_asks : AsksAllowed wf_inv.
Proof. intros a _ _. apply wf_allowed. Qed.
#[export] Instance wf_sends : SendsAllowed wf_inv.
Proof. intros a _. apply wf_allowed. Qed.

Lemma keeps_run_locks hs w : holds locks_inv w -> holds locks_inv (run hs w).
Proof.
  apply keeps_run; try apply _; [apply locks_sendWithdrawal | apply locks_post | done].
Qed.

Lemma keeps_run_wf hs w : holds wf_inv w -> holds wf_inv (run hs w).
Proof.
  apply keeps_run; try apply _.
  - intros l upd. apply (keeps_sendWithdrawal wf_inv).
  - intros event w0 w1 H0 Hl. apply (keeps_sendData wf_inv).
    assert (Hk : Keeps (holds wf_inv) (lock_event event)).
    { apply keeps_transaction; [apply _|]. intros ex. by apply (keeps_LockHTTPCallback (exs := any_exec)). }
    specialize (Hk w0 H0). by rewrite Hl in Hk.
  - intros request cold hot c r tx hold Ha Hf (HA & HF & Hd & Hs)%prepare_withdraw_tx.
    unfold wf_inv, tx_ok. simpl. by rewrite HA, HF, Hd, Hs.
Qed.

End Theorems.
