(* ===== verification/SafetyProps.v ===== *)
(** * Properties: locks, payments and well-formed tables *)
From S2P Require Import Prelude.
From S2P Require Import Go.
From S2P Require Import Util.
From S2P Require Import Bitcoin.
From S2P Require Import TxTypes.
From S2P Require Import EventTypes.
From S2P Require Import World.
From S2P Require Import Effects.
From S2P Require Import Storage.
From S2P Require Import WalletStorage.
From S2P Require Import PgWallet.
From S2P Require Import EventStorage.
From S2P Require Import PgInvariants.
From S2P Require Import WellFormed.
From S2P Require Import PgSpec.
From S2P Require Import Broadcaster.
From S2P Require Import Broker.
From S2P Require Import NodeAPI.
From S2P Require Import WalletBase.
From S2P Require Import Withdraw.
From S2P Require Import NotifySpec.
From S2P Require Import Pending.
From S2P Require Import Updates.
From S2P Require Import WalletKeeps.
From S2P Require Import ApiKeeps.
From S2P Require Import WithdrawSafety.
From S2P Require Import Api.
From S2P Require Import System.
From S2P Require Import TestEnv.
Local Open Scope Z_scope.

(** ** A concrete run for the witnesses *)
Section Concrete.

Definition pay_request : WithdrawRequest := {|
  wr_ID := 7; wr_Address := "client"; wr_Amount := 50000; wr_Fee := 1000;
  wr_FeeType := "per-kb-rate"; wr_Metainfo := JNull |}.

(** The same request as the text of a request to the API *)
Definition pay_body : string :=
  json_text (@WithdrawRequest_MarshalJSON test_decimal test_uuid pay_request).

Definition test_server : ServerConfig := {| allowWithdrawalWithoutID := false |}.

Definition paying_node (sent : outcome string) : NodeAPI :=
  test_node [] (mkGetTransactionResult "h" "" 0 "") 100000 0 sent.

#[export] Instance paying_node_laws sent : NodeAPILaws (paying_node sent).
Proof. apply _. Qed.

Definition run_test (faults : list (nat * fault)) (sent : outcome string) (hs : list Handler)
    : World :=
  @run (test_env (faults_at faults)) (paying_node sent) test_config (test_http 200)
    (test_broker_config 0) test_server hs init_world.

End Concrete.

Lemma init_locked : all_locked (trace init_world).
Proof. constructor. Qed.

Lemma init_wf : holds wf_inv init_world.
Proof.
  split_and!; simpl; try constructor; try done; simpl; try apply NoDup_nil_2; constructor.
Qed.

Section Locks.
Context {E : Env} {EL : EnvLaws E} {N : NodeAPI} {NL : NodeAPILaws N} {CFG : WalletConfig}.
Context {HC : HTTPClient} {BCFG : BrokerConfig} {SCFG : ServerConfig}.

(** C1: Whatever the program handles, in any order, with any failures of the
    database, with crashes and restarts in between: whenever a request that can move money
    is sent to the Bitcoin node, the committed tables hold the wallet's lock, and
    whenever an event is posted to the client, they hold the broker's. *)
Theorem payments_and_callbacks_locked (hs : list Handler) (w : World) (a : Act) (d : DB)
    (Hw : all_locked (trace w)) (Ha : (a, d) ∈ trace (run hs w)) :
  (moves_money a = true -> wallet_locked d) /\ (is_post a = true -> callback_locked d).
Proof.
  assert (Hh : holds (trace_inv all_locked) w).
  { split_and!; try done. by apply Forall_true. }
  destruct (keeps_run_locks hs w Hh) as (_ & _ & Ht & _).
  simpl in Ht. unfold all_locked in Ht. rewrite Forall_forall in Ht. exact (Ht _ Ha).
Qed.

End Locks.

Definition pay_handlers : list Handler :=
  [HStart; HApi WithdrawURL (Some pay_body); HBroker (InHTTPTrigger false)].

Definition pay_run : World := run_test [] (Ok "h") pay_handlers.

Lemma payments_and_callbacks_locked_witness :
  exists a d, (a, d) ∈ trace pay_run /\ moves_money a = true /\ wallet_locked d.
Proof.
  assert (H : exists p, trace pay_run !! 4%nat = Some p /\ moves_money p.1 = true)
    by (eexists; vm_compute; split; reflexivity).
  destruct H as ([a d] & Hl & Hm). exists a, d.
  apply list_elem_of_lookup_2 in Hl. split; [exact Hl|]. split; [exact Hm|].
  refine (proj1 (payments_and_callbacks_locked (E := test_env (faults_at []))
            (N := paying_node (Ok "h")) (CFG := test_config) (HC := test_http 200)
            (BCFG := test_broker_config 0) (SCFG := test_server)
            pay_handlers init_world a d init_locked Hl) Hm).
Defined.

(** ** A payment is recorded, or the wallet stays locked *)
Section Payment.
Context {E : Env} {EL : EnvLaws E} {N : NodeAPI} {NL : NodeAPILaws N} {CFG : WalletConfig}.
#[local] Existing Instance PostgresStorage.
#[local] Existing Instance PostgresEvents.

(** C2: Under any failures of the database, [sendWithdrawal] either sends no
    payment at all, or calls the node's send function once, under a committed
    lock, and then: if the node took the payment, it returns without an error only
    when a row with the payment's hash and status "new" is committed and
    the lock released, and if it has to give up (a panic), that is so or the lock
    is still committed; it never reports an error for a payment that the node
    took. If the node refused, the lock is released (or the wallet stopped with it),
    and the error is returned unless it is a lack of funds of a regular
    withdrawal, which leaves the withdrawal pending. *)
Theorem sendWithdrawal_recorded_or_locked (l : loc) (updatePending : bool) (w w' : World)
    (tx : Transaction) (r : outcome unit) (Hl : heap w !! l = Some tx)
    (Hrun : sendWithdrawal l updatePending w = (r, w')) :
  payments (trace w') = payments (trace w) \/
  exists send w1, sendMoneyFunc (tx_FeeType tx) = Some send /\
    let sent := send (tx_Address tx) (tx_Amount tx) (tx_Fee tx) true w1 in
    wallet_locked (committed w1) /\
    payments (trace w1) = payments (trace w) /\
    payments (trace w') = payments (trace sent.2) /\
    match sent.1, r with
    | Ok h, Ok _ => recorded h NewTransaction (committed w') /\ wallet_unlocked (committed w')
    | Ok h, Err _ => False
    | Ok h, Panic _ =>
        wallet_locked (committed w') \/
        (recorded h NewTransaction (committed w') /\ wallet_unlocked (committed w'))
    | Err e, Ok _ =>
        isInsufficientFundsError e = true /\ tx_ColdStorage tx = false /\
        wallet_unlocked (committed w') /\ pending_recorded tx (committed w')
    | Err e, Err e' =>
        e' = e /\ (isInsufficientFundsError e = false \/ tx_ColdStorage tx = true) /\
        wallet_unlocked (committed w')
    | Err e, Panic _ => wallet_locked (committed w') \/ wallet_unlocked (committed w')
    | Panic _, _ => wallet_locked (committed w')
    end.
Proof.
  destruct (sendWithdrawal_cases l updatePending w tx r w' Hl Hrun)
    as [H|(send & w1 & Hs & Hlock & Hp1 & Hp2 & Ho)]; [by left|].
  right. exists send, w1. split; [done|]. cbv zeta in *. split_and!; [done..|].
  unfold withdrawal_outcome, makes_pending, refused, settled in Ho.
  destruct (send _ _ _ _ w1).1 as [h|e|p], r as [u|e'|p']; try tauto.
  - destruct Ho as [[? Hc]%andb_true_iff [? Hp]]. apply negb_true_iff in Hc. auto.
  - destruct Ho as (-> & [?|Hc]%andb_false_iff & ? & _); [by auto|].
    apply negb_false_iff in Hc. auto.
Qed.

End Payment.

(** The first commit of the result is lost and the second one's reply too: the
    payment is recorded all the same. *)
Definition lossy : Env := test_env (faults_at [(11%nat, FaultBefore); (17%nat, FaultAfter)]).

Definition pay_world : World := set_heap [test_tx 7 "client" 50000] init_world.

Definition lossy_payment : outcome unit * World :=
  @sendWithdrawal lossy (@PostgresStorage lossy) (@PostgresEvents lossy)
    (paying_node (Ok "h")) test_config 0 true pay_world.

Lemma sendWithdrawal_recorded_or_locked_witness :
  lossy_payment.1 = Ok tt /\ recorded "h" NewTransaction (committed lossy_payment.2) /\
  wallet_unlocked (committed lossy_payment.2).
Proof.
  assert (Hr : lossy_payment = (Ok tt, lossy_payment.2)) by (vm_compute; reflexivity).
  split; [by rewrite Hr|].
  assert (T := sendWithdrawal_recorded_or_locked (E := lossy) (EL := test_env_laws _)
    (N := paying_node (Ok "h")) (CFG := test_config) 0 true pay_world lossy_payment.2
    (test_tx 7 "client" 50000) (Ok tt) eq_refl).
  destruct T as [H|(send & w1 & Hs & _ & _ & _ & H)]; [vm_compute; reflexivity | |].
  - exfalso. revert H. vm_compute. discriminate.
  - assert (Hsend : send = @SendWithPerKBFee (paying_node (Ok "h")))
      by (vm_compute in Hs |- *; congruence).
    rewrite Hsend in H. exact H.
Defined.

(** But the event of the payment is never stored: the first attempt, whose COMMIT
    did not reach the server, marked it as reported in the object that the second
    attempt works on. *)
Lemma lost_commit_loses_the_event :
  lossy_payment.1 = Ok tt /\ db_events (committed lossy_payment.2) = [].
Proof. split; vm_compute; reflexivity. Qed.

(** ** Start-up *)
Section Start.
Context {E : Env} {EL : EnvLaws E} {N : NodeAPI} {CFG : WalletConfig}.
Context {HC : HTTPClient} {BCFG : BrokerConfig} {SCFG : ServerConfig}.
#[local] Existing Instance PostgresStorage.
#[local] Existing Instance PostgresEvents.

Lemma wp_GetMeta_locked name w (Q : outcome string -> World -> Prop) op :
  db_metadata (committed w) !! name = Some op ->
  (forall e, Q (Err e) (bump_sql w)) -> Q (Ok op) (bump_sql w) ->
  wp (GetMeta OnDB name "") Q w.
Proof.
  intros Hop He Hok. apply wp_GetMeta; [done|]. intros d [= <-]. by rewrite Hop.
Qed.

(** A check that finds its lock, or cannot read it, panics. *)
Lemma wp_check_locked (check : M (bool * string)) name w op msg1 msg2 :
  check = (operation ← GetMeta OnDB name ""; mret (bool_decide (operation = ""), operation)) ->
  db_metadata (committed w) !! name = Some op -> op <> "" ->
  wp (r ← try check;
      match r with
      | inr _ => panic msg1
      | inl (ok, operation) => if ok : bool then mret tt else panic msg2
      end) (fun r w' => w' = bump_sql w /\ exists msg, r = Panic msg) w.
Proof.
  intros -> Hop Hne. apply wp_bind, wp_try, wp_bind, (wp_GetMeta_locked _ _ _ op); [done | |].
  - intros e. apply wp_panic. by eauto.
  - apply wp_ret. rewrite bool_decide_eq_false_2 by done. apply wp_panic. by eauto.
Qed.

(** C38: A program started over tables that hold the wallet's lock or the
    broker's stops with a panic, whatever the database answers: it sends nothing
    and changes nothing. *)
Theorem locked_start_refused (w w' : World) (r : outcome unit)
    (Hlock : wallet_locked (committed w) \/ callback_locked (committed w))
    (Hrun : handle HStart w = (r, w')) :
  (exists msg, r = Panic msg) /\ committed w' = committed w /\ trace w' = trace w /\
  broker_proc w' = broker_proc w /\ wallet_proc w' = wallet_proc w.
Proof.
  apply (wp_run _ (fun r w' => (exists msg, r = Panic msg) /\
    committed w' = committed w /\ trace w' = trace w /\
    broker_proc w' = broker_proc w /\ wallet_proc w' = wallet_proc w) _ _ _ Hrun).
  unfold handle, start.
  assert (Hbroker : forall w1, callback_locked (committed w1) ->
    wp (Check_broker) (fun r w' => w' = bump_sql w1 /\ exists msg, r = Panic msg) w1).
  { intros w1 (op & Hop & Hne). by eapply wp_check_locked. }
  apply wp_bind. destruct Hlock as [(op & Hop & Hne)|Hcb].
  - eapply wp_mono; [by eapply (wp_check_locked _ "wallet_operation")|].
    intros r1 w1 (-> & msg & ->). by eauto 6.
  - apply wp_bind, wp_try, wp_bind, wp_GetMeta.
    + intros e. apply wp_panic. by eauto 6.
    + intros d [= <-]. apply wp_ret. case_bool_decide; [|apply wp_panic; by eauto 6].
      apply wp_ret, wp_bind. eapply wp_mono; [by apply (Hbroker (bump_sql w))|].
      intros r1 w1 (-> & msg & ->). by eauto 6.
Qed.

End Start.

(** A process that was killed right after it asked the node to pay. *)
Definition killed_world : World :=
  @crash (set_committed (mkDB [] [] {[ "wallet_operation" := "withdraw" ]} [] []) init_world).

Definition killed_start : outcome unit * World :=
  @handle (test_env no_fault) (paying_node (Ok "h")) test_config (test_http 200)
    (test_broker_config 0) test_server HStart killed_world.

Lemma locked_start_refused_witness :
  (exists msg, killed_start.1 = Panic msg) /\ trace killed_start.2 = [].
Proof.
  assert (Hlock : wallet_locked (committed killed_world)).
  { exists "withdraw". split; [reflexivity | done]. }
  assert (T := locked_start_refused (E := test_env no_fault) (N := paying_node (Ok "h"))
    (CFG := test_config) (HC := test_http 200) (BCFG := test_broker_config 0) (SCFG := test_server) killed_world
    killed_start.2 killed_start.1 (or_introl Hlock)).
  destruct T as (Hp & _ & Ht & _); [apply surjective_pairing|].
  split; [exact Hp | exact Ht].
Defined.

(** ** Well-formed tables *)
Section WellFormed.
Context {E : Env} {EL : EnvLaws E} {N : NodeAPI} {NL : NodeAPILaws N} {CFG : WalletConfig}.
Context {HC : HTTPClient} {BCFG : BrokerConfig} {SCFG : ServerConfig}.

(** C27: Whatever the program handles, with any failures of the database, crashes and
    restarts: the tables are well-formed at the end and at every moment something was
    sent or committed: unique transaction ids, addresses and muted ids, amounts
    and fees that fit, readable statuses, directions and event types, a readable
    money requirement, and events in strictly increasing order of sequence numbers,
    all below the next one. *)
Theorem tables_well_formed (hs : list Handler) (w : World)
    (Hc : wf_db (events_seq w) (committed w))
    (Hi : inflight w = None) (Hh : Forall tx_ok (heap w)) (Ht : trace w = []) :
  wf_db (events_seq (run hs w)) (committed (run hs w)) /\
  (forall a d, (a, d) ∈ trace (run hs w) -> exists s, wf_db s d).
Proof.
  assert (Hw : holds wf_inv w).
  { split_and!; simpl; [done | by rewrite Hi | by rewrite Ht | done]. }
  destruct (keeps_run_wf hs w Hw) as (Hc' & _ & Ht' & _). split; [done|].
  simpl in Ht'. rewrite Forall_forall in Ht'. intros a d Ha. apply (Ht' _ Ha).
Qed.

End WellFormed.

Lemma tables_well_formed_witness :
  wf_db (events_seq pay_run) (committed pay_run) /\ r_id <$> db_transactions (committed pay_run) = [7%N].
Proof.
  split; [|vm_compute; reflexivity].
  apply (tables_well_formed (E := test_env (faults_at []))
    (N := paying_node (Ok "h")) (CFG := test_config) (HC := test_http 200)
    (BCFG := test_broker_config 0) (SCFG := test_server) pay_handlers init_world (proj1 init_wf)
    eq_refl (Forall_nil_2 _) eq_refl).
Defined.
