(* ===== verification/NotifyProps.v ===== *)
(** * Properties: notifications of confirmations and changes of a status *)
From S2P Require Import Prelude.
From S2P Require Import Go.
From S2P Require Import Util.
From S2P Require Import Bitcoin.
From S2P Require Import TxTypes.
From S2P Require Import EventTypes.
From S2P Require Import World.
From S2P Require Import Effects.
From S2P Require Import Storage.
From S2P Require Import WalletStorage.
From S2P Require Import PgWallet.
From S2P Require Import EventStorage.
From S2P Require Import PgInvariants.
From S2P Require Import PgSpec.
From S2P Require Import Broadcaster.
From S2P Require Import Broker.
From S2P Require Import NodeAPI.
From S2P Require Import WalletBase.
From S2P Require Import Withdraw.
From S2P Require Import NotifySpec.
From S2P Require Import TestEnv.
Local Open Scope Z_scope.

Section NotifyProps.
Context {E : Env} {EL : EnvLaws E} {CFG : WalletConfig}.
#[local] Existing Instance PostgresStorage.
#[local] Existing Instance PostgresEvents.
Import PostgresWalletStorage PostgresEventStorage.

(** C18: A notification run that succeeds, on the pool or in a transaction, stores exactly one
    event for each confirmation number after the last reported one up to the
    smaller of the confirmations and the configured maximum, in that order,
    with consecutive sequence numbers; the row and the object then report the last
    of them, and nothing else in the tables changes. *)
Theorem notifyTransaction_exact (ex : Exec) (l : loc) (tx : Transaction) (d : DB) (w w' : World)
    (Hl : heap w !! l = Some tx) (Hd : target ex w = Some d)
    (Hrun : notifyTransaction ex l w = (Ok tt, w')) :
  let upto := Z.min (tx_Confirmations tx) maxConfirmations in
  let n := Z.to_nat (upto - tx_ReportedConfirmations tx) in
  exists rows d', target ex w' = Some d' /\ length rows = n /\
    db_events d' = db_events d ++ rows /\
    (forall k, (k < n)%nat -> exists row, rows !! k = Some row /\
       confirmation_event tx (events_seq w + Z.of_nat k)
         (tx_ReportedConfirmations tx + 1 + Z.of_nat k) = Ok row) /\
    db_transactions d' =
      (if decide (n = 0%nat) then db_transactions d
       else map_id (tx_ID tx) (set_reported upto) (db_transactions d)) /\
    db_accounts d' = db_accounts d /\ db_metadata d' = db_metadata d /\
    db_muted d' = db_muted d /\
    events_seq w' = events_seq w + Z.of_nat n /\
    (heap w' !! l = Some (if decide (n = 0%nat) then tx
                          else set_ReportedConfirmations upto tx)).
Proof.
  cbv zeta. set (upto := Z.min _ _). set (n := Z.to_nat _).
  assert (Hc : to_notify tx = seqZ (tx_ReportedConfirmations tx + 1) (Z.of_nat n)).
  { unfold to_notify, zrange. rewrite Min64_min. subst n upto.
    destruct (decide (tx_ReportedConfirmations tx <=
                      Z.min (tx_Confirmations tx) maxConfirmations)).
    - f_equal. lia.
    - rewrite !seqZ_nil by lia. done. }
  assert (Hlast : last (to_notify tx) = if decide (n = 0%nat) then None else Some upto).
  { rewrite Hc, last_lookup, length_seqZ, Nat2Z.id. case_decide as Hn.
    - rewrite Hn. done.
    - rewrite lookup_seqZ_lt by lia. f_equal. subst n upto. lia. }
  by_wp Hrun. apply (wp_notifyTransaction _ _ tx d); [done | done | |].
  { intros [] w1 _ _ Hr; [by destruct Hr | done..]. }
  intros w1 d' _ _ Hn Hd' Hl' Hseq _.
  apply notified_shape in Hn as (rows & Hev & Hlen & Hk & Htx & Ha & Hm & Hmu).
  assert (Hn : length (to_notify tx) = n) by by rewrite Hc, length_seqZ, Nat2Z.id.
  exists rows, d'. split_and!; [done | by rewrite Hlen | done | | | done.. | |].
  - intros k Hkn. apply Hk. rewrite Hc. apply lookup_seqZ_lt. lia.
  - rewrite Htx, Hlast. by case_decide.
  - by rewrite Hseq, Hn.
  - rewrite Hl'. unfold with_reported. rewrite Hlast. by case_decide.
Qed.

(** The event of confirmation number [i]: it is "new" for number 0 and "confirmed"
    after that, for the direction of the transaction; it carries the
    transaction with that number of confirmations, without a block hash for number
    0, and, for a transaction that is on the chain, with the status that this number
    of confirmations gives. There is no event for another direction. *)
Theorem confirmation_event_content (tx : Transaction) (s i : Z) :
  confirmation_event tx s i =
    match tx_Direction tx with
    | IncomingDirection | OutgoingDirection =>
        let on_chain := bool_decide (tx_Status tx ∈
          [NewTransaction; ConfirmedTransaction; FullyConfirmedTransaction]) in
        let tx' := set_Confirmations i
          (set_BlockHash (if decide (i = 0) then "" else tx_BlockHash tx)
          (set_Status (if on_chain then
                         if decide (i <= 0) then NewTransaction
                         else if decide (i < maxConfirmations) then ConfirmedTransaction
                         else FullyConfirmedTransaction
                       else tx_Status tx) tx)) in
        let type := match tx_Direction tx with
                    | IncomingDirection =>
                        if decide (i = 0) then "new-incoming-tx" else "incoming-tx-confirmed"
                    | _ => if decide (i = 0) then "new-outgoing-tx" else "outgoing-tx-confirmed"
                    end in
        Ok (mkEventRow s type (TxNotification_MarshalJSON (notification_of tx')))
    | _ => Panic ("Unexpected tx direction " +:+ Direction_String (tx_Direction tx))
    end.
Proof.
  unfold confirmation_event, getTransactionNotificationType.
  assert (Hcopy : notification_copy i tx = set_Confirmations i
    (set_BlockHash (if decide (i = 0) then "" else tx_BlockHash tx)
    (set_Status (if bool_decide (tx_Status tx ∈
                       [NewTransaction; ConfirmedTransaction; FullyConfirmedTransaction])
                 then if decide (i <= 0) then NewTransaction
                      else if decide (i < maxConfirmations) then ConfirmedTransaction
                      else FullyConfirmedTransaction
                 else tx_Status tx) tx))).
  { unfold notification_copy, setTxStatusByConfirmations. destruct tx; simpl.
    destruct (decide (i = 0)); destruct tx_Status; simpl;
      repeat (case_decide; try lia; try naive_solver); done. }
  destruct (tx_Direction tx); simpl; try done; rewrite Hcopy; by case_decide.
Qed.

End NotifyProps.

Lemma target_OnDB w d : target OnDB w = Some d -> committed w = d.
Proof. by intros [= <-]. Qed.

(** An incoming transaction with three confirmations, none of them reported. *)
Definition incoming_tx : Transaction :=
  set_Confirmations 3 (set_BlockHash "block" (set_Hash "h"
    (set_Direction IncomingDirection (test_tx 7 "ours" 50000)))).

Definition incoming_db : DB :=
  mkDB [PostgresWalletStorage.row_of_transaction incoming_tx] [] ∅ [] [].

Definition incoming_world : World :=
  set_heap [incoming_tx] (set_committed incoming_db init_world).

Definition notify_run : outcome unit * World :=
  @notifyTransaction (test_env no_fault) (@PostgresStorage (test_env no_fault))
    (@PostgresEvents (test_env no_fault)) test_config OnDB 0 incoming_world.

Lemma notifyTransaction_exact_witness :
  exists rows, length rows = 4%nat /\ db_events (committed notify_run.2) = rows /\
    er_type <$> rows = ["new-incoming-tx"; "incoming-tx-confirmed"; "incoming-tx-confirmed";
                        "incoming-tx-confirmed"] /\
    er_seq <$> rows = [1; 2; 3; 4].
Proof.
  assert (T := notifyTransaction_exact (E := test_env no_fault) (CFG := test_config) OnDB 0
    incoming_tx incoming_db incoming_world notify_run.2 eq_refl eq_refl).
  cbv zeta in T. destruct T as (rows & d' & Hd' & Hlen & Hev & _); [vm_compute; reflexivity|].
  apply target_OnDB in Hd'. exists rows.
  assert (Hrows : db_events (committed notify_run.2) = rows) by (rewrite Hd'; exact Hev).
  split; [rewrite Hlen; reflexivity|]. split; [exact Hrows|].
  rewrite <- Hrows. split; vm_compute; reflexivity.
Defined.

Section StatusProps.
Context {E : Env} {EL : EnvLaws E} {CFG : WalletConfig}.
#[local] Existing Instance PostgresStorage.
#[local] Existing Instance PostgresEvents.
Import PostgresWalletStorage PostgresEventStorage.

(** A change of a pending status that succeeds does nothing when the
    transaction has the status already; else it stores the transaction with the new
    status (in the row that its id, or its hash, direction and address
    determine) and exactly one event, of the type "pending-tx-cancelled" for a
    cancellation and "tx-pending-status-updated" otherwise, with the stored
    transaction as its data. *)
Theorem updatePendingTxStatus_notifies (ex : Exec) (l : loc) (status : TransactionStatus)
    (tx : Transaction) (d : DB) (w w' : World)
    (Hl : heap w !! l = Some tx) (Hd : target ex w = Some d)
    (Hrun : updatePendingTxStatus ex l status w = (Ok tt, w')) :
  (status = tx_Status tx /\ w' = w) \/
  (status <> tx_Status tx /\ exists d1 d' stored_tx tx',
     stored d (set_Status status tx) d1 stored_tx /\
     reidentified (set_Status status tx) tx' /\ heap w' !! l = Some tx' /\
     target ex w' = Some d' /\ db_transactions d' = db_transactions d1 /\
     db_events d' = db_events d ++
       [mkEventRow (events_seq w)
          (if decide (status = CancelledTransaction)
           then "pending-tx-cancelled" else "tx-pending-status-updated")
          (TxNotification_MarshalJSON (notification_of tx'))]).
Proof.
  by_wp Hrun. apply (wp_updatePendingTxStatus _ _ _ tx d); [done | done | | |].
  - intros [] w1 _ _ Hr; [by destruct Hr | done..].
  - intros Hst _. by left.
  - intros w1 d' tx' Hst _ _ (d1 & tx1 & Hs & Hre & Hi) Hd' Hl' _ _. right.
    split; [done|]. exists d1, d', tx1, tx'.
    assert (He1 : db_events d1 = db_events d).
    { destruct Hs as [(row & ext & _ & _ & [= <-] & _)|(_ & _ & Hins)]; [done|].
      revert Hins. unfold insert_transaction. by repeat case_decide; intros; simplify_eq. }
    revert Hi. unfold insert_event. case_decide; [done|]. intros [= <-].
    split_and!; try done. simpl. rewrite He1. unfold pending_event_type. by case_decide.
Qed.

End StatusProps.

Definition cancel_run : outcome unit * World :=
  @updatePendingTxStatus (test_env no_fault) (@PostgresStorage (test_env no_fault))
    (@PostgresEvents (test_env no_fault)) OnDB 0 CancelledTransaction incoming_world.

Lemma updatePendingTxStatus_notifies_witness :
  exists data, db_events (committed cancel_run.2) =
    [mkEventRow 1 "pending-tx-cancelled" data].
Proof.
  assert (T := updatePendingTxStatus_notifies (E := test_env no_fault) OnDB 0
    CancelledTransaction incoming_tx incoming_db incoming_world cancel_run.2 eq_refl eq_refl).
  destruct T as [[H _]|(_ & d1 & d' & stx & tx' & _ & _ & _ & Hd' & _ & Hev)];
    [vm_compute; reflexivity | discriminate H|].
  apply target_OnDB in Hd'. rewrite Hd', Hev. eexists. reflexivity.
Defined.
