(* ===== verification/TypeProps.v ===== *)
(** * The types of the program's values, kept by every operation *)
From S2P Require Import Prelude.
From S2P Require Import Go.
From S2P Require Import Json.
From S2P Require Import Bitcoin.
From S2P Require Import TxTypes.
From S2P Require Import EventTypes.
From S2P Require Import World.
From S2P Require Import Effects.
From S2P Require Import Storage.
From S2P Require Import WalletStorage.
From S2P Require Import PgWallet.
From S2P Require Import EventStorage.
From S2P Require Import PgInvariants.
From S2P Require Import WellFormed.
From S2P Require Import Broker.
From S2P Require Import NodeAPI.
From S2P Require Import WalletBase.
From S2P Require Import Api.
From S2P Require Import Client.
From S2P Require Import System.
From S2P Require Import TestEnv.
From S2P Require Import SafetyProps.
Local Open Scope Z_scope.

Section Typed.
Context {E : Env} {EL : EnvLaws E} {N : NodeAPI} {NL : NodeAPILaws N} {CFG : WalletConfig}.
Context {HC : HTTPClient} {BCFG : BrokerConfig} {SCFG : ServerConfig}.
Context {DL : DecimalLaws env_decimal} {UL : UuidLaws env_uuidlib}.
Import PostgresWalletStorage.

(** C15: Whatever the program handles, with any failures of the database, crashes and
    restarts: every transaction in the process's memory has amounts of 64 bits and a
    direction and status that have a name; every row of the table, also one that was
    there before, is read as such a transaction; and the client decodes its JSON form
    to the transaction itself, less the two fields the form leaves out. *)
Theorem transactions_well_typed (hs : list Handler) (w : World)
    (Hc : wf_db (events_seq w) (committed w))
    (Hi : inflight w = None) (Hh : Forall tx_ok (heap w)) (Ht : trace w = []) :
  Forall tx_ok (heap (run hs w)) /\
  (forall r, r ∈ db_transactions (committed (run hs w)) ->
   exists tx, decode_row r = Ok tx /\ tx_ok tx /\
     (is_i64 (tx_Confirmations tx) ->
      Transaction_UnmarshalJSON (Transaction_MarshalJSON tx) = Ok (without_hidden_fields tx))).
Proof.
  assert (Hw : holds wf_inv w) by (split_and!; simpl; [done | by rewrite Hi | by rewrite Ht | done]).
  destruct (keeps_run_wf hs w Hw) as (Hc' & _ & _ & Hh'). split; [exact Hh'|]. intros r Hr.
  pose proof (proj1 (Forall_forall _ _) (wf_rows _ _ Hc') r Hr) as Hrow.
  destruct (decode_row_total r Hrow) as (tx & Hdec & Htx).
  exists tx. split; [exact Hdec|]. split; [exact Htx|]. destruct Htx as (Ha & Hf & Hd & Hs).
  intros Hconf. by apply transaction_json_roundtrip.
Qed.

End Typed.

Lemma transactions_well_typed_witness :
  Forall tx_ok (heap pay_run) /\ heap pay_run <> [] /\
  exists r tx, r ∈ db_transactions (committed pay_run) /\ tx_ok tx /\
    PostgresWalletStorage.decode_row r = Ok tx.
Proof.
  destruct (transactions_well_typed (E := test_env (faults_at []))
    (N := paying_node (Ok "h")) (CFG := test_config) (HC := test_http 200)
    (BCFG := test_broker_config 0) (SCFG := test_server) (DL := test_decimal_laws)
    (UL := test_uuid_laws) pay_handlers init_world (proj1 init_wf)
    eq_refl (Forall_nil_2 _) eq_refl) as [Hheap Hrows].
  split; [exact Hheap|]. split; [by vm_compute|].
  assert (Hin : exists r, r ∈ db_transactions (committed pay_run)).
  { assert (Hne : db_transactions (committed pay_run) <> []) by by vm_compute.
    destruct (db_transactions (committed pay_run)) as [|r rows]; [done|]. exists r. by left. }
  destruct Hin as [r Hr]. destruct (Hrows r Hr) as (tx & Hdec & Htx & _).
  exists r, tx. split; [exact Hr|]. split; [exact Htx | exact Hdec].
Defined.
