(* ===== verification/UpdatesProps.v ===== *)
(** * Properties of the updates from the node *)
From S2P Require Import Prelude.
From S2P Require Import Go.
From S2P Require Import Bitcoin.
From S2P Require Import TxTypes.
From S2P Require Import EventTypes.
From S2P Require Import World.
From S2P Require Import Effects.
From S2P Require Import Storage.
From S2P Require Import WalletStorage.
From S2P Require Import PgWallet.
From S2P Require Import EventStorage.
From S2P Require Import PgSpec.
From S2P Require Import Broker.
From S2P Require Import NodeAPI.
From S2P Require Import WalletBase.
From S2P Require Import Withdraw.
From S2P Require Import NotifySpec.
From S2P Require Import Updates.
From S2P Require Import WithdrawSpec.
From S2P Require Import UpdatesSpec.
From S2P Require Import TestEnv.
Local Open Scope Z_scope.

Section NewTransactions.
Context {E : Env} {EL : EnvLaws E} {N : NodeAPI} {NL : NodeAPILaws N} {CFG : WalletConfig}.
#[local] Existing Instance PostgresStorage.
#[local] Existing Instance PostgresEvents.

Definition last_seen (d : DB) : string := default "" (db_metadata d !! "last_seen_block_hash").

(** The tables [d'] have what the node reported since the last seen block of [d], and its
    last block. *)
Definition caught_up (d d' : DB) : Prop :=
  grows d d' /\
  exists reply w1 w2, ListTransactionsSinceBlock (last_seen d) w1 = (Ok reply, w2) /\
    last_seen d' = ls_LastBlock reply /\
    forall t, t ∈ ls_Transactions reply -> known d' (NewTransactionFromBTCJSON t).

Lemma wp_new_transactions d (Q : outcome bool -> World -> Prop) w :
  inflight w = Some d -> NoDup (ids d) ->
  (forall r w', committed w' = committed w -> ~ is_ok r -> Q r w') ->
  (forall b w' d', committed w' = committed w -> inflight w' = Some d' -> caught_up d d' ->
     Q (Ok b) w') ->
  wp (new_transactions_body OnTx) Q w.
Proof.
  intros Hd Hnd Hno Hok. apply wp_bind, wp_GetMeta.
  { intros e. by apply Hno; [|intros []]. }
  intros d0 Hd0. assert (d0 = d) as -> by (simpl in Hd0; congruence). fold (last_seen d).
  apply wp_bind. unfold wp at 1.
  destruct (requests_ListTransactionsSinceBlock (last_seen d) (bump_sql w)) as (acts & Hacts & _).
  destruct (ListTransactionsSinceBlock (last_seen d) (bump_sql w)) as [[reply|e|p] w1] eqn:Hlist;
    simpl in Hacts; subst w1; [|by apply Hno; [|intros []] ..].
  apply wp_bind, (wp_process_new _ _ d); [done | done | |].
  { intros [b|e|p] w2 Hc Hr; [by destruct Hr | by apply Hno ..]. }
  intros b w2 d2 Hc2 Hd2 [Hnd2 Hg] Hall.
  apply wp_bind, wp_sql_exec; [by intros; apply Hno; [|intros []]|]. intros d3 Hd3.
  assert (d3 = d2) as -> by (simpl in Hd3; congruence).
  split; [by apply Hno; [|intros []]|]. unfold upsert_meta. cbv iota.
  match goal with |- ?Q' (put_db OnTx ?x ?w0) /\ _ => set (d' := x); set (w3 := w0) end.
  split; [|by intros; apply Hno; [|intros []]].
  apply wp_ret, (Hok b _ d'); [done | done|]. split; [by split|].
  eexists reply, _, _. split; [exact Hlist|]. split; [|exact Hall].
  unfold last_seen, d'. simpl. by rewrite lookup_insert_eq.
Qed.

(** C4: The hash of the last seen block never passes a deposit that is not recorded. When the
    check of new transactions succeeds, every transaction that the node listed since the
    last seen block has a row with its hash, direction and address, every row that
    was there is still there, and only then the node's last block is the last seen
    one; when it ends with an error or a panic, the tables are as they were, and the next
    check asks for the same blocks again, or all of this was committed and only the
    reply to the COMMIT was lost. *)
Theorem no_deposit_missed (w w' : World) (r : outcome bool)
    (Hnd : NoDup (r_id <$> db_transactions (committed w)))
    (Hrun : MakeTransactIfAvailable_wallet new_transactions_body w = (r, w')) :
  (is_ok r -> caught_up (committed w) (committed w')) /\
  (~ is_ok r -> committed w' = committed w \/ caught_up (committed w) (committed w')).
Proof.
  refine (wp_run _ (fun r w' => (is_ok r -> caught_up (committed w) (committed w')) /\
    (~ is_ok r -> committed w' = committed w \/ caught_up (committed w) (committed w')))
    _ _ _ Hrun _).
  apply wp_transaction; [by split; [intros []|left]|].
  apply (wp_new_transactions (committed w)); [done | done | |].
  - intros [b|e|p] w1 Hc Hr; [by destruct Hr | by split; [intros []|left] ..].
  - intros b w1 d' Hc Hd' Hup. split; [by intros e; split; [intros []|left]|].
    intros d [= <-]%(eq_trans (eq_sym Hd')). by split; split; [intros _|right|intros []|right].
Qed.

End NewTransactions.

(** ** Witness: the node lists one deposit to an unknown address *)
Definition listed_deposit : ListTransactionsResult := {|
  lt_Address := "client"; lt_Amount := scaled_float 5 (-4); lt_BlockHash := "block";
  lt_Category := "receive"; lt_Confirmations := 2; lt_TxID := "deposit" |}.

Section CatchUp.
#[local] Instance catch_env : Env := test_env no_fault.
#[local] Instance catch_node : NodeAPI :=
  test_node [listed_deposit] (mkGetTransactionResult "h" "" 0 "") 0 0 (Ok "hash").
#[local] Existing Instance test_config.
#[local] Existing Instance PostgresStorage.
#[local] Existing Instance PostgresEvents.

Definition catch_run : outcome bool * World :=
  MakeTransactIfAvailable_wallet new_transactions_body init_world.

Lemma no_deposit_missed_witness :
  catch_run.1 = Ok true /\ last_seen (committed catch_run.2) = "tip" /\
  known (committed catch_run.2) (NewTransactionFromBTCJSON listed_deposit).
Proof.
  assert (Hr : catch_run.1 = Ok true) by (vm_compute; reflexivity).
  split; [exact Hr|].
  destruct (no_deposit_missed init_world catch_run.2 catch_run.1) as [Hup _];
    [apply NoDup_nil_2 | apply surjective_pairing|].
  destruct Hup as [_ (reply & w1 & w2 & Hlist & Hlast & Hall)]; [by rewrite Hr|].
  injection Hlist as <- _. split; [exact Hlast|]. apply Hall. by left.
Defined.
End CatchUp.
