(* ===== verification/AccountProps.v ===== *)
(** * Properties of new accounts *)
From S2P Require Import Prelude.
From S2P Require Import Go.
From S2P Require Import Bitcoin.
From S2P Require Import TxTypes.
From S2P Require Import EventTypes.
From S2P Require Import World.
From S2P Require Import Effects.
From S2P Require Import Storage.
From S2P Require Import WalletStorage.
From S2P Require Import PgWallet.
From S2P Require Import EventStorage.
From S2P Require Import PgSpec.
From S2P Require Import Broker.
From S2P Require Import NodeAPI.
From S2P Require Import WalletBase.
From S2P Require Import NotifySpec.
From S2P Require Import TestEnv.
Local Open Scope Z_scope.

Section Accounts.
Context {E : Env} {EL : EnvLaws E} {N : NodeAPI} {NL : NodeAPILaws N} {CFG : WalletConfig}.
#[local] Existing Instance PostgresStorage.
#[local] Existing Instance PostgresEvents.

(** [d'] is [d] with an account and the event that announces it. *)
Definition announced (account : Account) (d d' : DB) : Prop :=
  (acc_Address account ∉ (fst <$> db_accounts d)) /\
  exists s, (s ∉ (er_seq <$> db_events d)) /\
    d' = mkDB (db_transactions d) (db_accounts d ++ [(acc_Address account, acc_Metainfo account)])
           (db_metadata d)
           (db_events d ++ [mkEventRow s "new-address" (Account_MarshalJSON account)])
           (db_muted d).

Lemma wp_new_account account d (Q : outcome unit -> World -> Prop) w :
  inflight w = Some d ->
  (forall r w', committed w' = committed w -> ~ is_ok r -> Q r w') ->
  (forall w' d', committed w' = committed w -> inflight w' = Some d' -> announced account d d' ->
     Q (Ok tt) w') ->
  wp (StoreAccount OnTx account ;; Notify OnTx NewAddressEvent (DataAccount account)) Q w.
Proof.
  intros Hd Hno Hok.
  assert (Herr : forall e w1, committed w1 = committed w -> Q (Err e) w1)
    by (intros; by apply Hno; [|intros []]).
  apply wp_bind, wp_sql_exec; [by intros; apply Herr|]. intros d0 Hd0.
  assert (d0 = d) as -> by (simpl in Hd0; congruence).
  split; [by apply Herr|]. unfold PostgresWalletStorage.insert_account.
  case_decide as Hacc; [by apply Herr|]. split; [|by apply Herr].
  set (d1 := mkDB _ _ _ _ _). apply (wp_Notify _ _ _ d1); [done | |].
  - intros [[]|e|p] w1 [Hc _] _ Hr; [by destruct Hr | by apply Hno; [apply (Hc eq_refl)|] ..].
  - intros w1 d' [Hc _] _ Hins Hd' _. apply (Hok w1 d'); [apply (Hc eq_refl) | done|].
    revert Hins. unfold PostgresEventStorage.insert_event. case_decide as Hseq; [done|].
    intros [= <-]. split; [done|]. eexists. by split.
Qed.

(** C32: An address is handed out only with its account and the event that announces it: when
    [CreateAccount] returns an account, it has the caller's metainfo, and exactly its row
    and one event with it were committed, together; otherwise nothing was, or both
    were and only the reply to the COMMIT was lost. *)
Theorem account_created_and_announced (metainfo : json) (w w' : World) (r : outcome Account)
    (Hrun : CreateAccount metainfo w = (r, w')) :
  match r with
  | Ok account => acc_Metainfo account = metainfo /\ announced account (committed w) (committed w')
  | _ => committed w' = committed w \/
         exists address, announced (mkAccount address metainfo) (committed w) (committed w')
  end.
Proof.
  refine (wp_run _ (fun r w' => match r with Ok account => _ | _ => _ end) _ _ _ Hrun _).
  apply wp_bind. unfold wp at 1, generateNewAddress.
  destruct (requests_CreateNewAddress w) as (acts & Hacts & _).
  destruct (CreateNewAddress w) as [[address|e|p] w1]; simpl in Hacts; subst w1; [|by left..].
  apply wp_bind, wp_transaction; [by left|]. cbn [committed set_inflight bump_sql after_acts].
  apply (wp_new_account _ (committed w)); [done | |].
  - intros [[]|e|p] w1 Hc Hr; [by destruct Hr | by left ..].
  - intros w1 d' Hc Hd' Ha. split; [by intros e; left|]. intros d Hd. simpl in Hd.
    assert (d = d') as -> by congruence. split; [by split | right; by eexists].
Qed.

End Accounts.

Section NewAccount.
#[local] Instance account_env : Env := test_env no_fault.
#[local] Instance account_node : NodeAPI :=
  test_node [] (mkGetTransactionResult "h" "" 0 "") 0 0 (Ok "hash").
#[local] Existing Instance PostgresStorage.
#[local] Existing Instance PostgresEvents.

Definition account_run : outcome Account * World :=
  CreateAccount (JObj [("user", JStr "alice")]) init_world.

Lemma account_created_and_announced_witness :
  account_run.1 = Ok (mkAccount "new address" (JObj [("user", JStr "alice")])) /\
  announced (mkAccount "new address" (JObj [("user", JStr "alice")])) empty_db
    (committed account_run.2).
Proof.
  assert (Hr : account_run.1 = Ok (mkAccount "new address" (JObj [("user", JStr "alice")])))
    by (vm_compute; reflexivity).
  split; [exact Hr|].
  pose proof (account_created_and_announced _ init_world account_run.2 account_run.1
    (surjective_pairing _)) as H. rewrite Hr in H. exact (proj2 H).
Defined.
End NewAccount.
