(* ===== verification/StorageProps.v ===== *)
(** * Properties: database transactions, retries, and the wallet's tables *)
From S2P Require Import Prelude.
From S2P Require Import Go.
From S2P Require Import Util.
From S2P Require Import Bitcoin.
From S2P Require Import TxTypes.
From S2P Require Import EventTypes.
From S2P Require Import World.
From S2P Require Import Effects.
From S2P Require Import Storage.
From S2P Require Import WalletStorage.
From S2P Require Import PgWallet.
From S2P Require Import EventStorage.
From S2P Require Import PgInvariants.
From S2P Require Import WellFormed.
From S2P Require Import PgSpec.
From S2P Require Import MemWallet.
From S2P Require Import Broadcaster.
From S2P Require Import Broker.
From S2P Require Import NodeAPI.
From S2P Require Import WalletBase.
From S2P Require Import Withdraw.
From S2P Require Import TestEnv.
Local Open Scope Z_scope.

Section TransactionProps.
Context {E : Env}.

(** C26: A database transaction is all or nothing. For a body that only works on the
    transaction's tables: when [MakeTransactIfAvailable] succeeds, the body
    succeeded and the tables it left are committed; when it ends with an error or a panic,
    the committed tables are the old ones, or the body succeeded, its tables
    are committed, and only the reply to the COMMIT was lost. *)
Theorem transaction_atomic {A} (f : Exec -> M A) (w w' : World) (r : outcome A)
    (Hf : forall w, committed (f OnTx w).2 = committed w)
    (Hrun : MakeTransactIfAvailable true f w = (r, w')) :
  let body := f OnTx (set_inflight (Some (committed w)) (bump_sql w)) in
  let committed_body a := body.1 = Ok a /\ inflight body.2 = Some (committed w') in
  match r with
  | Ok a => committed_body a
  | Err e => committed w' = committed w \/ (e = ErrDB /\ exists a, committed_body a)
  | Panic p => committed w' = committed w /\ body.1 = Panic p
  end.
Proof.
  cbv zeta.
  refine (wp_run _ (fun r w' => match r with Ok a => _ | Err e => _ | Panic p => _ end)
            _ _ _ Hrun _). clear r w' Hrun.
  set (w1 := set_inflight _ _). pose proof (Hf w1) as Hc1. simpl in Hc1.
  apply wp_transaction; [by left|]. fold w1. unfold wp.
  destruct (f OnTx w1) as [[a|e|p] w2]; simpl in *; [|by left|done].
  split; [by left|]. intros d Hd. split; [done|]. right. by eauto.
Qed.

(** The world before attempt number [k] (from 0), when all the attempts before it
    failed with an error: after the n-th failure the program sleeps for [interval + n]
    seconds. *)
Fixpoint before_attempt (f : M unit) (interval : Z) (k : nat) (w : World) : option World :=
  match k with
  | O => Some w
  | S k =>
      match f w with
      | (Err _, w') => before_attempt f (interval + 1) k (log_act (ASleep interval) w').2
      | _ => None
      end
  end.

(** Persisting the result of a payment or of a callback terminates after
    at most [retries + 1] attempts, each one second farther apart: it succeeds
    with the first attempt that succeeds, and panics when an attempt panics or when all of them
    failed. It never returns an error. *)
Theorem retry_loop_bounded (retries : nat) (interval : Z) (msg : string) (f : M unit)
    (w : World) :
  exists k w1, (k <= retries)%nat /\ before_attempt f interval k w = Some w1 /\
    retry_loop retries interval msg f w =
      match f w1 with
      | (Ok _, w') => (Ok tt, w')
      | (Panic p, w') => (Panic p, w')
      | (Err _, w') => (Panic msg, w')
      end /\
    (forall e, (f w1).1 = Err e -> k = retries).
Proof.
  revert interval w. induction retries as [|n IH]; intros interval w.
  - exists 0%nat, w. split_and!; [lia | done | | done]. simpl.
    unfold mbind, M_bind, try. by destruct (f w) as [[[]|e|p] w'].
  - destruct (f w) as [[[]|e|p] w'] eqn:Ef.
    + exists 0%nat, w. split_and!; [lia | done | | by rewrite Ef]. simpl.
      unfold mbind, M_bind, try. by rewrite Ef.
    + destruct (IH (interval + 1) (log_act (ASleep interval) w').2) as (k & w1 & Hk & Hb & Hr & Hl).
      exists (S k), w1. split_and!; [lia | by simpl; rewrite Ef | | intros; f_equal; by eauto].
      rewrite <- Hr. simpl. unfold mbind at 1, M_bind at 1, try at 1. by rewrite Ef.
    + exists 0%nat, w. split_and!; [lia | done | | by rewrite Ef]. simpl.
      unfold mbind, M_bind, try. by rewrite Ef.
Qed.

End TransactionProps.

Lemma transaction_atomic_witness :
  let E := test_env (faults_at [(2%nat, FaultAfter)]) in
  let r := @MakeTransactIfAvailable E unit true (fun ex => SetMeta ex "k" "v") init_world in
  r.1 = Err ErrDB /\ db_metadata (committed r.2) !! "k" = Some "v".
Proof.
  cbv zeta. set (E := test_env _). set (r := MakeTransactIfAvailable _ _ _).
  assert (T := transaction_atomic (E := E) (fun ex => SetMeta ex "k" "v") init_world r.2 (Err ErrDB)).
  destruct T as [H|(_ & a & _ & H)].
  - intros w. unfold SetMeta, sql_exec, mbind, M_bind, next_fault, gets. simpl.
    destruct (inflight w); [|done]. by repeat case_decide.
  - vm_compute. reflexivity.
  - exfalso. apply (f_equal db_metadata) in H. revert H. vm_compute. discriminate.
  - split; [vm_compute; reflexivity|].
    apply (f_equal (fun o => d ← o; db_metadata d !! "k")) in H.
    refine (eq_trans (eq_sym H) _). vm_compute. reflexivity.
Defined.

(** ** Rows and transactions *)
Section RowProps.
Context {E : Env} {EL : EnvLaws E}.
Import PostgresWalletStorage.

(** What a transaction is when it is read back: the flag of a new one is off. *)
Definition loaded (tx : Transaction) : Transaction :=
  mkTransaction (tx_ID tx) (tx_Hash tx) (tx_BlockHash tx) (tx_Confirmations tx)
    (tx_Address tx) (tx_Direction tx) (tx_Status tx) (tx_Amount tx) (tx_Metainfo tx)
    (tx_Fee tx) (tx_FeeType tx) (tx_ColdStorage tx) false (tx_ReportedConfirmations tx).

Lemma decode_row_of_transaction tx :
  tx_ok tx -> decode_row (row_of_transaction tx) = Ok (loaded tx).
Proof.
  intros (Ha & Hf & Hd%DirectionFromString_String & Hs%StatusFromString_String).
  unfold decode_row. cbn [row_of_transaction r_amount r_fee r_direction r_status r_fee_type
    r_metainfo r_id r_hash r_block_hash r_confirmations r_address r_cold_storage
    r_reported_confirmations]. unfold is_u64 in *.
  rewrite decide_False, Hd, Hs, FeeTypeFromString_String by lia. done.
Qed.

(** [StoreTransaction] and [GetTransactionByID] agree. When a transaction that
    the well-formed tables do not know is stored, every later lookup by its id that
    succeeds on these tables returns it, field by field, with only the flag of a new
    transaction cleared; a lookup can then fail only with an error of the database,
    never with "no rows". An amount or fee of 2^63 satoshi or more is refused. *)
Theorem stored_transaction_read_back (ex : Exec) (tx tx' : Transaction) (s : Z) (d d' : DB)
    (w w' : World) (r : outcome loc)
    (Hwf : wf_db s d) (Hok : tx_ok tx) (Hunk : unknown d tx) (Hst : stored d tx d' tx')
    (Hd : target ex w = Some d')
    (Hrun : GetTransactionByID ex (tx_ID tx') w = (r, w')) :
  match r with
  | Ok l => heap w' !! l = Some (loaded tx')
  | Err e => e <> ErrNoRows
  | Panic _ => False
  end /\ tx_Amount tx' < 2 ^ 63 /\ tx_Fee tx' < 2 ^ 63.
Proof.
  destruct Hst as [(row & ext & [Hrow Hm] & _)|(_ & Hid & Hins)].
  { exfalso. destruct Hunk as [Hid Hh].
    destruct Hm as [[Hne Heq]|(_ & Hne & Hb)].
    - destruct Hid as [?|Hid]; [done|]. by apply (Hid row).
    - destruct Hh as [?|Hh]; [done|]. by rewrite (Hh row) in Hb. }
  assert (Hok' : tx_ok tx').
  { destruct Hid as [[-> _]|(id & -> & _)]; [done|]. exact Hok. }
  revert Hins. unfold insert_transaction. case_decide as Hrange; [done|].
  case_decide as Hnew; [done|]. intros [= <-].
  split; [|lia].
  refine (wp_run _ (fun r w' => match r with
    | Ok l => heap w' !! l = Some (loaded tx') | Err e => e <> ErrNoRows | Panic _ => False end)
    _ _ _ Hrun _).
  assert (Hin : row_of_transaction tx' ∈ db_transactions d ++ [row_of_transaction tx']).
  { apply elem_of_app. right. by left. }
  apply wp_get_one.
  - intros e w1 _ Hno ->. specialize (Hno eq_refl _ Hd _ Hin).
    by rewrite bool_decide_eq_false in Hno.
  - intros d0 l w1 Hd0 _ (row & tx1 & Hrow & Hp%bool_decide_eq_true & Hdec & Hl) _.
    assert (d0 = with_transactions (db_transactions d ++ [row_of_transaction tx']) d) as ->
      by congruence.
    simpl in Hrow. apply elem_of_app in Hrow as [Hrow|Hrow%list_elem_of_singleton].
    + destruct Hnew. rewrite <- Hp. by apply list_elem_of_fmap_2.
    + subst row. rewrite decode_row_of_transaction in Hdec by done. by simplify_eq.
Qed.

(** What [StoreTransaction] does, under any failures of the database. When it
    succeeds, the tables changed in one of two ways: the row with the
    transaction's id if it has one, else the row with its hash, direction and
    address if it has a hash, got its hash, block hash, confirmations and status, and
    the caller gets that row's transaction with these fields; or no such row exists and
    the transaction was inserted, with a new id if it had none. A statement run
    in a transaction never touches the committed tables. *)
Theorem StoreTransaction_spec (ex : Exec) (l : loc) (tx : Transaction) (d : DB) (w w' : World)
    (r : outcome loc) (Hl : heap w !! l = Some tx) (Hd : target ex w = Some d)
    (Hrun : StoreTransaction ex l w = (r, w')) :
  (ex = OnTx -> committed w' = committed w) /\
  match r with
  | Ok l' =>
      exists d' tx', target ex w' = Some d' /\ heap w' !! l' = Some tx' /\
      ((exists row ext, row ∈ db_transactions d /\
          (tx_ID tx <> uuid_Nil /\ r_id row = tx_ID tx \/
           id_unknown d tx /\ tx_Hash tx <> "" /\ by_hash tx row = true) /\
          decode_row row = Ok ext /\
          d' = with_transactions (map_id (r_id row) (update_row tx) (db_transactions d)) d /\
          tx' = set_Status (tx_Status tx) (set_Confirmations (tx_Confirmations tx)
                  (set_BlockHash (tx_BlockHash tx) (set_Hash (tx_Hash tx) ext))) /\
          (tx_Hash ext = "" \/ tx_Hash ext = tx_Hash tx)) \/
       (unknown d tx /\
          tx' = set_ID (tx_ID tx') tx /\ tx_ID tx' <> uuid_Nil /\
          (tx_ID tx <> uuid_Nil -> tx_ID tx' = tx_ID tx) /\
          d' = with_transactions (db_transactions d ++ [row_of_transaction tx']) d))
  | _ => True
  end.
Proof.
  refine (wp_run _ (fun r w' => _ /\ match r with Ok l' => _ | _ => True end) _ _ _ Hrun _).
  apply (wp_StoreTransaction ex l tx d); [done | done | |].
  { intros r1 w1 [Hc _] _ Hr. split; [done|]. destruct r1; [by destruct Hr | done..]. }
  intros l' w1 d' tx' [Hc _] _ Hst Hd' Hl' _. split; [done|].
  exists d', tx'. split_and!; [done|done|].
  destruct Hst as [(row & ext & [Hrow Hm] & Hdec & [= <-] & Hu)|(Hunk & Hid & Hins)].
  - left. exists row, ext. apply Update_Ok in Hu as [-> ?]. by split_and!.
  - right. revert Hins. unfold insert_transaction. case_decide; [done|].
    case_decide; [done|]. intros [= <-].
    destruct Hid as [[-> Hid]|(id & -> & Hid & Hnil)]; split_and!; try done.
    by destruct tx.
Qed.

End RowProps.

Definition new_tx : Transaction := test_tx 7 "client" 50000.
Definition one_row : DB :=
  mkDB [PostgresWalletStorage.row_of_transaction new_tx] [] ∅ [] [].

Definition read_back : outcome loc * World :=
  @PostgresWalletStorage.GetTransactionByID (test_env no_fault) OnDB 7
    (set_committed one_row init_world).

Lemma new_tx_unknown : unknown empty_db new_tx.
Proof. split; [right; intros row Hr; by apply elem_of_nil in Hr | by left]. Qed.

Lemma empty_db_wf : wf_db 1 empty_db.
Proof. constructor; try constructor; try apply NoDup_nil_2; done. Qed.

Lemma stored_transaction_read_back_witness :
  read_back.1 = Ok 0%nat /\ heap read_back.2 !! 0%nat = Some (loaded new_tx).
Proof.
  split; [vm_compute; reflexivity|].
  assert (T := stored_transaction_read_back (E := test_env no_fault) OnDB new_tx new_tx 1
    empty_db one_row (set_committed one_row init_world) read_back.2 (Ok 0%nat) empty_db_wf).
  apply T.
  - by vm_compute.
  - apply new_tx_unknown.
  - right. split; [apply new_tx_unknown|]. split; [by left|]. vm_compute. reflexivity.
  - reflexivity.
  - vm_compute. reflexivity.
Defined.

Definition store_run : outcome loc * World :=
  @PostgresWalletStorage.StoreTransaction (test_env no_fault) OnDB 0
    (set_heap [new_tx] init_world).

Lemma StoreTransaction_spec_witness :
  exists d' tx', committed store_run.2 = d' /\ heap store_run.2 !! 0%nat = Some tx' /\
    tx_ID tx' = 7%N /\ db_transactions d' = [PostgresWalletStorage.row_of_transaction tx'].
Proof.
  assert (T := StoreTransaction_spec (E := test_env no_fault) OnDB 0 new_tx empty_db
    (set_heap [new_tx] init_world) store_run.2 (Ok 0%nat) eq_refl eq_refl).
  destruct T as (_ & d' & tx' & Hd & Hl & H); [vm_compute; reflexivity|].
  exists d', tx'. split; [by injection Hd|]. split; [exact Hl|].
  destruct H as [(row & ext & Hr & _)|(_ & _ & _ & Hid & ->)].
  - exfalso. by apply elem_of_nil in Hr.
  - split; [by apply Hid | reflexivity].
Defined.
