(* ===== verification/Ledger.v ===== *)
(** * The wallet's storage as an abstract ledger

    What the wallet may rely on, whichever storage it runs with: the list of
    transactions with one for each id, the accounts, and four metadata values. An
    operation is a command; [answers] relates the ledger, the command, its reply and the
    ledger after it. Where a storage has a choice (the order of a list, which of several
    transactions with the same hash, the id of a new one) the relation leaves it open.
    Replies are values: a caller that changes what it was given is not described. *)
From S2P Require Import Prelude.
From S2P Require Import Go.
From S2P Require Import Bitcoin.
From S2P Require Import TxTypes.
From S2P Require Import EventTypes.
From S2P Require Import World.
From S2P Require Import Effects.
From S2P Require Import Storage.
From S2P Require Import WalletStorage.
From S2P Require Import WellFormed.
From S2P Require Import StorageProps.
Local Open Scope Z_scope.

Record Ledger := mkLedger {
  lg_transactions : list Transaction;
  lg_accounts : list Account;
  lg_lastSeenBlockHash : string;
  lg_hotWalletAddress : string;        (* empty while there is none *)
  lg_moneyRequired : Z;
  lg_lock : string;                    (* empty when the wallet is not locked *)
}.

Inductive Command :=
| LastSeen
| SetLastSeen (hash : string)
| Required
| SetRequired (amount : Z)
| HotAddress
| SetHotAddress (address : string)
| AccountOf (address : string)
| NewAccount (account : Account)
| ByID (id : UUID)
| ByHash (hash : string)
| Store (tx : Transaction)
| Pending
| Filtered (direction status : string)
| Reported (id : UUID) (n : Z)
| Lock (operation : json)
| Unlock
| CheckLock.

Inductive Reply :=
| RUnit
| RText (s : string)
| RAmount (n : Z)
| RAccount (a : option Account)
| RTx (tx : Transaction)
| RTxs (txs : list Transaction)
| RLock (free : bool) (operation : string).

Section Ledger.

Definition ids (g : Ledger) : list UUID := tx_ID <$> lg_transactions g.

Record ledger_ok (g : Ledger) : Prop := {
  ok_ids : NoDup (ids g);
  ok_txs : Forall (fun tx => tx_ok tx /\ loaded tx = tx) (lg_transactions g);
  ok_accounts : Forall (fun a => is_go_map (acc_Metainfo a)) (lg_accounts g);
  ok_addresses : NoDup (acc_Address <$> lg_accounts g);
  ok_required : is_u64 (lg_moneyRequired g);
}.

Definition with_txs (txs : list Transaction) (g : Ledger) : Ledger :=
  mkLedger txs (lg_accounts g) (lg_lastSeenBlockHash g) (lg_hotWalletAddress g)
    (lg_moneyRequired g) (lg_lock g).

(** The transactions after an assignment to the one with an id *)
Definition on_id (id : UUID) (f : Transaction -> Transaction) (txs : list Transaction) :=
  (fun t => if decide (tx_ID t = id) then f t else t) <$> txs.

(** The same payment of the blockchain, as far as the wallet tells them apart *)
Definition same_payment (tx ext : Transaction) : bool :=
  bool_decide (tx_Hash ext = tx_Hash tx) && bool_decide (tx_Direction ext = tx_Direction tx) &&
  bool_decide (tx_Address ext = tx_Address tx).

(** The stored transaction that storing [tx] is about: the one with its id, else one of
    its payment *)
Definition matching (g : Ledger) (tx ext : Transaction) : Prop :=
  ext ∈ lg_transactions g /\
  (tx_ID tx <> uuid_Nil /\ tx_ID ext = tx_ID tx \/
   (tx_ID tx = uuid_Nil \/ tx_ID tx ∉ ids g) /\ tx_Hash tx <> "" /\ same_payment tx ext = true).

Definition is_pending (tx : Transaction) : bool :=
  bool_decide (tx_Status tx = PendingTransaction) ||
  bool_decide (tx_Status tx = PendingColdStorageTransaction).

Definition passes (direction status : string) (tx : Transaction) : bool :=
  (bool_decide (direction = "") || bool_decide (direction = Direction_String (tx_Direction tx))) &&
  (bool_decide (status = "") || bool_decide (status = Status_String (tx_Status tx))).

Definition lists (p : Transaction -> bool) (g : Ledger) (r : outcome Reply) : Prop :=
  exists txs, r = Ok (RTxs txs) /\ txs ≡ₚ filter p (lg_transactions g).

Definition answers (g : Ledger) (c : Command) (r : outcome Reply) (g' : Ledger) : Prop :=
  let '(mkLedger txs accounts seen hot required lock) := g in
  match c with
  | LastSeen => r = Ok (RText seen) /\ g' = g
  | SetLastSeen h => r = Ok RUnit /\ g' = mkLedger txs accounts h hot required lock
  | Required => r = Ok (RAmount required) /\ g' = g
  | SetRequired n => r = Ok RUnit /\ g' = mkLedger txs accounts seen hot n lock
  | HotAddress =>
      r = (if decide (hot = "") then Err ErrHotWalletAddressNotGeneratedYet
           else Ok (RText hot)) /\ g' = g
  | SetHotAddress a => r = Ok RUnit /\ g' = mkLedger txs accounts seen a required lock
  | AccountOf a =>
      r = Ok (RAccount (find_first (fun acc => bool_decide (acc_Address acc = a)) accounts)) /\
      g' = g
  | NewAccount acc =>
      r = Ok RUnit /\ g' = mkLedger txs (accounts ++ [acc]) seen hot required lock
  | ByID id =>
      g' = g /\
      ((exists tx, tx ∈ txs /\ tx_ID tx = id /\ r = Ok (RTx tx)) \/
       ((id ∉ ids g) /\ exists e, r = Err e))
  | ByHash h =>
      g' = g /\
      ((exists tx, tx ∈ txs /\ tx_Hash tx = h /\ r = Ok (RTx tx)) \/
       ((forall tx, tx ∈ txs -> tx_Hash tx <> h) /\ exists e, r = Err e))
  | Store tx =>
      (exists ext ext', matching g tx ext /\ Update ext tx = Ok ext' /\ r = Ok (RTx ext') /\
         g' = with_txs (on_id (tx_ID ext) (fun (_ : Transaction) => ext') txs) g) \/
      ((forall ext, ~ matching g tx ext) /\
       exists id, (tx_ID tx <> uuid_Nil /\ id = tx_ID tx \/
                   tx_ID tx = uuid_Nil /\ id <> uuid_Nil /\ id ∉ ids g) /\
         r = Ok (RTx (loaded (set_ID id tx))) /\
         g' = with_txs (txs ++ [loaded (set_ID id tx)]) g)
  | Pending => lists is_pending g r /\ g' = g
  | Filtered d s => lists (passes d s) g r /\ g' = g
  | Reported id n =>
      r = Ok RUnit /\ g' = with_txs (on_id id (set_ReportedConfirmations n) txs) g
  | Lock op => r = Ok RUnit /\ g' = mkLedger txs accounts seen hot required (json_text op)
  | Unlock => r = Ok RUnit /\ g' = mkLedger txs accounts seen hot required ""
  | CheckLock => r = Ok (RLock (bool_decide (lock = "")) lock) /\ g' = g
  end.

(** The commands on which the storages agree: no account twice, no empty hot wallet address,
    no transaction stored under another hash than the one it has, amounts that a BIGINT
    holds, ids that the server does not draw. *)
Definition admissible `{Env} (g : Ledger) (c : Command) : Prop :=
  match c with
  | SetRequired n => is_u64 n
  | SetHotAddress a => a <> ""
  | NewAccount acc =>
      is_go_map (acc_Metainfo acc) /\ acc_Address acc ∉ acc_Address <$> lg_accounts g
  | Store tx =>
      tx_ok tx /\ tx_Amount tx < 2 ^ 63 /\ tx_Fee tx < 2 ^ 63 /\
      (forall ext, matching g tx ext -> tx_Hash ext = "" \/ tx_Hash ext = tx_Hash tx) /\
      (forall n, env_uuid n <> tx_ID tx)
  | Reported id n => id ∈ ids g
  | _ => True
  end.

(** ** The ledger stays well-formed *)
Lemma ids_on_id id f txs :
  (forall tx, tx_ID tx = id -> tx_ID (f tx) = id) -> tx_ID <$> on_id id f txs = tx_ID <$> txs.
Proof.
  intros Hf. unfold on_id. rewrite <- list_fmap_compose. apply list_fmap_ext.
  intros i tx Hi. simpl. case_decide as Hd; [|done]. rewrite Hd. by apply Hf.
Qed.

Lemma on_id_Forall (P : Transaction -> Prop) id f txs :
  Forall P txs -> (forall tx, tx ∈ txs -> P tx -> P (f tx)) -> Forall P (on_id id f txs).
Proof.
  rewrite !Forall_forall. intros H Hf ? (tx & -> & Hx)%list_elem_of_fmap. case_decide; auto.
Qed.

Lemma NoDup_key {A K} (key : A -> K) (l : list A) x y :
  NoDup (key <$> l) -> x ∈ l -> y ∈ l -> key x = key y -> x = y.
Proof.
  induction l as [|a l IH]; [by intros _ ?%elem_of_nil|]. rewrite fmap_cons, NoDup_cons, !elem_of_cons.
  intros [Ha Hl] [->|Hx] [->|Hy] Hk; [done|..].
  - destruct Ha. rewrite Hk. by apply list_elem_of_fmap_2.
  - destruct Ha. rewrite <- Hk. by apply list_elem_of_fmap_2.
  - by apply IH.
Qed.

(** What [Update] leaves of the stored transaction *)
Lemma Update_kept ext tx ext' :
  Update ext tx = Ok ext' -> tx_ID ext' = tx_ID ext /\ loaded ext' = set_Status (tx_Status ext') (loaded ext') /\
  (tx_ok ext -> tx_ok tx -> tx_ok ext') /\ (loaded ext = ext -> loaded ext' = ext').
Proof.
  intros [-> _]%Update_Ok. split_and!; [done..| |].
  - intros (? & ? & ? & _) (_ & _ & _ & ?). by split_and!.
  - intros H. destruct ext. cbn in *. by injection H as <-.
Qed.

Lemma unmatched_new g tx :
  (forall ext, ~ matching g tx ext) -> tx_ID tx <> uuid_Nil -> tx_ID tx ∉ ids g.
Proof.
  intros Hnone Hid (ext & Heq & Hin)%list_elem_of_fmap. apply (Hnone ext). split; [done|]. by left.
Qed.

Lemma answers_ok `{Env} g c r g' :
  ledger_ok g -> admissible g c -> answers g c r g' -> ledger_ok g'.
Proof.
  intros [Hi Ht Ha Hn Hr] Hadm Hans. destruct g as [txs accs seen hot req lock].
  destruct c; cbn in Hadm, Hans; try (destruct Hans as [-> _]; done);
    try (destruct Hans as [_ ->]; done).
  - destruct Hans as [_ ->]. split; try done; cbn.
    + apply Forall_app. split; [done|]. apply Forall_singleton, Hadm.
    + rewrite fmap_app. apply NoDup_app. split; [done|]. split; [|apply NoDup_singleton].
      intros x Hx ->%list_elem_of_singleton. by apply Hadm.
  - destruct Hadm as (Hok & _). destruct Hans as [(ext & ext' & Hm & Hu & _ & ->)|(Hnone & id & Hid & _ & ->)].
    + apply Update_kept in Hu as (Hu & _ & Hok' & Hl). destruct Hm as [Hm _].
      assert (He : tx_ok ext /\ loaded ext = ext) by (rewrite Forall_forall in Ht; by apply Ht).
      split; try done; cbn.
      * unfold ids. cbn. rewrite ids_on_id by done. exact Hi.
      * apply on_id_Forall; [done|]. intros _ _ _. split; [by apply Hok'; [apply He|] | by apply Hl, He].
    + split; try done; cbn.
      * unfold ids. cbn. rewrite fmap_app. apply NoDup_app. split; [exact Hi|].
        split; [|apply NoDup_singleton]. intros x Hx ->%list_elem_of_singleton.
        destruct Hid as [[Hid ->]|(_ & _ & Hid)]; [|by apply Hid].
        exact (unmatched_new _ _ Hnone Hid Hx).
      * apply Forall_app. split; [done|]. apply Forall_singleton. split; [exact Hok | done].
  - destruct Hans as [_ ->]. split; try done; cbn.
    + unfold ids. cbn. rewrite ids_on_id by done. exact Hi.
    + apply on_id_Forall; [done|]. intros tx _ [Htx Hl]. split; [exact Htx|].
      destruct tx. cbn in *. by injection Hl as <-.
Qed.

Lemma admissible_update `{Env} g tx ext :
  admissible g (Store tx) -> matching g tx ext -> exists ext', Update ext tx = Ok ext'.
Proof.
  intros (_ & _ & _ & Hh & _) Hm. apply Hh in Hm. unfold Update.
  rewrite decide_False by naive_solver. by eexists.
Qed.

(** ** The commands on a storage *)
Section Execute.
Context {ST : Storage}.

Definition loads (ls : list loc) : M (list Transaction) :=
  mapM_list (fun l => tx ← load l; mret (loaded tx)) ls.

Definition execute (ex : Exec) (c : Command) : M Reply :=
  match c with
  | LastSeen => h ← GetLastSeenBlockHash ex; mret (RText h)
  | SetLastSeen h => SetLastSeenBlockHash ex h ;; mret RUnit
  | Required => n ← GetMoneyRequiredFromColdStorage ex; mret (RAmount n)
  | SetRequired n => SetMoneyRequiredFromColdStorage ex n ;; mret RUnit
  | HotAddress => a ← GetHotWalletAddress ex; mret (RText a)
  | SetHotAddress a => setHotWalletAddress ex a ;; mret RUnit
  | AccountOf a => acc ← GetAccountByAddress ex a; mret (RAccount acc)
  | NewAccount acc => StoreAccount ex acc ;; mret RUnit
  | ByID id => l ← GetTransactionByID ex id; tx ← load l; mret (RTx (loaded tx))
  | ByHash h => l ← GetTransactionByHash ex h; tx ← load l; mret (RTx (loaded tx))
  | Store tx =>
      l ← alloc tx; l' ← StoreTransaction ex l; tx' ← load l'; mret (RTx (loaded tx'))
  | Pending => ls ← GetPendingTransactions ex; txs ← loads ls; mret (RTxs txs)
  | Filtered d s => ls ← GetTransactionsWithFilter ex d s; txs ← loads ls; mret (RTxs txs)
  | Reported id n =>
      l ← GetTransactionByID ex id; updateReportedConfirmations ex l n ;; mret RUnit
  | Lock op => LockWallet ex op ;; mret RUnit
  | Unlock => ClearWallet ex ;; mret RUnit
  | CheckLock => '(free, op) ← CheckWalletLock ex; mret (RLock free op)
  end.

(** A sequence of commands; the caller goes on after an error. *)
Definition execute_all (ex : Exec) (cs : list Command) : M (list (Reply + error)) :=
  mapM_list (fun c => try (execute ex c)) cs.

End Execute.

(** ** Runs of the ledger *)
Definition reply_of (r : Reply + error) : outcome Reply :=
  match r with inl a => Ok a | inr e => Err e end.

Fixpoint ledger_run (g : Ledger) (cs : list Command) (rs : list (Reply + error)) (g' : Ledger) : Prop :=
  match cs, rs with
  | [], [] => g' = g
  | c :: cs, r :: rs => exists g1, answers g c (reply_of r) g1 /\ ledger_run g1 cs rs g'
  | _, _ => False
  end.

Fixpoint admissible_run `{Env} (g : Ledger) (cs : list Command) : Prop :=
  match cs with
  | [] => True
  | c :: cs => admissible g c /\ forall r g', answers g c r g' -> admissible_run g' cs
  end.

End Ledger.

(** ** Refinement
    A storage refines the ledger when a representation of ledgers by worlds is kept
    by every admissible command, whose reply is one of the ledger's. *)
Class Refines `{E : Env} (ST : Storage) (ex : Exec) (represents : Ledger -> World -> Prop) : Prop :=
  refines_step : forall g c w, represents g w -> admissible g c ->
    wp (execute (ST := ST) ex c)
       (fun r w' => exists g', answers g c r g' /\ represents g' w' /\ forall p, r <> Panic p) w.

Lemma refines_run `{E : Env} {ST : Storage} {ex rep} {R : Refines ST ex rep} cs : forall g w,
  rep g w -> admissible_run g cs ->
  wp (execute_all (ST := ST) ex cs)
     (fun r w' => exists rs g', r = Ok rs /\ ledger_run g cs rs g' /\ rep g' w') w.
Proof.
  induction cs as [|c cs IH]; intros g w Hrep Hadm.
  - apply wp_ret. by exists [], g.
  - destruct Hadm as [Hc Hcs]. apply wp_bind, wp_try.
    eapply wp_mono; [by apply (refines_step g c w)|].
    intros r w1 (g1 & Ha & Hrep1 & Hp).
    assert (Hstep : forall a, reply_of a = r ->
      wp (rs ← execute_all ex cs; mret (a :: rs))
         (fun r w' => exists rs g', r = Ok rs /\ ledger_run g (c :: cs) rs g' /\ rep g' w') w1).
    { intros a Hr. apply wp_bind. eapply wp_mono; [apply IH; [done | by eapply Hcs]|].
      intros ? w' (rs & g' & -> & Hrun & Hrep'). apply wp_ret. exists (a :: rs), g'.
      split; [done|]. split; [|done]. exists g1. by rewrite Hr. }
    destruct r as [a|e|p]; [by apply (Hstep (inl a)) | by apply (Hstep (inr e)) | by destruct (Hp p)].
Qed.
