(* ===== verification/MemLedger.v ===== *)
(** * The in-memory storage refines the ledger *)
From S2P Require Import Prelude.
From S2P Require Import Go.
From S2P Require Import Bitcoin.
From S2P Require Import TxTypes.
From S2P Require Import EventTypes.
From S2P Require Import World.
From S2P Require Import Effects.
From S2P Require Import Storage.
From S2P Require Import WalletStorage.
From S2P Require Import WellFormed.
From S2P Require Import MemWallet.
From S2P Require Import TestEnv.
From S2P Require Import StorageProps.
From S2P Require Import Ledger.
Local Open Scope Z_scope.

Section MemLedger.
Context {E : Env} (uuids_distinct : forall m n, env_uuid m = env_uuid n -> m = n)
  (uuids_nonnil : forall n, env_uuid n <> uuid_Nil).
Import InMemoryWallet.

(** [l] points to the transaction, the flag of a new one aside. *)
Definition points_to (w : World) (l : loc) (tx : Transaction) : Prop :=
  exists o, heap w !! l = Some o /\ loaded o = tx.

Record in_memory (g : Ledger) (w : World) : Prop := {
  mem_ok : ledger_ok g;
  mem_draws : forall n, (uuid_count w <= n)%nat -> env_uuid n ∉ ids g;
  mem_objects : Forall2 (points_to w) (mw_transactions (mem_wallet w)) (lg_transactions g);
  mem_accounts : mw_accounts (mem_wallet w) = lg_accounts g;
  mem_seen : mw_lastSeenBlockHash (mem_wallet w) = lg_lastSeenBlockHash g;
  mem_hot : mw_hotWalletAddress (mem_wallet w) = lg_hotWalletAddress g;
  mem_set : mw_hotWalletAddressWasSet (mem_wallet w) = true -> lg_hotWalletAddress g <> "";
  mem_required : mw_moneyRequiredFromColdStorage (mem_wallet w) = lg_moneyRequired g;
  mem_lock : mw_walletOperationLock (mem_wallet w) = lg_lock g;
}.

(** ** Searches *)
Definition ignores_flag (p : Transaction -> bool) : Prop := forall o, p (loaded o) = p o.

Lemma first_matching_spec p w locs txs :
  ignores_flag p -> Forall2 (points_to w) locs txs ->
  exists r, first_matching p locs w = (Ok r, w) /\
    match r with
    | Some l => exists tx, l ∈ locs /\ tx ∈ txs /\ p tx = true /\ points_to w l tx
    | None => forall tx, tx ∈ txs -> p tx = false
    end.
Proof.
  intros Hp. induction 1 as [|l tx locs txs (o & Ho & <-) Hrest (r & Hr & Hres)].
  - exists None. split; [done|]. intros ? H. by apply elem_of_nil in H.
  - cbn [first_matching]. rewrite (bind_Ok _ _ _ _ _ (load_eq _ _ _ Ho)).
    destruct (p o) eqn:Hpo; cbv beta iota.
    + exists (Some l). split; [done|]. exists (loaded o). rewrite Hp.
      split_and!; [by left | by left | done | by exists o].
    + exists r. split; [exact Hr|]. destruct r as [l'|].
      * destruct Hres as (tx & Hl & Ht & ?). exists tx. split_and!; [by right | by right | naive_solver..].
      * intros tx [->|Hx]%elem_of_cons; [by rewrite Hp | by apply Hres].
Qed.

Lemma all_matching_spec p w locs txs :
  ignores_flag p -> Forall2 (points_to w) locs txs ->
  exists ls, all_matching p locs w = (Ok ls, w) /\ Forall2 (points_to w) ls (filter p txs).
Proof.
  intros Hp. induction 1 as [|l tx locs txs (o & Ho & <-) Hrest (ls & Hr & Hls)].
  - exists []. split; [done | constructor].
  - cbn [all_matching]. rewrite (bind_Ok _ _ _ _ _ (load_eq _ _ _ Ho)).
    rewrite (bind_Ok _ _ _ _ _ Hr), filter_cons, Hp. destruct (p o).
    + exists (l :: ls). split; [done|]. rewrite decide_True by done. constructor; [by exists o | done].
    + exists ls. split; [done|]. by rewrite decide_False by (intros []).
Qed.

Lemma loads_spec w ls txs :
  Forall2 (points_to w) ls txs -> loads ls w = (Ok txs, w).
Proof.
  unfold loads. induction 1 as [|l tx ls txs (o & Ho & <-) _ IH]; [done|].
  cbn [mapM_list]. erewrite bind_Ok; [|rewrite (bind_Ok _ _ _ _ _ (load_eq _ _ _ Ho)); reflexivity].
  by rewrite (bind_Ok _ _ _ _ _ IH).
Qed.

Lemma wp_find_or err p g (Q : outcome loc -> World -> Prop) w :
  ignores_flag p -> in_memory g w ->
  (forall l tx, l ∈ mw_transactions (mem_wallet w) -> tx ∈ lg_transactions g -> p tx = true ->
     points_to w l tx -> Q (Ok l) w) ->
  ((forall tx, tx ∈ lg_transactions g -> p tx = false) -> Q (Err err) w) ->
  wp (find_or err p) Q w.
Proof.
  intros Hp [_ _ Hobj _ _ _ _ _ _] Hsome Hnone.
  destruct (first_matching_spec p w _ _ Hp Hobj) as (r & Hr & Hres).
  unfold find_or. apply wp_bind, wp_gets, wp_bind. unfold wp at 1. cbn [compose] in *.
  unfold compose. rewrite Hr. simpl. destruct r as [l|].
  - destruct Hres as (tx & ? & ? & ? & ?). apply wp_ret. eauto.
  - apply wp_throw. auto.
Qed.

(** ** Metadata and accounts *)

(** The ledger as it is, or as it is after an assignment *)
Ltac unchanged Hrep :=
  match type of Hrep with in_memory ?g _ => exists g end;
  split; [split; [first [done | congruence] | done] | split; [exact Hrep | done]].
Ltac assigned g' Hrep Hadm :=
  exists g'; split; [done|]; split; [|done];
  pose proof (answers_ok _ _ (Ok RUnit) g' (mem_ok _ _ Hrep) Hadm) as Hok;
  split; cbn in *; first [done | by apply Hok | congruence].

Lemma memory_metadata ex g c w :
  match c with
  | LastSeen | SetLastSeen _ | Required | SetRequired _ | HotAddress | SetHotAddress _
  | AccountOf _ | NewAccount _ | Lock _ | Unlock | CheckLock => True
  | _ => False
  end ->
  in_memory g w -> admissible g c ->
  wp (execute (ST := MemoryStorage) ex c)
     (fun r w' => exists g', answers g c r g' /\ in_memory g' w' /\ forall p, r <> Panic p) w.
Proof.
  intros Hc Hrep Hadm. pose proof Hrep as [].
  destruct g as [txs accs seen hot req lock]; cbn in *.
  destruct c; try done; unfold wp; cbn [execute MemoryStorage WalletStorage.GetLastSeenBlockHash
    WalletStorage.SetLastSeenBlockHash WalletStorage.GetMoneyRequiredFromColdStorage
    WalletStorage.SetMoneyRequiredFromColdStorage WalletStorage.GetHotWalletAddress
    WalletStorage.setHotWalletAddress WalletStorage.GetAccountByAddress WalletStorage.StoreAccount
    WalletStorage.LockWallet WalletStorage.ClearWallet WalletStorage.CheckWalletLock];
    cbv [GetLastSeenBlockHash SetLastSeenBlockHash GetMoneyRequiredFromColdStorage
      SetMoneyRequiredFromColdStorage GetHotWalletAddress setHotWalletAddress GetAccountByAddress
      StoreAccount LockWallet ClearWallet CheckWalletLock mbind M_bind mret M_ret gets modify upd
      compose]; cbn [fst snd answers].
  - unchanged Hrep.
  - assigned (mkLedger txs accs hash hot req lock) Hrep Hadm.
  - unchanged Hrep.
  - assigned (mkLedger txs accs seen hot amount lock) Hrep Hadm.
  - rewrite mem_hot0.
    exists (mkLedger txs accs seen hot req lock).
    destruct (decide (hot = "")) as [Hh|Hh].
    + rewrite decide_True; [by split|].
      split; [done|]. destruct (mw_hotWalletAddressWasSet _); [|done]. by destruct (mem_set0 eq_refl).
    + rewrite decide_False by (by intros [? _]). by split.
  - assigned (mkLedger txs accs seen address req lock) Hrep Hadm.
  - unchanged Hrep.
  - assigned (mkLedger txs (accs ++ [account]) seen hot req lock) Hrep Hadm.
  - assigned (mkLedger txs accs seen hot req (json_text operation)) Hrep Hadm.
  - assigned (mkLedger txs accs seen hot req "") Hrep Hadm.
  - rewrite mem_lock0. unchanged Hrep.
Qed.

(** ** Transactions *)
Lemma points_to_load w l tx (Q : outcome Reply -> World -> Prop) :
  points_to w l tx -> Q (Ok (RTx tx)) w -> wp (o ← load l; mret (RTx (loaded o))) Q w.
Proof. intros (o & Ho & <-) HQ. apply wp_bind, wp_load. rewrite Ho. by apply wp_ret. Qed.

Lemma points_to_fun w l tx tx' : points_to w l tx -> points_to w l tx' -> tx = tx'.
Proof. intros (o & Ho & <-) (o' & Ho' & <-). congruence. Qed.

Lemma points_to_heap w w' l tx : heap w' !! l = heap w !! l -> points_to w l tx -> points_to w' l tx.
Proof. intros Hh (o & Ho & <-). exists o. by rewrite Hh. Qed.

Lemma memory_lookup ex g c w :
  match c with ByID _ | ByHash _ => True | _ => False end -> in_memory g w ->
  wp (execute (ST := MemoryStorage) ex c)
     (fun r w' => exists g', answers g c r g' /\ in_memory g' w' /\ forall p, r <> Panic p) w.
Proof.
  intros Hc Hrep. destruct g as [txs accs seen hot req lock].
  destruct c; try done; apply wp_bind; eapply wp_find_or; try exact Hrep; try done; cbn [answers].
  - intros l tx _ Htx Hp%bool_decide_eq_true Hl. apply (points_to_load _ _ tx); [done|].
    eexists. split; [split; [done|]; left; by exists tx | by split].
  - intros Hno. eexists. split; [split; [done|]; right|by split]. split; [|by eexists].
    intros (tx & -> & Htx)%list_elem_of_fmap. specialize (Hno tx Htx).
    by apply bool_decide_eq_false in Hno.
  - intros l tx _ Htx Hp%bool_decide_eq_true Hl. apply (points_to_load _ _ tx); [done|].
    eexists. split; [split; [done|]; left; by exists tx | by split].
  - intros Hno. eexists. split; [split; [done|]; right|by split]. split; [|by eexists].
    intros tx Htx. specialize (Hno tx Htx). by apply bool_decide_eq_false in Hno.
Qed.

Lemma memory_list g p w (Q : outcome Reply -> World -> Prop) :
  ignores_flag p -> in_memory g w -> Q (Ok (RTxs (filter p (lg_transactions g)))) w ->
  wp (ls ← (locs ← stored; all_matching p locs); txs ← loads ls; mret (RTxs txs)) Q w.
Proof.
  intros Hp [_ _ Hobj _ _ _ _ _ _] HQ.
  destruct (all_matching_spec p w _ _ Hp Hobj) as (ls & Hall & Hls).
  unfold wp. erewrite bind_Ok; [|exact Hall].
  rewrite (bind_Ok _ _ _ _ _ (loads_spec _ _ _ Hls)). exact HQ.
Qed.

Lemma memory_lists ex g c w :
  match c with Pending | Filtered _ _ => True | _ => False end -> in_memory g w ->
  wp (execute (ST := MemoryStorage) ex c)
     (fun r w' => exists g', answers g c r g' /\ in_memory g' w' /\ forall p, r <> Panic p) w.
Proof.
  intros Hc Hrep. destruct c; try done; apply (memory_list g); try done;
    exists g; (split; [|by split]); destruct g; cbn [answers lists]; (split; [|done]);
    by eexists.
Qed.

(** An assignment to the object of one transaction *)
Lemma assign_object w l o o' f locs txs :
  Forall2 (points_to w) locs txs -> NoDup (tx_ID <$> txs) -> l ∈ locs ->
  heap w !! l = Some o -> loaded o' = f (loaded o) ->
  Forall2 (points_to (set_heap (<[l := o']> (heap w)) w)) locs (on_id (tx_ID o) f txs).
Proof.
  intros H2 Hids [j Hj]%list_elem_of_lookup Ho Ho'. rewrite Forall2_lookup in H2.
  assert (Hat : forall i, locs !! i = Some l -> (tx_ID <$> txs) !! i = Some (tx_ID o)).
  { intros i Hi. specialize (H2 i). rewrite Hi in H2. inversion H2 as [? tx Hp Heq Htx|].
    rewrite list_lookup_fmap, <- Htx. assert (tx = loaded o) as -> ; [|done].
    eapply points_to_fun; [exact Hp | by exists o]. }
  apply Forall2_lookup. intros i. unfold on_id. rewrite list_lookup_fmap.
  specialize (H2 i). destruct (locs !! i) as [l0|] eqn:Hi; inversion H2 as [? tx Hp Heq Htx|];
    [|constructor]. constructor. case_decide as Hid.
  - assert (i = j) as ->.
    { eapply (NoDup_lookup _ i j (tx_ID o) Hids); [|by apply Hat].
      by rewrite list_lookup_fmap, <- Htx, <- Hid. }
    assert (l0 = l) as -> by congruence. exists o'. split.
    + simpl. apply list_lookup_insert_eq. by eapply lookup_lt_Some.
    + rewrite Ho'. f_equal. symmetry. eapply points_to_fun; [exact Hp | by exists o].
  - eapply points_to_heap; [|exact Hp]. simpl. apply list_lookup_insert_ne. intros ->.
    apply Hat in Hi. rewrite list_lookup_fmap, <- Htx in Hi. by injection Hi as Hi.
Qed.

(** The world after an assignment to the object of [o], which stays what it was *)
Lemma in_memory_assign g w l o o' f :
  in_memory g w -> l ∈ mw_transactions (mem_wallet w) -> heap w !! l = Some o ->
  loaded o' = f (loaded o) ->
  ledger_ok (with_txs (on_id (tx_ID o) f (lg_transactions g)) g) ->
  (forall tx, tx_ID tx = tx_ID o -> tx_ID (f tx) = tx_ID o) ->
  in_memory (with_txs (on_id (tx_ID o) f (lg_transactions g)) g)
    (set_heap (<[l := o']> (heap w)) w).
Proof.
  intros [] Hl Ho Ho' Hok Hf. split; cbn; try done.
  - unfold ids. cbn. by rewrite ids_on_id.
  - apply assign_object; try done. apply mem_ok0.
Qed.

Lemma memory_reported ex g id n w :
  in_memory g w -> admissible g (Reported id n) ->
  wp (execute (ST := MemoryStorage) ex (Reported id n))
     (fun r w' => exists g', answers g (Reported id n) r g' /\ in_memory g' w' /\
                             forall p, r <> Panic p) w.
Proof.
  intros Hrep Hadm.
  assert (Hfind : forall Q, (forall l o, l ∈ mw_transactions (mem_wallet w) ->
      heap w !! l = Some o -> tx_ID o = id -> Q (Ok l) w) ->
    wp (GetTransactionByID ex id) Q w).
  { intros Q HQ. eapply wp_find_or; [done | exact Hrep | |].
    - intros l tx Hl _ Hp%bool_decide_eq_true (o & Ho & <-). by eapply HQ.
    - intros Hno. exfalso. apply list_elem_of_fmap in Hadm as (tx & -> & Htx).
      by specialize (Hno tx Htx); apply bool_decide_eq_false in Hno. }
  apply wp_bind, Hfind. intros l o _ Ho Hid. apply wp_bind. cbn.
  apply wp_bind, wp_load. rewrite Ho, Hid. apply wp_bind, Hfind. intros l' o1 Hl1 Ho1 Hid1.
  apply wp_bind, wp_load. rewrite Ho1. apply wp_modify, wp_ret.
  set (g' := with_txs (on_id id (set_ReportedConfirmations n) (lg_transactions g)) g).
  assert (Ha : answers g (Reported id n) (Ok RUnit) g') by by destruct g.
  exists g'. split; [done|]. split; [|done]. subst g'. rewrite <- Hid1.
  apply (in_memory_assign g w l' o1); try done. rewrite Hid1.
  eapply answers_ok; [apply Hrep | exact Hadm | exact Ha].
Qed.

(** *** Storing *)
Lemma wp_find_existing_memory ex g tx (Q : outcome (option loc) -> World -> Prop) w :
  in_memory g w ->
  (forall l ext, l ∈ mw_transactions (mem_wallet w) -> matching g tx ext -> points_to w l ext ->
     Q (Ok (Some l)) w) ->
  ((forall ext, ~ matching g tx ext) -> Q (Ok None) w) ->
  wp (find_existing ex tx) Q w.
Proof.
  intros Hrep Hsome Hnone.
  assert (Hhash : tx_ID tx = uuid_Nil \/ tx_ID tx ∉ ids g ->
    wp (if decide (tx_Hash tx = "") then mret None
        else r ← try (GetTransactionByHashDirectionAndAddress ex tx);
             match r with
             | inl l => mret (Some l)
             | inr ErrNoTxWithSuchTxHashAndDirection => mret None
             | inr err => throw err
             end) Q w).
  { intros Hid.
    assert (Hno_id : forall ext, ext ∈ lg_transactions g -> tx_ID tx <> uuid_Nil -> tx_ID ext <> tx_ID tx).
    { intros ext Hext Hne Heq. destruct Hid as [?|Hid]; [done|]. apply Hid. unfold ids.
      rewrite <- Heq. by apply list_elem_of_fmap_2. }
    case_decide as Hh.
    - apply wp_ret, Hnone. intros ext [Hext [[Hne Heq]|(_ & Hh' & _)]]; [|done].
      by apply (Hno_id ext).
    - apply wp_bind, wp_try. eapply wp_find_or; [done | exact Hrep | |].
      + intros l ext Hl Hext Hp Hpt. apply wp_ret. eapply Hsome; [done | | done].
        split; [done|]. right. split; [done|]. split; [done | exact Hp].
      + intros Hno. apply wp_ret, Hnone. intros ext [Hext [[Hne Heq]|(_ & _ & Hs)]].
        * by apply (Hno_id ext).
        * specialize (Hno ext Hext). unfold same_payment in Hs. by rewrite Hs in Hno. }
  unfold find_existing. apply wp_bind. destruct (decide (tx_ID tx = uuid_Nil)) as [Hn|Hn].
  - apply wp_ret, Hhash. by left.
  - apply wp_bind, wp_try. eapply wp_find_or; [done | exact Hrep | |].
    + intros l ext Hl Hext Hp%bool_decide_eq_true Hpt. apply wp_ret, wp_ret.
      eapply Hsome; [done | | done]. split; [done|]. by left.
    + intros Hno. apply wp_ret, Hhash. right. intros (ext & Heq & Hext)%list_elem_of_fmap.
      specialize (Hno ext Hext). apply bool_decide_eq_false in Hno. by destruct Hno.
Qed.

Lemma in_memory_alloc g w tx :
  in_memory g w -> in_memory g (set_heap (heap w ++ [tx]) w).
Proof.
  intros []. split; cbn; try done. eapply Forall2_impl; [exact mem_objects0|].
  intros l t (o & Ho & <-). exists o. split; [|done]. simpl. by apply lookup_app_l_Some.
Qed.

(** A new transaction, under its id *)
Lemma in_memory_new g w l tx :
  in_memory g w -> heap w !! l = Some tx -> tx_ID tx ∉ ids g ->
  (forall n, (uuid_count w <= n)%nat -> env_uuid n <> tx_ID tx) ->
  ledger_ok (with_txs (lg_transactions g ++ [loaded tx]) g) ->
  in_memory (with_txs (lg_transactions g ++ [loaded tx]) g)
    (set_mem_wallet (mkMemWallet (mw_lastSeenBlockHash (mem_wallet w)) (mw_accounts (mem_wallet w))
       (mw_transactions (mem_wallet w) ++ [l]) (mw_hotWalletAddress (mem_wallet w))
       (mw_moneyRequiredFromColdStorage (mem_wallet w)) (mw_walletOperationLock (mem_wallet w))
       (mw_hotWalletAddressWasSet (mem_wallet w))) w).
Proof.
  intros [] Hl Hnew Hdraw Hok. split; cbn; try done.
  - intros n Hn. unfold ids. cbn. rewrite fmap_app, not_elem_of_app. split; [by apply mem_draws0|].
    intros Heq%list_elem_of_singleton. by apply (Hdraw n).
  - apply Forall2_app; [exact mem_objects0|]. constructor; [by exists tx | constructor].
Qed.

Lemma Update_loaded ext tx ext' :
  Update (loaded ext) tx = Ok ext' -> exists o, Update ext tx = Ok o /\ loaded o = ext'.
Proof.
  unfold Update. intros H. case_decide as Hd; [done|]. injection H as <-.
  rewrite decide_False by done. by eexists.
Qed.

(** What the command [Store tx] may end with *)
Definition store_post g tx (r : outcome Reply) (w' : World) : Prop :=
  exists g', answers g (Store tx) r g' /\ in_memory g' w' /\ forall p, r <> Panic p.

(** The object is appended under the id it has by now. *)
Lemma memory_append g tx l id w (Q : outcome loc -> World -> Prop) :
  in_memory g w -> admissible g (Store tx) -> (forall ext, ~ matching g tx ext) ->
  heap w !! l = Some (set_ID id tx) ->
  (tx_ID tx <> uuid_Nil /\ id = tx_ID tx \/ tx_ID tx = uuid_Nil /\ id <> uuid_Nil /\ id ∉ ids g) ->
  (forall n, (uuid_count w <= n)%nat -> env_uuid n <> id) ->
  (forall w', wp (tx' ← load l; mret (RTx (loaded tx'))) (store_post g tx) w' -> Q (Ok l) w') ->
  wp (upd (fun s => mkMemWallet (mw_lastSeenBlockHash s) (mw_accounts s)
        (mw_transactions s ++ [l]) (mw_hotWalletAddress s)
        (mw_moneyRequiredFromColdStorage s) (mw_walletOperationLock s)
        (mw_hotWalletAddressWasSet s)) ;; mret l) Q w.
Proof.
  intros Hrep Hadm Hnone Hl Hid Hdraw HQ.
  apply wp_bind, wp_modify, wp_ret, HQ, wp_bind, wp_load. simpl. rewrite Hl. apply wp_ret.
  set (g' := with_txs (lg_transactions g ++ [loaded (set_ID id tx)]) g).
  assert (Ha : answers g (Store tx) (Ok (RTx (loaded (set_ID id tx)))) g').
  { destruct g. right. split; [done|]. by exists id. }
  exists g'. split; [exact Ha|]. split; [|done].
  apply in_memory_new; [done|done| |done|].
  - destruct Hid as [[Hne ->]|(_ & _ & Hid)]; [by apply unmatched_new | done].
  - eapply answers_ok; [apply Hrep | exact Hadm | exact Ha].
Qed.

(** A drawn id is written to an object that the storage does not hold. *)
Lemma in_memory_drawn g w l tx :
  in_memory g w -> l ∉ mw_transactions (mem_wallet w) ->
  in_memory g (set_heap (<[l := tx]> (heap w)) (set_uuid_count (S (uuid_count w)) w)).
Proof.
  intros [] Hl. split; cbn; try done; [intros n Hn; apply mem_draws0; lia|].
  apply Forall2_lookup. intros i. rewrite Forall2_lookup in mem_objects0.
  specialize (mem_objects0 i). destruct (_ !! i) as [l'|] eqn:Hi;
    inversion mem_objects0 as [? t Hp Heq Ht|]; constructor.
  eapply points_to_heap; [|exact Hp]. simpl. apply list_lookup_insert_ne. intros ->.
  apply Hl. by eapply list_elem_of_lookup_2.
Qed.

Lemma memory_update g tx l ext w (Q : outcome loc -> World -> Prop) :
  in_memory g w -> admissible g (Store tx) -> l ∈ mw_transactions (mem_wallet w) ->
  matching g tx ext -> points_to w l ext ->
  (forall w', wp (tx' ← load l; mret (RTx (loaded tx'))) (store_post g tx) w' -> Q (Ok l) w') ->
  wp (ext ← load l; ext' ← lift (Update ext tx); store l ext' ;; mret l) Q w.
Proof.
  intros Hrep Hadm Hl Hm (o & Ho & <-) HQ. apply wp_bind, wp_load. rewrite Ho.
  destruct (admissible_update _ _ _ Hadm Hm) as (ext' & Hu).
  destruct (Update_loaded _ _ _ Hu) as (o' & Hu' & Ho').
  apply wp_bind, wp_lift. rewrite Hu'. apply wp_bind, wp_modify, wp_ret, HQ, wp_bind, wp_load.
  simpl. rewrite list_lookup_insert_eq by by eapply lookup_lt_Some. apply wp_ret.
  set (g' := with_txs (on_id (tx_ID o) (fun _ => ext') (lg_transactions g)) g).
  assert (Ha : answers g (Store tx) (Ok (RTx ext')) g').
  { destruct g. left. exists (loaded o), ext'. done. }
  exists g'. rewrite Ho'. split; [exact Ha|]. split; [|done].
  apply (in_memory_assign g w l o); [done..| |].
  + eapply answers_ok; [apply Hrep | exact Hadm | exact Ha].
  + intros _ _. by apply Update_kept in Hu as (-> & _).
Qed.

Lemma memory_store ex g tx w :
  in_memory g w -> admissible g (Store tx) ->
  wp (execute (ST := MemoryStorage) ex (Store tx)) (store_post g tx) w.
Proof.
  intros Hrep0 Hadm. apply wp_bind. unfold wp at 1, alloc. cbn [fst snd].
  apply (in_memory_alloc _ _ tx) in Hrep0 as Hrep. set (w1 := set_heap _ w) in *.
  assert (Hl : heap w1 !! length (heap w) = Some tx)
    by (simpl; by rewrite lookup_app_r, Nat.sub_diag by lia).
  assert (Hfresh : length (heap w) ∉ mw_transactions (mem_wallet w1)).
  { intros [i Hi]%list_elem_of_lookup. destruct Hrep0 as [_ _ Hobj _ _ _ _ _ _].
    destruct (Forall2_lookup_l _ _ _ _ _ Hobj Hi) as (t & _ & o & Ho & _).
    apply lookup_lt_Some in Ho. lia. }
  clearbody w1. clear Hrep0. set (l := length (heap w)) in *. clearbody l. clear w.
  apply wp_bind. cbn [WalletStorage.StoreTransaction MemoryStorage].
  apply wp_bind, wp_load. rewrite Hl. apply wp_bind, (wp_find_existing_memory _ g); [done| |].
  - intros l' ext Hl' Hm Hp. by eapply memory_update.
  - intros Hnone. apply wp_bind. case_decide as Hid.
    + apply wp_bind. unfold wp at 1, uuid_NewV4. cbn [fst snd]. apply wp_modify.
      eapply (memory_append g tx l (env_uuid (uuid_count w1)));
        [exact (in_memory_drawn g w1 l _ Hrep Hfresh) | done | done | | | |done].
      * simpl. by apply list_lookup_insert_eq; eapply lookup_lt_Some.
      * right. split_and!; [done | apply uuids_nonnil | by apply (mem_draws _ _ Hrep)].
      * cbn. intros n Hn Heq. apply uuids_distinct in Heq. lia.
    + apply wp_ret. eapply (memory_append g tx l (tx_ID tx));
        [done | done | done | by destruct tx | by left | | done]. intros n _. by apply Hadm.
Qed.

#[export] Instance memory_refines ex : Refines MemoryStorage ex in_memory.
Proof.
  intros g c w Hrep Hadm. destruct c;
    first [by apply memory_metadata | by apply memory_lookup | by apply memory_lists
          | by apply memory_store | by apply memory_reported].
Qed.

End MemLedger.
