(* ===== verification/PgLedger.v ===== *)
(** * The PostgreSQL storage refines the ledger, while the server does not fail *)
From S2P Require Import Prelude.
From S2P Require Import Go.
From S2P Require Import Bitcoin.
From S2P Require Import TxTypes.
From S2P Require Import EventTypes.
From S2P Require Import World.
From S2P Require Import Effects.
From S2P Require Import Storage.
From S2P Require Import WalletStorage.
From S2P Require Import WellFormed.
From S2P Require Import PgWallet.
From S2P Require Import PgSpec.
From S2P Require Import TestEnv.
From S2P Require Import StorageProps.
From S2P Require Import Ledger.
Local Open Scope Z_scope.

Section PgLedger.
Context {E : Env} {EL : EnvLaws E} (no_faults : forall n, env_fault n = NoFault).
Context (uuids_distinct : forall m n, env_uuid m = env_uuid n -> m = n).
Import PostgresWalletStorage.

Definition account_row (a : Account) : string * json := (acc_Address a, acc_Metainfo a).

(** The tables of a ledger *)
Record tables_of (g : Ledger) (d : DB) : Prop := {
  db_txs : db_transactions d = row_of_transaction <$> lg_transactions g;
  db_accs : db_accounts d = account_row <$> lg_accounts g;
  db_seen : default "" (db_metadata d !! "last_seen_block_hash") = lg_lastSeenBlockHash g;
  db_hot : default "" (db_metadata d !! "hot_wallet_address") = lg_hotWalletAddress g;
  db_required : parse_uint64 (default "0" (db_metadata d !! "money_required_from_cold_storage")) =
                Some (lg_moneyRequired g);
  db_lock : default "" (db_metadata d !! "wallet_operation") = lg_lock g;
}.

Record in_tables (ex : Exec) (g : Ledger) (w : World) : Prop := {
  pg_ok : ledger_ok g;
  pg_draws : forall n, (uuid_count w <= n)%nat -> env_uuid n ∉ ids g;
  pg_tables : exists d, target ex w = Some d /\ tables_of g d;
}.

Lemma in_tables_same ex g w w' :
  in_tables ex g w -> uuid_count w' = uuid_count w -> target ex w' = target ex w ->
  in_tables ex g w'.
Proof. intros [] Hu Ht. split; [done | by rewrite Hu | by rewrite Ht]. Qed.

Lemma in_tables_bump ex g w : in_tables ex g w -> in_tables ex g (bump_sql w).
Proof. intros H. by eapply in_tables_same; [exact H| |destruct ex]. Qed.

Lemma in_tables_put ex g g' d w :
  in_tables ex g w -> ledger_ok g' -> (ids g' = ids g) -> tables_of g' d ->
  in_tables ex g' (put_db ex d w).
Proof.
  intros [] Hok Hids Ht. split; [done| |].
  - rewrite Hids. by destruct ex.
  - exists d. by destruct ex.
Qed.

Definition goes_well (g : Ledger) (ex : Exec) (c : Command) (r : outcome Reply) (w' : World) : Prop :=
  exists g', answers g c r g' /\ in_tables ex g' w' /\ forall p, r <> Panic p.

(** ** Metadata and accounts *)
Lemma pg_meta ex g name value g' c w :
  in_tables ex g w -> admissible g c -> answers g c (Ok RUnit) g' -> ids g' = ids g ->
  (forall d, tables_of g d -> tables_of g'
     (mkDB (db_transactions d) (db_accounts d) (<[name := value]> (db_metadata d))
        (db_events d) (db_muted d))) ->
  wp (SetMeta ex name value ;; mret RUnit) (goes_well g ex c) w.
Proof.
  intros Hrep Hadm Ha Hids Hd. destruct (pg_tables _ _ _ Hrep) as (d & Hw & Ht).
  apply wp_bind. eapply wp_exec; [done..|]. apply wp_ret. exists g'. split; [done|]. split; [|done].
  apply (in_tables_put _ g); [by apply in_tables_bump | | done | by apply Hd].
  eapply answers_ok; [apply Hrep | exact Hadm | exact Ha].
Qed.

(** A query that reads the ledger *)
Lemma pg_read ex g c w r :
  in_tables ex g w -> answers g c r g -> (forall p, r <> Panic p) ->
  goes_well g ex c r (bump_sql w).
Proof. intros Hrep Ha Hp. exists g. split; [done|]. split; [by apply in_tables_bump | done]. Qed.

(** A metadata value is assigned: the ledger becomes [g']. *)
Ltac assign_meta g' :=
  eapply (pg_meta _ _ _ _ g'); [done..|]; intros d' [];
  split; cbn in *; rewrite ?lookup_insert_eq, ?lookup_insert_ne by done; try done;
  by apply parse_uint64_itoa.

Lemma pg_metadata ex g c w :
  match c with
  | LastSeen | SetLastSeen _ | Required | SetRequired _ | HotAddress | SetHotAddress _
  | Lock _ | Unlock | CheckLock => True
  | _ => False
  end ->
  in_tables ex g w -> admissible g c ->
  wp (execute (ST := PostgresStorage) ex c) (goes_well g ex c) w.
Proof.
  intros Hc Hrep Hadm. destruct (pg_tables _ _ _ Hrep) as (d & Hw & Ht).
  destruct g as [txs accs seen hot req lock]. pose proof Ht as []. cbn in *.
  destruct c; try done.
  - apply wp_bind. eapply wp_meta; [done..|]. apply wp_ret. rewrite db_seen0. by apply pg_read.
  - assign_meta (mkLedger txs accs hash hot req lock).
  - apply wp_bind, wp_bind. eapply wp_meta; [done..|]. apply wp_lift. cbn.
    rewrite db_required0. apply wp_ret. by apply pg_read.
  - assign_meta (mkLedger txs accs seen hot amount lock).
  - apply wp_bind, wp_bind. eapply wp_meta; [done..|]. cbn. rewrite db_hot0.
    case_decide as Hh; [apply wp_throw | apply wp_ret, wp_ret]; apply pg_read; try done; cbn;
      by case_decide.
  - assign_meta (mkLedger txs accs seen address req lock).
  - assign_meta (mkLedger txs accs seen hot req (json_text operation)).
  - assign_meta (mkLedger txs accs seen hot req "").
  - apply wp_bind, wp_bind. eapply wp_meta; [done..|]. apply wp_ret, wp_ret. cbn.
    rewrite db_lock0. by apply pg_read.
Qed.

Lemma find_account accs acc :
  NoDup (acc_Address <$> accs) -> acc ∈ accs ->
  find_first (fun a => bool_decide (acc_Address a = acc_Address acc)) accs = Some acc.
Proof.
  induction accs as [|a accs IH]; [by intros _ ?%elem_of_nil|]. rewrite fmap_cons, NoDup_cons.
  intros [Ha Hnd] [->|Hin]%elem_of_cons; simpl; [by rewrite bool_decide_eq_true_2|].
  rewrite bool_decide_eq_false_2; [by apply IH|]. intros Heq. apply Ha. rewrite Heq.
  by apply list_elem_of_fmap_2.
Qed.

Lemma find_no_account accs address :
  address ∉ acc_Address <$> accs ->
  find_first (fun a => bool_decide (acc_Address a = address)) accs = None.
Proof.
  intros Hin. apply find_first_None. intros a Ha. apply bool_decide_eq_false. intros <-.
  apply Hin. by apply list_elem_of_fmap_2.
Qed.

Lemma pg_accounts ex g c w :
  match c with AccountOf _ | NewAccount _ => True | _ => False end ->
  in_tables ex g w -> admissible g c ->
  wp (execute (ST := PostgresStorage) ex c) (goes_well g ex c) w.
Proof.
  intros Hc Hrep Hadm. destruct (pg_tables _ _ _ Hrep) as (d & Hw & Ht).
  pose proof (pg_ok _ _ _ Hrep) as [_ _ Hmaps Haddr _].
  destruct g as [txs accs seen hot req lock]. pose proof Ht as []. cbn in *.
  destruct c as [| | | | | |address|acc| | | | | | | | |]; try done; apply wp_bind.
  - apply wp_bind, wp_try. eapply wp_query_row; [done|done|..]; unfold select_account;
      rewrite db_accs0.
    + intros Hnil. apply wp_ret, wp_ret, pg_read; [done| |done]. cbn. split; [|done].
      rewrite find_no_account; [done|]. intros (acc & -> & Hacc)%list_elem_of_fmap.
      apply fmap_nil_inv in Hnil. apply (elem_of_nil (account_row acc)). rewrite <- Hnil.
      apply list_elem_of_filter. split; [done|]. by apply list_elem_of_fmap_2.
    + intros m (row & -> & [Hrow Hin]%list_elem_of_filter)%list_elem_of_fmap.
      apply list_elem_of_fmap in Hin as (acc & -> & Hacc). cbn in *. subst address.
      rewrite Forall_forall in Hmaps. apply wp_bind, wp_lift. rewrite (Hmaps acc Hacc).
      apply wp_ret, wp_ret, pg_read; [done| |done]. cbn. split; [|done].
      rewrite find_account by done. by destruct acc.
  - eapply wp_exec; [done|done| |].
    + unfold insert_account. rewrite decide_False; [done|]. rewrite db_accs0, <- list_fmap_compose.
      apply Hadm.
    + apply wp_ret. set (g' := mkLedger txs (accs ++ [acc]) seen hot req lock).
      exists g'. split; [done|]. split; [|done]. apply (in_tables_put _ _ g' _ _ (in_tables_bump _ _ _ Hrep)).
      * eapply answers_ok; [apply Hrep | exact Hadm | by split].
      * done.
      * split; cbn; try done. by rewrite db_accs0, fmap_app.
Qed.

(** ** Transactions *)
Lemma in_tables_heap ex g w h : in_tables ex g w -> in_tables ex g (set_heap h (bump_sql w)).
Proof. intros H. by eapply in_tables_same; [exact H| |destruct ex]. Qed.

Lemma in_ledger ex g w tx : in_tables ex g w -> tx ∈ lg_transactions g -> tx_ok tx /\ loaded tx = tx.
Proof. intros [[_ H _ _ _] _ _]. rewrite Forall_forall in H. apply H. Qed.

Lemma decode_in_ledger ex g w tx :
  in_tables ex g w -> tx ∈ lg_transactions g -> decode_row (row_of_transaction tx) = Ok tx.
Proof.
  intros Hrep Htx. destruct (in_ledger _ _ _ _ Hrep Htx) as [Hok Hl].
  by rewrite decode_row_of_transaction, Hl.
Qed.

(** A predicate on rows that says of a row what [p'] says of its transaction *)
Definition on_rows (p : TxRow -> bool) (p' : Transaction -> bool) : Prop :=
  forall tx, p (row_of_transaction tx) = p' tx.

Lemma wp_fetch_one ex g p p' (Q : outcome loc -> World -> Prop) w :
  in_tables ex g w -> on_rows p p' ->
  (forall tx, tx ∈ lg_transactions g -> p' tx = true ->
     Q (Ok (length (heap w))) (set_heap (heap w ++ [tx]) (bump_sql w))) ->
  ((forall tx, tx ∈ lg_transactions g -> p' tx = false) -> Q (Err ErrNoRows) (bump_sql w)) ->
  wp (sql_query_row ex (select_transactions p) ≫= transactionFromDatabaseRow) Q w.
Proof.
  intros Hrep Hp Hsome Hnone. destruct (pg_tables _ _ _ Hrep) as (d & Hw & Ht).
  apply wp_bind. eapply wp_query_row; [done|done|..]; unfold select_transactions;
    rewrite (db_txs _ _ Ht).
  - intros Hnil. apply Hnone. intros tx Htx. rewrite <- Hp. destruct (p (row_of_transaction tx)) eqn:Hr; [|done].
    exfalso. apply (elem_of_nil (row_of_transaction tx)). rewrite <- Hnil.
    apply list_elem_of_filter. rewrite Hr. split; [done|]. by apply list_elem_of_fmap_2.
  - intros row [Hr Hin]%list_elem_of_filter. apply list_elem_of_fmap in Hin as (tx & -> & Htx).
    apply wp_bind, wp_lift. rewrite (decode_in_ledger _ _ _ _ Hrep Htx).
    apply (Hsome tx Htx). rewrite <- Hp. by apply Is_true_true.
Qed.

Lemma wp_load_new tx h (Q : outcome Reply -> World -> Prop) w :
  loaded tx = tx -> Q (Ok (RTx tx)) (set_heap (h ++ [tx]) w) ->
  wp (o ← load (length h); mret (RTx (loaded o))) Q (set_heap (h ++ [tx]) w).
Proof.
  intros Hl HQ. apply wp_bind, wp_load. simpl. rewrite lookup_app_r, Nat.sub_diag by lia. simpl.
  apply wp_ret. by rewrite Hl.
Qed.

Lemma pg_lookup ex g c w :
  match c with ByID _ | ByHash _ => True | _ => False end -> in_tables ex g w ->
  wp (execute (ST := PostgresStorage) ex c) (goes_well g ex c) w.
Proof.
  intros Hc Hrep. destruct g as [txs accs seen hot req lock] eqn:Hg. rewrite <- Hg in Hrep.
  assert (Hend : forall tx, tx ∈ txs -> answers (mkLedger txs accs seen hot req lock) c (Ok (RTx tx)) g ->
    wp (o ← load (length (heap w)); mret (RTx (loaded o))) (goes_well g ex c)
      (set_heap (heap w ++ [tx]) (bump_sql w))).
  { intros tx Htx Ha. apply wp_load_new.
    - apply (in_ledger ex g w); [done|]. by subst.
    - exists g. split; [by subst|]. split; [by apply in_tables_heap | done]. }
  rewrite <- Hg.
  destruct c as [| | | | | | | |id|h| | | | | | |]; try done; apply wp_bind;
    (eapply (wp_fetch_one _ g); [done| | |]).
  - intros tx. exact (eq_refl (bool_decide (tx_ID tx = id))).
  - intros tx Htx Hp%bool_decide_eq_true. subst g. apply Hend; [done|]. cbn.
    split; [done|]. left. by exists tx.
  - intros Hno. subst g. apply pg_read; [done| |done]. cbn. split; [done|]. right. split; [|by eexists].
    intros (tx & -> & Htx)%list_elem_of_fmap. specialize (Hno tx Htx).
    by apply bool_decide_eq_false in Hno.
  - intros tx. exact (eq_refl (bool_decide (tx_Hash tx = h))).
  - intros tx Htx Hp%bool_decide_eq_true. subst g. apply Hend; [done|]. cbn.
    split; [done|]. left. by exists tx.
  - intros Hno. subst g. apply pg_read; [done| |done]. cbn. split; [done|]. right. split; [|by eexists].
    intros tx Htx. specialize (Hno tx Htx). by apply bool_decide_eq_false in Hno.
Qed.

(** *** Lists *)
Lemma filter_rows p p' (txs : list Transaction) :
  on_rows p p' -> filter p (row_of_transaction <$> txs) = row_of_transaction <$> filter p' txs.
Proof.
  intros Hp. induction txs as [|tx txs IH]; [done|]. rewrite fmap_cons, !filter_cons, Hp.
  destruct (p' tx); simpl; by rewrite IH.
Qed.

Lemma decode_all txs : forall w,
  Forall (fun tx => tx_ok tx /\ loaded tx = tx) txs ->
  exists ls, mapM_list transactionFromDatabaseRow (row_of_transaction <$> txs) w =
               (Ok ls, set_heap (heap w ++ txs) w) /\
             Forall2 (fun l tx => (heap w ++ txs) !! l = Some tx) ls txs.
Proof.
  induction txs as [|tx txs IH]; intros w Hok; inversion Hok as [|? ? [Htx Hl] Htxs]; subst.
  - exists []. split; [|constructor]. rewrite app_nil_r. by destruct w.
  - destruct (IH (set_heap (heap w ++ [tx]) w) Htxs) as (ls & Hrun & Hls). cbn in Hrun, Hls.
    rewrite <- app_assoc in Hrun, Hls. exists (length (heap w) :: ls). split.
    + rewrite fmap_cons. cbn [mapM_list]. rewrite (bind_Ok _ _ (length (heap w)) _ (set_heap (heap w ++ [tx]) w)).
      * by rewrite (bind_Ok _ _ _ _ _ Hrun).
      * unfold transactionFromDatabaseRow. rewrite (bind_Ok _ _ tx _ w); [done|].
        unfold lift. by rewrite decode_row_of_transaction, Hl.
    + constructor; [by rewrite lookup_app_r, Nat.sub_diag by lia|done].
Qed.

Lemma loads_objects w ls txs :
  Forall (fun tx => loaded tx = tx) txs -> Forall2 (fun l tx => heap w !! l = Some tx) ls txs ->
  loads ls w = (Ok txs, w).
Proof.
  unfold loads. intros Hl H2. revert Hl. induction H2 as [|l tx ls txs Ho _ IH]; intros Hl; [done|].
  inversion Hl as [|? ? Htx Htxs]; subst. cbn [mapM_list].
  erewrite bind_Ok; [|rewrite (bind_Ok _ _ _ _ _ (load_eq _ _ _ Ho)); reflexivity].
  rewrite (bind_Ok _ _ _ _ _ (IH Htxs)). by rewrite Htx.
Qed.

Lemma pg_list ex g p p' c w :
  in_tables ex g w -> on_rows p p' ->
  (forall txs, txs ≡ₚ filter p' (lg_transactions g) -> answers g c (Ok (RTxs txs)) g) ->
  wp (ls ← fetch_transactions ex p; txs ← loads ls; mret (RTxs txs)) (goes_well g ex c) w.
Proof.
  intros Hrep Hp Hans. destruct (pg_tables _ _ _ Hrep) as (d & Hw & Ht).
  apply wp_bind, wp_bind. eapply wp_query; [done|done|]. unfold select_transactions.
  rewrite (db_txs _ _ Ht), (filter_rows p p') by done. intros rows Hrows.
  apply Permutation_map_inv in Hrows as (txs & -> & Htxs).
  assert (Hok : Forall (fun tx => tx_ok tx /\ loaded tx = tx) txs).
  { apply Forall_forall. intros tx Hin. apply (in_ledger ex g w tx Hrep).
    rewrite <- Htxs in Hin. by apply list_elem_of_filter in Hin as [_ ?]. }
  destruct (decode_all txs (bump_sql w) Hok) as (ls & Hrun & Hls).
  unfold wp. change (map row_of_transaction txs) with (row_of_transaction <$> txs). rewrite Hrun.
  cbn [fst snd]. rewrite (bind_Ok _ _ txs _ (set_heap (heap (bump_sql w) ++ txs) (bump_sql w))).
  - exists g. split; [by apply Hans|]. split; [by apply in_tables_heap | done].
  - apply loads_objects; [|exact Hls]. eapply Forall_impl; [exact Hok|]. by intros ? [_ ?].
Qed.

Lemma Direction_String_inj td td' : Direction_String td = Direction_String td' -> td = td'.
Proof. by destruct td, td'. Qed.

Lemma bool_decide_inj {A B} `{EqDecision A, EqDecision B} (f : A -> B) (inj : forall x y, f x = f y -> x = y) x y :
  bool_decide (f x = f y) = bool_decide (x = y).
Proof. apply bool_decide_ext. split; [apply inj | by intros ->]. Qed.

Lemma pg_lists ex g c w :
  match c with Pending | Filtered _ _ => True | _ => False end -> in_tables ex g w ->
  wp (execute (ST := PostgresStorage) ex c) (goes_well g ex c) w.
Proof.
  intros Hc Hrep. destruct c as [| | | | | | | | | | | |dir st| | | |]; try done.
  - apply (pg_list _ _ _ is_pending); [done| |].
    + intros tx. unfold is_pending. by rewrite <- !(bool_decide_inj Status_String Status_String_inj).
    + intros txs Htxs. destruct g. split; [|done]. by exists txs.
  - apply (pg_list _ _ _ (passes dir st)); [done| |].
    + intros tx. unfold passes. cbn. f_equal; f_equal; by apply bool_decide_ext.
    + intros txs Htxs. destruct g. split; [|done]. by exists txs.
Qed.

(** *** Updates *)

(** Rows assigned by id are the rows of the transactions assigned by id. *)
Lemma rows_on_id id f f' txs :
  (forall tx, tx ∈ txs -> tx_ID tx = id -> f (row_of_transaction tx) = row_of_transaction (f' tx)) ->
  map_id id f (row_of_transaction <$> txs) = row_of_transaction <$> on_id id f' txs.
Proof.
  intros Hf. unfold map_id, on_id. rewrite <- !list_fmap_compose. apply list_fmap_ext.
  intros i tx Hi. apply list_elem_of_lookup_2 in Hi. cbn. case_decide; [by apply Hf | done].
Qed.

Lemma tables_with_txs g d txs :
  tables_of g d ->
  tables_of (with_txs txs g) (with_transactions (row_of_transaction <$> txs) d).
Proof. intros []. by split. Qed.

Lemma pg_reported ex g id n w :
  in_tables ex g w -> admissible g (Reported id n) ->
  wp (execute (ST := PostgresStorage) ex (Reported id n)) (goes_well g ex (Reported id n)) w.
Proof.
  intros Hrep Hadm. apply wp_bind. eapply (wp_fetch_one ex g _ (fun tx => bool_decide (tx_ID tx = id)));
    [done | done | |].
  - intros tx Htx <-%bool_decide_eq_true. apply (in_tables_heap _ _ _ (heap w ++ [tx])) in Hrep as Hrep1.
    set (w1 := set_heap _ _) in *. destruct (pg_tables _ _ _ Hrep1) as (d & Hw & Ht).
    apply wp_bind. cbn [WalletStorage.updateReportedConfirmations PostgresStorage].
    apply wp_bind, wp_load. subst w1. simpl heap. rewrite lookup_app_r, Nat.sub_diag by lia.
    cbn [lookup list_lookup]. set (w1 := set_heap _ _) in *.
    apply wp_bind. eapply wp_exec; [done|done|reflexivity|].
    apply wp_bind, wp_load. assert (heap (put_db ex (with_transactions (map_id (tx_ID tx) (set_reported n) (db_transactions d)) d) (bump_sql w1)) = heap w ++ [tx]) as -> by by destruct ex.
    rewrite lookup_app_r, Nat.sub_diag by lia. cbn [lookup list_lookup].
    apply wp_modify, wp_ret.
    set (g' := with_txs (on_id (tx_ID tx) (set_ReportedConfirmations n) (lg_transactions g)) g).
    assert (Ha : answers g (Reported (tx_ID tx) n) (Ok RUnit) g') by by destruct g.
    exists g'. split; [exact Ha|]. split; [|done].
    apply (in_tables_same _ _ (put_db ex (with_transactions (map_id (tx_ID tx) (set_reported n) (db_transactions d)) d) (bump_sql w1)));
      [|by destruct ex..].
    apply (in_tables_put _ g); [by apply in_tables_bump | | |].
    + eapply answers_ok; [apply Hrep | exact Hadm | exact Ha].
    + by apply ids_on_id.
    + rewrite (db_txs _ _ Ht). erewrite rows_on_id; [by apply tables_with_txs | done].
  - intros Hno. exfalso. apply list_elem_of_fmap in Hadm as (tx & -> & Htx).
    specialize (Hno tx Htx). by apply bool_decide_eq_false in Hno.
Qed.

(** *** Storing *)
Definition keeps_objects (w w' : World) : Prop :=
  forall l tx, heap w !! l = Some tx -> heap w' !! l = Some tx.

Lemma keeps_new w tx : keeps_objects w (set_heap (heap w ++ [tx]) (bump_sql w)).
Proof. intros l t Ht. simpl. by apply lookup_app_l_Some. Qed.

(** One lookup of [find_existing] *)
Lemma wp_found_ledger ex g p p' (Q : outcome (option loc) -> World -> Prop) w :
  in_tables ex g w -> on_rows p p' ->
  (forall l tx w', in_tables ex g w' -> keeps_objects w w' -> tx ∈ lg_transactions g -> p' tx = true ->
     heap w' !! l = Some tx -> Q (Ok (Some l)) w') ->
  (forall w', in_tables ex g w' -> keeps_objects w w' ->
     (forall tx, tx ∈ lg_transactions g -> p' tx = false) -> Q (Ok None) w') ->
  wp (found (sql_query_row ex (select_transactions p) ≫= transactionFromDatabaseRow)) Q w.
Proof.
  intros Hrep Hp Hsome Hnone. apply wp_found. eapply (wp_fetch_one ex g p p'); [done|done| |].
  - intros tx Htx Hpt. eapply Hsome; [by apply in_tables_heap | apply keeps_new | done | done |].
    simpl. by rewrite lookup_app_r, Nat.sub_diag by lia.
  - intros Hno. apply Hnone; [by apply in_tables_bump | by intros l t | done].
Qed.

Lemma on_rows_payment tx :
  on_rows (fun r => bool_decide (r_hash r = tx_Hash tx) &&
             bool_decide (r_direction r = Direction_String (tx_Direction tx)) &&
             bool_decide (r_address r = tx_Address tx)) (same_payment tx).
Proof.
  intros ext. unfold same_payment. cbn [row_of_transaction r_hash r_direction r_address].
  by rewrite (bool_decide_inj Direction_String Direction_String_inj).
Qed.

Lemma wp_find_existing_ledger ex g tx (Q : outcome (option loc) -> World -> Prop) w :
  in_tables ex g w ->
  (forall l ext w', in_tables ex g w' -> keeps_objects w w' -> matching g tx ext ->
     heap w' !! l = Some ext -> Q (Ok (Some l)) w') ->
  (forall w', in_tables ex g w' -> keeps_objects w w' -> (forall ext, ~ matching g tx ext) ->
     Q (Ok None) w') ->
  wp (find_existing ex tx) Q w.
Proof.
  intros Hrep Hsome Hnone.
  assert (Hhash : forall w1, in_tables ex g w1 -> keeps_objects w w1 ->
    tx_ID tx = uuid_Nil \/ tx_ID tx ∉ ids g ->
    wp (if decide (tx_Hash tx = "") then mret None
        else found (GetTransactionByHashDirectionAndAddress ex tx)) Q w1).
  { intros w1 Hrep1 Hk Hid.
    assert (Hno_id : forall ext, ext ∈ lg_transactions g -> tx_ID tx <> uuid_Nil -> tx_ID ext <> tx_ID tx).
    { intros ext Hext Hne Heq. destruct Hid as [?|Hid]; [done|]. apply Hid. unfold ids.
      rewrite <- Heq. by apply list_elem_of_fmap_2. }
    case_decide as Hh.
    - apply wp_ret, Hnone; [done..|]. intros ext [Hext [[Hne Heq]|(_ & Hh' & _)]]; [|done].
      by apply (Hno_id ext).
    - eapply wp_found_ledger; [exact Hrep1 | apply on_rows_payment | |].
      + intros l ext w2 H2 Hk2 Hext Hp Hl. eapply Hsome; [done | by intros ???; apply Hk2, Hk | | done].
        split; [done|]. by right.
      + intros w2 H2 Hk2 Hno. apply Hnone; [done | by intros ???; apply Hk2, Hk |].
        intros ext [Hext [[Hne Heq]|(_ & _ & Hs)]]; [by apply (Hno_id ext)|].
        by rewrite (Hno ext Hext) in Hs. }
  unfold find_existing. apply wp_bind. destruct (decide (tx_ID tx = uuid_Nil)) as [Hn|Hn].
  - apply wp_ret, Hhash; [done | by intros ?? | by left].
  - eapply (wp_found_ledger ex g _ (fun t => bool_decide (tx_ID t = tx_ID tx))); [done|done| |].
    + intros l ext w1 H1 Hk Hext Hp%bool_decide_eq_true Hl. apply wp_ret.
      eapply Hsome; [done | done | | done]. split; [done|]. by left.
    + intros w1 H1 Hk Hno. apply Hhash; [done..|]. right.
      intros (ext & Heq & Hext)%list_elem_of_fmap.
      specialize (Hno ext Hext). apply bool_decide_eq_false in Hno. by destruct Hno.
Qed.

Lemma wp_wrap ex prefix stmt d d' (Q : outcome unit -> World -> Prop) w :
  target ex w = Some d -> stmt d = Ok d' -> Q (Ok tt) (put_db ex d' (bump_sql w)) ->
  wp (wrap_err prefix (sql_exec ex stmt)) Q w.
Proof. intros Hd Hs HQ. apply wp_bind, wp_try. by eapply wp_exec. Qed.

Lemma pg_update ex g tx l ext w (Q : outcome loc -> World -> Prop) :
  in_tables ex g w -> admissible g (Store tx) -> matching g tx ext -> heap w !! l = Some ext ->
  (forall w', wp (tx' ← load l; mret (RTx (loaded tx'))) (goes_well g ex (Store tx)) w' -> Q (Ok l) w') ->
  wp (ext ← load l;
      wrap_err "Update of tx data in DB failed" (sql_exec ex (update_transaction (tx_ID ext) tx)) ;;
      ext' ← lift (Update ext tx); store l ext' ;; mret l) Q w.
Proof.
  intros Hrep Hadm Hm Hl HQ. destruct (pg_tables _ _ _ Hrep) as (d & Hw & Ht).
  destruct (admissible_update _ _ _ Hadm Hm) as (ext' & Hu).
  pose proof (Update_kept _ _ _ Hu) as (Hid & _ & _ & Hload).
  assert (Hext : ext ∈ lg_transactions g) by apply Hm.
  destruct (in_ledger _ _ _ _ Hrep Hext) as [_ Hl'].
  apply wp_bind, wp_load. rewrite Hl. apply wp_bind. eapply wp_wrap; [done|reflexivity|].
  apply wp_bind, wp_lift. rewrite Hu. apply wp_bind, wp_modify, wp_ret, HQ, wp_bind, wp_load.
  set (w1 := put_db _ _ _). assert (Hh : heap w1 = heap w) by by destruct ex.
  simpl. rewrite Hh, list_lookup_insert_eq by by eapply lookup_lt_Some. apply wp_ret.
  rewrite Hload by done.
  set (g' := with_txs (on_id (tx_ID ext) (fun _ => ext') (lg_transactions g)) g).
  assert (Ha : answers g (Store tx) (Ok (RTx ext')) g') by (destruct g; left; by exists ext, ext').
  exists g'. split; [exact Ha|]. split; [|done].
  apply (in_tables_same _ _ w1); [|by destruct ex..].
  apply (in_tables_put _ g); [by apply in_tables_bump | | |].
  - eapply answers_ok; [apply Hrep | exact Hadm | exact Ha].
  - by apply ids_on_id.
  - rewrite (db_txs _ _ Ht). erewrite rows_on_id; [by apply tables_with_txs|].
    intros t Htx Hid'. apply Update_Ok in Hu as [-> _].
    assert (t = ext) as -> by (eapply (NoDup_key tx_ID); [apply Hrep | done..]). done.
Qed.

Lemma pg_insert ex g tx id l w (Q : outcome loc -> World -> Prop) :
  in_tables ex g w -> admissible g (Store tx) -> (forall ext, ~ matching g tx ext) ->
  heap w !! l = Some (set_ID id tx) ->
  (tx_ID tx <> uuid_Nil /\ id = tx_ID tx \/ tx_ID tx = uuid_Nil /\ id <> uuid_Nil /\ id ∉ ids g) ->
  (forall n, (uuid_count w <= n)%nat -> env_uuid n <> id) ->
  (forall w', wp (tx' ← load l; mret (RTx (loaded tx'))) (goes_well g ex (Store tx)) w' -> Q (Ok l) w') ->
  wp (transaction ← load l;
      wrap_err "Failed to insert new tx into DB" (sql_exec ex (insert_transaction transaction)) ;;
      mret l) Q w.
Proof.
  intros Hrep Hadm Hnone Hl Hid Hdraw HQ. destruct (pg_tables _ _ _ Hrep) as (d & Hw & Ht).
  pose proof Hadm as (Hok & Ha63 & Hf63 & _).
  assert (Hnew : id ∉ ids g).
  { destruct Hid as [[Hne ->]|(_ & _ & Hid)]; [by apply unmatched_new | done]. }
  apply wp_bind, wp_load. rewrite Hl. apply wp_bind. eapply wp_wrap; [done| |].
  { unfold insert_transaction. rewrite decide_False by (destruct tx; cbn in *; lia).
    rewrite decide_False; [reflexivity|]. rewrite (db_txs _ _ Ht), <- list_fmap_compose. exact Hnew. }
  set (d' := with_transactions _ _). apply wp_ret, HQ, wp_bind, wp_load.
  assert (heap (put_db ex d' (bump_sql w)) = heap w) as -> by by destruct ex.
  rewrite Hl. apply wp_ret.
  set (g' := with_txs (lg_transactions g ++ [loaded (set_ID id tx)]) g).
  assert (Ha : answers g (Store tx) (Ok (RTx (loaded (set_ID id tx)))) g').
  { destruct g. right. split; [done|]. by exists id. }
  exists g'. split; [exact Ha|]. split; [|done]. destruct Hrep as [Hrok Hdraws _]. split.
  - eapply answers_ok; [exact Hrok | exact Hadm | exact Ha].
  - intros n Hn. assert (uuid_count (put_db ex d' (bump_sql w)) = uuid_count w) as Hu by by destruct ex.
    rewrite Hu in Hn. unfold ids, g'. cbn. rewrite fmap_app, not_elem_of_app.
    split; [by apply Hdraws|]. intros Heq%list_elem_of_singleton. by apply (Hdraw n).
  - exists d'. split; [by destruct ex|]. subst d'. rewrite (db_txs _ _ Ht).
    change [row_of_transaction (set_ID id tx)] with (row_of_transaction <$> [loaded (set_ID id tx)]).
    rewrite <- fmap_app. by apply tables_with_txs.
Qed.

Lemma pg_store ex g tx w :
  in_tables ex g w -> admissible g (Store tx) ->
  wp (execute (ST := PostgresStorage) ex (Store tx)) (goes_well g ex (Store tx)) w.
Proof.
  intros Hrep0 Hadm. apply wp_bind. unfold wp at 1, alloc. cbn [fst snd].
  set (w1 := set_heap _ w).
  assert (Hrep : in_tables ex g w1) by (eapply in_tables_same; [exact Hrep0| |]; by destruct ex).
  assert (Hl : heap w1 !! length (heap w) = Some tx)
    by (simpl; by rewrite lookup_app_r, Nat.sub_diag by lia).
  clearbody w1. clear Hrep0. set (l := length (heap w)) in *. clearbody l. clear w.
  apply wp_bind. cbn [WalletStorage.StoreTransaction PostgresStorage].
  apply wp_bind, wp_load. rewrite Hl. apply wp_bind, (wp_find_existing_ledger _ g); [done| |].
  - intros l' ext w2 H2 _ Hm Hl'. by eapply pg_update.
  - intros w2 H2 Hk Hnone. apply Hk in Hl. apply wp_bind. case_decide as Hid.
    + apply wp_bind. unfold wp at 1, uuid_NewV4. cbn [fst snd]. apply wp_modify.
      eapply (pg_insert ex g tx (env_uuid (uuid_count w2))); [| done | done | | | |done].
      * destruct H2 as [Hok Hd Ht]. split; [done| |by destruct ex].
        intros n Hn. apply Hd. cbn in Hn. lia.
      * simpl. by apply list_lookup_insert_eq; eapply lookup_lt_Some.
      * right. split_and!; [done | apply env_uuid_nonnil | by apply (pg_draws _ _ _ H2)].
      * cbn. intros n Hn Heq. apply uuids_distinct in Heq. lia.
    + apply wp_ret. eapply (pg_insert ex g tx (tx_ID tx));
        [done | done | done | by destruct tx | by left | | done]. intros n _. by apply Hadm.
Qed.

#[export] Instance postgres_refines ex : Refines PostgresStorage ex (in_tables ex).
Proof.
  intros g c w Hrep Hadm. destruct c;
    first [by apply pg_metadata | by apply pg_accounts | by apply pg_lookup | by apply pg_lists
          | by apply pg_store | by apply pg_reported].
Qed.

End PgLedger.
