(* ===== verification/LedgerProps.v ===== *)
(** * Both storages of the wallet refine the ledger *)
From S2P Require Import Prelude.
From S2P Require Import Go.
From S2P Require Import Bitcoin.
From S2P Require Import TxTypes.
From S2P Require Import EventTypes.
From S2P Require Import World.
From S2P Require Import Effects.
From S2P Require Import Storage.
From S2P Require Import WalletStorage.
From S2P Require Import WellFormed.
From S2P Require Import PgWallet.
From S2P Require Import MemWallet.
From S2P Require Import TestEnv.
From S2P Require Import StorageProps.
From S2P Require Import Ledger.
From S2P Require Import MemLedger.
From S2P Require Import PgLedger.
Local Open Scope Z_scope.

Section LedgerProps.
Context {E : Env} {EL : EnvLaws E}.

(** C3: The PostgreSQL storage behaves as the ledger: when the tables hold a ledger and the
    server does not fail, every sequence of admissible operations, on the connection or
    in a transaction, gets replies that the ledger gives (an error is one of the ledger's, a
    Go panic none), and leaves tables that hold the ledger's next state: a transaction
    stored under its id or its payment, one for each id, read back with every field,
    listed by status and direction, updated in place. *)
Theorem postgres_refines_ledger (ex : Exec) (cs : list Command) (g : Ledger) (w : World)
    (no_faults : forall n, env_fault n = NoFault)
    (uuids_distinct : forall m n, env_uuid m = env_uuid n -> m = n)
    (Hrep : in_tables ex g w) (Hadm : admissible_run g cs) :
  exists rs g', (execute_all (ST := PostgresStorage) ex cs w).1 = Ok rs /\
    ledger_run g cs rs g' /\ in_tables ex g' (execute_all (ST := PostgresStorage) ex cs w).2.
Proof.
  exact (refines_run (R := postgres_refines no_faults uuids_distinct ex) cs g w Hrep Hadm).
Qed.

(** C12: The in-memory storage, which the tests run with, behaves as the same ledger, on
    objects that are shared with its callers. *)
Theorem memory_refines_ledger (ex : Exec) (cs : list Command) (g : Ledger) (w : World)
    (uuids_distinct : forall m n, env_uuid m = env_uuid n -> m = n)
    (Hrep : in_memory g w) (Hadm : admissible_run g cs) :
  exists rs g', (execute_all (ST := MemoryStorage) ex cs w).1 = Ok rs /\
    ledger_run g cs rs g' /\ in_memory g' (execute_all (ST := MemoryStorage) ex cs w).2.
Proof.
  exact (refines_run (R := memory_refines uuids_distinct env_uuid_nonnil ex) cs g w Hrep Hadm).
Qed.

End LedgerProps.

(** ** Witnesses: a new database, and a withdrawal that is stored and read *)
Definition new_ledger : Ledger := mkLedger [] [] "" "" 0 "".

Definition stored_tx : Transaction := set_Status PendingTransaction (test_tx 7 "client" 50000).

Definition ledger_commands : list Command :=
  [SetHotAddress "hot"; Store stored_tx; ByID 7; Pending].

Lemma new_ledger_ok : ledger_ok new_ledger.
Proof. split; try constructor; done. Qed.

Lemma ledger_commands_admissible : admissible_run (H := test_env no_fault) new_ledger ledger_commands.
Proof.
  split; [done|]. intros r g [_ ->]. split; [|by split].
  split; [by repeat split|]. split; [done|]. split; [done|]. split.
  - by intros ext [?%elem_of_nil _].
  - intros n. simpl. lia.
Qed.

Lemma test_uuids_distinct m n :
  env_uuid (Env := test_env no_fault) m = env_uuid (Env := test_env no_fault) n -> m = n.
Proof. unfold env_uuid, test_env. lia. Qed.

Definition pg_replies : outcome (list (Reply + error)) * World :=
  execute_all (ST := PostgresStorage (E := test_env no_fault)) OnDB ledger_commands init_world.

Lemma postgres_refines_ledger_witness :
  pg_replies.1 = Ok [inl RUnit; inl (RTx (loaded stored_tx)); inl (RTx (loaded stored_tx));
                     inl (RTxs [loaded stored_tx])] /\
  exists g', in_tables (E := test_env no_fault) OnDB g' pg_replies.2.
Proof.
  split; [vm_compute; reflexivity|].
  assert (T := postgres_refines_ledger (E := test_env no_fault) OnDB ledger_commands new_ledger
    init_world).
  destruct T as (rs & g' & _ & _ & Hrep).
  - done.
  - exact test_uuids_distinct.
  - split; [exact new_ledger_ok | intros n _; apply not_elem_of_nil |].
    exists empty_db. by split.
  - exact ledger_commands_admissible.
  - by exists g'.
Defined.

Definition memory_replies : outcome (list (Reply + error)) * World :=
  execute_all (ST := MemoryStorage (E := test_env no_fault)) OnDB ledger_commands init_world.

Lemma memory_refines_ledger_witness :
  memory_replies.1 = pg_replies.1 /\
  exists g', in_memory (E := test_env no_fault) g' memory_replies.2.
Proof.
  split; [vm_compute; reflexivity|].
  assert (T := memory_refines_ledger (E := test_env no_fault) OnDB ledger_commands new_ledger
    init_world).
  destruct T as (rs & g' & _ & _ & Hrep).
  - exact test_uuids_distinct.
  - split; try done; [exact new_ledger_ok | intros n _; apply not_elem_of_nil].
  - exact ledger_commands_admissible.
  - by exists g'.
Defined.
