(* ===== verification/PendingProps.v ===== *)
(** * Properties: pending withdrawals *)
From S2P Require Import Prelude.
From S2P Require Import Go.
From S2P Require Import Util.
From S2P Require Import Bitcoin.
From S2P Require Import TxTypes.
From S2P Require Import EventTypes.
From S2P Require Import World.
From S2P Require Import Effects.
From S2P Require Import Storage.
From S2P Require Import WalletStorage.
From S2P Require Import PgWallet.
From S2P Require Import EventStorage.
From S2P Require Import PgInvariants.
From S2P Require Import WellFormed.
From S2P Require Import PgSpec.
From S2P Require Import Broadcaster.
From S2P Require Import Broker.
From S2P Require Import NodeAPI.
From S2P Require Import WalletBase.
From S2P Require Import Withdraw.
From S2P Require Import NotifySpec.
From S2P Require Import Pending.
From S2P Require Import Updates.
From S2P Require Import WalletKeeps.
From S2P Require Import ApiKeeps.
From S2P Require Import WithdrawSafety.
From S2P Require Import WithdrawSpec.
From S2P Require Import PendingSpec.
From S2P Require Import System.
From S2P Require Import TestEnv.
Local Open Scope Z_scope.

Section PendingProps.
Context {E : Env} {EL : EnvLaws E} {N : NodeAPI} {NL : NodeAPILaws N} {CFG : WalletConfig}.
#[local] Existing Instance PostgresStorage.
#[local] Existing Instance PostgresEvents.

Definition is_pending (r : TxRow) : bool :=
  bool_decide (r_status r = Status_String PendingTransaction) ||
  bool_decide (r_status r = Status_String PendingColdStorageTransaction).

(** The amounts of the withdrawals that wait for money *)
Definition pending_amounts (d : DB) : list Z := r_amount <$> filter is_pending (db_transactions d).

(** C17: After an update of the pending withdrawals that succeeds, the money that
    the tables say is required from cold storage is what the balance that the node
    reported, confirmed and unconfirmed, lacks to pay all the withdrawals that were
    pending, and zero when it lacks nothing. *)
Theorem money_required_is_the_shortage (w w' : World) (s : Z)
    (Hwf : wf_db s (committed w))
    (Hbound : sum_Z (pending_amounts (committed w)) < amount_bound)
    (Hrun : tryToUpdatePendingTxns w = (Ok tt, w')) :
  exists conf unconf w1, (GetConfirmedAndUnconfirmedBalance w1).1 = Ok (conf, unconf) /\
    (0 <= conf < amount_bound -> 0 <= unconf < amount_bound ->
     money_required (committed w')
       (Z.max 0 (sum_Z (pending_amounts (committed w)) - (conf + unconf)))).
Proof.
  by_wp Hrun. set (total := sum_Z _) in *.
  apply wp_bind, wp_fetch; [intros [] w1 Hr; [by destruct Hr | done..]|].
  intros w1 ls rows H1 Hrows Hnd Ham.
  assert (Htotal : sum_Z (r_amount <$> rows) = total) by by rewrite Hrows.
  assert (Hpos : Forall (fun a => 0 <= a) (r_amount <$> rows)).
  { rewrite Hrows, Forall_fmap. apply Forall_forall. intros row [_ Hr]%list_elem_of_filter.
    pose proof (wf_rows _ _ Hwf) as Hok. rewrite Forall_forall in Hok.
    apply Hok in Hr. simpl. apply Hr. }
  apply wp_bind, (wp_sort _ (r_amount <$> rows)); [done | done |].
  intros ls2 amts2 _ Hamts Hnd2 Ham2 _.
  rewrite <- Hamts in Htotal, Hpos. unfold amount_bound in *.
  assert (Hbnd : Forall (fun a => 0 <= a < 2 ^ 61) amts2).
  { clearbody total. clear -Htotal Hpos Hbound. revert total Htotal Hbound.
    induction Hpos as [|a amts Ha Hpos IH]; simpl; intros t Ht Hb; constructor.
    - pose proof (sum_Z_nonneg _ Hpos). lia.
    - apply (IH (t - a)); lia. }
  apply wp_bind. destruct (requests_GetBalance w1) as (acts & Hw2 & _).
  unfold wp. destruct (GetConfirmedAndUnconfirmedBalance w1) as [[[conf unconf]|e|p] w2] eqn:Eb;
    [|done..].
  cbn [fst snd] in Hw2 |- *.
  change (wp ('(pendingTxns, availableBalance) ←
            while_affordable (fun l => sendWithdrawal l false) ls2 (i64 conf);
            match pendingTxns with
            | [] => SetMoneyRequiredFromColdStorage OnDB 0
            | _ => MakeTransactIfAvailable_wallet
                     (update_unfunded pendingTxns availableBalance unconf)
            end) (fun r0 w0 => r0 = Ok tt -> exists conf unconf w1,
              (GetConfirmedAndUnconfirmedBalance w1).1 = Ok (conf, unconf) /\
              (0 <= conf < 2 ^ 61 -> 0 <= unconf < 2 ^ 61 ->
               money_required (committed w0) (Z.max 0 (total - (conf + unconf))))) w2).
  destruct (decide (0 <= conf < 2 ^ 61 /\ 0 <= unconf < 2 ^ 61)) as [[Hconf Hunconf]|Hno].
  2: { unfold wp. intros _. exists conf, unconf, w1. rewrite Eb. split; [done|].
       intros. by destruct Hno. }
  eapply wp_mono with (Q := fun r0 w0 => r0 = Ok tt ->
    money_required (committed w0) (Z.max 0 (total - (conf + unconf)))).
  2: { intros r0 w0 Hm Hr. exists conf, unconf, w1. rewrite Eb. split; [done|]. auto. }
  assert (Ham3 : amounts w2 ls2 amts2) by by rewrite Hw2.
  rewrite (i64_small conf) by (unfold is_i64; lia).
  apply wp_bind, (wp_while_affordable (fun _ => True) _ _ amts2); unfold amount_bound;
    [ | done | done | done | lia | done | |].
  { intros l w0 _. split; [apply framed_sendWithdrawal | done]. }
  { intros [] w3 Hr; [by destruct Hr | done..]. }
  intros w3 b' k Haff Ham4 _. apply affordable_spec in Haff as (Hb' & Hk & Hnext & Hk0).
  assert (Hsplit : sum_Z amts2 = sum_Z (take k amts2) + sum_Z (drop k amts2)).
  { by rewrite <- sum_Z_app, take_drop. }
  assert (Hd0 : 0 <= sum_Z (drop k amts2)) by by apply sum_Z_nonneg, Forall_drop.
  assert (Ht0 : 0 <= sum_Z (take k amts2)) by by apply sum_Z_nonneg, Forall_take.
  destruct (drop k ls2) as [|l rest] eqn:Edrop.
  - apply Forall2_nil_inv_l in Ham4 as Hnil. apply wp_sql_exec; [done|]. intros d _. split; [done|].
    split; [|done]. intros _. rewrite Hnil in Hsplit. simpl in Hsplit.
    assert (Hz : Z.max 0 (total - (conf + unconf)) = 0).
    { destruct k; [simpl in Hsplit; lia | specialize (Hk0 ltac:(lia)); lia]. }
    rewrite Hz. apply lookup_insert_eq.
  - apply wp_transaction; [done|]. set (w4 := set_inflight _ _).
    apply (wp_update_unfunded (committed w3) _ (drop k amts2) b' unconf).
    + rewrite <- Edrop. rewrite <- (take_drop k ls2) in Hnd2.
      by apply NoDup_app in Hnd2 as (_ & _ & ?).
    + exact Ham4.
    + by apply Forall_drop.
    + done.
    + intros a Ha. apply Hnext. by rewrite <- Ha, head_lookup, lookup_drop, Nat.add_0_r.
    + unfold amount_bound. lia.
    + unfold amount_bound. lia.
    + unfold amount_bound. lia.
    + split; [done | by eexists].
    + intros [] w5 Hr; [by destruct Hr | done..].
    + intros w5 d _ Hd Hm. split; [done|]. intros d0 Heq. assert (d0 = d) as -> by congruence.
      split; [|done]. intros _. simpl. rewrite (Z.max_r 0 unconf) in Hm by lia.
      by replace (total - (conf + unconf)) with (sum_Z (drop k amts2) - (b' + unconf)) by lia.
Qed.

(** C33: The withdrawals that an update sends are, with the list in the order it
    has, exactly the longest prefix that the confirmed balance pays for: they are sent one
    after the other, what is left of the balance is never negative after a payment,
    and the first one that is left would exceed it. *)
Theorem sends_the_affordable_prefix (ls rest : list loc) (amts : list Z) (b b' : Z)
    (w w' : World)
    (Hnd : NoDup ls) (Ham : amounts w ls amts)
    (Hbnd : Forall (fun a => 0 <= a < amount_bound) amts)
    (Hb : - amount_bound <= b < 2 * amount_bound)
    (Hrun : while_affordable (fun l => sendWithdrawal l false) ls b w = (Ok (rest, b'), w')) :
  exists k, rest = drop k ls /\ b' = b - sum_Z (take k amts) /\ ((0 < k)%nat -> 0 <= b') /\
    (forall a, amts !! k = Some a -> b' < a) /\
    forM_ (take k ls) (fun l => sendWithdrawal l false) w = (Ok tt, w').
Proof.
  revert amts b w Hnd Ham Hbnd Hb Hrun.
  induction ls as [|l ls IH]; intros amts b w Hnd Ham Hbnd Hb Hrun.
  { inversion Ham; subst. simpl in Hrun. exists 0%nat. unfold mret, M_ret in Hrun.
    simplify_eq. simpl. split_and!; [done | lia | lia | done | done]. }
  inversion Ham as [|l0 a ls0 amts' (tx & Hl & Ha) Ham']; subst.
  apply NoDup_cons in Hnd as [Hnotin Hnd]. apply Forall_cons in Hbnd as [Ha0 Hbnd].
  unfold amount_bound in *. simpl in Hrun.
  unfold mbind at 1, M_bind at 1, load in Hrun. rewrite Hl in Hrun.
  rewrite (i64_small (tx_Amount tx)), (i64_small (b - tx_Amount tx)) in Hrun
    by (unfold is_i64; lia).
  case_decide as Hpay.
  - pose proof (framed_sendWithdrawal l false w) as He.
    unfold mbind at 1, M_bind at 1 in Hrun.
    destruct (sendWithdrawal l false w) as [[u|e|p] w1] eqn:Es; [|done..]. simpl in He.
    assert (Ham1 : amounts w1 ls amts') by by eapply amounts_frame.
    destruct (IH amts' (b - tx_Amount tx) w1 Hnd Ham1 Hbnd ltac:(lia) Hrun)
      as (k & -> & Hb' & Hpos & Hnext & Hfor).
    exists (S k). simpl. split_and!; [done | lia | | done |].
    + intros _. destruct k; [simpl in Hb'; lia | apply Hpos; lia].
    + unfold mbind, M_bind. rewrite Es. exact Hfor.
  - unfold mret, M_ret in Hrun. simplify_eq. exists 0%nat. simpl.
    split_and!; [done | lia | lia | | done]. intros ? [= <-]. lia.
Qed.

(** *** Cancelling and confirming *)
Definition may_cancel (ts : TransactionStatus) : bool :=
  match ts with
  | PendingTransaction | PendingColdStorageTransaction
  | PendingManualConfirmationTransaction => true
  | _ => false
  end.

(** A cancellation of a transaction whose stored status is not one of the three
    pending ones is refused with an error, and neither the tables nor the node
    nor the wallet's counters see anything of it. *)
Theorem cancel_refused (id : UUID) (w w' : World) (r : outcome unit) (s : Z) (row : TxRow)
    (tx : Transaction) (Hwf : wf_db s (committed w))
    (Hrow : row ∈ db_transactions (committed w)) (Hid : r_id row = id)
    (Hdec : PostgresWalletStorage.decode_row row = Ok tx)
    (Hst : may_cancel (tx_Status tx) = false)
    (Hrun : cancelPendingTx id w = (r, w')) :
  (exists e, r = Err e) /\ committed w' = committed w /\ trace w' = trace w /\
  wallet_proc w' = wallet_proc w.
Proof.
  refine (wp_run _ (fun r w' => (exists e, r = Err e) /\ committed w' = committed w /\
    trace w' = trace w /\ wallet_proc w' = wallet_proc w) _ _ _ Hrun _).
  apply wp_bind, wp_transaction; [by eauto|]. set (w1 := set_inflight _ _). apply wp_bind.
  eapply (wp_get_by_id OnTx id row s (committed w)); [done | done | done | done | |].
  - intros e w2 [] _. simpl. by eauto.
  - intros l tx' w2 H2 Hdec' Hl. assert (tx' = tx) as -> by congruence.
    apply wp_bind, wp_load. rewrite Hl. destruct H2. simpl in *.
    by destruct (tx_Status tx); try discriminate Hst; apply wp_throw; simpl; eauto.
Qed.

(** C39: A cancellation that succeeds found one of the three pending statuses, and
    at some moment the tables were committed in which, compared to those it found,
    exactly this withdrawal was stored as cancelled and one "pending-tx-cancelled" event
    was added. *)
Theorem cancel_records_the_cancellation (id : UUID) (w w' : World) (s : Z) (row : TxRow)
    (tx : Transaction) (Hwf : wf_db s (committed w))
    (Hrow : row ∈ db_transactions (committed w)) (Hid : r_id row = id)
    (Hdec : PostgresWalletStorage.decode_row row = Ok tx)
    (Hrun : cancelPendingTx id w = (Ok tt, w')) :
  may_cancel (tx_Status tx) = true /\
  exists d tx', (ACommit, d) ∈ trace w' /\
    status_changed tx CancelledTransaction (events_seq w) (committed w) d tx'.
Proof.
  by_wp Hrun. apply wp_bind, wp_transaction; [done|]. set (w1 := set_inflight _ _).
  apply wp_bind.
  eapply (wp_get_by_id OnTx id row s (committed w)); [done | done | done | done | done |].
  intros l tx' w2 H2 Hdec' Hl. assert (tx' = tx) as -> by congruence.
  apply wp_bind, wp_load. rewrite Hl.
  assert (Hcancel : may_cancel (tx_Status tx) = true ->
    wp (updatePendingTxStatus OnTx l CancelledTransaction) (fun r w3 => is_ok r ->
      exists d tx', inflight w3 = Some d /\
        status_changed tx CancelledTransaction (events_seq w) (committed w) d tx') w2).
  { intros Hc. apply (wp_updatePendingTxStatus OnTx l _ tx (committed w)); [done | | | |].
    - simpl. by rewrite (reads_inflight _ _ H2).
    - intros r w3 _ _ Hr Hok. by destruct Hr.
    - intros Heq. by rewrite <- Heq in Hc.
    - intros w3 d tx' _ _ _ Hch Hd _ _ _. exists d, tx'. split; [done|].
      by rewrite (reads_events_seq _ _ H2) in Hch. }
  assert (Hrest : may_cancel (tx_Status tx) = true ->
    wp (updatePendingTxStatus OnTx l CancelledTransaction) (fun r w3 =>
      match r with
      | Ok a => (forall e : error, Err e = Ok tt -> False) /\
          (forall d, inflight w3 = Some d ->
             wp (upd_wallet (fun p => set_manual (wp_manualConfirmationCount p - 1) p) ;;
                 updatePendingTxns ;; SendNotifications)
               (fun r0 w0 => r0 = Ok tt -> may_cancel (tx_Status tx) = true /\
                  exists d tx', (ACommit, d) ∈ trace w0 /\
                    status_changed tx CancelledTransaction (events_seq w) (committed w) d tx')
               (put_db OnDB d (set_inflight None (bump_sql w3))))
      | _ => True
      end) w2).
  { intros Hc. eapply wp_mono; [by apply Hcancel|]. intros [a|e|p] w3 H3; [|done..].
    destruct (H3 I) as (d & tx' & Hd & Hch). split; [done|]. intros d0 Hd0.
    assert (d0 = d) as -> by congruence. set (w4 := put_db _ _ _).
    assert (Ht4 : (ACommit, d) ∈ trace w4) by left.
    pose (T := fun t : list (Act * DB) => (ACommit, d) ∈ t).
    assert (Hig : Ignores T) by by intros a' d' t _ _ Ht; right.
    assert (Hs : SendsAllowed (trace_inv T)) by by intros a' _ s' d' _ t Ht; right.
    assert (Hk : Keeps (holds (trace_inv T))
      (upd_wallet (fun p => set_manual (wp_manualConfirmationCount p - 1) p) ;;
       updatePendingTxns ;; SendNotifications)).
    { apply keeps_bind; [apply keeps_upd_wallet | intros _].
      apply keeps_bind; [|intros _; apply (keeps_SendNotifications (trace_inv T))].
      apply (keeps_updatePendingTxns (trace_inv T)). intros l' upd.
      apply (keeps_sendWithdrawal (trace_inv T)). }
    assert (Hw4 : holds (trace_inv T) w4).
    { split_and!; try done. by apply Forall_true. }
    destruct (Hk w4 Hw4) as (_ & _ & Ht & _). unfold wp. intros _.
    split; [done|]. by exists d, tx'. }
  destruct (tx_Status tx) eqn:Est; try (by apply wp_throw);
    (eapply wp_mono; [by apply Hrest|]; intros [[]|e|p] w3 H3; [|done..];
     destruct H3 as [_ H3]; split; [done|]; intros d Hd; split; [by apply H3 | done]).
Qed.

(** Only a withdrawal that is stored as pending manual confirmation can be
    confirmed: for any other stored status the confirmation fails with an error,
    and nothing is committed, sent or counted. *)
Theorem confirm_refused (id : UUID) (w w' : World) (r : outcome unit) (s : Z) (row : TxRow)
    (tx : Transaction) (Hwf : wf_db s (committed w))
    (Hrow : row ∈ db_transactions (committed w)) (Hid : r_id row = id)
    (Hdec : PostgresWalletStorage.decode_row row = Ok tx)
    (Hst : tx_Status tx <> PendingManualConfirmationTransaction)
    (Hrun : confirmPendingTx id w = (r, w')) :
  (exists e, r = Err e) /\ db_transactions (committed w') = db_transactions (committed w) /\
  db_events (committed w') = db_events (committed w) /\
  payments (trace w') = payments (trace w) /\ wallet_proc w' = wallet_proc w.
Proof.
  refine (wp_run _ (fun r w' => (exists e, r = Err e) /\
    db_transactions (committed w') = db_transactions (committed w) /\
    db_events (committed w') = db_events (committed w) /\
    payments (trace w') = payments (trace w) /\ wallet_proc w' = wallet_proc w) _ _ _ Hrun _).
  apply wp_bind, wp_transaction; [by eauto 6|]. set (w1 := set_inflight _ _).
  eapply (wp_get_by_id OnTx id row s (committed w)); [done | done | done | done | |].
  - intros e w2 [] _. simpl in *. split_and!; [by eauto | congruence | congruence | congruence | done].
  - intros l tx' w2 H2 Hdec' Hl. assert (tx' = tx) as -> by congruence.
    destruct H2. simpl in *. split.
    { intros e. split_and!; [by eauto | congruence | congruence | congruence | done]. }
    intros d Hd. assert (d = committed w) as -> by congruence.
    split; [|simpl; split_and!; [by eauto | done | done | | done]].
    + apply wp_bind, wp_load. simpl. rewrite Hl. case_decide; [|done].
      apply wp_throw. simpl. split_and!; [by eauto | done | done | | done].
      unfold payments. rewrite filter_cons_False by done. by rewrite reads_trace.
    + unfold payments. rewrite filter_cons_False by done. by rewrite reads_trace.
Qed.

End PendingProps.

(** ** Concrete pending withdrawals: of 30000, 20000 and 90000 satoshi *)
Definition pending_row (id : UUID) (amount : Z) (st : TransactionStatus) : TxRow :=
  PostgresWalletStorage.row_of_transaction (set_Status st (test_tx id "client" amount)).

(** What such a row is read back as *)
Definition loaded_row (id : UUID) (amount : Z) (st : TransactionStatus) : Transaction :=
  mkTransaction id "" "" 0 "client" OutgoingDirection st amount JNull 1000 PerKBRateFee
    false false (-1).

Definition pending_db : DB :=
  mkDB [pending_row 1 30000 PendingTransaction; pending_row 2 20000 PendingTransaction;
        pending_row 3 90000 PendingColdStorageTransaction;
        pending_row 4 500 PendingManualConfirmationTransaction;
        pending_row 5 700 CancelledTransaction] [] ∅ [] [].

Definition pending_world : World := set_committed pending_db init_world.

Lemma pending_db_wf : wf_db 1 pending_db.
Proof.
  constructor; try (by repeat constructor); apply (bool_decide_unpack _); by vm_compute.
Qed.

(** A balance of 45000 confirmed and 10000 unconfirmed satoshi pays for the first two. *)
Definition pending_node : NodeAPI :=
  test_node [] (mkGetTransactionResult "h" "" 0 "") 45000 10000 (Ok "h").

#[export] Instance pending_node_laws : NodeAPILaws pending_node.
Proof. apply _. Qed.

Definition update_run : outcome unit * World :=
  @tryToUpdatePendingTxns (test_env no_fault) (@PostgresStorage (test_env no_fault))
    (@PostgresEvents (test_env no_fault)) pending_node test_config pending_world.

Lemma money_required_is_the_shortage_witness :
  exists conf unconf, conf = 45000 /\ unconf = 10000 /\
    money_required (committed update_run.2) (Z.max 0 (140000 - (conf + unconf))).
Proof.
  assert (T := money_required_is_the_shortage (E := test_env no_fault) (N := pending_node)
    (CFG := test_config) pending_world update_run.2 1 pending_db_wf).
  destruct T as (conf & unconf & w1 & Hb & Hm); [vm_compute; reflexivity.. |].
  injection Hb as <- <-. exists 45000, 10000. split; [done|]. split; [done|].
  apply Hm; unfold amount_bound; lia.
Defined.

Definition sorted_world : World :=
  set_heap [test_tx 2 "client" 20000; test_tx 1 "client" 30000] init_world.

Definition send_run : outcome (list loc * Z) * World :=
  @while_affordable (fun l => @sendWithdrawal (test_env no_fault)
    (@PostgresStorage (test_env no_fault)) (@PostgresEvents (test_env no_fault)) pending_node
    test_config l false) [0; 1]%nat 45000 sorted_world.

Lemma sends_the_affordable_prefix_witness :
  exists k, [1%nat] = drop k [0; 1]%nat /\ 25000 = 45000 - sum_Z (take k [20000; 30000]).
Proof.
  assert (T := sends_the_affordable_prefix (E := test_env no_fault) (N := pending_node)
    (CFG := test_config) [0; 1]%nat [1%nat] [20000; 30000] 45000 25000 sorted_world send_run.2).
  destruct T as (k & Hk & Hb & _).
  - apply (bool_decide_unpack _). by vm_compute.
  - repeat constructor; by eexists.
  - unfold amount_bound. repeat constructor; lia.
  - unfold amount_bound. lia.
  - vm_compute. reflexivity.
  - exists k. split; [exact Hk | exact Hb].
Defined.

Definition cancel_pending (id : UUID) : outcome unit * World :=
  @cancelPendingTx (test_env no_fault) (@PostgresStorage (test_env no_fault))
    (@PostgresEvents (test_env no_fault)) pending_node test_config id pending_world.

Lemma cancel_refused_witness :
  (exists e, (cancel_pending 5).1 = Err e) /\ committed (cancel_pending 5).2 = pending_db.
Proof.
  assert (T := cancel_refused (E := test_env no_fault) (N := pending_node) (CFG := test_config)
    5 pending_world (cancel_pending 5).2 (cancel_pending 5).1 1
    (pending_row 5 700 CancelledTransaction) (loaded_row 5 700 CancelledTransaction) pending_db_wf).
  destruct T as (He & Hc & _).
  - do 4 right. left.
  - reflexivity.
  - vm_compute. reflexivity.
  - reflexivity.
  - apply surjective_pairing.
  - split; [exact He | exact Hc].
Defined.

Lemma cancel_records_the_cancellation_witness :
  exists d tx', (ACommit, d) ∈ trace (cancel_pending 4).2 /\
    status_changed (E := test_env no_fault)
      (loaded_row 4 500 PendingManualConfirmationTransaction) CancelledTransaction 1 pending_db d tx'.
Proof.
  assert (T := cancel_records_the_cancellation (E := test_env no_fault) (N := pending_node)
    (CFG := test_config) 4 pending_world (cancel_pending 4).2 1
    (pending_row 4 500 PendingManualConfirmationTransaction)
    (loaded_row 4 500 PendingManualConfirmationTransaction) pending_db_wf).
  destruct T as (_ & d & tx' & Hd & Hch).
  - do 3 right. left.
  - reflexivity.
  - vm_compute. reflexivity.
  - vm_compute. reflexivity.
  - exists d, tx'. split; [exact Hd | exact Hch].
Defined.

Definition confirm_pending (id : UUID) : outcome unit * World :=
  @confirmPendingTx (test_env no_fault) (@PostgresStorage (test_env no_fault))
    (@PostgresEvents (test_env no_fault)) pending_node test_config id pending_world.

Lemma confirm_refused_witness :
  (exists e, (confirm_pending 1).1 = Err e) /\ payments (trace (confirm_pending 1).2) = [].
Proof.
  assert (T := confirm_refused (E := test_env no_fault) (N := pending_node) (CFG := test_config)
    1 pending_world (confirm_pending 1).2 (confirm_pending 1).1 1
    (pending_row 1 30000 PendingTransaction) (loaded_row 1 30000 PendingTransaction) pending_db_wf).
  destruct T as (He & _ & _ & Hp & _).
  - left.
  - reflexivity.
  - vm_compute. reflexivity.
  - discriminate.
  - apply surjective_pairing.
  - split; [exact He | exact Hp].
Defined.
