(* ===== verification/EventProps.v ===== *)
(** * Properties of event delivery: listing, HTTP callback, websocket subscriptions *)
From S2P Require Import Prelude.
From S2P Require Import Go.
From S2P Require Import Util.
From S2P Require Import Bitcoin.
From S2P Require Import TxTypes.
From S2P Require Import EventTypes.
From S2P Require Import World.
From S2P Require Import Effects.
From S2P Require Import Storage.
From S2P Require Import WalletStorage.
From S2P Require Import PgWallet.
From S2P Require Import EventStorage.
From S2P Require Import PgInvariants.
From S2P Require Import WellFormed.
From S2P Require Import PgSpec.
From S2P Require Import Broadcaster.
From S2P Require Import Broker.
From S2P Require Import NodeAPI.
From S2P Require Import WalletBase.
From S2P Require Import Withdraw.
From S2P Require Import NotifySpec.
From S2P Require Import Pending.
From S2P Require Import Updates.
From S2P Require Import WalletKeeps.
From S2P Require Import ApiKeeps.
From S2P Require Import WithdrawSafety.
From S2P Require Import WithdrawSpec.
From S2P Require Import PendingSpec.
From S2P Require Import System.
From S2P Require Import TestEnv.
Local Open Scope Z_scope.

(** ** Reading events back *)
Section Listing.
Context {E : Env}.
#[local] Existing Instance PostgresEvents.
Import PostgresEventStorage.

(** What a row shows of an event *)
Definition event_fields (e : NotificationWithSeq) : Z * string * json :=
  (ns_Seq e, EventType_String (ns_Type e), EventData_MarshalJSON (ns_Data e)).
Definition row_fields (row : EventRow) : Z * string * json := (er_seq row, er_type row, er_data row).

Lemma event_of_row_fields row e : event_of_row row = Ok e -> event_fields e = row_fields row.
Proof.
  unfold event_of_row. intros (et & Het & [= <-])%outcome_bind_Ok.
  unfold event_fields, row_fields, ns_Seq, ns_Type, ns_Data. simpl. f_equal. f_equal.
  revert Het. unfold EventTypeFromString. case_match eqn:Hs; [|done]. intros [= <-].
  unfold EventType_String. erewrite enum_inverse_name; [done | | | exact Hs];
    apply (bool_decide_unpack _); by vm_compute.
Qed.

Lemma mapM_rows rows w evs w' :
  mapM_list (fun row => lift (event_of_row row)) rows w = (Ok evs, w') ->
  event_fields <$> evs = row_fields <$> rows /\ w' = w.
Proof.
  revert evs. induction rows as [|row rows IH]; intros evs H; simpl in H.
  { by injection H as <- <-. }
  unfold mbind at 1, M_bind at 1, lift in H. destruct (event_of_row row) as [e|e|p] eqn:He; [|done..].
  unfold mbind at 1, M_bind at 1 in H.
  destruct (mapM_list _ rows w) as [[es|e'|p] w1] eqn:Hm; [|done..].
  injection H as <- <-. destruct (IH _ eq_refl) as [Hes ->]. split; [|done].
  rewrite !fmap_cons, Hes. f_equal. by apply event_of_row_fields.
Qed.

(** What a read of the events returns, and what it leaves alone *)
Lemma GetEventsFromSeq_spec ex seq s d w w' evs :
  target ex w = Some d -> wf_db s d ->
  PostgresEventStorage.GetEventsFromSeq ex seq w = (Ok evs, w') ->
  event_fields <$> evs =
    row_fields <$> filter (fun row => seq <= er_seq row /\ is_muted d row = false) (db_events d) /\
  StronglySorted Z.lt (ns_Seq <$> evs) /\ target ex w' = Some d /\ broker_proc w' = broker_proc w.
Proof.
  intros Hd Hwf Hrun.
  unfold GetEventsFromSeq in Hrun. unfold mbind at 1, M_bind at 1 in Hrun.
  assert (Hq : wp (sql_query_ordered ex (select_events seq)) (fun r w1 => forall rows, r = Ok rows ->
    rows = select_events seq d /\ target ex w1 = Some d /\ broker_proc w1 = broker_proc w) w).
  { apply wp_sql_query_ordered; [done|]. intros d0 Hd0. split; [done|].
    intros rows [= <-]. assert (d0 = d) as -> by congruence. split; [done|]. by destruct ex. }
  unfold wp in Hq. destruct (sql_query_ordered _ _ w) as [[rows|e|p] w1]; [|done..].
  destruct (Hq _ eq_refl) as (-> & Hd1 & Hb1). apply mapM_rows in Hrun as [Hev ->].
  pose proof (wf_seqs _ _ Hwf) as Hsorted.
  assert (Hsel : select_events seq d =
    filter (fun row => seq <= er_seq row /\ is_muted d row = false) (db_events d)).
  { apply order_by_id, sorted_filter. apply (sorted_fmap Z.lt er_seq) in Hsorted.
    eapply sorted_impl; [|exact Hsorted]. simpl. lia. }
  rewrite <- Hsel. split; [done|]. split; [|done].
  assert (ns_Seq <$> evs = er_seq <$> select_events seq d) as ->.
  { change (ns_Seq <$> evs) with ((fun e => (event_fields e).1.1) <$> evs).
    rewrite (list_fmap_compose event_fields (fun f => f.1.1)), Hev, <- list_fmap_compose. done. }
  rewrite Hsel. apply (sorted_fmap Z.lt er_seq), sorted_filter. by apply (sorted_fmap Z.lt er_seq).
Qed.

(** The events from a sequence number on are listed exactly once each, in strictly
    increasing order, without those of muted transactions, with the type and
    data that were stored. *)
Theorem events_listed_in_order (ex : Exec) (seq s : Z) (d : DB) (w w' : World)
    (evs : list NotificationWithSeq) (Hd : target ex w = Some d) (Hwf : wf_db s d)
    (Hrun : GetEventsFromSeq ex seq w = (Ok evs, w')) :
  event_fields <$> evs =
    row_fields <$> filter (fun row => seq <= er_seq row /\ is_muted d row = false) (db_events d) /\
  StronglySorted Z.lt (ns_Seq <$> evs) /\ target ex w' = Some d.
Proof.
  destruct (GetEventsFromSeq_spec ex seq s d w w' evs Hd Hwf Hrun) as (Hev & Hsorted & Hd' & _).
  by split_and!.
Qed.

End Listing.

(** ** The HTTP callback *)
Section Callback.
Context {E : Env} {HC : HTTPClient} {BCFG : BrokerConfig}.
#[local] Existing Instance PostgresEvents.

(** The bodies posted so far, the most recent first *)
Definition posts (t : list (Act * DB)) : list json :=
  omap (fun p => match p.1 with APost b => Some b | _ => None end) t.

(** The stored sequence number of the last event sent *)
Definition last_sent (d : DB) : option string := db_metadata d !! "last_http_sent_seq".

(** [w'] is [w] after steps that post nothing, leave the broker's fields alone, and
    leave one of [sent] as the last event sent. *)
Definition quiet (sent : list (option string)) (w w' : World) : Prop :=
  posts (trace w') = posts (trace w) /\ broker_proc w' = broker_proc w /\
  last_sent (committed w') ∈ sent.

(** A transaction whose body, when it succeeds, leaves [m1] as the last event sent *)
Lemma quiet_transaction (f : Exec -> M unit) m1 w :
  (forall w1, inflight w1 = Some (committed w) -> committed w1 = committed w ->
     wp (f OnTx) (fun r w2 =>
       posts (trace w2) = posts (trace w1) /\ broker_proc w2 = broker_proc w1 /\
       committed w2 = committed w1 /\
       (is_ok r -> forall d, inflight w2 = Some d -> last_sent d = m1)) w1) ->
  wp (MakeTransactIfAvailable true f) (fun r w' =>
    quiet (match r with Ok _ => [m1] | Err _ => [last_sent (committed w); m1]
                      | Panic _ => [last_sent (committed w)] end) w w') w.
Proof.
  intros Hf. set (w1 := set_inflight (Some (committed w)) (bump_sql w)).
  apply wp_transaction; [by repeat split; left|]. fold w1.
  eapply wp_mono; [by apply (Hf w1)|]. intros r w2 (Hp & Hb & Hc & Hok).
  destruct r as [u|e|p]; simpl.
  - split; [intros e; split_and!; simpl; try done; rewrite Hc; left|].
    intros d Hd. specialize (Hok I d Hd). unfold quiet. simpl. rewrite Hok.
    split; split_and!; try done; set_solver.
  - split_and!; simpl; try done. rewrite Hc. left.
  - split_and!; simpl; try done. rewrite Hc. left.
Qed.

Lemma wp_SetMeta_tx name value d (Q : outcome unit -> World -> Prop) w :
  inflight w = Some d -> (forall e, Q (Err e) (bump_sql w)) ->
  (forall w' d', upsert_meta name value d = Ok d' -> inflight w' = Some d' ->
     posts (trace w') = posts (trace w) -> broker_proc w' = broker_proc w ->
     committed w' = committed w -> Q (Ok tt) w' /\ forall e, Q (Err e) w') ->
  wp (SetMeta OnTx name value) Q w.
Proof.
  intros Hd He Hok. apply wp_sql_exec; [by intros|]. intros d0 Hd0. simpl in Hd0.
  assert (d0 = d) as -> by congruence. split; [done|]. unfold upsert_meta. cbv iota.
  match goal with |- Q _ (put_db OnTx ?x _) /\ _ =>
    destruct (Hok (put_db OnTx x (bump_sql w)) x); try done end.
Qed.

(** Setting another key *)
Lemma quiet_set_other name value w :
  name <> "last_http_sent_seq" ->
  wp (MakeTransactIfAvailable true (fun ex => SetMeta ex name value)) (fun r w' =>
    quiet [last_sent (committed w)] w w') w.
Proof.
  intros Hne. eapply wp_mono; [apply (quiet_transaction _ (last_sent (committed w)))|].
  - intros w1 Hi Hc. eapply wp_SetMeta_tx; [exact Hi | by intros |].
    intros w2 d' [= <-] Hd' Hp Hb Hc'. split; [|by intros].
    split_and!; try done. intros _ d Hd. rewrite Hd' in Hd. injection Hd as <-.
    unfold last_sent. simpl. by rewrite lookup_insert_ne.
  - intros r w' (Hp & Hb & Hs). split_and!; try done. destruct r; set_solver.
Qed.

(** What is posted for an event *)
Definition body_of (event : NotificationWithSeq) : list json :=
  match marshalFlattenedEvent event with Ok body => [body] | _ => [] end.

Lemma either_trans {A} (x y z u : A) : x ∈ [y; z] -> y ∈ [u; z] -> x ∈ [u; z].
Proof. rewrite !elem_of_cons, !elem_of_nil. intros [-> | [-> | []]] Hy; tauto. Qed.

(** Sending an event's result with retries *)
Lemma quiet_persist (f : Exec -> M unit) m1 w :
  (forall w0 w1, last_sent (committed w0) ∈ [last_sent (committed w); m1] ->
     inflight w1 = Some (committed w0) -> committed w1 = committed w0 ->
     wp (f OnTx) (fun r w2 =>
       posts (trace w2) = posts (trace w1) /\ broker_proc w2 = broker_proc w1 /\
       committed w2 = committed w1 /\
       (is_ok r -> forall d, inflight w2 = Some d -> last_sent d = m1)) w1) ->
  wp (persistHTTPCallbackSendResultWithRetry (MakeTransactIfAvailable_broker f)) (fun r w' =>
    match r with
    | Ok _ => quiet [m1] w w'
    | Err _ => False
    | Panic _ => quiet [last_sent (committed w); m1] w w'
    end) w.
Proof.
  intros Hf. apply (wp_retry (quiet [last_sent (committed w); m1] w) (quiet [m1] w)
    (quiet [last_sent (committed w); m1] w)); try done.
  - intros w1 (Hp & Hb & Hs). eapply wp_mono; [apply (quiet_transaction f m1); intros; by apply (Hf w1)|].
    intros r w2 (Hp2 & Hb2 & Hs2). destruct r; (split; [congruence|]); (split; [congruence|]); [exact Hs2 | |].
    + by eapply either_trans.
    + apply (either_trans _ (last_sent (committed w1))); [|done].
      apply list_elem_of_singleton in Hs2. rewrite Hs2. left.
  - split_and!; try done. left.
Qed.

(** Everything but the events of new addresses is posted. *)
Definition is_posted (event : NotificationWithSeq) : Prop := ns_Type event <> NewAddressEvent.
#[local] Instance is_posted_dec event : Decision (is_posted event).
Proof. unfold is_posted. apply _. Defined.

Lemma post_trace event w w' r :
  sendDataToHTTPCallback event w = (r, w') ->
  posts (trace w') = body_of event ++ posts (trace w) /\ broker_proc w' = broker_proc w /\
  committed w' = committed w.
Proof.
  unfold sendDataToHTTPCallback, body_of, mbind, M_bind, lift, gets, log_act, modify.
  destruct (marshalFlattenedEvent event) as [body|e|p]; intros H; [|by injection H as <- <-..].
  simpl in H. destruct (http_Post _ _ _) as [[code b]|e|p]; [|by injection H as <- <-..].
  case_decide; by injection H as <- <-.
Qed.

(** The sequence number stored after the events [handled] *)
Definition sent_after (handled : list NotificationWithSeq) (before : option string) : option string :=
  match last handled with Some e => Some (itoa (ns_Seq e)) | None => before end.

Lemma sent_after_cons event handled before :
  sent_after (event :: handled) before = sent_after handled (Some (itoa (ns_Seq event))).
Proof. unfold sent_after. rewrite last_cons. by destruct (last handled). Qed.

Lemma reverse_body event : reverse (body_of event) = body_of event.
Proof. unfold body_of. by destruct (marshalFlattenedEvent event). Qed.

(** What a run over the events to post leaves *)
Definition delivered (to_post : list NotificationWithSeq) (w w' : World) (r : outcome unit) : Prop :=
  exists j k, (j <= k)%nat /\ (k <= S j)%nat /\ (k <= length to_post)%nat /\
    posts (trace w') = reverse (take k to_post ≫= body_of) ++ posts (trace w) /\
    last_sent (committed w') = sent_after (take j to_post) (last_sent (committed w)) /\
    (r = Ok tt -> j = length to_post \/
       exists t, bp_timers (broker_proc w') = bp_timers (broker_proc w) ++ [t]).

(** The run stops before or after posting [event]. *)
Lemma delivered_none to_post w w' r :
  posts (trace w') = posts (trace w) -> last_sent (committed w') = last_sent (committed w) ->
  (r = Ok tt -> exists t, bp_timers (broker_proc w') = bp_timers (broker_proc w) ++ [t]) ->
  delivered to_post w w' r.
Proof. intros. exists 0%nat, 0%nat. split_and!; try lia; try done. by auto. Qed.

Lemma delivered_stop event to_post w w' r :
  posts (trace w') = body_of event ++ posts (trace w) ->
  last_sent (committed w') ∈ [last_sent (committed w); Some (itoa (ns_Seq event))] ->
  (r = Ok tt -> exists t, bp_timers (broker_proc w') = bp_timers (broker_proc w) ++ [t]) ->
  delivered (event :: to_post) w w' r.
Proof.
  intros Hp Hs Ht. apply elem_of_cons in Hs as [Hs | Hs%list_elem_of_singleton];
    [exists 0%nat, 1%nat | exists 1%nat, 1%nat]; simpl; rewrite app_nil_r, reverse_body;
    split_and!; try lia; try done; by auto.
Qed.

Lemma delivered_step event to_post w w1 w' r :
  posts (trace w1) = body_of event ++ posts (trace w) ->
  last_sent (committed w1) = Some (itoa (ns_Seq event)) ->
  bp_timers (broker_proc w1) = bp_timers (broker_proc w) ->
  delivered to_post w1 w' r -> delivered (event :: to_post) w w' r.
Proof.
  intros Hp Hs Ht (j & k & Hjk & Hkj & Hk & Hposts & Hsent & Hr).
  exists (S j), (S k). simpl. rewrite sent_after_cons, reverse_app, reverse_body, <- app_assoc.
  rewrite Hposts, Hp, Hsent, Hs. split_and!; try lia; try done.
  intros Hok. destruct (Hr Hok) as [-> | (t & Ht')]; [by left|]. right. exists t. by rewrite Ht', Ht.
Qed.

Lemma wp_persist_sent event w :
  wp (persist_sent event) (fun r w' =>
    posts (trace w') = posts (trace w) /\ bp_timers (broker_proc w') = bp_timers (broker_proc w) /\
    match r with
    | Ok _ => last_sent (committed w') = Some (itoa (ns_Seq event))
    | Err _ => False
    | Panic _ => last_sent (committed w') ∈ [last_sent (committed w); Some (itoa (ns_Seq event))]
    end) w.
Proof.
  apply wp_bind. eapply wp_mono.
  - apply (quiet_persist _ (Some (itoa (ns_Seq event)))). intros w0 w1 _ Hi Hc.
    apply wp_bind. eapply wp_SetMeta_tx; [exact Hi | by intros; split_and!|].
    intros w2 d2 [= <-] Hd2 Hp2 Hb2 Hc2. split; [|intros e; split_and!; by auto].
    eapply wp_SetMeta_tx; [exact Hd2 | by intros; split_and! |].
    intros w3 d3 [= <-] Hd3 Hp3 Hb3 Hc3.
    split; [|intros e; split_and!; try congruence; by intros []].
    split_and!; try congruence. intros _ d Hd. rewrite Hd3 in Hd. injection Hd as <-.
    unfold last_sent. simpl. rewrite lookup_insert_ne by done. by apply lookup_insert_eq.
  - intros [[]|e|p] w1 H; [|done|].
    + destruct H as (Hp & Hb & Hs%list_elem_of_singleton). apply wp_modify. simpl. by rewrite Hb.
    + destruct H as (Hp & Hb & Hs). by rewrite Hb.
Qed.

(** C23: One callback after another: the events to post are posted in their order, each
    at most once, without skipping any; the stored sequence number is that of the last
    one whose result was persisted, which is at most one behind. When the run
    returns, all of them were handled or another attempt is scheduled. *)
Theorem callbacks_in_order (events : list NotificationWithSeq) (w : World) :
  delivered (filter is_posted events) w (send_events events w).2 (send_events events w).1.
Proof.
  revert w. induction events as [|event rest IH]; intros w.
  { exists 0%nat, 0%nat. simpl. split_and!; try lia; try done; auto. }
  rewrite send_events_cons, filter_cons.
  destruct (decide (ns_Type event = NewAddressEvent)) as [He|He].
  { rewrite (decide_False (P := is_posted event)) by (unfold is_posted; tauto). apply IH. }
  rewrite (decide_True (P := is_posted event)) by done.
  assert (Hl := quiet_set_other "http_callback_operation" (json_text (JNum (itoa (ns_Seq event)))) w ltac:(done)).
  unfold wp in Hl. change (MakeTransactIfAvailable true _ w) with (lock_event event w) in Hl.
  destruct (lock_event event w) as [[[]|e|p] w1]; destruct Hl as (Hp1 & Hb1 & Hs1%list_elem_of_singleton);
    simpl in *.
  2: { apply delivered_none; simpl; try done. intros _. rewrite Hb1. by eexists. }
  2: { by apply delivered_none. }
  destruct (sendDataToHTTPCallback event w1) as [r2 w2] eqn:Esend.
  assert ((r ← try (sendDataToHTTPCallback event); after_post event rest r) w1 =
          match r2 with
          | Ok a => after_post event rest (inl a) w2
          | Err e => after_post event rest (inr e) w2
          | Panic p => (Panic p, w2)
          end) as -> by (unfold mbind, M_bind, try; rewrite Esend; by destruct r2).
  destruct (post_trace _ _ _ _ Esend) as (Hp2 & Hb2 & Hc2).
  assert (Hpost : posts (trace w2) = body_of event ++ posts (trace w)) by congruence.
  assert (Hsent : last_sent (committed w2) = last_sent (committed w)) by congruence.
  assert (Htime : bp_timers (broker_proc w2) = bp_timers (broker_proc w)) by congruence.
  assert (Hafter : forall r, delivered (event :: filter is_posted rest) w
                       (after_post event rest r w2).2 (after_post event rest r w2).1).
  { intros r. change (wp (after_post event rest r)
      (fun r0 w0 => delivered (event :: filter is_posted rest) w w0 r0) w2).
    apply wp_bind, wp_modify, wp_bind, wp_gets. set (w3 := set_broker_proc _ w2).
    assert (Hgo : wp (persist_sent event ;; send_events rest)
      (fun r0 w0 => delivered (event :: filter is_posted rest) w w0 r0) w3).
    { apply wp_bind. eapply wp_mono; [apply wp_persist_sent|].
      intros [[]|e|p] w4 (Hp4 & Ht4 & Hs4); [|done|].
      - eapply (delivered_step _ _ _ w4); [| | | apply IH]; simpl in *; congruence.
      - apply delivered_stop; simpl in *; [congruence | by rewrite <- Hsent | done]. }
    destruct r; [exact Hgo|]. destruct (handleHTTPCallbackError _); [|exact Hgo].
    apply wp_bind. eapply wp_mono.
    - apply (quiet_persist ClearHTTPCallback (last_sent (committed w3))). intros w5 w6 H5 Hi Hc.
      eapply wp_SetMeta_tx; [exact Hi | by intros; split_and! |].
      intros w7 d7 [= <-] Hd7 Hp7 Hb7 Hc7. split; [|intros e'; split_and!; try congruence; by intros []].
      split_and!; try congruence. intros _ d Hd. rewrite Hd7 in Hd. injection Hd as <-.
      unfold last_sent at 1. simpl. rewrite lookup_insert_ne by done.
      rewrite ?elem_of_cons, ?elem_of_nil in H5. fold (last_sent (committed w5)). naive_solver.
    - intros [[]|e9|p9] w4 H4; [|done|]; destruct H4 as (Hp4 & Hb4 & Hs4).
      + apply wp_modify, delivered_stop; simpl in *; [congruence | | intros _; rewrite Hb4; simpl; rewrite Htime; by eexists].
        apply list_elem_of_singleton in Hs4. rewrite Hs4, Hsent. left.
      + apply delivered_stop; simpl in *; [congruence | | done].
        rewrite ?elem_of_cons, ?elem_of_nil in Hs4 |- *. rewrite Hsent in Hs4. tauto. }
  destruct r2 as [[]|e9|p9]; [exact (Hafter (inl tt)) | exact (Hafter (inr e9)) |].
  apply delivered_stop; simpl; [done | rewrite Hsent; left | done].
Qed.

End Callback.

(** ** Websocket subscriptions *)
Section Broadcasting.

(** A subscription and its channel *)
Definition at_channel (ch : nat) (b : BrokerProc) : option Z * option Channel :=
  (bp_subs b !! ch, bp_chans b !! ch).

(** What one batch does to a subscription *)
Definition batch_step (events : list NotificationWithSeq) (nextSeq seq : Z)
    (p : option Z * option Channel) : option Z * option Channel :=
  match events_from seq events, p.2 with
  | Some batch, Some c =>
      if decide (Z.of_nat (length (ch_queue c)) < channelSize)
      then (Some nextSeq, Some (mkChannel (ch_queue c ++ [batch]) (ch_closed c)))
      else (None, Some (mkChannel (ch_queue c) true))
  | _, _ => p
  end.

Lemma broadcast_to_at events n ch seq b :
  at_channel ch (broadcast_to events n (ch, seq) b) = batch_step events n seq (at_channel ch b).
Proof.
  unfold broadcast_to, batch_step, at_channel. simpl. destruct (events_from seq events) as [batch|]; [|done].
  destruct (bp_chans b !! ch) as [c|] eqn:Hc; [|by rewrite Hc].
  case_decide; simpl; [by rewrite !lookup_insert_eq|].
  by rewrite lookup_delete_eq, lookup_alter_eq, Hc.
Qed.

Lemma broadcast_to_other events n ch ch' seq b :
  ch <> ch' -> at_channel ch (broadcast_to events n (ch', seq) b) = at_channel ch b.
Proof.
  intros Hne. unfold broadcast_to, at_channel. destruct (events_from seq events); [|done].
  destruct (bp_chans b !! ch'); [|done].
  case_decide; simpl; [by rewrite !lookup_insert_ne|].
  by rewrite lookup_delete_ne, lookup_alter_ne.
Qed.

Lemma broadcast_fold_other events n ch subs b :
  ch ∉ subs.*1 ->
  at_channel ch (foldl (fun b sub => broadcast_to events n sub b) b subs) = at_channel ch b.
Proof.
  revert b. induction subs as [|[ch' seq] subs IH]; intros b Hch; [done|].
  rewrite fmap_cons in Hch. cbn [foldl].
  apply not_elem_of_cons in Hch as [Hne Hch]. by rewrite IH, broadcast_to_other.
Qed.

Lemma broadcast_fold_at events n ch seq subs b :
  NoDup subs.*1 -> (ch, seq) ∈ subs ->
  at_channel ch (foldl (fun b sub => broadcast_to events n sub b) b subs) =
  batch_step events n seq (at_channel ch b).
Proof.
  revert b. induction subs as [|[ch' seq'] subs IH]; intros b Hnd Hin.
  { by apply not_elem_of_nil in Hin. }
  rewrite fmap_cons in Hnd. cbn [foldl].
  apply NoDup_cons in Hnd as [Hch Hnd]. apply elem_of_cons in Hin as [[= <- <-] | Hin].
  - by rewrite broadcast_fold_other, broadcast_to_at.
  - assert (ch <> ch') by (intros ->; apply Hch; by apply (list_elem_of_fmap_2 fst _ _ Hin)).
    by rewrite IH, broadcast_to_other.
Qed.

(** In a sorted list the events from [seq] on are a suffix. *)
Lemma events_from_sorted seq events :
  StronglySorted Z.lt (ns_Seq <$> events) ->
  events_from seq events =
  match filter (fun e => seq <= ns_Seq e) events with [] => None | l => Some l end.
Proof.
  induction events as [|e events IH]; intros Hs; simpl in *; [done|].
  inversion Hs as [|? ? Hs' Hall]; subst. rewrite filter_cons. case_decide as He; [|by apply IH].
  rewrite (filter_all (fun e => seq <= ns_Seq e)); [done|].
  rewrite Forall_fmap, Forall_forall in Hall. rewrite Forall_forall.
  intros x Hx. specialize (Hall x Hx). simpl in Hall. lia.
Qed.

(** Every subscription has a channel and wants events from the broadcaster's
    minimum on. *)
Definition min_seq_ok (b : BrokerProc) : Prop :=
  forall ch seq, bp_subs b !! ch = Some seq -> bp_minSeq b <= seq /\ is_Some (bp_chans b !! ch).

Lemma broadcast_events_at events b ch seq :
  events <> [] -> bp_subs b !! ch = Some seq ->
  exists nextSeq, last_seq events = Some (nextSeq - 1) /\
    at_channel ch (broadcast_events events b) = batch_step events nextSeq seq (at_channel ch b) /\
    bp_minSeq (broadcast_events events b) = nextSeq.
Proof.
  intros Hne Hsub. unfold broadcast_events.
  destruct (last_seq events) as [lastSeq|] eqn:Hlast.
  - exists (lastSeq + 1). split; [by rewrite Z.add_simpl_r|].
    rewrite <- (broadcast_fold_at events (lastSeq + 1) ch seq (map_to_list (bp_subs b)));
      [done | apply NoDup_fst_map_to_list | by apply elem_of_map_to_list].
  - unfold last_seq in Hlast. apply fmap_None, last_None in Hlast. done.
Qed.

(** A subscription that the broadcast leaves was there before. *)
Lemma broadcast_events_subs events b ch :
  is_Some (bp_subs (broadcast_events events b) !! ch) -> is_Some (bp_subs b !! ch).
Proof.
  unfold broadcast_events. destruct (last_seq events); [|done]. simpl.
  intros Hs. destruct (bp_subs b !! ch) eqn:Hb; [done|]. exfalso.
  assert (Hch : ch ∉ (map_to_list (bp_subs b)).*1).
  { intros [[ch' seq] [Heq Hin]]%list_elem_of_fmap. simpl in Heq. subst ch'.
    apply elem_of_map_to_list in Hin. congruence. }
  pose proof (broadcast_fold_other events (z + 1) ch _ b Hch) as [= Hsubs _].
  rewrite Hsubs, Hb in Hs. by destruct Hs.
Qed.

(** The wanted part of the events that were read *)
Lemma batch_fields {E : Env} d (low seq : Z) events :
  low <= seq ->
  event_fields <$> events = row_fields <$>
    filter (fun row => low <= er_seq row /\ PostgresEventStorage.is_muted d row = false) (db_events d) ->
  event_fields <$> filter (fun e => seq <= ns_Seq e) events = row_fields <$>
    filter (fun row => seq <= er_seq row /\ PostgresEventStorage.is_muted d row = false) (db_events d).
Proof.
  intros Hle. generalize (db_events d) as rows. intros rows. revert events.
  induction rows as [|row rows IH]; intros events Hev.
  { rewrite filter_nil in Hev. by apply fmap_nil_inv in Hev as ->. }
  rewrite filter_cons in Hev. rewrite (filter_cons _ row).
  destruct (decide (low <= er_seq row /\ _)) as [Hlow|Hlow].
  - destruct events as [|e events]; [done|]. rewrite !fmap_cons in Hev.
    injection Hev as Hseq Ht Hd Hev. rewrite filter_cons, Hseq.
    destruct (decide (seq <= er_seq row)) as [Hs|Hs].
    + rewrite decide_True by tauto. rewrite !fmap_cons, (IH _ Hev). f_equal.
      unfold event_fields, row_fields. congruence.
    + rewrite decide_False by tauto. by apply IH.
  - rewrite (decide_False (P := seq <= er_seq row /\ _))
      by (intros [? ?]; apply Hlow; split; [lia|done]). by apply IH.
Qed.

(** A broadcast of sorted events, seen from one subscription *)
Lemma broadcast_at events b ch seq c :
  StronglySorted Z.lt (ns_Seq <$> events) ->
  bp_subs b !! ch = Some seq -> bp_chans b !! ch = Some c ->
  let batch := filter (fun e => seq <= ns_Seq e) events in
  let b' := broadcast_events events b in
  at_channel ch b' =
    (if decide (batch = []) then (Some seq, Some c)
     else if decide (Z.of_nat (length (ch_queue c)) < channelSize)
     then (Some (bp_minSeq b'), Some (mkChannel (ch_queue c ++ [batch]) (ch_closed c)))
     else (None, Some (mkChannel (ch_queue c) true))).
Proof.
  intros Hsorted Hsub Hch batch b'.
  destruct (decide (events = [])) as [->|Hne].
  { subst b' batch. rewrite filter_nil, decide_True by done. unfold at_channel.
    change (broadcast_events [] b) with b. by rewrite Hsub, Hch. }
  destruct (broadcast_events_at events b ch seq Hne Hsub) as (n & _ & Hat & Hn).
  assert (at_channel ch b = (Some seq, Some c)) as Hp by (unfold at_channel; by rewrite Hsub, Hch).
  subst b'. rewrite Hat, Hn, Hp. unfold batch_step. rewrite events_from_sorted by done. simpl.
  fold batch. clearbody batch. destruct batch; [done|].
  rewrite (decide_False (P := _ :: _ = [])) by done. by destruct (decide (_ < channelSize)).
Qed.

Lemma min_seq_kept events b :
  StronglySorted Z.lt (ns_Seq <$> events) -> min_seq_ok b ->
  min_seq_ok (broadcast_events events b).
Proof.
  intros Hs Hmin ch seq Hsub.
  destruct (decide (events = [])) as [->|Hne]; [by apply Hmin|].
  destruct (broadcast_events_subs events b ch ltac:(by eexists)) as [seq0 Hsub0].
  destruct (Hmin ch seq0 Hsub0) as [_ [c Hch]].
  pose proof (broadcast_at events b ch seq0 c Hs Hsub0 Hch) as Hat. simpl in Hat.
  destruct (broadcast_events_at events b ch seq0 Hne Hsub0) as (n & Hn & _ & Hmn).
  destruct (decide (filter _ events = [])) as [Hnil|_].
  - injection Hat as Hq Hc. split; [|by rewrite Hc]. rewrite Hmn.
    assert (seq0 = seq) as -> by congruence. unfold last_seq in Hn.
    apply fmap_Some in Hn as (x & [init ->]%last_Some & Hx).
    destruct (decide (seq <= ns_Seq x)) as [Hle|]; [|lia]. exfalso.
    assert (x ∈ filter (fun e => seq <= ns_Seq e) (init ++ [x])) as Hin.
    { apply list_elem_of_filter. split; [done|]. apply elem_of_app. right. by apply list_elem_of_singleton. }
    rewrite Hnil in Hin. by apply not_elem_of_nil in Hin.
  - destruct (decide (_ < channelSize)); injection Hat as Hq Hc; [|congruence].
    split; [|by rewrite Hc]. assert (seq = bp_minSeq (broadcast_events events b)) by congruence. lia.
Qed.

(** The last event that was sent decides where the subscriptions go on. *)
Lemma broadcast_next events b ch seq :
  StronglySorted Z.lt (ns_Seq <$> events) -> bp_subs b !! ch = Some seq ->
  filter (fun e => seq <= ns_Seq e) events <> [] ->
  exists e, last (filter (fun e => seq <= ns_Seq e) events) = Some e /\
    bp_minSeq (broadcast_events events b) = ns_Seq e + 1.
Proof.
  intros Hs Hsub Hne.
  assert (Hev : events <> []) by (intros ->; by rewrite filter_nil in Hne).
  destruct (broadcast_events_at events b ch seq Hev Hsub) as (n & Hn & _ & ->).
  unfold last_seq in Hn. apply fmap_Some in Hn as (x & [init ->]%last_Some & Hx). exists x.
  split; [|lia]. rewrite filter_app, filter_cons, filter_nil in *.
  destruct (decide (seq <= ns_Seq x)) as [Hle|Hgt]; [by rewrite last_snoc|]. exfalso. apply Hne.
  rewrite app_nil_r. rewrite fmap_app in Hs. apply StronglySorted_app in Hs as (Hall & _).
  assert (Hf : Forall (fun e => ~ seq <= ns_Seq e) init).
  { apply Forall_forall. intros e He. specialize (Hall (ns_Seq e) (ns_Seq x)
      ltac:(by apply list_elem_of_fmap_2) ltac:(left)). lia. }
  by apply filter_none.
Qed.

(** A successful broadcast, seen from one subscription *)
Lemma broadcast_spec {E : Env} (w w' : World) (s : Z) (ch : nat) (seq : Z) (c : Channel)
    (Hwf : wf_db s (committed w)) (Hmin : min_seq_ok (broker_proc w))
    (Hsub : at_channel ch (broker_proc w) = (Some seq, Some c))
    (Hrun : @Broadcast PostgresEvents w = (Ok tt, w')) :
  exists batch,
    event_fields <$> batch = row_fields <$>
      filter (fun row => seq <= er_seq row /\
        PostgresEventStorage.is_muted (committed w) row = false) (db_events (committed w)) /\
    at_channel ch (broker_proc w') =
      (if decide (batch = []) then (Some seq, Some c)
       else if decide (Z.of_nat (length (ch_queue c)) < channelSize)
       then (Some (bp_minSeq (broker_proc w')), Some (mkChannel (ch_queue c ++ [batch]) (ch_closed c)))
       else (None, Some (mkChannel (ch_queue c) true))) /\
    min_seq_ok (broker_proc w') /\
    (batch <> [] -> exists e, last batch = Some e /\ bp_minSeq (broker_proc w') = ns_Seq e + 1).
Proof.
  unfold Broadcast, mbind at 1, M_bind at 1, gets at 1 in Hrun.
  unfold mbind at 1, M_bind at 1 in Hrun.
  destruct (@EventStorage.GetEventsFromSeq PostgresEvents OnDB (bp_minSeq (broker_proc w)) w)
    as [[events|e|p] w1] eqn:Hget; [|done..].
  injection Hrun as <-.
  destruct (GetEventsFromSeq_spec OnDB _ s (committed w) w w1 events eq_refl Hwf Hget)
    as (Hev & Hsorted & _ & Hb). simpl. rewrite Hb.
  injection Hsub as Hsub Hch. pose proof (proj1 (Hmin ch seq Hsub)) as Hle.
  exists (filter (fun e => seq <= ns_Seq e) events).
  split_and!; [exact (batch_fields _ _ _ _ Hle Hev) | by apply broadcast_at | by apply min_seq_kept |].
  by eapply broadcast_next.
Qed.


End Broadcasting.

(** ** Witnesses *)
Section Witnesses.

(** Three events, the second of a muted transaction *)
Definition row_data (id : string) : json := JObj [("id", JStr id)].
Definition three_events : DB := mkDB [] [] ∅
  [mkEventRow 1 "new-incoming-tx" (row_data "7"); mkEventRow 2 "incoming-tx-confirmed" (row_data "8");
   mkEventRow 4 "incoming-tx-confirmed" (row_data "7")] [8%N].

Lemma three_events_wf : wf_db 5 three_events.
Proof.
  constructor; simpl; try by repeat constructor.
  apply NoDup_singleton.
Qed.

Definition list_run : outcome (list NotificationWithSeq) * World :=
  @GetEventsFromSeq (@PostgresEvents (test_env no_fault)) OnDB 2 (set_committed three_events init_world).
Definition listed : list NotificationWithSeq := match list_run.1 with Ok l => l | _ => [] end.

Lemma events_listed_in_order_witness : ns_Seq <$> listed = [4] /\ StronglySorted Z.lt (ns_Seq <$> listed).
Proof.
  assert (T := events_listed_in_order (E := test_env no_fault) OnDB 2 5 three_events
    (set_committed three_events init_world) list_run.2 listed eq_refl three_events_wf).
  split; [by vm_compute | apply T]. vm_compute. reflexivity.
Defined.

(** One subscriber waits for the events from 2 on *)
Definition one_channel : Channel := mkChannel [] false.
Definition subscribed : World :=
  set_broker_proc (set_chans {[0%nat := one_channel]} (set_subs {[0%nat := 2]} 2 NewEventBroker))
    (set_committed three_events init_world).
Definition broadcast_run : outcome unit * World :=
  @Broadcast (@PostgresEvents (test_env no_fault)) subscribed.


End Witnesses.
