(* ===== verification/Delivery.v ===== *)
(** * Delivery of the events by HTTP callback, while the database does not fail *)
From S2P Require Import Prelude.
From S2P Require Import Go.
From S2P Require Import Bitcoin.
From S2P Require Import TxTypes.
From S2P Require Import EventTypes.
From S2P Require Import World.
From S2P Require Import Effects.
From S2P Require Import Storage.
From S2P Require Import EventStorage.
From S2P Require Import Broadcaster.
From S2P Require Import Broker.
From S2P Require Import TestEnv.
From S2P Require Import EventProps.
Local Open Scope Z_scope.

Section Delivery.
Context {E : Env} {EL : EnvLaws E} (no_faults : forall n, env_fault n = NoFault).
Context {HC : HTTPClient} {BCFG : BrokerConfig}.
#[local] Existing Instance PostgresEvents.
#[local] Existing Instance is_posted_dec.
Import PostgresEventStorage.

Definition with_metadata (m : gmap string string) (d : DB) : DB :=
  mkDB (db_transactions d) (db_accounts d) m (db_events d) (db_muted d).

(** [w'] is [w] after a change of the metadata that nobody else sees. *)
Record meta_step (f : gmap string string -> gmap string string) (w w' : World) : Prop := {
  ms_committed : committed w' = with_metadata (f (db_metadata (committed w))) (committed w);
  ms_broker : broker_proc w' = broker_proc w;
  ms_posts : posts (trace w') = posts (trace w);
}.

Lemma wp_set_meta name value (Q : outcome unit -> World -> Prop) w :
  (forall w', meta_step (insert name value) w w' -> Q (Ok tt) w') ->
  wp (MakeTransactIfAvailable true (fun ex => SetMeta ex name value)) Q w.
Proof.
  intros HQ. apply (wp_commits no_faults). eapply (wp_exec no_faults); [reflexivity|reflexivity|].
  eexists. split; [reflexivity|]. by apply HQ.
Qed.

Lemma wp_lock_event seq (Q : outcome unit -> World -> Prop) w :
  (forall w', meta_step (insert "http_callback_operation" (json_text (JNum (itoa seq)))) w w' ->
     Q (Ok tt) w') ->
  wp (MakeTransactIfAvailable_broker (fun ex => LockHTTPCallback ex seq)) Q w.
Proof. apply wp_set_meta. Qed.

Lemma wp_persisted (f : Exec -> M unit) (Q : outcome unit -> World -> Prop) w :
  wp (MakeTransactIfAvailable_broker f) (fun r w' => r = Ok tt /\ Q (Ok tt) w') w ->
  wp (persistHTTPCallbackSendResultWithRetry (MakeTransactIfAvailable_broker f)) Q w.
Proof.
  intros Hf. unfold persistHTTPCallbackSendResultWithRetry, httpCBResultSaveRetries. cbn [retry_loop].
  apply wp_bind, wp_try. eapply wp_mono; [exact Hf|]. intros r w' [-> HQ]. by apply wp_ret.
Qed.

Lemma wp_persist_sent_once event (Q : outcome unit -> World -> Prop) w :
  (forall w', meta_step (fun m => <["http_callback_operation" := ""]>
                (<["last_http_sent_seq" := itoa (ns_Seq event)]> m)) w w' ->
     Q (Ok tt) (set_broker_proc (set_retries 0 0 (broker_proc w')) w')) ->
  wp (persist_sent event) Q w.
Proof.
  intros HQ. apply wp_bind, wp_persisted, (wp_commits no_faults), wp_bind.
  eapply (wp_exec no_faults); [reflexivity|reflexivity|].
  eapply (wp_exec no_faults); [reflexivity|reflexivity|].
  eexists. split; [reflexivity|]. split; [done|]. apply wp_modify, HQ. by split.
Qed.

(** ** A client that refuses the first posts *)
Context (refusals : nat).
Context (client : forall history url body, exists code resp,
  http_Post history url body = Ok (code, resp) /\
  (code = 200 <-> (refusals <= length (posts history))%nat)).
Context (keep_trying : httpCallbackBackoff <= 0).

Definition has_body (event : NotificationWithSeq) : Prop :=
  exists body, marshalFlattenedEvent event = Ok body.

Lemma wp_post event (Q : outcome unit -> World -> Prop) w :
  has_body event ->
  (forall r w', committed w' = committed w -> broker_proc w' = broker_proc w ->
     posts (trace w') = body_of event ++ posts (trace w) ->
     (if decide (refusals <= length (posts (trace w)))%nat then r = Ok tt else exists e, r = Err e) ->
     Q r w') ->
  wp (sendDataToHTTPCallback event) Q w.
Proof.
  intros [body Hb] HQ. apply wp_bind, wp_lift. rewrite Hb. apply wp_bind, wp_gets.
  apply wp_bind, wp_modify, wp_bind, wp_lift.
  destruct (client (trace w) callbackURL body) as (code & resp & -> & Hcode).
  assert (Hposts : posts ((APost body, committed w) :: trace w) = body_of event ++ posts (trace w))
    by (unfold body_of; by rewrite Hb).
  destruct (decide (code = 200)) as [H200|H200]; [apply wp_ret | apply wp_throw];
    (apply HQ; [done|done|exact Hposts|]).
  - by rewrite decide_True by by apply Hcode.
  - rewrite decide_False by (intros H; by apply H200, Hcode). by eexists.
Qed.

(** *** One pass over the events *)

(** The events stay, the last sent one is [sent]. *)
Definition same_events (w w' : World) : Prop :=
  db_events (committed w') = db_events (committed w) /\ db_muted (committed w') = db_muted (committed w).

Lemma same_events_step f w w' : meta_step f w w' -> same_events w w'.
Proof. intros [Hc _ _]. unfold same_events. by rewrite Hc. Qed.

Lemma same_events_trans w1 w2 w3 : same_events w1 w2 -> same_events w2 w3 -> same_events w1 w3.
Proof. unfold same_events. intuition congruence. Qed.

Lemma deliver_all events : forall w,
  Forall has_body events -> (refusals <= length (posts (trace w)))%nat ->
  wp (send_events events) (fun r w' => r = Ok tt /\ same_events w w' /\
    posts (trace w') = reverse (filter is_posted events ≫= body_of) ++ posts (trace w) /\
    last_sent (committed w') = sent_after (filter is_posted events) (last_sent (committed w))) w.
Proof.
  induction events as [|event rest IH]; intros w Hb Hw.
  { apply wp_ret. by split_and!. }
  inversion Hb as [|? ? Hev Hrest]; subst. cbn [send_events]. rewrite filter_cons.
  destruct (decide (ns_Type event = NewAddressEvent)) as [He|He].
  { rewrite (decide_False (P := is_posted event)) by (unfold is_posted; tauto). by apply IH. }
  rewrite (decide_True (P := is_posted event)) by done.
  apply wp_bind, wp_try, wp_lock_event. intros w1 H1. pose proof H1 as [Hc1 Hb1 Hp1].
  apply wp_bind, wp_try, wp_post; [done|]. intros r w2 Hc2 Hb2 Hp2 Hr. rewrite Hp1 in Hr.
  rewrite decide_True in Hr by done. subst r.
  apply wp_bind, wp_modify, wp_bind, wp_gets. set (w3 := set_broker_proc _ w2).
  apply wp_bind, wp_persist_sent_once. intros w4 H4. pose proof H4 as [Hc4 Hb4 Hp4].
  set (w5 := set_broker_proc _ w4). eapply wp_mono; [apply (IH w5); [done|]|].
  { simpl. rewrite Hp4. simpl. rewrite Hp2, Hp1, length_app. lia. }
  intros r w' (-> & Hsame & Hposts & Hsent). split; [done|]. split_and!.
  - eapply same_events_trans; [by eapply same_events_step|]. subst w5 w3.
    destruct Hsame as [He1 He2]. simpl in *. rewrite Hc4 in He1, He2. simpl in *.
    split; congruence.
  - rewrite Hposts. subst w5 w3. simpl. rewrite Hp4. simpl.
    by rewrite Hp2, Hp1, reverse_app, reverse_body, <- app_assoc.
  - rewrite Hsent, sent_after_cons. f_equal. subst w5 w3. simpl. rewrite Hc4. unfold last_sent. simpl.
    rewrite lookup_insert_ne by done. by rewrite lookup_insert_eq.
Qed.

Lemma refused_first events w :
  Forall has_body events -> (length (posts (trace w)) < refusals)%nat ->
  wp (send_events events) (fun r w' => r = Ok tt /\ same_events w w' /\
    last_sent (committed w') = last_sent (committed w) /\
    match filter is_posted events with
    | [] => posts (trace w') = posts (trace w)
    | event :: _ => posts (trace w') = body_of event ++ posts (trace w) /\
        exists delay, TimerRetry delay ∈ bp_timers (broker_proc w')
    end) w.
Proof.
  intros Hb Hw. induction events as [|event rest IH].
  { apply wp_ret. by split_and!. }
  inversion Hb as [|? ? Hev Hrest]; subst. cbn [send_events]. rewrite filter_cons.
  destruct (decide (ns_Type event = NewAddressEvent)) as [He|He].
  { rewrite (decide_False (P := is_posted event)) by (unfold is_posted; tauto). by apply IH. }
  rewrite (decide_True (P := is_posted event)) by done.
  apply wp_bind, wp_try, wp_lock_event. intros w1 [Hc1 Hb1 Hp1].
  apply wp_bind, wp_try, wp_post; [done|]. intros r w2 Hc2 Hb2 Hp2 Hr. rewrite Hp1 in Hr.
  rewrite decide_False in Hr by lia. destruct Hr as [e ->].
  apply wp_bind, wp_modify, wp_bind, wp_gets. set (w3 := set_broker_proc _ w2).
  unfold handleHTTPCallbackError. rewrite decide_True by done.
  apply wp_bind, wp_persisted. apply (wp_set_meta "http_callback_operation" ""). intros w4 [Hc4 Hb4 Hp4].
  split; [done|]. apply wp_modify. unfold same_events. simpl. rewrite Hc4. subst w3. simpl.
  rewrite Hc2, Hc1. split; [done|]. split; [by split|]. split.
  - unfold last_sent. simpl. by rewrite !lookup_insert_ne.
  - split; [by rewrite Hp4; simpl; rewrite Hp2, Hp1|].
    eexists. rewrite Hb4. simpl. apply elem_of_app. right. by apply list_elem_of_singleton.
Qed.

(** ** Passes *)
Definition last_seq (d : DB) : Z := default 0 (atoi (default "0" (last_sent d))).

Definition decoded (rows : list EventRow) : list NotificationWithSeq :=
  omap (fun row => match event_of_row row with Ok e => Some e | _ => None end) rows.

(** The events that are still to be posted *)
Definition backlog (d : DB) : list NotificationWithSeq :=
  filter is_posted (decoded (select_events (last_seq d + 1) d)).

(** Tables from which every event can be posted *)
Record deliverable (d : DB) : Prop := {
  dl_rows : Forall (fun row => exists e, event_of_row row = Ok e /\ has_body e /\ is_i64 (er_seq row))
              (db_events d);
  dl_sent : is_Some (atoi (default "0" (last_sent d)));
}.

Lemma decode_rows rows w :
  Forall (fun row => exists e, event_of_row row = Ok e) rows ->
  mapM_list (fun row => lift (event_of_row row)) rows w = (Ok (decoded rows), w).
Proof.
  induction 1 as [|row rows (e & He) _ IH]; [done|]. cbn [mapM_list].
  rewrite (bind_Ok _ _ e _ w) by (unfold lift; by rewrite He).
  rewrite (bind_Ok _ _ _ _ _ IH). unfold decoded. cbn [omap list_omap]. by rewrite He.
Qed.

Lemma select_events_in seq d row :
  row ∈ select_events seq d -> row ∈ db_events d /\ seq <= er_seq row /\ is_muted d row = false.
Proof.
  unfold select_events. rewrite order_by_perm, list_elem_of_filter. naive_solver.
Qed.

Lemma wp_pass (Q : outcome unit -> World -> Prop) w :
  deliverable (committed w) ->
  (forall w1, committed w1 = committed w -> posts (trace w1) = posts (trace w) ->
     wp (send_events (decoded (select_events (last_seq (committed w) + 1) (committed w)))) Q w1) ->
  wp (sendHTTPCallbackNotifications true) Q w.
Proof.
  intros [Hrows [s Hs]] HQ. apply wp_bind, wp_gets. rewrite decide_False by (by intros []).
  assert (Hread : forall w1, committed w1 = committed w -> posts (trace w1) = posts (trace w) ->
    wp (seq ← try (GetLastHTTPSentSeq OnDB);
        match seq with
        | inr _ => handleEarlyErrorPreparingHTTPCallback
        | inl seq =>
            events ← try (GetEventsFromSeq_broker (seq + 1));
            match events with
            | inr _ => handleEarlyErrorPreparingHTTPCallback
            | inl events => send_events events
            end
        end) Q w1).
  { intros w1 Hc Hp. apply wp_bind, wp_try, wp_bind.
    eapply (wp_meta no_faults); [reflexivity|]. apply wp_lift. rewrite Hc. fold (last_sent (committed w)).
    rewrite Hs. cbn [of_option]. apply wp_bind, wp_try, wp_bind.
    eapply (wp_ordered no_faults); [reflexivity|].
    assert (Hsel : Forall (fun row => exists e, event_of_row row = Ok e /\ has_body e /\ is_i64 (er_seq row))
      (select_events (s + 1) (committed w))).
    { rewrite Forall_forall in Hrows |- *. intros row (Hrow & _)%select_events_in. by apply Hrows. }
    unfold wp. change (committed (bump_sql w1)) with (committed w1). rewrite Hc.
    rewrite decode_rows by (eapply Forall_impl; [exact Hsel|]; naive_solver). cbn [fst snd].
    assert (last_seq (committed w) = s) as <- by (unfold last_seq; by rewrite Hs).
    by apply HQ. }
  apply wp_bind. destruct (bp_httpCallbackIsRetrying _).
  - apply wp_modify, Hread; done.
  - apply wp_ret, Hread; done.
Qed.

Fixpoint passes (n : nat) : M unit :=
  match n with O => mret tt | S n => sendHTTPCallbackNotifications true ;; passes n end.

(** *** What is left after a delivery *)
Lemma event_of_row_seq row e : event_of_row row = Ok e -> ns_Seq e = er_seq row.
Proof. intros H%event_of_row_fields. by injection H. Qed.

Lemma decoded_in rows e :
  e ∈ decoded rows <-> exists row, row ∈ rows /\ event_of_row row = Ok e.
Proof.
  unfold decoded. rewrite list_elem_of_omap. split; intros (row & Hrow & He); exists row;
    (split; [done|]); [|by rewrite He]. by destruct (event_of_row row); simplify_eq.
Qed.

Lemma decoded_sorted rows : key_sorted er_seq rows -> key_sorted ns_Seq (decoded rows).
Proof.
  induction 1 as [|row rows _ IH Hall]; [constructor|]. unfold decoded. cbn [omap list_omap].
  destruct (event_of_row row) as [e|?|?] eqn:He; [|exact IH..]. constructor; [exact IH|].
  rewrite Forall_forall in Hall. apply Forall_forall. intros e' (row' & Hrow' & He')%decoded_in.
  rewrite (event_of_row_seq _ _ He), (event_of_row_seq _ _ He'). by apply Hall.
Qed.

Lemma sorted_last {A} (key : A -> Z) l x y :
  key_sorted key l -> last l = Some y -> x ∈ l -> key x <= key y.
Proof.
  induction 1 as [|a l Hl IH Ha]; [done|]. destruct l as [|b l].
  - intros [= <-] ->%list_elem_of_singleton. lia.
  - intros Hy [->|Hx]%elem_of_cons; [|by apply IH]. rewrite Forall_forall in Ha. apply Ha.
    by eapply last_Some_elem_of.
Qed.

Lemma backlog_in d e :
  e ∈ backlog d <-> is_posted e /\ exists row, row ∈ db_events d /\ is_muted d row = false /\
    event_of_row row = Ok e /\ last_seq d + 1 <= ns_Seq e.
Proof.
  unfold backlog. rewrite list_elem_of_filter, decoded_in. unfold select_events.
  setoid_rewrite order_by_perm. setoid_rewrite list_elem_of_filter. split.
  - intros (Hp & row & ((Hs & Hm) & Hrow) & He). split; [done|]. exists row.
    by rewrite (event_of_row_seq _ _ He).
  - intros (Hp & row & Hrow & Hm & He & Hs). split; [done|]. exists row.
    by rewrite <- (event_of_row_seq _ _ He).
Qed.

Lemma backlog_same w w' :
  same_events w w' -> last_sent (committed w') = last_sent (committed w) ->
  backlog (committed w') = backlog (committed w).
Proof.
  intros [He Hm] Hs. unfold backlog, last_seq, select_events. rewrite Hs, He.
  f_equal. f_equal. f_equal. apply list_filter_iff. intros row. unfold is_muted. by rewrite Hm.
Qed.

Lemma deliverable_sent w w' :
  deliverable (committed w) -> same_events w w' ->
  last_sent (committed w') = sent_after (backlog (committed w)) (last_sent (committed w)) ->
  deliverable (committed w') /\ backlog (committed w') = [].
Proof.
  intros [Hrows Hsent] Hsame Hl. pose proof Hsame as [He Hm].
  destruct (last (backlog (committed w))) as [e|] eqn:Hlast.
  - pose proof (last_Some_elem_of _ _ Hlast) as Hin. apply backlog_in in Hin as (_ & row & Hrow & _ & Hev & Hge).
    rewrite Forall_forall in Hrows. destruct (Hrows row Hrow) as (_ & _ & _ & Hi).
    rewrite <- (event_of_row_seq _ _ Hev) in Hi.
    assert (Hseq : last_seq (committed w') = ns_Seq e).
    { unfold last_seq. rewrite Hl. unfold sent_after. rewrite Hlast. simpl. by rewrite atoi_itoa. }
    split.
    + split; [rewrite He; by apply Forall_forall|]. rewrite Hl. unfold sent_after. rewrite Hlast. simpl.
      rewrite atoi_itoa by done. by eexists.
    + apply elem_of_nil_inv. intros e' (Hp & row' & Hrow' & Hm' & Hev' & Hge')%backlog_in.
      rewrite Hseq in Hge'. assert (Hin : e' ∈ backlog (committed w)).
      { apply backlog_in. split; [done|]. exists row'. rewrite <- He. split; [done|].
        unfold is_muted in *. rewrite <- Hm. split; [done|]. split; [done | lia]. }
      assert (ns_Seq e' <= ns_Seq e); [|lia]. eapply sorted_last; [|exact Hlast | exact Hin].
      apply sorted_filter, decoded_sorted, order_by_sorted.
  - apply last_None in Hlast. rewrite Hlast in Hl. simpl in Hl. split.
    + split; [by rewrite He | by rewrite Hl].
    + by rewrite (backlog_same w w').
Qed.

(** *** Refused passes *)
Definition refused (n : nat) (d : DB) : list json :=
  concat (replicate n (match backlog d with [] => [] | event :: _ => body_of event end)).

Lemma deliverable_same w w' :
  deliverable (committed w) -> same_events w w' -> last_sent (committed w') = last_sent (committed w) ->
  deliverable (committed w').
Proof. intros [Hr Hs] [He _] Hl. split; [by rewrite He | by rewrite Hl]. Qed.

Lemma bodies w :
  deliverable (committed w) ->
  Forall has_body (decoded (select_events (last_seq (committed w) + 1) (committed w))).
Proof.
  intros [Hrows _]. rewrite Forall_forall in Hrows. apply Forall_forall.
  intros e (row & Hrow & He)%decoded_in. apply select_events_in in Hrow as [Hrow _].
  destruct (Hrows row Hrow) as (e' & He' & Hb & _).
  rewrite He in He'. injection He' as <-. exact Hb.
Qed.

Lemma length_body event : has_body event -> length (body_of event) = 1%nat.
Proof. intros [body Hb]. unfold body_of. by rewrite Hb. Qed.

Lemma backlog_bodies w event rest :
  deliverable (committed w) -> backlog (committed w) = event :: rest -> has_body event.
Proof.
  intros Hd Hb. pose proof (bodies w Hd) as Hall. rewrite Forall_forall in Hall. apply Hall.
  assert (Hin : event ∈ backlog (committed w)) by (rewrite Hb; left).
  by apply list_elem_of_filter in Hin as [_ ?].
Qed.

Lemma refused_S n d :
  refused (S n) d = refused n d ++ (match backlog d with [] => [] | event :: _ => body_of event end).
Proof.
  unfold refused. rewrite replicate_S_end, concat_app. cbn [concat]. by rewrite app_nil_r.
Qed.

Lemma pass_refused w :
  deliverable (committed w) -> (length (posts (trace w)) < refusals)%nat ->
  wp (sendHTTPCallbackNotifications true) (fun r w' => r = Ok tt /\ same_events w w' /\
    last_sent (committed w') = last_sent (committed w) /\
    posts (trace w') = refused 1 (committed w) ++ posts (trace w) /\
    (backlog (committed w) <> [] ->
     exists delay, TimerRetry delay ∈ bp_timers (broker_proc w'))) w.
Proof.
  intros Hd Hw. apply wp_pass; [done|]. intros w1 Hc Hp.
  eapply wp_mono; [apply refused_first; [by apply bodies | by rewrite Hp]|].
  intros r w2 (-> & Hsame & Hl & Hm). unfold same_events in *. rewrite Hc in Hsame, Hl.
  fold (backlog (committed w)) in Hm. unfold refused. cbn [replicate concat]. rewrite app_nil_r, <- Hp.
  destruct (backlog (committed w)) as [|event rest]; [simpl in Hm |- *; split; [done|]; split; [exact Hsame|];
    split; [exact Hl|]; split; [exact Hm|]; intros H; by destruct H|].
  destruct Hm as [Hposts Ht]. split; [done|]. split; [exact Hsame|]. by split_and!.
Qed.

Lemma length_refused_1 w :
  deliverable (committed w) -> (length (refused 1 (committed w)) <= 1)%nat.
Proof.
  intros Hd. unfold refused. cbn [replicate concat]. rewrite app_nil_r.
  destruct (backlog (committed w)) as [|event rest] eqn:Hb; [simpl; lia|].
  by rewrite (length_body _ (backlog_bodies _ _ _ Hd Hb)).
Qed.

Lemma refused_same n w w' :
  backlog (committed w') = backlog (committed w) -> refused n (committed w') = refused n (committed w).
Proof. unfold refused. by intros ->. Qed.

Lemma passes_refused n : forall w,
  deliverable (committed w) -> (length (posts (trace w)) + n <= refusals)%nat ->
  wp (passes n) (fun r w' => r = Ok tt /\ same_events w w' /\
    last_sent (committed w') = last_sent (committed w) /\
    posts (trace w') = refused n (committed w) ++ posts (trace w) /\
    ((0 < n)%nat -> backlog (committed w) <> [] ->
     exists delay, TimerRetry delay ∈ bp_timers (broker_proc w'))) w.
Proof.
  induction n as [|n IH]; intros w Hd Hn.
  { apply wp_ret. split_and!; try done; intros; lia. }
  apply wp_bind. eapply wp_mono; [apply pass_refused; [done | lia]|].
  intros r w1 (-> & H1 & Hl1 & Hp1 & Ht1).
  pose proof (length_refused_1 w Hd) as Hlen. pose proof (backlog_same _ _ H1 Hl1) as Hb1.
  destruct n as [|n]; [apply wp_ret; by split_and!|].
  eapply wp_mono; [apply (IH w1)|].
  - by eapply deliverable_same.
  - rewrite Hp1, length_app. lia.
  - intros r w2 (-> & H2 & Hl2 & Hp2 & Ht2). split; [done|].
    split; [by eapply same_events_trans|]. split; [congruence|]. split.
    + rewrite Hp2, Hp1, (refused_same (S n) _ _ Hb1), (refused_S (S n)), app_assoc. f_equal. f_equal.
      unfold refused. cbn [replicate concat]. by rewrite app_nil_r.
    + intros _ Hne. apply Ht2; [lia | by rewrite Hb1].
Qed.

Lemma passes_app m n : forall w, passes (m + n) w = (passes m ;; passes n) w.
Proof.
  induction m as [|m IH]; intros w; [done|]. cbn [passes plus]. unfold mbind, M_bind in *.
  destruct (sendHTTPCallbackNotifications true w) as [[u|e|p] w1]; [apply IH | done..].
Qed.

(** The pass that is not refused *)
Lemma pass_delivers w :
  deliverable (committed w) -> (refusals <= length (posts (trace w)))%nat ->
  wp (passes 1) (fun r w' => r = Ok tt /\ same_events w w' /\
    posts (trace w') = reverse (backlog (committed w) ≫= body_of) ++ posts (trace w) /\
    last_sent (committed w') = sent_after (backlog (committed w)) (last_sent (committed w)) /\
    backlog (committed w') = []) w.
Proof.
  intros Hd Hw. apply wp_bind, wp_pass; [done|]. intros w1 Hc Hp.
  eapply wp_mono; [apply deliver_all; [by apply bodies | by rewrite Hp]|].
  intros r w2 (-> & Hsame & Hposts & Hl). apply wp_ret. unfold same_events in Hsame. rewrite Hc in Hsame, Hl.
  fold (backlog (committed w)) in Hposts, Hl. rewrite Hp in Hposts.
  split_and!; try done. by apply (deliverable_sent w w2).
Qed.

Lemma refused_passes w k :
  deliverable (committed w) -> (k <= refusals - length (posts (trace w)))%nat ->
  exists w', passes k w = (Ok tt, w') /\ same_events w w' /\
    last_sent (committed w') = last_sent (committed w) /\
    posts (trace w') = refused k (committed w) ++ posts (trace w) /\
    ((0 < k)%nat -> backlog (committed w) <> [] ->
     exists delay, TimerRetry delay ∈ bp_timers (broker_proc w')).
Proof.
  intros Hd Hk. destruct k as [|k].
  { exists w. split_and!; try done; intros; lia. }
  assert (H := passes_refused (S k) w Hd ltac:(lia)). unfold wp in H.
  destruct (passes (S k) w) as [r w']. cbn [fst snd] in H. destruct H as (-> & H). by exists w'.
Qed.

Lemma length_refused n w :
  deliverable (committed w) -> backlog (committed w) <> [] -> length (refused n (committed w)) = n.
Proof.
  intros Hd Hne. unfold refused. destruct (backlog (committed w)) as [|event rest] eqn:Hb; [done|].
  induction n as [|n IH]; [done|]. cbn [replicate concat]. rewrite length_app, IH.
  by rewrite (length_body _ (backlog_bodies _ _ _ Hd Hb)).
Qed.

(** With nothing to post a pass changes nothing of interest. *)
Lemma idle_pass w :
  deliverable (committed w) -> backlog (committed w) = [] ->
  wp (passes 1) (fun r w' => r = Ok tt /\ same_events w w' /\
    last_sent (committed w') = last_sent (committed w)) w.
Proof.
  intros Hd Hb. destruct (decide (refusals <= length (posts (trace w)))%nat) as [Hw|Hw].
  - eapply wp_mono; [by apply pass_delivers|]. rewrite Hb. by intros r w' (-> & H & _ & Hl & _).
  - apply wp_bind. eapply wp_mono; [apply pass_refused; [done|lia]|].
    intros r w' (-> & H & Hl & _). by apply wp_ret.
Qed.


End Delivery.

(** ** Witness: two refusals *)
Section DeliveryWitness.
#[local] Instance delivery_env : Env := test_env no_fault.
#[local] Existing Instance PostgresEvents.

#[local] Instance busy_client : HTTPClient := {|
  http_Post history _ _ :=
    Ok (if decide (2 <= length (posts history))%nat then 200 else 503, Ok "")
|}.
#[local] Instance patient : BrokerConfig := test_broker_config 0.

Definition events_world : World := set_committed three_events init_world.
Definition two_refusals : outcome unit * World := passes 3 events_world.


End DeliveryWitness.
