(* ===== verification/WithdrawProps.v ===== *)
(** * Properties of withdrawals: limits, identifiers, internal transfers *)
From S2P Require Import Prelude.
From S2P Require Import Go.
From S2P Require Import Util.
From S2P Require Import Bitcoin.
From S2P Require Import TxTypes.
From S2P Require Import EventTypes.
From S2P Require Import World.
From S2P Require Import Effects.
From S2P Require Import Storage.
From S2P Require Import WalletStorage.
From S2P Require Import PgWallet.
From S2P Require Import EventStorage.
From S2P Require Import PgInvariants.
From S2P Require Import WellFormed.
From S2P Require Import PgSpec.
From S2P Require Import Broadcaster.
From S2P Require Import Broker.
From S2P Require Import NodeAPI.
From S2P Require Import WalletBase.
From S2P Require Import Withdraw.
From S2P Require Import NotifySpec.
From S2P Require Import Pending.
From S2P Require Import Updates.
From S2P Require Import WalletKeeps.
From S2P Require Import ApiKeeps.
From S2P Require Import WithdrawSafety.
From S2P Require Import WithdrawSpec.
From S2P Require Import PendingSpec.
From S2P Require Import UpdatesSpec.
From S2P Require Import System.
From S2P Require Import TestEnv.
From S2P Require Import Api.
From S2P Require Import PendingProps.
Local Open Scope Z_scope.

(** ** Internal transfers *)
Section Internal.
Context {E : Env} {EL : EnvLaws E} {CFG : WalletConfig}.
#[local] Existing Instance PostgresStorage.
#[local] Existing Instance PostgresEvents.

(** A fee that is not fixed counts as zero. *)
Definition internal_tx (tx : Transaction) : Transaction :=
  if decide (tx_FeeType tx = FixedFee) then tx else set_Fee 0 tx.

Lemma heap_store_again l tx w :
  heap w !! l = Some tx -> set_heap (<[l := tx]> (heap w)) w = w.
Proof. intros H. rewrite list_insert_id by done. by destruct w. Qed.


End Internal.

(** ** What [Withdraw] accepts *)
Section Limits.
Context {E : Env} {CFG : WalletConfig}.

(** The address a withdrawal goes to: an omitted one is the cold wallet's, for
    withdrawals to cold storage only. *)
Definition settled_address (cold : string) (toColdStorage : bool) (request : WithdrawRequest)
    : string :=
  if decide (wr_Address request = "" /\ toColdStorage = true) then cold else wr_Address request.

Definition within_limits (request : WithdrawRequest) (feeType : FeeType) : Prop :=
  minWithdraw <= wr_Amount request /\
  (feeType = PerKBRateFee -> minFeePerKb <= wr_Fee request) /\
  (feeType = FixedFee -> minFeeFixed <= wr_Fee request).

Lemma checkWithdrawLimits_Ok request feeType hold :
  checkWithdrawLimits request feeType = Ok hold <->
  within_limits request feeType /\
  hold = bool_decide (minWithdrawWithoutManualConfirmation < wr_Amount request).
Proof.
  unfold checkWithdrawLimits, within_limits.
  repeat (case_decide; [split; [done | intros [(? & ? & ?) _]; naive_solver lia]|]).
  case_bool_decide; case_decide; try done.
  all: split; [intros [= <-]; split; [|done] | by intros [_ ->]].
  all: split; [lia|]; split; intros Hft; apply Z.nlt_ge; intros ?; naive_solver.
Qed.


End Limits.

(** ** Identifiers *)
Section UsedId.
Context {E : Env} {EL : EnvLaws E} {N : NodeAPI} {CFG : WalletConfig}.
#[local] Existing Instance PostgresStorage.
#[local] Existing Instance PostgresEvents.

(** The error of the in-memory storage does not come from the database. *)
Lemma by_id_error ex id id' w :
  (GetTransactionByID ex id w).1 <> Err (ErrNoTxWithSuchID id').
Proof.
  simpl. unfold PostgresWalletStorage.GetTransactionByID, sql_query_row, sql_query,
    PostgresWalletStorage.transactionFromDatabaseRow, mbind, M_bind, next_fault, gets. simpl.
  destruct (target ex _); [|done]. case_decide; [|done]. simpl.
  destruct (env_scan _ _) as [|row]; [done|]. simpl. unfold lift, PostgresWalletStorage.decode_row.
  case_decide; [done|]. unfold TransactionDirectionFromString, TransactionStatusFromString.
  by repeat case_match; simplify_eq/=.
Qed.

(** A withdrawal whose id a stored transaction already has is refused with an
    error: nothing is committed, sent or counted. *)
Theorem used_id_refused (l : loc) (hold : bool) (tx tx0 : Transaction) (row : TxRow) (s : Z)
    (w w' : World) (r : outcome unit) (Hl : heap w !! l = Some tx)
    (Hwf : wf_db s (committed w)) (Hrow : row ∈ db_transactions (committed w))
    (Hid : r_id row = tx_ID tx) (Hdec : PostgresWalletStorage.decode_row row = Ok tx0)
    (Hrun : withdraw l hold w = (r, w')) :
  (exists e, r = Err e) /\ committed w' = committed w /\ trace w' = trace w /\
  wallet_proc w' = wallet_proc w /\ broker_proc w' = broker_proc w.
Proof.
  refine (wp_run _ (fun r w' => (exists e, r = Err e) /\ committed w' = committed w /\
    trace w' = trace w /\ wallet_proc w' = wallet_proc w /\ broker_proc w' = broker_proc w)
    _ _ _ Hrun _).
  apply wp_bind, wp_load. rewrite Hl. apply wp_bind, wp_bind, wp_try.
  pose proof (fun id' => by_id_error OnDB (tx_ID tx) id' w) as Hno. unfold wp at 1.
  assert (Hq : wp (GetTransactionByID OnDB (tx_ID tx))
    (fun r1 w1 => reads w w1 /\ r1 <> Err ErrNoRows /\ forall p, r1 <> Panic p) w).
  { eapply (wp_get_by_id OnDB (tx_ID tx) row s (committed w)); [done..| |].
    - intros e w1 H1 He. split; [done|]. split; [congruence | done].
    - by intros. }
  unfold wp in Hq. destruct (GetTransactionByID OnDB (tx_ID tx) w) as [r1 w1].
  destruct Hq as (H1 & Hnr & Hnp). simpl in *.
  destruct r1 as [l'|[]|p]; try (by destruct (Hnp p)); try (by destruct (Hno id)); try done.
  all: apply wp_throw; destruct H1; by eauto 6.
Qed.

End UsedId.

(** ** Updates from the node *)
Section NodeUpdates.
Context {E : Env} {EL : EnvLaws E} {N : NodeAPI} {CFG : WalletConfig}.
#[local] Existing Instance PostgresStorage.
#[local] Existing Instance PostgresEvents.


End NodeUpdates.

(** ** Concrete runs *)
Definition our_account : Account := mkAccount "ours" (JObj [("user", JStr "alice")]).

(** A payment of 50000 satoshi with a fixed fee of 2000 between two accounts *)
Definition internal_payment : Transaction :=
  mkTransaction 7 "" "" 0 "ours" OutgoingDirection NewTransaction 50000 JNull 2000 FixedFee
    false true (-1).

Definition internal_world : World := set_heap [internal_payment] init_world.

Definition internal_run : outcome unit * World :=
  @internalWithdrawBetweenOurAccounts (test_env no_fault) (@PostgresStorage (test_env no_fault))
    (@PostgresEvents (test_env no_fault)) test_config 0 our_account internal_world.


(** A request with the id of the first pending withdrawal *)
Definition used_world : World := set_heap [test_tx 1 "client" 5000] pending_world.

Definition used_run : outcome unit * World :=
  @withdraw (test_env no_fault) (@PostgresStorage (test_env no_fault))
    (@PostgresEvents (test_env no_fault)) pending_node test_config 0 false used_world.

Lemma used_id_refused_witness :
  (exists e, used_run.1 = Err e) /\ committed used_run.2 = pending_db /\ trace used_run.2 = [].
Proof.
  assert (T := used_id_refused (E := test_env no_fault) (N := pending_node) (CFG := test_config)
    0 false (test_tx 1 "client" 5000) (loaded_row 1 30000 PendingTransaction)
    (pending_row 1 30000 PendingTransaction) 1 used_world used_run.2 used_run.1 eq_refl pending_db_wf).
  destruct T as (He & Hc & Ht & _).
  - left.
  - reflexivity.
  - vm_compute. reflexivity.
  - unfold used_run. apply surjective_pairing.
  - split; [exact He|]. split; [exact Hc | exact Ht].
Defined.

(** A payment to an account is seen, in a block already *)
Definition seen_tx : Transaction :=
  set_Confirmations 2 (set_Hash "h" (mkTransaction 0 "" "block" 0 "ours" IncomingDirection
    NewTransaction 50000 JNull 0 InvalidFee false true (-1))).

Definition seen_db : DB := mkDB [] [("ours", JObj [("user", JStr "alice")])] ∅ [] [].

Definition seen_world : World :=
  set_inflight (Some seen_db) (set_heap [seen_tx] (set_committed seen_db init_world)).

Definition seen_run : outcome bool * World :=
  @updateTxInfo (test_env no_fault) (@PostgresStorage (test_env no_fault))
    (@PostgresEvents (test_env no_fault)) test_config OnTx 0 seen_world.

