(* ===== verification/RpcProps.v ===== *)
(** * Properties of the node's client: money is asked for last, and exactly *)
From Stdlib Require Import SpecFloat.
From S2P Require Import Prelude.
From S2P Require Import Go.
From S2P Require Import Bitcoin.
From S2P Require Import TxTypes.
From S2P Require Import EventTypes.
From S2P Require Import World.
From S2P Require Import Effects.
From S2P Require Import Broadcaster.
From S2P Require Import Broker.
From S2P Require Import NodeAPI.
From S2P Require Import Rpc.
From S2P Require Import WalletBase.
From S2P Require Import TestEnv.
Local Open Scope Z_scope.

Section RpcProps.
Context {D : DecimalLib} {BU : BtcUtil} {R : RpcLib} (n : RpcConfig).

(** The only request of [sendRawTransaction] *)
Lemma sendRaw_spec signed w :
  sendRawTransaction n signed w =
    (let request := rpc_request "sendrawtransaction" (VList [VStr signed]) in
     if url_parses (rc_nodeURL n)
     then match node_Do (trace w) (rc_nodeURL n) request with
          | Ok body => unmarshal_response unmarshal_string body
          | Err e => Err e
          | Panic p => Panic p
          end
     else Err (ErrMsg "parse error"),
     if url_parses (rc_nodeURL n)
     then after_acts [ARequest "sendrawtransaction" [VStr signed]] w else w).
Proof.
  unfold sendRawTransaction, SendRequestToNode, post_to_node. simpl.
  unfold mbind at 1, M_bind at 1. destruct (url_parses (rc_nodeURL n)); simpl; [|done].
  unfold mbind, M_bind, gets, log_act, modify, lift, after_acts. simpl.
  by destruct (node_Do _ _ _).
Qed.

(** A request that cannot be marshalled or addressed is not sent. *)
Lemma post_cases method args params w :
  (exists e, post_to_node n method args params w = (Err e, w)) \/
  exists r, post_to_node n method args params w = (r, after_acts [ARequest method args] w).
Proof.
  unfold post_to_node. destruct (negb _); [by left; eexists|].
  destruct (negb _); [left | right]; by eexists.
Qed.

(** C22: Money is requested once at most, by the last request, which broadcasts what
    the preceding ones prepared; a call that ends before that moved nothing. *)
Theorem fixed_fee_money_last address amount fee recipientPaysFee w r w'
    (Hrun : SendWithFixedFee n address amount fee recipientPaysFee w = (r, w')) :
  exists asked, Forall (fun a => moves_money a = false) asked /\
    ((w' = after_acts asked w /\ forall hash, r <> Ok hash) \/
     exists signed,
       w' = after_acts (ARequest "sendrawtransaction" [VStr signed] :: asked) w /\
       prepare_fixed_fee n address
         (if recipientPaysFee then amount else u64 (amount + fee)) fee w =
         (Ok signed, after_acts asked w)).
Proof.
  unfold SendWithFixedFee in Hrun. set (amt := if recipientPaysFee then amount else _) in *.
  destruct (recipientPaysFee && _).
  { injection Hrun as <- <-. exists []. split; [constructor|]. left. by rewrite after_acts_nil. }
  destruct (only_prepare n address amt fee w) as (asked & Hw & _ & Hasked).
  exists asked. split; [by apply Hasked|].
  unfold mbind, M_bind in Hrun.
  destruct (prepare_fixed_fee n address amt fee w) as [[signed|e|p] w1]; simpl in *; subst w1.
  - rewrite sendRaw_spec in Hrun. injection Hrun as <- <-.
    destruct (url_parses (rc_nodeURL n)); [right | by left].
    exists signed. split; [|done]. change (ARequest ?m ?p :: asked) with ([ARequest m p] ++ asked).
    by rewrite after_acts_app.
  - injection Hrun as <- <-. by left.
  - injection Hrun as <- <-. by left.
Qed.

(** The fee rate is set just before the payment, and nothing is paid when that fails. *)
Theorem per_kb_fee_set_first address amount fee recipientPaysFee w :
  let '(r, w') := SendWithPerKBFee n address amount fee recipientPaysFee w in
  let setfee := ARequest "settxfee" [VInt (i64 fee)] in
  let pay := ARequest "sendtoaddress"
    [VStr address; VFloat (Amount_ToBTC (i64 amount)); VStr ""; VStr ""; VBool recipientPaysFee] in
  (w' = after_acts [setfee] w /\ forall hash, r <> Ok hash) \/
  (w' = after_acts [pay; setfee] w /\ rpc_SetTxFee (trace w) (i64 fee) = Ok tt).
Proof.
  unfold SendWithPerKBFee, btcrpc, sendToAddress, SendRequestToNode.
  unfold mbind, M_bind, gets, log_act, modify, lift. cbn -[post_to_node].
  destruct (rpc_SetTxFee _ _) as [[]|e|p]; cbn -[post_to_node]; [|by left..].
  match goal with |- context [post_to_node n ?m ?a ?p ?w] =>
    destruct (post_cases m a p w) as [(e & ->) | (r & ->)] end; [by left|].
  destruct r; by right.
Qed.

(** The satoshi of the outputs *)
Definition output_values (tx : TxRawResult) : option (list Z) :=
  mapM (fun v => NewAmount (vout_Value v)) (raw_Vout tx).

Lemma mapM_insert_Some {A B} (f : A -> option B) l i x y vals v :
  mapM f l = Some vals -> l !! i = Some x -> f y = Some v ->
  mapM f (<[i := y]> l) = Some (<[i := v]> vals).
Proof.
  rewrite !mapM_Some. intros H Hx Hy.
  apply Forall2_insert; [|done]. done.
Qed.

Definition money_range (v : Z) : Prop := 0 <= v <= 21000000 * 100000000.

(** C37: The transformed transaction spends the same inputs, gives the difference
    between the automatic and the fixed fee to the recipient's output only, and
    so leaves exactly the fixed fee to the miners. *)
Theorem fixed_fee_is_exact funded tx address fee tx' autoFee vals
    (Hset : set_fixed_fee funded tx address fee = Ok tx')
    (Hfee : NewAmount (fr_Fee funded) = Some autoFee)
    (Hvals : output_values tx = Some vals)
    (Hrange : Forall money_range (fee :: autoFee :: vals))
    (Hround : Forall (fun v => NewAmount (Amount_ToBTC (v - fee + autoFee)) =
                               Some (v - fee + autoFee)) vals) :
  raw_Vin tx' = raw_Vin tx /\
  exists pos v vals',
    vals !! pos = Some v /\ vout_Addresses <$> raw_Vout tx !! pos = Some [address] /\
    output_values tx' = Some vals' /\ vals' = <[pos := v - fee + autoFee]> vals /\
    forall inputs, inputs = sum_Z vals + autoFee -> inputs - sum_Z vals' = fee.
Proof.
  unfold set_fixed_fee in Hset. rewrite Hfee in Hset. simpl in Hset.
  destruct (if decide (fr_Changepos funded <> -1) then _ else _) as [pos expected].
  case_decide; [done|]. destruct (raw_Vout tx !! pos) as [out|] eqn:Hpos; [|done]. simpl in Hset.
  destruct (vout_Addresses out) as [|a [|]] eqn:Haddr; [done| |done].
  case_decide as Hne; [done|]. assert (a = address) as -> by (by destruct (decide (a = address))).
  pose proof (proj1 (mapM_Some _ _ _) Hvals) as Hall.
  destruct (Forall2_lookup_l _ _ _ _ _ Hall Hpos) as (v & Hv & Hout).
  rewrite Hout in Hset. simpl in Hset. injection Hset as <-. split; [done|].
  apply Forall_cons in Hrange as [Rf Hrange]. apply Forall_cons in Hrange as [Ra Hrange].
  pose proof (Forall_lookup_1 _ _ _ _ Hrange Hv) as Rv.
  pose proof (Forall_lookup_1 _ _ _ _ Hround Hv) as Hr.
  unfold money_range in *.
  rewrite (i64_small fee), (i64_small (v - fee)), (i64_small (v - fee + autoFee))
    by (unfold is_i64; lia).
  exists pos, v, (<[pos := v - fee + autoFee]> vals). split; [done|].
  split; [by rewrite Hpos; simpl; rewrite Haddr|].
  split; [by eapply mapM_insert_Some|]. split; [done|].
  intros inputs ->. rewrite (sum_Z_insert _ _ _ _ Hv). lia.
Qed.

(** ** The outputs of the encoded transaction *)
Lemma map_set_fresh {A} key (v : A) m : key ∉ m.*1 -> map_set key v m = m ++ [(key, v)].
Proof.
  induction m as [|[k w] m IH]; intros Hk; simpl in *; [done|].
  apply not_elem_of_cons in Hk as [Hne Hk].
  by rewrite bool_decide_eq_false_2, IH by done.
Qed.

Lemma final_outputs_app vouts acc m :
  final_outputs vouts acc = Ok m -> NoDup (acc.*1 ++ (vouts ≫= vout_Addresses)) ->
  exists m', m = acc ++ m' /\
    Forall2 (fun v p => vout_Addresses v = [p.1] /\ p.2 = vout_Value v) vouts m'.
Proof.
  revert acc. induction vouts as [|v vouts IH]; intros acc Hf Hnd; simpl in *.
  - injection Hf as <-. exists []. by rewrite app_nil_r.
  - destruct (vout_Addresses v) as [|a [|]] eqn:Ha; [done| |done]. simpl in Hnd.
    assert (a ∉ acc.*1).
    { apply NoDup_app in Hnd as (_ & H & _). intros Hin. apply (H a Hin). left. }
    rewrite map_set_fresh in Hf by done.
    destruct (IH _ Hf) as (m' & -> & Hm').
    { by rewrite fmap_app, <- app_assoc. }
    exists ((a, vout_Value v) :: m'). rewrite <- app_assoc. by repeat constructor.
Qed.

Lemma insert_key_perm {A} p (m : list (string * A)) : insert_key p m ≡ₚ p :: m.
Proof.
  induction m as [|q m IH]; simpl; [done|]. destruct (String.leb _ _); [done|].
  rewrite IH. by constructor.
Qed.

Lemma sorted_by_key_perm {A} (m : list (string * A)) : sorted_by_key m ≡ₚ m.
Proof.
  induction m as [|p m IH]; simpl; [done|]. unfold sorted_by_key in *. simpl.
  by rewrite insert_key_perm, IH.
Qed.

(** When no two outputs have the same address, the encoded transaction has the
    inputs and exactly the outputs of the transformed one. *)
Theorem encoded_transaction tx w r w'
    (Hnd : NoDup (raw_Vout tx ≫= vout_Addresses))
    (Hrun : encodeTransformedTransaction n tx w = (Ok r, w')) :
  exists outputs, Forall2 (fun v p => vout_Addresses v = [p.1] /\ p.2 = VFloat (vout_Value v))
                    (raw_Vout tx) outputs /\
    exists sent, sent ≡ₚ outputs /\
      w' = after_acts [ARequest "createrawtransaction"
                         [VList (input_value <$> raw_Vin tx); VMap sent]] w.
Proof.
  unfold encodeTransformedTransaction, mbind at 1, M_bind at 1, lift at 1 in Hrun.
  destruct (final_outputs (raw_Vout tx) []) as [m|e|p] eqn:Hm; [|done..].
  destruct (final_outputs_app _ _ _ Hm Hnd) as (m' & -> & Hm'). simpl in *.
  exists ((fun p => (p.1, VFloat p.2)) <$> m'). split.
  { rewrite Forall2_fmap_r. by eapply Forall2_impl; [exact Hm'|]; simpl; intros ? ? [-> ->]. }
  exists (sorted_by_key ((fun p => (p.1, VFloat p.2)) <$> m')). split; [apply sorted_by_key_perm|].
  unfold createRawTransaction, SendRequestToNode, mbind, M_bind, lift in Hrun.
  match type of Hrun with context [post_to_node n ?m ?a ?p ?w] =>
    destruct (post_cases m a p w) as [(e & Hp) | (r0 & Hp)] end; rewrite Hp in Hrun; [done|].
  by destruct r0; simplify_eq.
Qed.

End RpcProps.

(** ** A concrete node: it funds a transaction with change in front *)
#[local] Existing Instance test_decimal.
#[local] Existing Instance test_btcutil.

Definition reply (result : json) : outcome string :=
  Ok (json_text (JObj [("result", result); ("error", JNull); ("id", JNull)])).

Definition request_method (body : value) : string :=
  match body with VMap (_ :: (_, VStr method) :: _) => method | _ => "" end.

Definition funded_tx : TxRawResult :=
  mkTxRawResult [mkVin "input" 1]
    [mkVout (Amount_ToBTC 70000) ["change"]; mkVout (Amount_ToBTC 29000) ["client"]].

Definition test_rpc : RpcLib := {|
  chain_hash := string;
  NewHashFromStr s := Ok s;
  hash_String s := s;
  url_parses _ := true;
  rpc_New _ _ _ _ := Ok tt;
  rpc_GetBlockCount _ := Ok 100;
  rpc_ListSinceBlock _ _ := Ok (mkListSinceBlockResult [] "tip");
  rpc_GetTransaction _ h := Ok (mkGetTransactionResult h "" 1 "00");
  rpc_DecodeRawTransaction _ _ := Ok funded_tx;
  rpc_SetTxFee _ _ := Ok tt;
  rpc_GetBalance _ _ := Ok 500000;
  node_Do _ _ body :=
    let method := request_method body in
    if decide (method = "fundrawtransaction") then
      reply (JObj [("changepos", JNum "0"); ("fee", JNum "0.00001000"); ("hex", JStr "0a")])
    else if decide (method = "signrawtransactionwithwallet") then
      reply (JObj [("complete", JBool true); ("hex", JStr "0b")])
    else if decide (method = "getunconfirmedbalance") then reply (JNum "0.5")
    else if decide (method = "getaddressinfo") then
      reply (JObj [("address", JStr "client"); ("ismine", JBool true)])
    else reply (JStr "text");
|}.
#[local] Existing Instance test_rpc.

Definition test_node_config : RpcConfig := mkRpcConfig "node" "http://node/" "user" "pass" false.

Example fixed_fee_run :
  (SendWithFixedFee test_node_config "client" 30000 2000 true init_world).1 = Ok "text".
Proof. vm_compute. reflexivity. Qed.

Lemma fixed_fee_money_last_witness :
  exists asked, Forall (fun a => moves_money a = false) asked /\
    (SendWithFixedFee test_node_config "client" 30000 2000 true init_world).2 =
    after_acts (ARequest "sendrawtransaction" [VStr "0b"] :: asked) init_world.
Proof.
  pose proof (fixed_fee_money_last test_node_config "client" 30000 2000 true init_world
    _ _ (surjective_pairing _)) as (asked & Ha & Hcase).
  exists asked. split; [exact Ha|]. destruct Hcase as [[_ Hno] | (signed & Hw & Hp)].
  - exfalso. apply (Hno "text"). vm_compute. reflexivity.
  - rewrite Hw. apply (f_equal fst) in Hp. vm_compute in Hp. injection Hp as <-. reflexivity.
Defined.

Definition funded : fundRawTransactionResult := mkFundResult 0 (Amount_ToBTC 1000) "0a".

Definition fixed_tx : TxRawResult :=
  mkTxRawResult [mkVin "input" 1]
    [mkVout (Amount_ToBTC 70000) ["change"]; mkVout (Amount_ToBTC 28000) ["client"]].

Lemma fixed_fee_is_exact_witness :
  set_fixed_fee funded funded_tx "client" 2000 = Ok fixed_tx /\
  forall vals', output_values fixed_tx = Some vals' -> 100000 - sum_Z vals' = 2000.
Proof.
  assert (Hset : set_fixed_fee funded funded_tx "client" 2000 = Ok fixed_tx)
    by (vm_compute; reflexivity).
  split; [exact Hset|].
  destruct (fixed_fee_is_exact funded funded_tx "client" 2000 fixed_tx 1000 [70000; 29000] Hset)
    as (_ & pos & v & vals & _ & _ & Hout & _ & Hsum).
  - vm_compute. reflexivity.
  - vm_compute. reflexivity.
  - repeat constructor; vm_compute; discriminate.
  - repeat constructor; vm_compute; reflexivity.
  - intros vals' Hv. rewrite Hout in Hv. injection Hv as <-. apply Hsum. reflexivity.
Defined.

Lemma encoded_transaction_witness :
  exists sent,
    (encodeTransformedTransaction test_node_config fixed_tx init_world).2 =
    after_acts [ARequest "createrawtransaction"
      [VList [input_value (mkVin "input" 1)]; VMap sent]] init_world /\
    length sent = 2%nat.
Proof.
  destruct (encoded_transaction test_node_config fixed_tx init_world "text"
    (encodeTransformedTransaction test_node_config fixed_tx init_world).2)
    as (outputs & Hall & sent & Hperm & Hw).
  - change (NoDup ["change"; "client"]). by apply (bool_decide_unpack _).
  - vm_compute. reflexivity.
  - exists sent. split; [exact Hw|]. rewrite (Permutation_length Hperm).
    symmetry. apply (Forall2_length _ _ _ Hall).
Defined.

(** Two outputs to one address make one entry of the map: the first is lost, and
    its value goes to the fee. *)
Example equal_addresses_collapse a x y :
  final_outputs [mkVout x [a]; mkVout y [a]] [] = Ok [(a, y)].
Proof. simpl. by rewrite bool_decide_eq_true_2. Qed.
