(* ===== verification/ClientProps.v ===== *)
(** * Properties of the client composed with the server *)
From Stdlib Require Import Ascii.
From S2P Require Import Prelude.
From S2P Require Import Go.
From S2P Require Import Json.
From S2P Require Import JsonText.
From S2P Require Import Bitcoin.
From S2P Require Import TxTypes.
From S2P Require Import EventTypes.
From S2P Require Import World.
From S2P Require Import Effects.
From S2P Require Import Storage.
From S2P Require Import WalletStorage.
From S2P Require Import EventStorage.
From S2P Require Import PgWallet.
From S2P Require Import Broadcaster.
From S2P Require Import Broker.
From S2P Require Import NodeAPI.
From S2P Require Import WalletBase.
From S2P Require Import Withdraw.
From S2P Require Import Api.
From S2P Require Import Client.
From S2P Require Import TestEnv.
Local Open Scope Z_scope.

(** ** The request's JSON form *)
Section RequestCodec.
Context {D : DecimalLib} {DL : DecimalLaws D} {U : UuidLib} {UL : UuidLaws U}.

Definition request_ok (r : WithdrawRequest) : Prop :=
  is_u64 (wr_Amount r) /\ is_u64 (wr_Fee r) /\ json_ok (wr_Metainfo r) = true.

Lemma request_text_ok r : request_ok r -> json_ok (WithdrawRequest_MarshalJSON r) = true.
Proof.
  intros (_ & _ & Hm). unfold WithdrawRequest_MarshalJSON, omitempty.
  repeat case_bool_decide; simpl; by rewrite Hm.
Qed.

Lemma request_json_roundtrip r :
  request_ok r -> WithdrawRequest_UnmarshalJSON (WithdrawRequest_MarshalJSON r) = Ok r.
Proof.
  intros (Ha & Hf & _). destruct r as [id address amount fee feeType metainfo]. simpl in Ha, Hf.
  unfold WithdrawRequest_MarshalJSON, omitempty. simpl wr_ID. simpl wr_Address. simpl wr_Amount.
  simpl wr_Fee. simpl wr_FeeType. simpl wr_Metainfo.
  set (am := BTCAmount_MarshalJSON amount). set (fe := BTCAmount_MarshalJSON fee).
  set (uu := uuid_String id).
  assert (Hid : unmarshal_uuid (JStr uu) = Ok id) by apply uuid_json_roundtrip.
  assert (Ham : BTCAmount_UnmarshalJSON am = Ok amount) by by apply BTCAmount_json_roundtrip.
  assert (Hfe : BTCAmount_UnmarshalJSON fe = Ok fee) by by apply BTCAmount_json_roundtrip.
  clearbody am fe uu. unfold WithdrawRequest_UnmarshalJSON.
  repeat case_bool_decide; subst;
    (match goal with |- context [JObj ?l] => set (j := JObj l) end);
    (assert (struct_field "id" j = JStr uu) as -> by reflexivity);
    (assert (field_with 0 BTCAmount_UnmarshalJSON "amount" j = BTCAmount_UnmarshalJSON am) as ->
       by reflexivity);
    (assert (struct_field "metainfo" j = metainfo) as -> by reflexivity);
    first [ assert (field_with 0 BTCAmount_UnmarshalJSON "fee" j = BTCAmount_UnmarshalJSON fe) as ->
              by reflexivity; rewrite Hfe
          | assert (field_with 0 BTCAmount_UnmarshalJSON "fee" j = Ok 0) as -> by reflexivity ];
    rewrite Hid, Ham; reflexivity.
Qed.

End RequestCodec.

(** ** A call through the server *)

(** The paths that the client asks for *)
Definition client_paths : list string :=
  [ NewWalletURL; WithdrawURL; GetHotStorageAddressURL; GetTransactionsURL; GetBalanceURL;
    GetRequiredFromColdStorageURL; CancelPendingURL; WithdrawToColdStorageURL; ConfirmURL;
    GetEventsURL; MuteEventsURL ].

(** A path is one of them. *)
Ltac known_path := apply (bool_decide_unpack _); by vm_compute.

Section Served.
Context {E : Env} {ST : Storage} {ES : EventStorage} {N : NodeAPI} {CFG : WalletConfig}.
Context {DL : DecimalLaws env_decimal} {UL : UuidLaws env_uuidlib}.
Context {HC : HTTPClient} {BCFG : BrokerConfig} {T : ErrorTexts} {L : UrlLib}.
Context (allow : bool) (cli : Client).
#[local] Instance served : ClientTransport := ServedBy allow.

Lemma decode_response_text {A} (zero : A) resultCb r :
  json_ok (resp_result r) = true ->
  decode_response zero resultCb (json_text (httpAPIResponse_MarshalJSON r)) =
  (result ← resultCb (resp_result r);
   match resp_error r with
   | None => Ok result
   | Some e => if decide (error_Error e <> "ok") then Err (ErrMsg (error_Error e)) else Ok result
   end).
Proof.
  intros Hok. unfold decode_response.
  assert (Hj : json_ok (httpAPIResponse_MarshalJSON r) = true) by (simpl; by rewrite Hok).
  rewrite parse_first_whole by done.
  unfold httpAPIResponse_MarshalJSON. set (text := match resp_error r with Some e => error_Error e | None => "ok" end).
  set (j := JObj _). cbn [of_option]. change (is_struct j) with (Ok tt).
  unfold mbind, outcome_bind at 1 2.
  assert (struct_field "error" j = JStr text) as -> by reflexivity.
  assert (field_with zero resultCb "result" j = resultCb (resp_result r)) as -> by reflexivity.
  simpl. subst text. destruct (resultCb (resp_result r)) as [a|e|p]; simpl; [|done..].
  destruct (resp_error r); [done|]. by rewrite decide_False by auto.
Qed.

Lemma served_call {A} {laws : UrlLaws L client_paths }
    path request (zero : A) resultCb b handler w :
  path ∈ client_paths ->
  url_Parse (apiBaseURL cli) = Ok b -> serve allow path = Some handler ->
  sendHTTPAPIRequest cli path request zero resultCb w =
  match handler (Some match request with Some j => json_text j | None => "" end) w with
  | (Ok response, w') =>
      (decode_response zero resultCb (json_text (httpAPIResponse_MarshalJSON response)), w')
  | (_, w') => (Err ErrTransport, w')
  end.
Proof.
  intros Hpath Hb Hserve. destruct (url_path_parses path Hpath) as [p Hp].
  unfold sendHTTPAPIRequest, URLJoin. rewrite Hb, Hp. simpl.
  unfold mbind at 1, M_bind at 1, lift at 1. cbv beta iota. simpl transport_Post.
  rewrite (url_resolve_path _ _ _ _ Hpath Hb Hp). unfold mbind, M_bind, serve_request.
  rewrite Hserve. by destruct (handler _ w) as [[]].
Qed.

(** *** Withdrawals *)

(** What [Withdraw] returns is the request, with another address at most. *)
Lemma prepare_withdraw_request hot cold request toCold r tx hold :
  prepare_withdraw hot cold request toCold = Ok (r, tx, hold) ->
  r = set_wr_Address (wr_Address r) request.
Proof.
  unfold prepare_withdraw. intros (ft & _ & H)%outcome_bind_Ok.
  apply outcome_bind_Ok in H as (need & _ & H). apply outcome_bind_Ok in H as (r' & Hr & H).
  destruct (decide (wr_Address r' = hot)); [done|]. injection H as <- _ _.
  destruct (decide (wr_Address request = "")); [|injection Hr as <-; by destruct request].
  destruct (negb toCold); [done|]. destruct (decide (cold = "")); [done|]. by injection Hr as <-.
Qed.

Lemma Withdraw_request request toCold w r w' :
  Withdraw request toCold w = (Ok r, w') -> r = set_wr_Address (wr_Address r) request.
Proof.
  unfold Withdraw, mbind, M_bind, gets, lift.
  destruct (prepare_withdraw _ _ _ _) as [[[r' tx] hold]|e|p] eqn:Hp; [|done..].
  destruct (alloc tx w) as [[l|e|p] w1]; [|done..].
  destruct (withdrawViaWalletUpdater l hold w1) as [[u|e|p] w2]; [|done..].
  intros [= <- _]. by apply prepare_withdraw_request in Hp.
Qed.

Lemma withdraw_request_ok toCold req w r w' :
  request_ok req -> withdraw_request allow toCold req w = (Ok r, w') -> request_ok r.
Proof.
  intros Hreq. unfold withdraw_request, mbind, M_bind.
  set (m := if decide (wr_ID req = uuid_Nil) then _ else _).
  destruct (m w) as [[req1|e|p] w1] eqn:Hm; [|done..]. intros Hw%Withdraw_request.
  assert (request_ok req1).
  { subst m. case_decide; [|by injection Hm as <- _]. destruct allow; [|done].
    unfold uuid_NewV4, mbind, M_bind in Hm. by injection Hm as <- _. }
  rewrite Hw. unfold default_fee_type. by case_decide.
Qed.

Definition withdrawal_seen (r : outcome WithdrawRequest) : outcome WithdrawRequest :=
  match r with
  | Ok r => Ok r
  | Err e => if decide (error_Error e <> "ok") then Err (ErrMsg (error_Error e)) else Ok zero_request
  | Panic _ => Err ErrTransport
  end.

Lemma withdraw_served {laws : UrlLaws L client_paths }
    (toCold : bool) (req : WithdrawRequest) (b : URL) (w : World)
    (Hb : url_Parse (apiBaseURL cli) = Ok b) (Hreq : request_ok req) :
  (if toCold then WithdrawToColdStorage cli req else Withdraw_client cli req) w =
  (withdrawal_seen (withdraw_request allow toCold req w).1,
   (withdraw_request allow toCold req w).2).
Proof.
  set (path := if toCold then WithdrawToColdStorageURL else WithdrawURL).
  assert ((if toCold then WithdrawToColdStorage cli req else Withdraw_client cli req) =
          withdraw_client cli path req) as -> by by destruct toCold.
  unfold withdraw_client. rewrite (served_call path _ _ _ b (withdraw_handler allow toCold)); try done;
    [|destruct toCold; known_path | by destruct toCold].
  unfold withdraw_handler. cbn [of_option mbind outcome_bind].
  rewrite parse_first_whole by by apply request_text_ok. cbn [of_option mbind outcome_bind].
  rewrite request_json_roundtrip by done. unfold respond_with, mbind at 1, M_bind at 1, try.
  destruct (withdraw_request allow toCold req w) as [[r|e|p] w'] eqn:Hw; [| |done]; cbn [fst snd].
  - pose proof (withdraw_request_ok _ _ _ _ _ Hreq Hw) as Hr. unfold mret, M_ret. f_equal.
    rewrite decode_response_text by by apply request_text_ok.
    cbn [respond resp_result resp_error]. by rewrite request_json_roundtrip.
  - unfold mret, M_ret. f_equal. by rewrite decode_response_text.
Qed.

(** C7: The Go client's withdrawal, through its JSON text, the HTTP handler and the JSON text of
    the answer, is the wallet's withdrawal: the same effects, the request that the
    wallet settled on (with its generated id, default fee type and address) when it is
    accepted, and otherwise an error with the text of the wallet's. *)
Theorem client_withdraws {laws : UrlLaws L client_paths }
    (toCold : bool) (req : WithdrawRequest) (b : URL) (w : World)
    (Hb : url_Parse (apiBaseURL cli) = Ok b) (Hreq : request_ok req) :
  (if toCold then WithdrawToColdStorage cli req else Withdraw_client cli req) w =
  (withdrawal_seen (withdraw_request allow toCold req w).1,
   (withdraw_request allow toCold req w).2).
Proof. exact (withdraw_served toCold req b w Hb Hreq). Qed.

(** *** The required money *)

(** What the wallet has to be sent, asked through the Go client: an amount arrives as it
    is, but of an error only the fact does: the answer's null result does not decode
    as an amount, and the error of that hides the server's. *)
Theorem client_required_money {laws : UrlLaws L client_paths }
    (b : URL) (w : World) (Hb : url_Parse (apiBaseURL cli) = Ok b)
    (Hempty : dec_NewFromString "" = None)
    (Hin : forall a, (GetMoneyRequiredFromColdStorage_wallet w).1 = Ok a -> is_u64 a) :
  GetRequiredFromColdStorage_client cli w =
  (match (GetMoneyRequiredFromColdStorage_wallet w).1 with
   | Ok amount => Ok amount
   | Err _ => Err (ErrMsg "can't convert to decimal")
   | Panic _ => Err ErrTransport
   end, (GetMoneyRequiredFromColdStorage_wallet w).2).
Proof.
  unfold GetRequiredFromColdStorage_client.
  rewrite (served_call _ _ _ _ b getRequiredFromColdStorage);
    [|known_path | done | by destruct allow].
  unfold getRequiredFromColdStorage, respond_with, mbind, M_bind, try.
  destruct (GetMoneyRequiredFromColdStorage_wallet w) as [[a|e|p] w'];
    unfold mret, M_ret; cbn [fst snd]; [| |done]; f_equal; rewrite decode_response_text by done;
    cbn [respond resp_result resp_error].
  - by rewrite BTCAmount_json_roundtrip by by apply Hin.
  - unfold BTCAmount_UnmarshalJSON, BTCAmountFromStringedFloat. cbn. by rewrite Hempty.
Qed.

End Served.

(** ** Witnesses
    URLs are a host and a path, written [http://host/path]. *)
Fixpoint has_slash (s : string) : bool :=
  match s with
  | EmptyString => false
  | String c s' => bool_decide (c = "/"%char) || has_slash s'
  end.

Fixpoint from_slash (s : string) : string :=
  match s with
  | EmptyString => ""
  | String c s' => if bool_decide (c = "/"%char) then s else from_slash s'
  end.

Definition test_parse_url (s : string) : outcome (string * string) :=
  match strip "http://" s with
  | Some host => if has_slash host then Err ErrTransport else Ok (host, "")
  | None => match strip "/" s with Some _ => Ok ("", s) | None => Err ErrTransport end
  end.

Definition test_urls : UrlLib := {|
  URL := string * string;
  url_Parse := test_parse_url;
  url_ResolveReference base ref := (base.1, ref.2);
  url_String u := "http://" +:+ u.1 +:+ u.2;
  url_Scheme u := "http";
  url_with scheme path u := (u.1, path);
  request_path s := match strip "http://" s with Some rest => from_slash rest | None => "" end;
|}.

Lemma from_slash_host host s :
  has_slash host = false -> from_slash (host +:+ String "/" s) = String "/" s.
Proof.
  induction host as [|c host IH]; [done|]. rewrite string_cons_app. simpl.
  by destruct (bool_decide (c = "/"%char)).
Qed.

#[local] Instance test_urls_laws :
  UrlLaws test_urls client_paths.
Proof.
  split.
  - intros base [host bp] path p Hpath Hbase Hp. unfold test_urls in *. cbn [URL url_Parse
      url_ResolveReference url_String request_path fst snd] in *.
    assert (has_slash host = false).
    { unfold test_parse_url in Hbase. destruct (strip "http://" base).
      - destruct (has_slash s) eqn:?; [done|]. by injection Hbase as <- _.
      - destruct (strip "/" base); [|done]. by injection Hbase as <- _. }
    assert (p = ("", path)) as ->.
    { repeat (apply elem_of_cons in Hpath as [->|Hpath]; [by vm_compute in Hp; injection Hp as <-|]).
      by apply elem_of_nil in Hpath. }
    cbn [snd]. change (strip "http://" ("http://" +:+ host +:+ path)) with (Some (host +:+ path)).
    cbv beta iota.
    repeat (apply elem_of_cons in Hpath as [->|Hpath]; [by apply from_slash_host|]).
    by apply elem_of_nil in Hpath.
  - intros path Hpath.
    repeat (apply elem_of_cons in Hpath as [->|Hpath]; [by eexists; vm_compute|]).
    by apply elem_of_nil in Hpath.
Qed.

#[local] Instance test_texts : ErrorTexts := {| library_text _ := "library error" |}.

Definition client_request : WithdrawRequest :=
  mkWithdrawRequest 7 "client" 50000 600 "" (JObj [("for", JStr "alice")]).

Definition client_side : Client := NewClient "http://gateway:8000".

Section ClientRuns.
Context (faults : nat -> fault).
#[local] Instance client_env : Env := test_env faults.
#[local] Existing Instance PostgresStorage.
#[local] Existing Instance PostgresEvents.
#[local] Existing Instance test_urls.
#[local] Existing Instance test_config.
#[local] Instance client_node : NodeAPI :=
  test_node [] (mkGetTransactionResult "h" "" 0 "") 100000 100000 (Ok "hash").
#[local] Instance client_http : HTTPClient := test_http 200.
#[local] Instance client_backoff : BrokerConfig := test_broker_config 1.

Definition client_run : outcome WithdrawRequest * World :=
  Withdraw_client (CT := ServedBy false) client_side client_request init_world.

Definition server_run : outcome WithdrawRequest * World :=
  withdraw_request false false client_request init_world.

Definition required_run : outcome BTCAmount * World :=
  GetRequiredFromColdStorage_client (CT := ServedBy false) client_side init_world.

Definition wallet_required_run : outcome BTCAmount * World :=
  GetMoneyRequiredFromColdStorage_wallet init_world.
End ClientRuns.

Lemma client_withdraws_witness :
  client_run no_fault = (withdrawal_seen (E := test_env no_fault) (server_run no_fault).1,
                         (server_run no_fault).2) /\
  (server_run no_fault).1 = Ok (default_fee_type client_request).
Proof.
  split; [|vm_compute; reflexivity].
  apply (client_withdraws (E := test_env no_fault) (DL := test_decimal_laws)
    (UL := test_uuid_laws) (L := test_urls) false client_side false client_request
    (("gateway:8000", "") : @URL test_urls) init_world); [vm_compute; reflexivity|].
  split; [split; vm_compute; congruence|]. split; [split; vm_compute; congruence|]. reflexivity.
Defined.

(** The statement that reads the amount fails. *)
Section FailingRead.
#[local] Instance failing_env : Env := test_env (faults_at [(0%nat, FaultBefore)]).
#[local] Existing Instance PostgresStorage.
#[local] Existing Instance PostgresEvents.
#[local] Existing Instance test_config.
#[local] Existing Instance client_node.

Lemma client_required_money_witness :
  (required_run (faults_at [(0%nat, FaultBefore)])).1 = Err (ErrMsg "can't convert to decimal") /\
  (wallet_required_run (faults_at [(0%nat, FaultBefore)])).1 = Err ErrDB.
Proof.
  assert (T := client_required_money (DL := test_decimal_laws) (L := test_urls) false client_side
    (("gateway:8000", "") : @URL test_urls) init_world).
  split; [|vm_compute; reflexivity]. refine (eq_trans (f_equal fst (T _ _ _)) _);
    [reflexivity | reflexivity | | reflexivity].
  intros a Ha. discriminate (eq_trans (eq_sym Ha)
    (eq_refl : (wallet_required_run (faults_at [(0%nat, FaultBefore)])).1 = Err ErrDB)).
Defined.
End FailingRead.
