(* ===== verification/ClientEvents.v ===== *)
(** * Events through a websocket and the calls of the API: what the server writes, the
    Go client reads *)
From Stdlib Require Import Ascii.
From S2P Require Import Prelude.
From S2P Require Import Go.
From S2P Require Import Json.
From S2P Require Import JsonText.
From S2P Require Import Bitcoin.
From S2P Require Import TxTypes.
From S2P Require Import EventTypes.
From S2P Require Import World.
From S2P Require Import Effects.
From S2P Require Import Storage.
From S2P Require Import WalletStorage.
From S2P Require Import EventStorage.
From S2P Require Import PgWallet.
From S2P Require Import Broadcaster.
From S2P Require Import Broker.
From S2P Require Import NodeAPI.
From S2P Require Import WalletBase.
From S2P Require Import Api.
From S2P Require Import Pending.
From S2P Require Import Client.
From S2P Require Import ClientProps.
From S2P Require Import TestEnv.
Local Open Scope Z_scope.

Section Readable.
Context {D : DecimalLib} {DL : DecimalLaws D} {U : UuidLib} {UL : UuidLaws U}.

(** The data that the wallet gives to an event of a type *)
Definition data_fits (et : EventType) (d : EventData) : Prop :=
  match d with
  | DataAccount a => et = NewAddressEvent /\ is_go_map (acc_Metainfo a)
  | DataTxNotification n | DataTxNotificationPtr n =>
      et <> NewAddressEvent /\ et <> InvalidEvent /\ notification_in_range n
  | DataGeneric _ => False
  end.

Definition readable (n : NotificationWithSeq) : Prop :=
  data_fits (ns_Type n) (ns_Data n) /\ is_i64 (ns_Seq n) /\
  json_ok (EventData_MarshalJSON (ns_Data n)) = true.

(** What a reader has of it: a pointer, to what JSON shows of a transaction *)
Definition read_data (d : EventData) : EventData :=
  match d with
  | DataTxNotification n | DataTxNotificationPtr n =>
      DataTxNotificationPtr
        (mkTxNotification (json_visible (tn_Transaction n)) (tn_StatusCode n)
           (tn_StatusStr n) (tn_IpnType n) (tn_Currency n) (tn_IpnID n) (tn_Seq n))
  | d => d
  end.

Definition as_read (n : NotificationWithSeq) : NotificationWithSeq :=
  mkNotificationWithSeq (mkNotification (ns_Type n) (read_data (ns_Data n))) (ns_Seq n).

Lemma account_json_roundtrip a :
  is_go_map (acc_Metainfo a) -> Account_UnmarshalJSON (Account_MarshalJSON a) = Ok a.
Proof.
  intros H. destruct a as [address metainfo]. unfold Account_UnmarshalJSON, Account_MarshalJSON.
  cbn [unmarshal_object mbind outcome_bind acc_Address acc_Metainfo].
  erewrite (field_or_get _ _ "address") by reflexivity. cbn [mbind outcome_bind].
  by erewrite (field_or_get _ _ "metainfo") by (reflexivity || exact H).
Qed.

Lemma data_json_roundtrip et d :
  data_fits et d ->
  genericNotificationData_UnmarshalJSON et (EventData_MarshalJSON d) = Ok (read_data d).
Proof.
  assert (Hn : forall n, et <> NewAddressEvent -> et <> InvalidEvent -> notification_in_range n ->
    genericNotificationData_UnmarshalJSON et (TxNotification_MarshalJSON n) =
    Ok (read_data (DataTxNotification n))).
  { intros n Ha Hi Hn. unfold genericNotificationData_UnmarshalJSON.
    destruct et; try done; cbv [notificationUnmarshalers];
      by rewrite (notification_json_roundtrip n Hn). }
  destruct d as [a|n|n|j]; simpl data_fits; simpl EventData_MarshalJSON.
  - intros [-> Hm]. unfold genericNotificationData_UnmarshalJSON. cbv [notificationUnmarshalers].
    by rewrite account_json_roundtrip.
  - naive_solver.
  - naive_solver.
  - done.
Qed.

Lemma event_json_roundtrip n :
  readable n -> NotificationWithSeq_UnmarshalJSON (NotificationWithSeq_MarshalJSON n) = Ok (as_read n).
Proof.
  intros (Hd & Hs & _). unfold NotificationWithSeq_UnmarshalJSON, NotificationWithSeq_MarshalJSON.
  set (d := EventData_MarshalJSON _). cbn [unmarshal_object mbind outcome_bind].
  assert (Ht : EventType_UnmarshalJSON (EventType_MarshalJSON (ns_Type n)) = Ok (ns_Type n)).
  { apply EventTypeFromString_String. 
    destruct (ns_Data n); [destruct Hd as [-> _]| | |]; try done; by destruct Hd as (_ & ? & _). }
  erewrite (field_or_get _ _ "type") by (reflexivity || exact Ht). cbn [mbind outcome_bind].
  erewrite (field_or_get _ _ "seq") by (reflexivity || by apply unmarshal_int_itoa).
  cbn [mbind outcome_bind].
  erewrite (field_or_get _ _ "data") by (reflexivity || by apply data_json_roundtrip).
  reflexivity.
Qed.

Lemma event_text_ok n : readable n -> json_ok (NotificationWithSeq_MarshalJSON n) = true.
Proof.
  intros (_ & _ & Hj). unfold NotificationWithSeq_MarshalJSON. simpl. rewrite Hj. simpl.
  by rewrite number_ok_itoa.
Qed.

Lemma parse_message j : json_ok j = true -> parse_first (message_text j) = Some j.
Proof. intros Hj. apply parse_first_text; [done|]. split; [done|]. by apply (bool_decide_unpack _). Qed.

Lemma message_read n :
  readable n ->
  (j ← of_option ErrJSON (parse_first (message_text (NotificationWithSeq_MarshalJSON n)));
   NotificationWithSeq_UnmarshalJSON j) = Ok (as_read n).
Proof.
  intros Hn. rewrite parse_message by by apply event_text_ok. by apply event_json_roundtrip.
Qed.

Lemma read_one text rest n :
  (j ← of_option ErrJSON (parse_first text); NotificationWithSeq_UnmarshalJSON j) = Ok n ->
  read_notifications (Ok text :: rest) = n :: read_notifications rest.
Proof. intros H. cbn [read_notifications mbind outcome_bind] in *. by rewrite H. Qed.

Definition event_message (n : NotificationWithSeq) : string :=
  message_text (NotificationWithSeq_MarshalJSON n).

Lemma read_notifications_written events :
  Forall readable events ->
  read_notifications ((fun n => Ok (event_message n)) <$> events) = as_read <$> events.
Proof.
  induction 1 as [|n events Hn Hev IH]; [done|]. rewrite !fmap_cons.
  rewrite (read_one _ _ _ (message_read n Hn)). by rewrite IH.
Qed.

Lemma read_subscription text m :
  (j ← of_option ErrJSON (parse_first text); SubscribeMessage_UnmarshalJSON j) = Ok m ->
  readSeqFromClient (Ok text) = Ok m.
Proof. intros H. exact H. Qed.

Lemma subscribe_json_roundtrip seq :
  is_i64 seq ->
  SubscribeMessage_UnmarshalJSON (SubscribeMessage_MarshalJSON (mkSubscribe seq)) =
  Ok (mkSubscribe seq).
Proof.
  intros Hs. unfold SubscribeMessage_UnmarshalJSON, SubscribeMessage_MarshalJSON.
  set (j := JObj _). assert (struct_field "seq" j = JNum (itoa seq)) as -> by reflexivity.
  by rewrite unmarshal_int_itoa.
Qed.

Lemma subscription_read seq :
  is_i64 seq -> readSeqFromClient (Ok (subscribe_text seq)) = Ok (mkSubscribe seq).
Proof.
  intros Hs. apply read_subscription. unfold subscribe_text. rewrite parse_message.
  - by apply subscribe_json_roundtrip.
  - unfold SubscribeMessage_MarshalJSON. simpl. by rewrite number_ok_itoa.
Qed.

End Readable.

(** ** The session *)
Section Session.
Context {E : Env} {ST : Storage} {ES : EventStorage}.
Context {DL : DecimalLaws env_decimal} {UL : UuidLaws env_uuidlib}.

Lemma ws_loop_batch ch batch queue turns written w :
  bp_chans (broker_proc w) !! ch = Some (mkChannel (batch :: queue) false) ->
  ws_loop ch (WsBatch None :: turns) written w =
  ws_loop ch turns (written ++ batch)
    (set_broker_proc (set_chans (<[ch := mkChannel queue false]> (bp_chans (broker_proc w)))
                        (broker_proc w)) w).
Proof.
  intros Hch. cbn [ws_loop]. unfold receive, upd_broker, modify, gets, mbind, M_bind, mret, M_ret.
  by rewrite Hch.
Qed.

(** The turns that take everything out of the channel *)
Lemma ws_loop_drains ch queue : forall written w,
  bp_chans (broker_proc w) !! ch = Some (mkChannel queue false) ->
  exists w', ws_loop ch (replicate (length queue) (WsBatch None)) written w =
               (Ok (written ++ concat queue), w') /\
             bp_chans (broker_proc w') !! ch = Some (mkChannel [] false) /\
             committed w' = committed w /\ trace w' = trace w.
Proof.
  induction queue as [|batch queue IH]; intros written w Hch.
  - exists w. by rewrite app_nil_r.
  - simpl replicate. rewrite (ws_loop_batch _ batch queue) by done.
    destruct (IH (written ++ batch) (set_broker_proc (set_chans
      (<[ch := mkChannel queue false]> (bp_chans (broker_proc w))) (broker_proc w)) w))
      as (w' & Hr & Hq & Hc & Ht); [by destruct w; apply lookup_insert_eq|].
    exists w'. rewrite Hr, <- app_assoc. split_and!; [done|done|..].
    + rewrite Hc. by destruct w.
    + rewrite Ht. by destruct w.
Qed.

(** The form in which the broker has a stored event: its data are JSON. *)
Definition as_stored (n : NotificationWithSeq) : NotificationWithSeq :=
  mkNotificationWithSeq
    (mkNotification (ns_Type n) (DataGeneric (EventData_MarshalJSON (ns_Data n)))) (ns_Seq n).

Lemma stored_message n : event_message (as_stored n) = event_message n.
Proof. reflexivity. Qed.


End Session.

(** ** Witness *)
Section SessionWitness.
#[local] Instance session_env : Env := test_env no_fault.
#[local] Existing Instance PostgresEvents.

Definition session_events : list NotificationWithSeq :=
  [ mkNotificationWithSeq (mkNotification NewAddressEvent
      (DataAccount (mkAccount "ours" (JObj [("user", JStr "alice")])))) 1;
    mkNotificationWithSeq (mkNotification NewOutgoingTxEvent
      (DataTxNotificationPtr (mkTxNotification (test_tx 7 "client" 50000) 0 "new" "withdrawal"
        "BTC" "7" 0))) 2 ].

Definition session_world : World :=
  set_broker_proc (set_chans {[ 0%nat := mkChannel [as_stored <$> session_events] false ]}
                     (broker_proc init_world)) init_world.


End SessionWitness.

(** ** The other calls of the client, through the server *)
Inductive ClientCall :=
| CallNewWallet (metainfo : option json)
| CallHotAddress
| CallBalance
| CallRequired
| CallCancel (id : UUID)
| CallConfirm (id : UUID)
| CallMute (id : UUID)
| CallMuteCurrent
| CallEvents (seq : Z)
| CallTransactions (filter : GetTransactionsFilter).

(** What the wallet or the broker returns, and what the client returns *)
Definition ServerResult (c : ClientCall) : Type :=
  match c with
  | CallNewWallet _ => Account
  | CallHotAddress => string
  | CallBalance => BalanceInfo
  | CallRequired => BTCAmount
  | CallCancel _ | CallConfirm _ | CallMute _ | CallMuteCurrent => unit
  | CallEvents _ => list NotificationWithSeq
  | CallTransactions _ => list Transaction
  end.

Definition ClientResult (c : ClientCall) : Type :=
  match c with
  | CallEvents _ => option (list (option NotificationWithSeq))
  | CallTransactions _ => option (list (option Transaction))
  | c => ServerResult c
  end.

Section Calls.
Context {E : Env} {ST : Storage} {ES : EventStorage} {N : NodeAPI} {CFG : WalletConfig}.
Context {DL : DecimalLaws env_decimal} {UL : UuidLaws env_uuidlib}.
Context {HC : HTTPClient} {BCFG : BrokerConfig} {T : ErrorTexts} {L : UrlLib}.
Context (allow : bool) (cli : Client).
#[local] Instance calls_served : ClientTransport := ServedBy allow.

Definition server_side (c : ClientCall) : M (ServerResult c) :=
  match c with
  | CallNewWallet metainfo => CreateAccount (default JNull metainfo)
  | CallHotAddress => GetHotWalletAddress_wallet
  | CallBalance => '(balance, unconf) ← GetBalance; mret (mkBalanceInfo balance unconf)
  | CallRequired => GetMoneyRequiredFromColdStorage_wallet
  | CallCancel id => CancelPendingTx id
  | CallConfirm id => ConfirmPendingTransaction id
  | CallMute id => MuteEventsWithTxID_broker id
  | CallMuteCurrent => MuteEventsWithTxID_broker uuid_Nil
  | CallEvents seq => GetEventsFromSeq_broker seq
  | CallTransactions f =>
      txns ← GetTransactionsWithFilter_wallet (filter_Direction f) (filter_Status f);
      mapM_list load txns
  end.

Definition client_side_call (c : ClientCall) : M (ClientResult c) :=
  match c with
  | CallNewWallet metainfo => NewWallet_client cli metainfo
  | CallHotAddress => GetHotStorageAddress cli
  | CallBalance => GetBalance_client cli
  | CallRequired => GetRequiredFromColdStorage_client cli
  | CallCancel id => Cancel cli id
  | CallConfirm id => Confirm cli id
  | CallMute id => MuteEventsForTxID cli (uuid_String id)
  | CallMuteCurrent => MuteEventsForTxID cli "current_problematic"
  | CallEvents seq => GetEvents cli seq
  | CallTransactions f => GetTransactions cli f
  end.

(** Arguments that have a JSON form *)
Definition call_ok (c : ClientCall) : Prop :=
  match c with
  | CallNewWallet (Some j) => is_go_map j /\ json_ok j = true
  | CallMute id => uuid_String id <> "current_problematic"
  | CallEvents seq => is_i64 seq
  | _ => True
  end.

(** Results that have one: amounts of 64 bits, maps, events of the wallet as they are stored,
    well-typed transactions *)
Definition result_ok (c : ClientCall) : ServerResult c -> Prop :=
  match c with
  | CallNewWallet _ => fun a => is_go_map (acc_Metainfo a) /\ json_ok (acc_Metainfo a) = true
  | CallBalance => fun b => is_u64 (bi_Balance b) /\ is_u64 (bi_BalanceWithUnconf b)
  | CallRequired => fun n => is_u64 n
  | CallEvents _ => fun evs => exists events, evs = as_stored <$> events /\ Forall readable events
  | CallTransactions _ => Forall (fun tx => tx_in_range tx /\ tx_Status tx <> InvalidTransaction /\
                                            json_ok (tx_Metainfo tx) = true)
  | _ => fun _ => True
  end.

(** The client has the same; of events and transactions what JSON shows. *)
Definition same_result (c : ClientCall) : ServerResult c -> ClientResult c -> Prop :=
  match c with
  | CallEvents _ => fun evs r => forall events, evs = as_stored <$> events -> Forall readable events ->
      r = Some ((fun e => Some (as_read e)) <$> events)
  | CallTransactions _ => fun txs r => r = Some ((fun tx => Some (without_hidden_fields tx)) <$> txs)
  | _ => fun a r => r = a
  end.

(** Without a result the client returns what it has, with an error *)
Definition failed_call (c : ClientCall) (e : error) (r : outcome (ClientResult c)) : Prop :=
  match c with
  | CallRequired => r = Err (ErrMsg "can't convert to decimal")
  | _ => error_Error e <> "ok" -> r = Err (ErrMsg (error_Error e))
  end.

(** A handler that answers with the result of an operation, seen from the client *)
Lemma respond_served {A B} {laws : UrlLaws L client_paths} path request (zero : B) resultCb b handler
    (marshal : A -> json) (m : M A) w :
  path ∈ client_paths -> url_Parse (apiBaseURL cli) = Ok b -> serve allow path = Some handler ->
  handler (Some match request with Some j => json_text j | None => "" end) w = respond_with marshal m w ->
  (forall a w', m w = (Ok a, w') -> json_ok (marshal a) = true) ->
  sendHTTPAPIRequest cli path request zero resultCb w =
  (match (m w).1 with
   | Ok a => resultCb (marshal a)
   | Err e => r ← resultCb JNull; if decide (error_Error e <> "ok") then Err (ErrMsg (error_Error e)) else Ok r
   | Panic _ => Err ErrTransport
   end, (m w).2).
Proof.
  intros Hpath Hb Hserve Hh Hok.
  etrans; [by apply (served_call allow cli _ _ _ _ b handler)|]. rewrite Hh.
  unfold respond_with, mbind at 1, M_bind at 1, try.
  destruct (m w) as [[a|e|p] w'] eqn:Hm; unfold mret, M_ret; cbn [fst snd]; [| |done]; f_equal.
  - rewrite decode_response_text by by eapply Hok. cbn [respond resp_result resp_error].
    by destruct (resultCb (marshal a)).
  - by rewrite decode_response_text.
Qed.

(** ** One call at a time *)
Definition agrees (c : ClientCall) (w : World) : Prop :=
  (client_side_call c w).2 = (server_side c w).2 /\
  match (server_side c w).1 with
  | Ok a => exists r, (client_side_call c w).1 = Ok r /\ same_result c a r
  | Err e => failed_call c e (client_side_call c w).1
  | Panic _ => (client_side_call c w).1 = Err ErrTransport
  end.

Lemma unmarshal_ptrs_list {A B} (dec : json -> outcome B) (f : A -> json) (g : A -> B) l :
  Forall (fun x => dec (f x) = Ok (g x) /\ f x <> JNull) l ->
  unmarshal_ptrs dec (JArr (f <$> l)) = Ok (Some ((fun x => Some (g x)) <$> l)).
Proof.
  intros Hl. unfold unmarshal_ptrs. rewrite <- list_fmap_compose.
  assert (all_Ok ((unmarshal_ptr dec ∘ f) <$> l) = Ok ((fun x => Some (g x)) <$> l)) as ->; [|done].
  induction Hl as [|x l [Hd Hn] _ IH]; [done|]. rewrite !fmap_cons. cbn [all_Ok].
  assert ((unmarshal_ptr dec ∘ f) x = Ok (Some (g x))) as ->.
  { unfold compose, unmarshal_ptr. destruct (f x); try done; by rewrite Hd. }
  cbn [mbind outcome_bind]. by rewrite IH.
Qed.

Lemma mapM_load {B} (f : Transaction -> B) ls w :
  mapM_list (fun l => tx ← load l; mret (f tx)) ls w =
  (match (mapM_list load ls w).1 with
   | Ok txs => Ok (f <$> txs) | Err e => Err e | Panic p => Panic p
   end, (mapM_list load ls w).2).
Proof.
  revert w. induction ls as [|l ls IH]; intros w; [done|]. cbn [mapM_list].
  unfold mbind, M_bind, mret, M_ret in *. destruct (load l w) as [[tx|e|p] w1]; [|done..].
  rewrite IH. by destruct (mapM_list load ls w1) as [[txs|e|p] w2].
Qed.

Lemma quoted_text (s : string) : json_text (JStr s) = quote s.
Proof. reflexivity. Qed.

Lemma nonempty_text j : json_ok j = true -> json_text j <> "".
Proof. intros Hj%length_text_pos Hn. rewrite Hn in Hj. simpl in Hj. lia. Qed.

Lemma balance_json_roundtrip bi :
  is_u64 (bi_Balance bi) -> is_u64 (bi_BalanceWithUnconf bi) ->
  BalanceInfo_UnmarshalJSON (BalanceInfo_MarshalJSON bi) = Ok bi.
Proof.
  intros Ha Hb. destruct bi as [a b]. unfold BalanceInfo_UnmarshalJSON, BalanceInfo_MarshalJSON. simpl in *.
  set (ja := BTCAmount_MarshalJSON a). set (jb := BTCAmount_MarshalJSON b).
  assert (Hja : BTCAmount_UnmarshalJSON ja = Ok a) by by apply BTCAmount_json_roundtrip.
  assert (Hjb : BTCAmount_UnmarshalJSON jb = Ok b) by by apply BTCAmount_json_roundtrip.
  clearbody ja jb. set (j := JObj _).
  assert (field_with 0 BTCAmount_UnmarshalJSON "balance" j = BTCAmount_UnmarshalJSON ja) as -> by reflexivity.
  assert (field_with 0 BTCAmount_UnmarshalJSON "balance_including_unconfirmed" j = BTCAmount_UnmarshalJSON jb) as ->
    by reflexivity.
  by rewrite Hja, Hjb.
Qed.

Lemma transaction_text_ok tx :
  json_ok (tx_Metainfo tx) = true -> json_ok (Transaction_MarshalJSON tx) = true.
Proof. intros Hm. unfold Transaction_MarshalJSON. simpl. by rewrite Hm, number_ok_itoa. Qed.

Section Agree.
Context {laws : UrlLaws L client_paths} (b : URL) (Hb : url_Parse (apiBaseURL cli) = Ok b).

(** Calls whose answer has no result *)
Lemma unit_call path request handler (m : M unit) w :
  path ∈ client_paths -> serve allow path = Some handler ->
  handler (Some (json_text request)) w = respond_with null_result m w ->
  let r := sendHTTPAPIRequest cli path (Some request) tt no_result w in
  r.2 = (m w).2 /\
  match (m w).1 with
  | Ok a => exists u, r.1 = Ok u /\ u = a
  | Err e => error_Error e <> "ok" -> r.1 = Err (ErrMsg (error_Error e))
  | Panic _ => r.1 = Err ErrTransport
  end.
Proof.
  intros Hpath Hserve Hh r. subst r.
  rewrite (respond_served path (Some request) tt no_result b handler null_result m) by done.
  split; [done|]. cbn [fst]. destruct (m w) as [[[]|e|p] w'] eqn:Hm; cbn [fst].
  - by exists tt.
  - intros He. cbn [no_result mbind outcome_bind]. by rewrite decide_True.
  - done.
Qed.

Lemma id_call_agrees c w :
  match c with CallCancel _ | CallConfirm _ | CallMute _ | CallMuteCurrent => True | _ => False end ->
  call_ok c -> agrees c w.
Proof.
  intros Hc Hok. assert (Hid : forall id, parse_json (quote (uuid_String id)) = Some (JStr (uuid_String id)))
    by (intros id; rewrite <- quoted_text; by apply parse_json_text).
  destruct c; try done; unfold agrees; cbn [client_side_call server_side same_result failed_call].
  - apply unit_call with (handler := cancelPending); [known_path | by destruct allow |].
    unfold cancelPending, with_id. rewrite quoted_text. cbn [of_option mbind outcome_bind].
    rewrite Hid. cbn [of_option mbind outcome_bind]. by rewrite uuid_json_roundtrip.
  - apply unit_call with (handler := confirmPendingTransaction); [known_path | by destruct allow |].
    unfold confirmPendingTransaction, with_id. rewrite quoted_text. cbn [of_option mbind outcome_bind].
    rewrite Hid. cbn [of_option mbind outcome_bind]. by rewrite uuid_json_roundtrip.
  - apply unit_call with (handler := muteEvents); [known_path | by destruct allow |].
    unfold muteEvents. cbn [of_option mbind outcome_bind].
    rewrite decide_False.
    + rewrite quoted_text, Hid. cbn [of_option mbind outcome_bind]. by rewrite uuid_json_roundtrip.
    + intros Heq. apply Hok.
      assert (Hp : parse_json (json_text (JStr (uuid_String id))) = parse_json (json_text (JStr "current_problematic")))
        by by rewrite Heq.
      rewrite !parse_json_text in Hp by done. congruence.
  - apply unit_call with (handler := muteEvents); [known_path | by destruct allow |].
    unfold muteEvents. cbn [of_option mbind outcome_bind]. by rewrite decide_True.
Qed.

(** Calls whose result is decoded; a null result decodes too *)
Lemma value_call {A B} path request (zero r0 : B) resultCb handler (marshal : A -> json) (view : A -> B)
    (m : M A) w :
  path ∈ client_paths -> serve allow path = Some handler ->
  handler (Some match request with Some j => json_text j | None => "" end) w = respond_with marshal m w ->
  (forall a w', m w = (Ok a, w') -> json_ok (marshal a) = true /\ resultCb (marshal a) = Ok (view a)) ->
  resultCb JNull = Ok r0 ->
  let r := sendHTTPAPIRequest cli path request zero resultCb w in
  r.2 = (m w).2 /\
  match (m w).1 with
  | Ok a => r.1 = Ok (view a)
  | Err e => error_Error e <> "ok" -> r.1 = Err (ErrMsg (error_Error e))
  | Panic _ => r.1 = Err ErrTransport
  end.
Proof.
  intros Hpath Hserve Hh Hres Hnull r. subst r.
  rewrite (respond_served path request zero resultCb b handler marshal m);
    [|done..| intros a w' Hm; by eapply Hres].
  split; [done|]. cbn [fst]. destruct (m w) as [[a|e|p] w'] eqn:Hm; cbn [fst].
  - by apply (Hres a w').
  - intros He. rewrite Hnull. cbn [mbind outcome_bind]. by rewrite decide_True.
  - done.
Qed.

(** [value_call], when the result is the server's *)
Lemma value_agrees c view w (r0 : ClientResult c) resultCb marshal path request handler zero :
  client_side_call c = sendHTTPAPIRequest cli path request zero resultCb ->
  path ∈ client_paths -> serve allow path = Some handler ->
  handler (Some match request with Some j => json_text j | None => "" end) w =
    respond_with marshal (server_side c) w ->
  (forall a w', server_side c w = (Ok a, w') ->
     json_ok (marshal a) = true /\ resultCb (marshal a) = Ok (view a) /\ same_result c a (view a)) ->
  resultCb JNull = Ok r0 -> (forall e r, (error_Error e <> "ok" -> r = Err (ErrMsg (error_Error e))) -> failed_call c e r) ->
  agrees c w.
Proof.
  intros Hc Hpath Hserve Hh Hres Hnull Hfail. unfold agrees. rewrite Hc.
  destruct (value_call path request zero r0 resultCb handler marshal view (server_side c) w Hpath Hserve Hh)
    as [H2 H1]; [intros a w' Ha; destruct (Hres a w' Ha) as (? & ? & ?); by split | done |].
  split; [exact H2|]. destruct (server_side c w) as [[a|e|p] w'] eqn:Hs; cbn [fst] in *.
  - exists (view a). split; [exact H1|]. by apply (Hres a w').
  - by apply Hfail.
  - done.
Qed.

Lemma value_calls_agree c w :
  match c with CallNewWallet _ | CallHotAddress | CallBalance => True | _ => False end ->
  call_ok c -> (forall a w', server_side c w = (Ok a, w') -> result_ok c a) -> agrees c w.
Proof.
  intros Hc Hok Hres. destruct c; try done; simpl in Hok.
  - eapply (value_agrees (CallNewWallet metainfo) (fun a => a)) with (handler := newBitcoinAddress);
      [reflexivity | known_path | by destruct allow | | | reflexivity | done].
    + unfold newBitcoinAddress, server_side. destruct metainfo as [j|]; [|done]. destruct Hok as [Hm Hj].
      rewrite decide_False by by apply nonempty_text. rewrite parse_json_text by done.
      cbn [of_option mbind outcome_bind default]. by rewrite Hm.
    + intros a w' Ha. destruct (Hres a w' Ha) as [Hm Hj]. split; [simpl; by rewrite Hj|].
      split; [by apply account_json_roundtrip | done].
  - eapply (value_agrees CallHotAddress (fun a => a)) with (handler := getHotStorageAddress);
      [reflexivity | known_path | by destruct allow | done | done | reflexivity | done].
  - eapply (value_agrees CallBalance (fun a => a)) with (handler := getBalance);
      [reflexivity | known_path | by destruct allow | done | | reflexivity | done].
    intros a w' Ha. destruct (Hres a w' Ha) as [H1 H2]. split; [done|].
    split; [by apply balance_json_roundtrip | done].
Qed.

Lemma events_agree seq w :
  is_i64 seq -> (forall a w', GetEventsFromSeq_broker seq w = (Ok a, w') -> result_ok (CallEvents seq) a) ->
  agrees (CallEvents seq) w.
Proof.
  intros Hok Hres.
  assert (Hread : forall events, Forall readable events ->
    unmarshal_ptrs NotificationWithSeq_UnmarshalJSON (JArr (NotificationWithSeq_MarshalJSON <$> (as_stored <$> events))) =
    Ok (Some ((fun e => Some (as_read e)) <$> events))).
  { intros events Hev. rewrite <- list_fmap_compose. apply unmarshal_ptrs_list.
    eapply Forall_impl; [exact Hev|]. intros e He. split; [|done].
    change (NotificationWithSeq_UnmarshalJSON (NotificationWithSeq_MarshalJSON e) = Ok (as_read e)).
    by apply event_json_roundtrip. }
  set (dec := unmarshal_ptrs NotificationWithSeq_UnmarshalJSON) in *.
  set (marshal := fun evs => JArr (NotificationWithSeq_MarshalJSON <$> evs)).
  eapply (value_agrees (CallEvents seq) (fun evs => match dec (marshal evs) with Ok r => r | _ => None end))
    with (handler := getEvents) (marshal := marshal) (request := Some (SubscribeMessage_MarshalJSON (mkSubscribe seq)));
    [reflexivity | known_path | by destruct allow | | | reflexivity | done].
  - assert (Hj : json_ok (SubscribeMessage_MarshalJSON (mkSubscribe seq)) = true)
      by (simpl; by rewrite number_ok_itoa).
    unfold getEvents. cbn [of_option mbind outcome_bind]. rewrite decide_False by by apply nonempty_text.
    rewrite parse_json_text by done. cbn [of_option mbind outcome_bind].
    rewrite subscribe_json_roundtrip by done. reflexivity.
  - intros evs w' Hr. destruct (Hres evs w' Hr) as (events & -> & Hev).
    assert (Hd : dec (marshal (as_stored <$> events)) = Ok (Some ((fun e => Some (as_read e)) <$> events)))
      by exact (Hread events Hev).
    rewrite Hd. split; [|split; [exact Hd|]].
    + simpl. apply forallb_forall. intros j Hj%list_elem_of_In.
      rewrite <- list_fmap_compose in Hj. apply list_elem_of_fmap in Hj as (e & -> & He).
      rewrite Forall_forall in Hev.
      change (json_ok (NotificationWithSeq_MarshalJSON e) = true). by apply event_text_ok, Hev.
    + intros events' Heq Hev'. pose proof (Hread events' Hev') as H'. rewrite <- Heq, (Hread events Hev) in H'.
      by injection H' as ->.
Qed.

Lemma filter_json_roundtrip f :
  json_ok (filter_MarshalJSON f) = true /\ filter_UnmarshalJSON (filter_MarshalJSON f) = Ok f.
Proof.
  destruct f as [d st]. unfold filter_MarshalJSON, omitempty. simpl.
  repeat case_bool_decide; subst; split; reflexivity.
Qed.

Lemma transactions_agree f w :
  (forall a w', server_side (CallTransactions f) w = (Ok a, w') -> result_ok (CallTransactions f) a) ->
  agrees (CallTransactions f) w.
Proof.
  intros Hres. destruct (filter_json_roundtrip f) as [Hj Hf].
  eapply (value_agrees (CallTransactions f) (fun txs => Some ((fun tx => Some (without_hidden_fields tx)) <$> txs)))
    with (handler := getTransactions) (marshal := fun txs => JArr (Transaction_MarshalJSON <$> txs))
         (request := Some (filter_MarshalJSON f));
    [reflexivity | known_path | by destruct allow | | | reflexivity | done].
  - unfold getTransactions. cbn [of_option mbind outcome_bind]. rewrite decide_False by by apply nonempty_text.
    rewrite parse_json_text by done. cbn [of_option mbind outcome_bind]. rewrite Hf.
    unfold respond_with, server_side. unfold mbind, M_bind, try.
    destruct (GetTransactionsWithFilter_wallet _ _ w) as [[ls|e|p] w1]; [|done..].
    pose proof (mapM_load Transaction_MarshalJSON ls w1) as Hm. unfold mbind, M_bind in Hm. rewrite Hm.
    by destruct (mapM_list load ls w1) as [[txs|e|p] w2].
  - intros txs w' Hr. pose proof (Hres txs w' Hr) as Hok. simpl in Hok. split; [|split; [|done]].
    + simpl. apply forallb_forall. intros j Hjj%list_elem_of_In.
      apply list_elem_of_fmap in Hjj as (tx & -> & Htx). rewrite Forall_forall in Hok.
      by apply transaction_text_ok, Hok.
    + apply unmarshal_ptrs_list. eapply Forall_impl; [exact Hok|]. intros tx (Hr1 & Hr2 & _).
      split; [by apply transaction_json_roundtrip | done].
Qed.

End Agree.

(** C8: Every other call of the Go client, through the server and both JSON texts, is the
    operation of the wallet or the broker behind it: it has its effects and its result (of
    events and transactions what their JSON form shows), and a failure arrives as an error
    with its text, except that of the required money, whose answer's null result does not
    decode as an amount and hides it; a handler that panics closes the connection. *)
Theorem client_calls {laws : UrlLaws L client_paths} (b : URL) (c : ClientCall) (w : World)
    (Hb : url_Parse (apiBaseURL cli) = Ok b) (Hempty : dec_NewFromString "" = None) (Hargs : call_ok c)
    (Hres : forall a w', server_side c w = (Ok a, w') -> result_ok c a) :
  (client_side_call c w).2 = (server_side c w).2 /\
  match (server_side c w).1 with
  | Ok a => exists r, (client_side_call c w).1 = Ok r /\ same_result c a r
  | Err e => failed_call c e (client_side_call c w).1
  | Panic _ => (client_side_call c w).1 = Err ErrTransport
  end.
Proof.
  change (agrees c w). destruct c; try (by apply (value_calls_agree b)); try (by apply (id_call_agrees b));
    [|by apply (events_agree b) | by apply (transactions_agree b)].
  unfold agrees. cbn [client_side_call server_side].
  assert (Hm : GetRequiredFromColdStorage_client cli w =
    (match (GetMoneyRequiredFromColdStorage_wallet w).1 with
     | Ok amount => Ok amount | Err _ => Err (ErrMsg "can't convert to decimal") | Panic _ => Err ErrTransport
     end, (GetMoneyRequiredFromColdStorage_wallet w).2)).
  { apply (client_required_money allow cli b); [done|done|]. intros a Ha.
    apply (Hres a (GetMoneyRequiredFromColdStorage_wallet w).2). simpl.
    destruct (GetMoneyRequiredFromColdStorage_wallet w) as [r w']. simpl in *. by rewrite Ha. }
  rewrite Hm. split; [done|]. cbn [fst].
  destruct (GetMoneyRequiredFromColdStorage_wallet w) as [[a|e|p] w'] eqn:Hr; cbn [fst]; [|done..].
  by exists a.
Qed.

End Calls.

(** An account made through the client, and a withdrawal that cannot be cancelled *)
Section CallsWitness.
#[local] Instance calls_env : Env := test_env no_fault.
#[local] Existing Instance PostgresStorage.
#[local] Existing Instance PostgresEvents.
#[local] Existing Instance test_urls.
#[local] Existing Instance test_urls_laws.
#[local] Existing Instance test_texts.
#[local] Existing Instance test_config.
#[local] Existing Instance client_node.
#[local] Instance calls_http : HTTPClient := test_http 200.
#[local] Instance calls_backoff : BrokerConfig := test_broker_config 1.

Definition new_wallet_call : ClientCall := CallNewWallet (Some (JObj [("user", JStr "alice")])).
Definition called (c : ClientCall) : outcome (ClientResult c) * World :=
  client_side_call false client_side c init_world.
Definition asked (c : ClientCall) : outcome (ServerResult c) * World := server_side c init_world.

Lemma client_calls_witness :
  (exists account, (called new_wallet_call).1 = Ok account /\
     acc_Metainfo account = JObj [("user", JStr "alice")] /\
     length (db_accounts (committed (called new_wallet_call).2)) = 1%nat) /\
  (called (CallCancel 9)).1 = Err (ErrMsg "sql: no rows in result set").
Proof.
  assert (T : forall c, call_ok c -> (forall a w', asked c = (Ok a, w') -> result_ok c a) ->
    (called c).2 = (asked c).2 /\
    match (asked c).1 with
    | Ok a => exists r, (called c).1 = Ok r /\ same_result c a r
    | Err e => failed_call c e (called c).1
    | Panic _ => (called c).1 = Err ErrTransport
    end).
  { intros c. exact (client_calls (DL := test_decimal_laws) (UL := test_uuid_laws) false client_side
      (("gateway:8000", "") : @URL test_urls) c init_world eq_refl eq_refl). }
  assert (Hnew : exists address, (asked new_wallet_call).1 = Ok (mkAccount address (JObj [("user", JStr "alice")])))
    by (eexists; vm_compute; reflexivity).
  assert (Hcount : length (db_accounts (committed (asked new_wallet_call).2)) = 1%nat) by (vm_compute; reflexivity).
  assert (He : (asked (CallCancel 9)).1 = Err ErrNoRows) by (vm_compute; reflexivity).
  destruct Hnew as [address Hnew]. split.
  - destruct (T new_wallet_call) as [Hw Hr].
    + split; reflexivity.
    + intros a w' Ha. rewrite Ha in Hnew. injection Hnew as ->. split; reflexivity.
    + rewrite Hnew in Hr. destruct Hr as (account & Hc & ->). eexists. split; [exact Hc|].
      split; [reflexivity|]. rewrite Hw. exact Hcount.
  - destruct (T (CallCancel 9)) as [_ Hr].
    + exact I.
    + intros a w' _. exact I.
    + rewrite He in Hr. exact (Hr ltac:(discriminate)).
Defined.

End CallsWitness.
