(* ===== verification/CliProps.v ===== *)
(** * Properties of the command-line client *)
From Stdlib Require Import Ascii.
From S2P Require Import Prelude.
From S2P Require Import Go.
From S2P Require Import Json.
From S2P Require Import JsonText.
From S2P Require Import Bitcoin.
From S2P Require Import TxTypes.
From S2P Require Import EventTypes.
From S2P Require Import World.
From S2P Require Import Effects.
From S2P Require Import Storage.
From S2P Require Import WalletStorage.
From S2P Require Import EventStorage.
From S2P Require Import PgWallet.
From S2P Require Import Broadcaster.
From S2P Require Import Broker.
From S2P Require Import NodeAPI.
From S2P Require Import WalletBase.
From S2P Require Import Withdraw.
From S2P Require Import Api.
From S2P Require Import Client.
From S2P Require Import Cli.
From S2P Require Import ClientProps.
From S2P Require Import TestEnv.
Local Open Scope Z_scope.

Section CliServed.
Context {E : Env} {ST : Storage} {ES : EventStorage} {N : NodeAPI} {CFG : WalletConfig}.
Context {DL : DecimalLaws env_decimal} {UL : UuidLaws env_uuidlib} {P : UuidPartial}.
Context {HC : HTTPClient} {BCFG : BrokerConfig} {T : ErrorTexts} {L : UrlLib}.
Context (allow : bool) (apiURL : string).
#[local] Instance cli_served : ClientTransport := ServedBy allow.

(** What the command prints, or dies with *)
Definition shown (r : outcome WithdrawRequest) : outcome string :=
  match r with
  | Ok r => Ok (PrettyPrint (WithdrawRequest_MarshalJSON r))
  | Err e => Panic (error_Error e)
  | Panic p => Panic p
  end.

Lemma showResponse_eq {A} (marshal : A -> json) (call : M A) w r w' :
  call w = (r, w') ->
  showResponse marshal call w =
  (match r with
   | Ok a => Ok (PrettyPrint (marshal a)) | Err e => Panic (error_Error e) | Panic p => Panic p
   end, w').
Proof. unfold showResponse, mbind, M_bind, try. intros ->. by destruct r. Qed.

Lemma amount_arg_Ok what s amount :
  BTCAmountFromStringedFloat s = Ok amount -> amount_arg what s = Ok amount.
Proof. unfold amount_arg. by intros ->. Qed.

Lemma amount_arg_u64 s amount : BTCAmountFromStringedFloat s = Ok amount -> is_u64 amount.
Proof.
  unfold BTCAmountFromStringedFloat. destruct (dec_NewFromString s); [|done].
  intros [= <-]. apply u64_range.
Qed.


End CliServed.

(** ** Witness: a misspelt id, on a server that allows withdrawals without one *)
Definition bad_id_flags : CliFlags :=
  mkCliFlags 0 "" "" ("{" +:+ quote "for" +:+ ":" +:+ quote "alice" +:+ "}") "not-a-uuid" "".

#[local] Instance test_partial : UuidPartial := fun _ => uuid_Nil.
#[local] Existing Instance test_urls.
#[local] Existing Instance test_texts.
#[local] Existing Instance test_urls_laws.

Section CliRuns.
#[local] Instance cli_env : Env := test_env no_fault.
#[local] Existing Instance PostgresStorage.
#[local] Existing Instance PostgresEvents.
#[local] Existing Instance test_config.
#[local] Instance cli_node : NodeAPI := client_node.
#[local] Existing Instance client_http.
#[local] Existing Instance client_backoff.

Definition bad_id_run : outcome string * World :=
  run_withdraw (CT := ServedBy true) "http://gateway:8000" bad_id_flags false
    ["client"; "5e-4"; "6e-6"] init_world.

Definition no_id_request : WithdrawRequest :=
  mkWithdrawRequest uuid_Nil "client" 50000 600 "" (JObj [("for", JStr "alice")]).

Definition no_id_run : outcome WithdrawRequest * World :=
  withdraw_request true false no_id_request init_world.

Definition bad_id_confirm : outcome string * World :=
  run_confirm_cancel (CT := ServedBy true) "http://gateway:8000" "confirm" ["not-a-uuid"] init_world.

End CliRuns.
