(* ===== verification/ProgramProps.v ===== *)
(** * Properties of the settings and of the component runner *)
From Stdlib Require Import SpecFloat.
From S2P Require Import Prelude.
From S2P Require Import Go.
From S2P Require Import Json.
From S2P Require Import Bitcoin.
From S2P Require Import TxTypes.
From S2P Require Import Settings.
From S2P Require Import Program.
From S2P Require Import TestEnv.
Local Open Scope Z_scope.

(** ** Settings *)
Section SettingsProps.
Context {V : ViperLib} {VL : ViperLaws V} {D : DecimalLib} {BU : BtcUtil}.

Definition default_of (key : string) : option SettingValue :=
  snd <$> find_first (fun d => bool_decide (key = d.1)) default_settings.

(** The flag that the command line has for a key *)
Definition flag_of (cli : FlagSet) (key : string) : option Flag :=
  if decide (key = "transaction.callback.url") then cli "transaction-callback-url"
  else if decide (key = "api.http.address") then cli "http-address"
  else if decide (key = "storage.type") then cli "storage-type" else None.

Lemma defaults_set v key :
  v_given (set_defaults v) key = v_given v key /\
  v_flag_default (set_defaults v) key = v_flag_default v key /\
  v_default (set_defaults v) key =
    match default_of key with Some x => Some x | None => v_default v key end.
Proof.
  assert (Hgen : forall l v, NoDup (l.*1) ->
    let v' := foldl (fun v (d : string * SettingValue) => viper_SetDefault d.1 d.2 v) v l in
    v_given v' key = v_given v key /\ v_flag_default v' key = v_flag_default v key /\
    v_default v' key =
      match find_first (fun d => bool_decide (key = d.1)) l with
      | Some d => Some d.2 | None => v_default v key end).
  { induction l as [|[k x] l IH]; intros v0 Hnd; [done|]. rewrite fmap_cons in Hnd.
    apply NoDup_cons in Hnd as [Hk Hnd]. cbn [foldl fst snd].
    destruct (IH (viper_SetDefault k x v0) Hnd) as (Hg & Hf & Hd).
    destruct (v_SetDefault k x v0 key) as (Hg0 & Hd0 & Hf0). rewrite Hg, Hf, Hd, Hg0, Hf0, Hd0.
    split; [done|]. split; [done|]. cbn [find_first fst snd]. destruct (decide (key = k)) as [->|Hne].
    - rewrite bool_decide_eq_true_2 by done. cbn [snd].
      destruct (find_first _ l) as [[k' x']|] eqn:Hfind; [|done].
      apply find_first_Some in Hfind as [Hin Hk'%bool_decide_eq_true]. cbn in Hk'. subst k'.
      destruct Hk. by apply (list_elem_of_fmap_2 fst _ _ Hin).
    - by rewrite bool_decide_eq_false_2. }
  destruct (Hgen default_settings v) as (Hg & Hf & Hd).
  { apply (bool_decide_unpack _). by vm_compute. }
  split; [exact Hg|]. split; [exact Hf|]. unfold set_defaults, default_of. rewrite Hd.
  by destruct (find_first _ default_settings).
Qed.

(** A flag that is bound to a key, if there is one *)
Definition bound_given (f : option Flag) (x : option SettingValue) : option SettingValue :=
  match f with
  | Some f => if flag_Changed f then Some (SettingString (flag_Value f)) else x
  | None => x
  end.

Definition bound_default (f : option Flag) (x : option string) : option string :=
  match f with Some f => Some (flag_Value f) | None => x end.

Lemma bind_one k f v key :
  v_given (viper_BindPFlag k f v) key =
    (if decide (key = k) then bound_given f (v_given v key) else v_given v key) /\
  v_default (viper_BindPFlag k f v) key = v_default v key /\
  v_flag_default (viper_BindPFlag k f v) key =
    (if decide (key = k) then bound_default f (v_flag_default v key) else v_flag_default v key).
Proof.
  destruct f as [f|]; [|rewrite v_BindPFlag_nil; by destruct (decide (key = k))].
  destruct (v_BindPFlag k f v key) as (-> & -> & ->). cbn.
  destruct (decide (key = k)) as [->|Hne]; [|by rewrite decide_False by (by intros [])].
  destruct (flag_Changed f); [by rewrite decide_True|by rewrite decide_False by (by intros [])].
Qed.

Lemma flags_bound cli v key :
  v_given (bind_flags cli v) key = bound_given (flag_of cli key) (v_given v key) /\
  v_default (bind_flags cli v) key = v_default v key /\
  v_flag_default (bind_flags cli v) key = bound_default (flag_of cli key) (v_flag_default v key).
Proof.
  unfold bind_flags, flag_of.
  set (v1 := viper_BindPFlag "transaction.callback.url" _ v).
  set (v2 := viper_BindPFlag "api.http.address" _ v1).
  destruct (bind_one "storage.type" (cli "storage-type") v2 key) as (-> & -> & ->).
  destruct (bind_one "api.http.address" (cli "http-address") v1 key) as (Hg2 & Hd2 & Hf2).
  destruct (bind_one "transaction.callback.url" (cli "transaction-callback-url") v key)
    as (Hg1 & Hd1 & Hf1). fold v1 in Hg1, Hd1, Hf1. fold v2 in Hg2, Hd2, Hf2.
  rewrite Hd2, Hd1, Hg2, Hf2, Hg1, Hf1. clear.
  destruct (decide (key = "transaction.callback.url")) as [->|H1]; [by rewrite !decide_False by done|].
  destruct (decide (key = "api.http.address")) as [->|H2]; [by rewrite !decide_False by done|].
  by destruct (decide (key = "storage.type")).
Qed.

(** Where the configuration is read from *)
Definition config_source (cfgFile : string) : Viper :=
  if decide (cfgFile <> "") then viper_SetConfigFile cfgFile viper_New
  else viper_SetConfigName "config" $ viper_AddConfigPath "." $
       viper_AddConfigPath "/etc/bitcoin-processing" viper_New.

Lemma source_empty cfgFile key :
  v_default (config_source cfgFile) key = None /\ v_flag_default (config_source cfgFile) key = None.
Proof.
  destruct (v_New key) as [Hd Hf]. unfold config_source. case_decide.
  - destruct (v_config_source cfgFile key viper_New) as ([-> ->] & _). done.
  - destruct (v_config_source "config" key (viper_AddConfigPath "." (viper_AddConfigPath
      "/etc/bitcoin-processing" viper_New))) as (_ & _ & -> & ->).
    destruct (v_config_source "." key (viper_AddConfigPath "/etc/bitcoin-processing" viper_New))
      as (_ & [-> ->] & _).
    by destruct (v_config_source "/etc/bitcoin-processing" key viper_New) as (_ & [-> ->] & _).
Qed.

(** C40: A setting is looked up in a fixed order: the flag bound to its key when it was given,
    the configuration file (the given one, or a file named config in /etc/bitcoin-processing or
    the working directory), the program's default, the flag's default. The listen address
    is empty when neither a flag nor the file gives one: the program's default for it is
    registered under another key. *)
Theorem settings_precedence (cfgFile : string) (given : string -> option string) (s : Settings)
    (cli := processing_flags given) (Hs : NewSettings cfgFile cli = (s, None)) :
  exists conf, viper_ReadInConfig (config_source cfgFile) = Ok conf /\
    (forall key, GetString s key =
       match flag_of cli key, v_given conf key, default_of key with
       | Some f, x, d =>
           if flag_Changed f then flag_Value f
           else match x, d with
                | Some x, _ | None, Some x => v_to_string x
                | None, None => flag_Value f
                end
       | None, Some x, _ | None, None, Some x => v_to_string x
       | None, None, None => ""
       end) /\
    (given "http-address" = None -> v_given conf "api.http.address" = None ->
     GetString s "api.http.address" = "").
Proof.
  unfold NewSettings in Hs. fold (config_source cfgFile) in Hs.
  destruct (viper_ReadInConfig (config_source cfgFile)) as [conf|e|p] eqn:Hread; [|done..].
  injection Hs as <-. exists conf. split; [done|].
  assert (Hkey : forall key, GetString (mkSettings V cfgFile (initConfig cli conf)) key =
       match flag_of cli key, v_given conf key, default_of key with
       | Some f, x, d =>
           if flag_Changed f then flag_Value f
           else match x, d with
                | Some x, _ | None, Some x => v_to_string x
                | None, None => flag_Value f
                end
       | None, Some x, _ | None, None, Some x => v_to_string x
       | None, None, None => ""
       end).
  { intros key. unfold GetString, initConfig. cbn [s_viper]. rewrite v_GetString.
    destruct (defaults_set (bind_flags cli conf) key) as (-> & -> & ->).
    destruct (flags_bound cli conf key) as (-> & -> & ->).
    destruct (v_ReadInConfig _ _ key Hread) as [-> ->].
    destruct (source_empty cfgFile key) as [-> ->].
    unfold bound_given, bound_default.
    destruct (flag_of cli key) as [[value changed]|]; cbn [flag_Value flag_Changed];
      [destruct changed; [by rewrite v_string|]|]; destruct (v_given conf key), (default_of key); done. }
  split; [exact Hkey|]. intros Hno Hg. rewrite Hkey, Hg.
  change (flag_of cli "api.http.address") with (cli "http-address").
  unfold cli, processing_flags, string_flags. cbn. by rewrite Hno.
Qed.

End SettingsProps.

(** A viper with a file that gives the node's address and the storage type *)
Record TestViper := mkTestViper {
  tv_given : string -> option SettingValue;
  tv_default : string -> option SettingValue;
  tv_flag : string -> option string;
}.

Definition tv_text (x : SettingValue) : string :=
  match x with SettingString s => s | SettingBool true => "true" | SettingBool false => "false" | _ => "" end.

Definition tv_set {A} (k : string) (x : A) (f : string -> option A) (key : string) : option A :=
  if decide (key = k) then Some x else f key.

Definition tv_file (key : string) : option SettingValue :=
  if decide (key = "storage.type") then Some (SettingString "memory")
  else if decide (key = "bitcoin.node.address") then Some (SettingString "node:18443") else None.

Definition tv_GetString (v : TestViper) (key : string) : string :=
  match tv_given v key, tv_default v key, tv_flag v key with
  | Some x, _, _ | None, Some x, _ => tv_text x
  | None, None, Some s => s
  | None, None, None => ""
  end.

#[local] Existing Instance test_btcutil.

#[local] Instance test_viper : ViperLib := {|
  Viper := TestViper;
  viper_New := mkTestViper (fun _ => None) (fun _ => None) (fun _ => None);
  viper_SetConfigFile _ v := v;
  viper_AddConfigPath _ v := v;
  viper_SetConfigName _ v := v;
  viper_ReadInConfig v := Ok (mkTestViper tv_file (tv_default v) (tv_flag v));
  viper_BindPFlag k f v :=
    match f with
    | Some f => mkTestViper
        (if flag_Changed f then tv_set k (SettingString (flag_Value f)) (tv_given v) else tv_given v)
        (tv_default v) (tv_set k (flag_Value f) (tv_flag v))
    | None => v
    end;
  viper_SetDefault k x v := mkTestViper (tv_given v) (tv_set k x (tv_default v)) (tv_flag v);
  viper_GetString := tv_GetString;
  viper_GetInt _ _ := 0;
  viper_GetInt64 _ _ := 0;
  viper_GetBool v key := bool_decide (tv_GetString v key = "true");
  viper_ConfigFileUsed _ := "./config.yml";
  url_ParseRequestURI _ := Ok tt;
|}.

#[local] Instance test_viper_laws : ViperLaws test_viper.
Proof.
  refine {| v_given := tv_given; v_default := tv_default; v_flag_default := tv_flag;
            v_to_string := tv_text |}; try done.
  - intros v v' key. by intros [= <-].
  - intros k f v key. cbn. split; [|done]. destruct (flag_Changed f); unfold tv_set.
    + destruct (decide (key = k)); [by rewrite decide_True | by rewrite decide_False by (by intros [])].
    + by rewrite decide_False by (by intros []).
Defined.

(** The storage type of the command line comes before the file's; nothing gives the listen
    address. *)
Definition test_given (name : string) : option string :=
  if decide (name = "storage-type") then Some "postgres" else None.

Lemma settings_precedence_witness :
  exists s : Settings (H := test_viper), NewSettings "" (processing_flags test_given) = (s, None) /\
    GetString s "storage.type" = "postgres" /\ GetString s "bitcoin.node.address" = "node:18443" /\
    GetString s "api.http.address" = "".
Proof.
  exists (NewSettings "" (processing_flags test_given)).1. split; [by vm_compute|].
  destruct (settings_precedence "" test_given (NewSettings "" (processing_flags test_given)).1)
    as (conf & Hc & Hkey & Haddr); [by vm_compute|]. injection Hc as <-.
  split; [by rewrite Hkey|]. split; [by rewrite Hkey|]. by apply Haddr.
Defined.

(** ** The component runner *)
Section RunnerProps.

Definition is_signal (e : RunnerEvent) : bool := match e with Signal => true | _ => false end.
Definition ends_with_error (e : RunnerEvent) : bool := match e with Ended _ err => err | _ => false end.

(** What is left to happen *)
Definition weight (r : Runner) : nat :=
  length (r_running r) + (if r_stopping r then 0 else 1).

Lemma filter_shorter {A} `{EqDecision A} (c : A) l :
  c ∈ l -> (length (filter (fun x => x <> c) l) < length l)%nat.
Proof.
  induction l as [|x l IH]; [by intros ?%elem_of_nil|]. rewrite filter_cons. intros Hc.
  destruct (decide (x = c)) as [->|Hne].
  - rewrite decide_False by (by intros []). cbn. pose proof (length_filter (fun x => x <> c) l). lia.
  - rewrite decide_True by done. apply elem_of_cons in Hc as [->|Hc]; [done|]. cbn.
    apply IH in Hc. lia.
Qed.

Lemma step_weight e r r' :
  runner_step e r = Some r' -> ((if is_signal e then 0 else 1) + weight r' <= weight r)%nat.
Proof.
  destruct e as [|c err|]; cbn.
  - by intros [= <-].
  - case_decide as Hc; [|done]. intros [= <-]. unfold weight. cbn.
    pose proof (filter_shorter c (r_running r) (proj1 Hc)). lia.
  - destruct (r_stopping r) eqn:Hs; [done|]. cbn. destruct (_ || _); [|done]. intros [= <-].
    unfold weight. cbn. rewrite Hs. lia.
Qed.

Lemma run_weight es : forall r r',
  runner_run es r = Some r' ->
  (length (filter (fun e => is_signal e = false) es) + weight r' <= weight r)%nat /\
  r_failed r' = r_failed r || existsb ends_with_error es.
Proof.
  induction es as [|e es IH]; intros r r'; cbn [runner_run].
  { intros [= <-]. cbn. by rewrite orb_false_r. }
  intros (r1 & H1 & Hr)%bind_Some. apply IH in Hr as [Hw Hf].
  pose proof (step_weight _ _ _ H1) as Hw1. rewrite filter_cons. split.
  - destruct (is_signal e); [rewrite decide_False by done | rewrite decide_True by done; cbn]; lia.
  - rewrite Hf. cbn. assert (r_failed r1 = r_failed r || ends_with_error e) as ->.
    { clear -H1. destruct e; cbn in H1 |- *; [by injection H1 as <-; rewrite orb_false_r| |].
      - case_decide; [|done]. by injection H1 as <-.
      - destruct (_ && _); [|done]. injection H1 as <-. by rewrite orb_false_r. }
    by rewrite orb_assoc.
Qed.

(** C30: When a component has ended or a signal has come the program comes to its end: the
    three components and the goroutine that stops them take at most four steps, until
    nothing runs one is always possible (the goroutine calls Stop, or every component
    that still runs may end normally), and the program then ends with an error
    exactly when some component ended with one. *)
Theorem runner_shuts_down (es : list RunnerEvent) (r : Runner)
    (Hrun : runner_run es started = Some r) :
  (length (filter (fun e => is_signal e = false) es) <= 4)%nat /\
  (one_ended r = true \/ r_signalled r = true ->
   (exists r', runner_step StopAll r = Some r') \/
   forall c, c ∈ r_running r -> exists r', runner_step (Ended c false) r = Some r') /\
  (forall abnormal, wait r = Some abnormal -> abnormal = existsb ends_with_error es).
Proof.
  destruct (run_weight _ _ _ Hrun) as [Hw Hf]. cbn in Hf. split; [|split].
  - assert (weight started = 4%nat) as Hs by reflexivity. lia.
  - intros Hwhy. destruct (r_stopping r) eqn:Hs.
    + right. intros c Hc. cbn. rewrite decide_True by done. by eexists.
    + left. cbn. rewrite Hs. destruct Hwhy as [-> | ->]; rewrite ?orb_true_r; by eexists.
  - unfold wait. destruct (r_running r); [|done]. by intros ? [= <-].
Qed.

End RunnerProps.

(** The wallet ends with an error, then everything is stopped *)
Lemma runner_shuts_down_witness :
  let es := [Ended WalletComponent true; StopAll; Ended APIServer false; Signal;
             Ended EventBrokerComponent false] in
  exists r, runner_run es started = Some r /\ wait r = Some true /\
    (forall abnormal, wait r = Some abnormal -> abnormal = existsb ends_with_error es) /\
    (length (filter (fun e => is_signal e = false) es) <= 4)%nat.
Proof.
  intros es. eexists. split; [reflexivity|].
  destruct (runner_shuts_down es _ eq_refl) as (Hlen & _ & Hw).
  split; [reflexivity|]. split; [exact Hw | exact Hlen].
Defined.
