(* ===== verification/Interleave.v ===== *)
(** * The writers of events beside each other, statement by statement

    Three kinds of goroutines work on the events: the wallet's main loop, which stores
    the events of transactions, one database transaction after the other; the API
    handlers, any number of which may be creating accounts, each in a transaction of its
    own; and the event broker, which reads committed events, posts them, and broadcasts
    them. Nothing in the program orders their statements. PostgreSQL runs the
    transactions at READ COMMITTED: a number that [events.seq] has drawn is gone at once,
    the row is seen when its transaction commits. A state has what is committed, and of
    each open transaction the events that it has inserted. *)
From S2P Require Import Prelude.
From S2P Require Import Go.
From S2P Require Import Util.
From S2P Require Import Json.
From S2P Require Import Bitcoin.
From S2P Require Import TxTypes.
From S2P Require Import EventTypes.
From S2P Require Import World.
From S2P Require Import Effects.
From S2P Require Import Storage.
From S2P Require Import EventStorage.
From S2P Require Import Broadcaster.
From S2P Require Import Broker.
From S2P Require Import Client.
Local Open Scope Z_scope.

Section Interleave.
Context {E : Env}.
Import PostgresEventStorage.

Record Shared := mkShared {
  sh_db : DB;                              (* the committed tables *)
  sh_seq : Z;                              (* the sequence behind events.seq *)
  sh_wallet : option (list EventRow);      (* the wallet's open transaction *)
  sh_accounts : gmap nat (list EventRow);  (* the transactions of CreateAccount *)
  sh_pass : option (list EventRow);        (* sendHTTPCallbackNotifications: what is left of its events *)
  sh_posted : list Z;                      (* the calls of http.Post *)
  sh_bp : BrokerProc;                      (* the broadcaster's subscriptions *)
}.

Implicit Type st : Shared.

Definition set_sh_db v st := mkShared v (sh_seq st) (sh_wallet st) (sh_accounts st) (sh_pass st) (sh_posted st) (sh_bp st).
Definition set_sh_seq v st := mkShared (sh_db st) v (sh_wallet st) (sh_accounts st) (sh_pass st) (sh_posted st) (sh_bp st).
Definition set_sh_wallet v st := mkShared (sh_db st) (sh_seq st) v (sh_accounts st) (sh_pass st) (sh_posted st) (sh_bp st).
Definition set_sh_accounts v st := mkShared (sh_db st) (sh_seq st) (sh_wallet st) v (sh_pass st) (sh_posted st) (sh_bp st).
Definition set_sh_pass v st := mkShared (sh_db st) (sh_seq st) (sh_wallet st) (sh_accounts st) v (sh_posted st) (sh_bp st).
Definition set_sh_posted v st := mkShared (sh_db st) (sh_seq st) (sh_wallet st) (sh_accounts st) (sh_pass st) v (sh_bp st).
Definition set_sh_bp v st := mkShared (sh_db st) (sh_seq st) (sh_wallet st) (sh_accounts st) (sh_pass st) (sh_posted st) v.

(** The number in the metadata, as GetLastHTTPSentSeq reads it *)
Definition last_sent (d : DB) : Z :=
  match select_meta "last_http_sent_seq" d with s :: _ => default 0 (atoi s) | [] => 0 end.

(** An event that the callback passes over *)
Definition is_address (row : EventRow) : bool :=
  match EventTypeFromString (er_type row) with Ok NewAddressEvent => true | _ => false end.

(** COMMIT of a transaction that inserted [rows]. Whatever else it wrote, it is not the
    number of the last event sent, and it mutes nothing. *)
Definition commits (rows : list EventRow) (d d' : DB) : Prop :=
  db_events d' = db_events d ++ rows /\ db_muted d' = db_muted d /\ last_sent d' = last_sent d.

(** [StoreEvent]'s INSERT: its number is drawn from the sequence of a SERIAL column. *)
Definition stored_row (et : EventType) (data : json) st : EventRow :=
  mkEventRow (sh_seq st) (EventType_String et) data.

Definition max_serial : Z := 2 ^ 31 - 1.

(** What [broadcast] reads *)
Definition read_for_broadcast st : outcome (list NotificationWithSeq) :=
  all_Ok (event_of_row <$> select_events (bp_minSeq (sh_bp st)) (sh_db st)).

(** [SubscribeFromSeq] of the broadcaster *)
Definition subscribe_from (seq : Z) (ch : nat) (b : BrokerProc) : BrokerProc :=
  set_subs (<[ch := seq]> (bp_subs b)) (Min seq (bp_minSeq b))
    (set_chans (<[ch := mkChannel [] false]> (bp_chans b)) b).

(** [<-ch] *)
Definition receive_batch (ch : nat) (queue : list (list NotificationWithSeq)) (closed : bool) (b : BrokerProc) : BrokerProc :=
  set_chans (<[ch := mkChannel queue closed]> (bp_chans b)) b.

Inductive interleave_step : Shared -> Shared -> Prop :=
(** The wallet's goroutine: one transaction at a time *)
| wallet_begins st :
    sh_wallet st = None -> interleave_step st (set_sh_wallet (Some []) st)
| wallet_stores st rows et data :
    sh_wallet st = Some rows -> et <> NewAddressEvent -> et <> InvalidEvent -> sh_seq st <= max_serial ->
    interleave_step st (set_sh_wallet (Some (rows ++ [stored_row et data st])) (set_sh_seq (sh_seq st + 1) st))
| wallet_commits st rows d' :
    sh_wallet st = Some rows -> commits rows (sh_db st) d' ->
    interleave_step st (set_sh_wallet None (set_sh_db d' st))
| wallet_rolls_back st rows :
    sh_wallet st = Some rows -> interleave_step st (set_sh_wallet None st)
(** CreateAccount in an API handler *)
| account_begins st i :
    sh_accounts st !! i = None -> interleave_step st (set_sh_accounts (<[i := []]> (sh_accounts st)) st)
| account_stores st i rows data :
    sh_accounts st !! i = Some rows -> sh_seq st <= max_serial ->
    interleave_step st (set_sh_accounts (<[i := rows ++ [stored_row NewAddressEvent data st]]> (sh_accounts st))
      (set_sh_seq (sh_seq st + 1) st))
| account_commits st i rows d' :
    sh_accounts st !! i = Some rows -> commits rows (sh_db st) d' ->
    interleave_step st (set_sh_accounts (delete i (sh_accounts st)) (set_sh_db d' st))
| account_rolls_back st i :
    interleave_step st (set_sh_accounts (delete i (sh_accounts st)) st)
(** The broker: a pass of the callback sender. Only this goroutine writes the number of
    the last event sent, so its two SELECTs read as one. *)
| pass_reads st :
    sh_pass st = None ->
    interleave_step st (set_sh_pass (Some (select_events (last_sent (sh_db st) + 1) (sh_db st))) st)
| pass_skips st row rest :
    sh_pass st = Some (row :: rest) -> is_address row = true ->
    interleave_step st (set_sh_pass (Some rest) st)
| pass_posts st row rest :
    sh_pass st = Some (row :: rest) -> is_address row = false ->
    interleave_step st (set_sh_posted (sh_posted st ++ [er_seq row]) st)
| pass_persists st row rest d' :
    sh_pass st = Some (row :: rest) -> is_address row = false -> er_seq row ∈ sh_posted st ->
    upsert_meta "last_http_sent_seq" (itoa (er_seq row)) (sh_db st) = Ok d' ->
    interleave_step st (set_sh_pass (Some rest) (set_sh_db d' st))
| pass_ends st : interleave_step st (set_sh_pass None st)
(** A mute, a subscription, a broadcast *)
| mutes st id d' :
    insert_muted id (sh_db st) = Ok d' -> interleave_step st (set_sh_db d' st)
| subscribes st seq :
    interleave_step st (set_sh_bp (subscribe_from seq (fresh (dom (bp_chans (sh_bp st)))) (sh_bp st)) st)
| unsubscribes st ch :
    is_Some (bp_subs (sh_bp st) !! ch) ->
    interleave_step st (set_sh_bp (close_and_delete ch (sh_bp st)) st)
| broadcasts st events :
    read_for_broadcast st = Ok events ->
    interleave_step st (set_sh_bp (broadcast_events events (sh_bp st)) st)
(** The handler of a websocket takes a batch from its channel. *)
| receives st ch batch queue closed :
    bp_chans (sh_bp st) !! ch = Some (mkChannel (batch :: queue) closed) ->
    interleave_step st (set_sh_bp (receive_batch ch queue closed (sh_bp st)) st).

(** The server is killed and started again: what was not committed is gone. *)
Definition restart st : Shared :=
  mkShared (sh_db st) (sh_seq st) None ∅ None (sh_posted st) NewEventBroker.

Inductive interleave_reach : Shared -> Prop :=
| interleave_init : interleave_reach (mkShared (mkDB [] [] ∅ [] []) 1 None ∅ None [] NewEventBroker)
| interleave_more st st' : interleave_reach st -> interleave_step st st' -> interleave_reach st'
| interleave_restarts st : interleave_reach st -> interleave_reach (restart st).

End Interleave.
