(* ===== verification/InterleaveProps.v ===== *)
(** * What the interleaving of the writers of events allows

    The HTTP callback misses nothing, because the events that it posts come from one
    goroutine; a websocket subscriber can miss an event, because those of new addresses
    come from others. *)
From S2P Require Import Prelude.
From S2P Require Import Go.
From S2P Require Import Util.
From S2P Require Import Json.
From S2P Require Import Bitcoin.
From S2P Require Import TxTypes.
From S2P Require Import EventTypes.
From S2P Require Import World.
From S2P Require Import Effects.
From S2P Require Import Storage.
From S2P Require Import EventStorage.
From S2P Require Import Broadcaster.
From S2P Require Import Broker.
From S2P Require Import EventProps.
From S2P Require Import Delivery.
From S2P Require Import Client.
From S2P Require Import Interleave.
From S2P Require Import TestEnv.
Local Open Scope Z_scope.

Section Callbacks.
Context {E : Env}.
Import PostgresEventStorage.
Implicit Types (st : Shared) (row : EventRow) (d : DB).

(** An event that the callback is to post, and that it has dealt with *)
Definition for_callback d row : Prop := row ∈ db_events d /\ is_address row = false.
Definition dealt_with st row : Prop :=
  is_muted (sh_db st) row = true \/ er_seq row ∈ sh_posted st.

Record in_order st : Prop := {
  io_serial : 0 < sh_seq st <= max_serial + 1;
  io_committed : forall row, row ∈ db_events (sh_db st) -> 0 < er_seq row < sh_seq st;
  (* The wallet's numbers are above those of all its committed events. *)
  io_wallet : forall rows row, sh_wallet st = Some rows -> row ∈ rows ->
    0 < er_seq row < sh_seq st /\ is_address row = false /\
    forall c, for_callback (sh_db st) c -> er_seq c < er_seq row;
  io_accounts : forall i rows row, sh_accounts st !! i = Some rows -> row ∈ rows ->
    0 < er_seq row < sh_seq st /\ is_address row = true;
  io_sent : last_sent (sh_db st) = 0 \/
    exists c, for_callback (sh_db st) c /\ er_seq c = last_sent (sh_db st);
  io_done : forall row, for_callback (sh_db st) row -> er_seq row <= last_sent (sh_db st) ->
    dealt_with st row;
  (* What is left of a pass *)
  io_pass : forall rest, sh_pass st = Some rest ->
    key_sorted er_seq rest /\ (forall x, x ∈ rest -> x ∈ db_events (sh_db st)) /\
    forall row, for_callback (sh_db st) row ->
      dealt_with st row \/ row ∈ rest \/
      forall x, x ∈ rest -> is_address x = false -> er_seq x < er_seq row;
}.

Lemma is_muted_more d d' row :
  (forall id, id ∈ db_muted d -> id ∈ db_muted d') -> is_muted d row = true -> is_muted d' row = true.
Proof.
  unfold is_muted. intros Hm. destruct (event_tx_id row); [|done]. rewrite !bool_decide_eq_true. auto.
Qed.

Lemma dealt_with_more st st' row :
  (forall id, id ∈ db_muted (sh_db st) -> id ∈ db_muted (sh_db st')) ->
  (forall seq, seq ∈ sh_posted st -> seq ∈ sh_posted st') ->
  dealt_with st row -> dealt_with st' row.
Proof. intros Hm Hp [H|H]; [left; by eapply is_muted_more | right; auto]. Qed.

(** Steps that leave the committed events and the last number alone *)
Lemma in_order_same_events st st' :
  in_order st -> db_events (sh_db st') = db_events (sh_db st) ->
  last_sent (sh_db st') = last_sent (sh_db st) -> sh_seq st' = sh_seq st ->
  (forall id, id ∈ db_muted (sh_db st) -> id ∈ db_muted (sh_db st')) ->
  (forall seq, seq ∈ sh_posted st -> seq ∈ sh_posted st') ->
  sh_wallet st' = None \/ sh_wallet st' = Some [] \/ sh_wallet st' = sh_wallet st ->
  (forall i rows, sh_accounts st' !! i = Some rows -> rows = [] \/ sh_accounts st !! i = Some rows) ->
  sh_pass st' = sh_pass st \/ sh_pass st' = None ->
  in_order st'.
Proof.
  intros [Hs Hc Hw Ha Hl Hd Hp] He Hls Hsq Hm Hpo Hw' Ha' Hp'.
  assert (Hfc : forall row, for_callback (sh_db st') row <-> for_callback (sh_db st) row)
    by (unfold for_callback; rewrite He; tauto).
  constructor; rewrite ?He, ?Hls, ?Hsq; [done|done| | | | |].
  - intros rows row Hr Hin. setoid_rewrite Hfc.
    destruct Hw' as [Hn|[Hn|Hn]]; rewrite Hn in Hr; [done | | by eapply Hw].
    injection Hr as <-. by apply not_elem_of_nil in Hin.
  - intros i rows row Hr Hin. destruct (Ha' i rows Hr) as [-> |Hr']; [|by eapply Ha].
    by apply not_elem_of_nil in Hin.
  - setoid_rewrite Hfc. exact Hl.
  - intros row Hrow%Hfc Hle. eapply dealt_with_more; [exact Hm | exact Hpo | by apply Hd].
  - intros rest Hr. destruct Hp' as [Hn|Hn]; rewrite Hn in Hr; [|done].
    destruct (Hp rest Hr) as (? & ? & Hall). split_and!; [done|done|].
    intros row Hrow%Hfc. destruct (Hall row Hrow); [left; by eapply dealt_with_more | by right].
Qed.

(** COMMIT of the wallet's events, or of an account's *)
Lemma in_order_commit st st' rows :
  in_order st -> commits rows (sh_db st) (sh_db st') ->
  (forall row, row ∈ rows -> 0 < er_seq row < sh_seq st /\
     (is_address row = false -> forall c, for_callback (sh_db st) c -> er_seq c < er_seq row)) ->
  sh_seq st' = sh_seq st -> sh_posted st' = sh_posted st -> sh_pass st' = sh_pass st ->
  (forall wrows, sh_wallet st' = Some wrows ->
     sh_wallet st = Some wrows /\ forall row, row ∈ rows -> is_address row = true) ->
  (forall i arows, sh_accounts st' !! i = Some arows -> sh_accounts st !! i = Some arows) ->
  in_order st'.
Proof.
  intros [Hs Hc Hw Ha Hl Hd Hp] (He & Hm & Hls) Hrows Hsq Hpo Hpa Hw' Ha'.
  assert (Hfc : forall row, for_callback (sh_db st') row <->
    for_callback (sh_db st) row \/ (row ∈ rows /\ is_address row = false))
    by (intros row; unfold for_callback; rewrite He, elem_of_app; tauto).
  assert (Hdw : forall row, dealt_with st row -> dealt_with st' row)
    by (intros row; apply dealt_with_more; by rewrite ?Hm, ?Hpo).
  assert (Hsent : 0 <= last_sent (sh_db st))
    by (destruct Hl as [-> |(c & [Hin _] & <-)]; [lia | specialize (Hc c Hin); lia]).
  constructor; rewrite ?Hls, ?Hsq; [done| | | | | |].
  - intros row. rewrite He. intros [Hin|Hin]%elem_of_app; [by apply Hc | by apply Hrows].
  - intros wrows row Hwr Hin. destruct (Hw' _ Hwr) as [Hwr' Hadr].
    destruct (Hw _ _ Hwr' Hin) as (Hb & Hadr' & Hlt). split_and!; [apply Hb..|done|].
    intros c [Hcc|[Hcr Hca]]%Hfc; [by apply Hlt|]. by rewrite (Hadr _ Hcr) in Hca.
  - intros i arows row Har Hin. by eapply Ha; [apply Ha'|].
  - destruct Hl as [-> |(c & Hcc & Hcs)]; [by left|]. right. exists c. split; [|done]. apply Hfc. by left.
  - intros row [Hrow|[Hrow Hra]]%Hfc Hle; [by apply Hdw, Hd|]. exfalso.
    destruct (Hrows _ Hrow) as [Hb Hlt]. destruct Hl as [Hz|(c & Hcc & Hcs)]; [lia|].
    specialize (Hlt Hra c Hcc). lia.
  - intros rest Hr. rewrite Hpa in Hr. destruct (Hp rest Hr) as (Hsort & Hsub & Hall).
    split_and!; [done | intros x Hx; rewrite He; apply elem_of_app; left; by apply Hsub|].
    intros row [Hrow|[Hrow Hra]]%Hfc.
    + destruct (Hall row Hrow); [left; by apply Hdw | by right].
    + right. right. intros x Hx Hxa. by apply (Hrows _ Hrow); [|split; [apply Hsub|]].
Qed.

(** A number is drawn, for the wallet or for an account. *)
Lemma in_order_draw st st' row :
  in_order st -> er_seq row = sh_seq st -> sh_seq st <= max_serial -> sh_seq st' = sh_seq st + 1 ->
  sh_db st' = sh_db st -> sh_posted st' = sh_posted st -> sh_pass st' = sh_pass st ->
  (forall rows, sh_wallet st' = Some rows ->
     sh_wallet st = Some rows \/
     exists rows0, sh_wallet st = Some rows0 /\ rows = rows0 ++ [row] /\ is_address row = false) ->
  (forall i rows, sh_accounts st' !! i = Some rows ->
     sh_accounts st !! i = Some rows \/
     exists rows0, sh_accounts st !! i = Some rows0 /\ rows = rows0 ++ [row] /\ is_address row = true) ->
  in_order st'.
Proof.
  intros [Hs Hc Hw Ha Hl Hd Hp] Hrow Hmax Hsq Hdb Hpo Hpa Hw' Ha'.
  assert (Hdw : forall r, dealt_with st r -> dealt_with st' r)
    by (intros r; apply dealt_with_more; by rewrite ?Hdb, ?Hpo).
  constructor; rewrite ?Hdb, ?Hsq; [lia | | | |done| |].
  - intros r Hr. specialize (Hc r Hr). lia.
  - intros rows r Hr Hin. destruct (Hw' _ Hr) as [Hr0|(rows0 & Hr0 & -> & Hra)].
    + destruct (Hw _ _ Hr0 Hin) as (? & ? & ?). split_and!; [lia|lia|done|done].
    + apply elem_of_app in Hin as [Hin| ->%list_elem_of_singleton].
      * destruct (Hw _ _ Hr0 Hin) as (? & ? & ?). split_and!; [lia|lia|done|done].
      * split_and!; [lia|lia|done|]. intros c [Hcin _]. specialize (Hc c Hcin). lia.
  - intros i rows r Hr Hin. destruct (Ha' _ _ Hr) as [Hr0|(rows0 & Hr0 & -> & Hra)].
    + destruct (Ha _ _ _ Hr0 Hin) as (? & ?). split; [lia|done].
    + apply elem_of_app in Hin as [Hin| ->%list_elem_of_singleton].
      * destruct (Ha _ _ _ Hr0 Hin) as (? & ?). split; [lia|done].
      * split; [lia|done].
  - intros r Hr Hle. by apply Hdw, Hd.
  - intros rest Hr. rewrite Hpa in Hr. destruct (Hp rest Hr) as (? & ? & Hall). split_and!; [done|done|].
    intros r Hrr. destruct (Hall r Hrr); [left; by apply Hdw | by right].
Qed.

(** A pass starts with what the SELECT returns. *)
Lemma in_order_read st :
  in_order st ->
  in_order (set_sh_pass (Some (select_events (last_sent (sh_db st) + 1) (sh_db st))) st).
Proof.
  intros [Hs Hc Hw Ha Hl Hd Hp]. constructor; [done..| ]. simpl. intros rest [= <-].
  split_and!; [apply order_by_sorted | |].
  - intros x. unfold select_events. rewrite order_by_perm, list_elem_of_filter. naive_solver.
  - intros row Hrow. destruct (decide (er_seq row <= last_sent (sh_db st))) as [Hle|Hgt].
    { left. by apply Hd. }
    destruct (is_muted (sh_db st) row) eqn:Hm; [left; by left|]. right. left.
    unfold select_events. rewrite order_by_perm, list_elem_of_filter.
    split; [split; [lia|done] | by apply Hrow].
Qed.

(** An address is passed over. *)
Lemma in_order_skip st row rest :
  in_order st -> sh_pass st = Some (row :: rest) -> is_address row = true ->
  in_order (set_sh_pass (Some rest) st).
Proof.
  intros [Hs Hc Hw Ha Hl Hd Hp] Hpass Hadr. constructor; [done..|]. simpl. intros r [= <-].
  destruct (Hp _ Hpass) as (Hsort & Hsub & Hall). split_and!.
  - by inversion Hsort.
  - intros x Hx. apply Hsub. by right.
  - intros x Hx. destruct (Hall x Hx) as [?|[Hin|Hlt]]; [by left | | ].
    + apply elem_of_cons in Hin as [-> |Hin]; [|by right; left].
      destruct Hx as [_ Hx]. congruence.
    + right. right. intros y Hy. apply Hlt. by right.
Qed.

Lemma last_sent_stored row d d' :
  0 < er_seq row <= max_serial -> upsert_meta "last_http_sent_seq" (itoa (er_seq row)) d = Ok d' ->
  last_sent d' = er_seq row /\ db_events d' = db_events d /\ db_muted d' = db_muted d.
Proof.
  intros Hb [= <-]. unfold last_sent, select_meta. simpl. rewrite lookup_insert_eq. simpl.
  rewrite atoi_itoa; [done|]. unfold is_i64, max_serial in *. lia.
Qed.

(** The number of an event that was posted, or given up, is stored. *)
Lemma in_order_persist st row rest d' :
  in_order st -> sh_pass st = Some (row :: rest) -> is_address row = false ->
  er_seq row ∈ sh_posted st ->
  upsert_meta "last_http_sent_seq" (itoa (er_seq row)) (sh_db st) = Ok d' ->
  in_order (set_sh_pass (Some rest) (set_sh_db d' st)).
Proof.
  intros [Hs Hc Hw Ha Hl Hd Hp] Hpass Hadr Hpost Hup.
  destruct (Hp _ Hpass) as (Hsort & Hsub & Hall).
  assert (Hin : row ∈ db_events (sh_db st)) by (apply Hsub; left).
  destruct (last_sent_stored row _ _ ltac:(specialize (Hc _ Hin); lia) Hup) as (Hls & He & Hm).
  apply StronglySorted_inv in Hsort as [Hsort Hmin]. rewrite Forall_forall in Hmin.
  assert (Hdw : forall r, dealt_with st r -> dealt_with (set_sh_pass (Some rest) (set_sh_db d' st)) r)
    by (intros r; apply dealt_with_more; simpl; by rewrite ?Hm).
  assert (Hfc : forall r, for_callback d' r <-> for_callback (sh_db st) r)
    by (unfold for_callback; by rewrite He).
  constructor; simpl; rewrite ?He; [done|done| |done| | |].
  - setoid_rewrite Hfc. done.
  - right. exists row. rewrite Hfc. by repeat split.
  - intros r Hr%Hfc Hle. apply Hdw. destruct (Hall r Hr) as [?|[Hr'|Hlt]]; [done| |].
    + assert (er_seq r = er_seq row) as Heq.
      { apply elem_of_cons in Hr' as [-> |Hr']; [done|]. specialize (Hmin _ Hr'). simpl in *. lia. }
      right. by rewrite Heq.
    + specialize (Hlt row ltac:(left) Hadr). lia.
  - intros r [= <-]. split_and!; [done | intros x Hx; apply Hsub; by right |].
    intros x Hx%Hfc. destruct (Hall x Hx) as [?|[Hx'|Hlt]]; [left; by apply Hdw| |].
    + apply elem_of_cons in Hx' as [-> |Hx']; [left; apply Hdw; by right | by right; left].
    + right. right. intros y Hy. apply Hlt. by right.
Qed.

Lemma in_order_step st st' : interleave_step st st' -> in_order st -> in_order st'.
Proof.
  intros Hstep Hio. destruct Hstep.
  - apply (in_order_same_events st); simpl; auto.
  - apply (in_order_draw st _ (stored_row et data st)); simpl; auto.
    intros ? [= <-]. right. exists rows. split_and!; [done..|].
    unfold is_address, stored_row. simpl. rewrite (proj2 (EventTypeFromString_String et)) by done. by destruct et.
  - apply (in_order_commit st _ rows); simpl; auto; [|done].
    intros row Hrow. destruct (io_wallet _ Hio _ _ ltac:(done) Hrow) as (? & ? & ?). auto.
  - apply (in_order_same_events st); simpl; auto.
  - apply (in_order_same_events st); simpl; auto. intros j rows.
    destruct (decide (j = i)) as [-> |Hne]; [rewrite lookup_insert_eq | rewrite lookup_insert_ne by done];
      [intros [= <-]|]; by auto.
  - apply (in_order_draw st _ (stored_row NewAddressEvent data st)); simpl; auto. intros j rows'.
    destruct (decide (j = i)) as [-> |Hne]; [rewrite lookup_insert_eq | rewrite lookup_insert_ne by done];
      [|by auto]. intros [= <-]. right. exists rows. by split_and!.
  - assert (Hr : forall row, row ∈ rows -> 0 < er_seq row < sh_seq st /\ is_address row = true)
      by (intros row; by apply (io_accounts _ Hio i)).
    apply (in_order_commit st _ rows); simpl; auto.
    + intros row Hrow. destruct (Hr _ Hrow) as [? Hra]. split; [done|]. by rewrite Hra.
    + intros wrows Hwr. split; [done|]. by apply Hr.
    + intros j arows [_ Hj]%lookup_delete_Some. done.
  - apply (in_order_same_events st); simpl; auto. intros j rows [_ Hj]%lookup_delete_Some. by right.
  - by apply in_order_read.
  - by eapply in_order_skip.
  - apply (in_order_same_events st); simpl; auto. intros. apply elem_of_app. by left.
  - by eapply in_order_persist.
  - apply (in_order_same_events st); simpl; auto.
  - unfold insert_muted in *. case_decide; [done|]. simplify_eq.
    apply (in_order_same_events st); simpl; auto. intros. apply elem_of_app. by left.
  - apply (in_order_same_events st); simpl; auto.
  - apply (in_order_same_events st); simpl; auto.
  - apply (in_order_same_events st); simpl; auto.
  - apply (in_order_same_events st); simpl; auto.
Qed.

Lemma in_order_reach st : interleave_reach st -> in_order st.
Proof.
  induction 1 as [|st st' _ IH Hstep|st _ IH].
  - constructor; simpl; try done; try (intros row Hin; by apply not_elem_of_nil in Hin).
    + by left.
    + intros row [Hin _]. by apply not_elem_of_nil in Hin.
  - by eapply in_order_step.
  - apply (in_order_same_events st); simpl; auto. done.
Qed.

(** C6: However the statements of the wallet, of the handlers that create accounts and of
    the broker interleave, and whenever the server is killed, the number of the last
    event sent never moves past an event that the callback has not dealt with: every
    committed event that is not a new address was muted or posted, or is among those
    that the next pass reads. *)
Theorem callback_never_skips st row (Hreach : interleave_reach st)
    (Hrow : row ∈ db_events (sh_db st)) (Hposted : is_address row = false) :
  is_muted (sh_db st) row = true \/ er_seq row ∈ sh_posted st \/
  row ∈ select_events (last_sent (sh_db st) + 1) (sh_db st).
Proof.
  destruct (decide (er_seq row <= last_sent (sh_db st))) as [Hle|Hgt].
  { destruct (io_done _ (in_order_reach _ Hreach) row ltac:(done) Hle); auto. }
  destruct (is_muted (sh_db st) row) eqn:Hm; [by left|]. right. right.
  unfold select_events. rewrite order_by_perm, list_elem_of_filter. split; [split; [lia|done] | done].
Qed.

End Callbacks.

(** ** Websocket subscribers *)
Section Subscribers.
Context {E : Env}.
Import PostgresEventStorage.
Implicit Types (st : Shared) (row : EventRow) (b : BrokerProc).

(** What is sent when the wanted number is [seq] has no event before it. *)
Lemma events_from_above seq events batch :
  key_sorted ns_Seq events -> events_from seq events = Some batch ->
  Forall (fun e => seq <= ns_Seq e) batch /\ exists e, last events = Some e /\ seq <= ns_Seq e.
Proof.
  unfold key_sorted. induction 1 as [|e events Hs IH He]; simpl; [done|]. case_decide as Hle.
  - intros [= <-]. assert (Hall : Forall (fun x => seq <= ns_Seq x) (e :: events)).
    { constructor; [done|]. eapply Forall_impl; [exact He|]. simpl. lia. }
    split; [done|]. destruct (last (e :: events)) as [x|] eqn:Hx.
    + exists x. split; [done|]. rewrite Forall_forall in Hall.
      apply Hall. apply last_Some in Hx as [l ->]. apply elem_of_app. right. left.
    + by apply last_None in Hx.
  - intros (Hb & x & Hx & Hlx)%IH. split; [done|]. exists x. split; [|done].
    rewrite last_cons, Hx. done.
Qed.

Lemma read_rows st events :
  read_for_broadcast st = Ok events ->
  ns_Seq <$> events = er_seq <$> select_events (bp_minSeq (sh_bp st)) (sh_db st).
Proof.
  unfold read_for_broadcast. generalize (select_events (bp_minSeq (sh_bp st)) (sh_db st)) as rows.
  intros rows. revert events. induction rows as [|row rows IH]; intros events; simpl.
  { by intros [= <-]. }
  intros (e & He & (es & Hes & [= <-])%outcome_bind_Ok)%outcome_bind_Ok.
  rewrite fmap_cons, (event_of_row_seq _ _ He), (IH _ Hes). done.
Qed.

Lemma read_sorted st events : read_for_broadcast st = Ok events -> key_sorted ns_Seq events.
Proof.
  intros H%read_rows. unfold key_sorted. apply (sorted_fmap Z.le ns_Seq). rewrite H.
  apply (sorted_fmap Z.le er_seq). apply order_by_sorted.
Qed.

(** The channel [ch] exists, the event [n] is not on its way through it, and the
    subscription, when there is one, waits for later events. *)
Definition passed_by (n : Z) (ch : nat) b : Prop :=
  (exists c, bp_chans b !! ch = Some c /\ Forall (Forall (fun e => ns_Seq e <> n)) (ch_queue c)) /\
  forall seq, bp_subs b !! ch = Some seq -> n < seq.

(** [passed_by] looks only at the subscription and its channel. *)
Lemma passed_by_at n ch b b' :
  at_channel ch b' = at_channel ch b -> passed_by n ch b -> passed_by n ch b'.
Proof. unfold at_channel, passed_by. intros [= -> ->]. done. Qed.

Lemma passed_by_broadcast n ch st events :
  read_for_broadcast st = Ok events -> passed_by n ch (sh_bp st) ->
  passed_by n ch (broadcast_events events (sh_bp st)).
Proof.
  intros Hread%read_sorted Hpass.
  destruct (decide (events = [])) as [->|Hne]; [done|].
  destruct (bp_subs (sh_bp st) !! ch) as [seq|] eqn:Hsub.
  - destruct (broadcast_events_at events _ ch seq Hne Hsub) as (next & Hlast & Hat & _).
    unfold batch_step in Hat. destruct (events_from seq events) as [batch|] eqn:Hf;
      [|by apply (passed_by_at n ch (sh_bp st))].
    destruct (events_from_above _ _ _ Hread Hf) as (Hb & x & Hx & Hlx).
    unfold Broadcaster.last_seq in Hlast. rewrite Hx in Hlast. injection Hlast as Hlast.
    destruct Hpass as [(c & Hc & Hq) Hlt]. specialize (Hlt _ Hsub).
    unfold at_channel in Hat. rewrite Hc in Hat. simpl in Hat.
    case_decide; injection Hat as Hs' Hc'; split.
    + exists (mkChannel (ch_queue c ++ [batch]) (ch_closed c)). split; [done|]. simpl.
      apply Forall_app. split; [done|]. constructor; [|done].
      eapply Forall_impl; [exact Hb|]. simpl. lia.
    + intros s Hs. rewrite Hs' in Hs. injection Hs as <-. lia.
    + eexists. split; [exact Hc'|]. done.
    + intros s Hs. congruence.
  - apply (passed_by_at n ch (sh_bp st)); [|done]. unfold broadcast_events.
    destruct (Broadcaster.last_seq events); [|done].
    rewrite <- (broadcast_fold_other events (z + 1) ch (map_to_list (bp_subs (sh_bp st))) (sh_bp st)).
    + done.
    + intros [[ch' seq] [Heq Hin]]%list_elem_of_fmap. simpl in Heq. subst ch'.
      apply elem_of_map_to_list in Hin. congruence.
Qed.

Lemma passed_by_step n ch st st' :
  interleave_step st st' -> passed_by n ch (sh_bp st) -> passed_by n ch (sh_bp st').
Proof.
  intros Hstep Hpass. destruct Hstep; try exact Hpass.
  - (* a subscription: its channel is another *)
    apply (passed_by_at n ch (sh_bp st)); [|done]. destruct Hpass as [(c & Hc & _) _].
    assert (fresh (dom (bp_chans (sh_bp st))) <> ch) as Hne.
    { intros Heq. apply (is_fresh (dom (bp_chans (sh_bp st)))). rewrite Heq. by apply elem_of_dom. }
    unfold at_channel. simpl. by rewrite !lookup_insert_ne.
  - destruct Hpass as [(c & Hc & Hq) Hlt]. destruct (decide (ch0 = ch)) as [->|Hne].
    + split; simpl.
      * exists (mkChannel (ch_queue c) true). by rewrite lookup_alter_eq, Hc.
      * intros seq. by rewrite lookup_delete_eq.
    + split; simpl.
      * exists c. by rewrite lookup_alter_ne.
      * intros seq. rewrite lookup_delete_ne by done. apply Hlt.
  - by apply passed_by_broadcast.
  - destruct Hpass as [(c & Hc & Hq) Hlt]. destruct (decide (ch0 = ch)) as [->|Hne]; (split; [|done]); simpl.
    + exists (mkChannel queue closed). rewrite lookup_insert_eq. split; [done|]. simpl.
      assert (c = mkChannel (batch :: queue) closed) as -> by congruence. by inversion Hq.
    + exists c. by rewrite lookup_insert_ne.
Qed.

(** An event that a subscriber has gone past is never sent to it. *)
Lemma passed_by_steps n ch st st' :
  rtc interleave_step st st' -> passed_by n ch (sh_bp st) -> passed_by n ch (sh_bp st').
Proof. induction 1; [done|]. intros. by eauto using passed_by_step. Qed.

(** COMMIT, when nothing else was written *)
Definition commit_events (rows : list EventRow) (d : DB) : DB :=
  mkDB (db_transactions d) (db_accounts d) (db_metadata d) (db_events d ++ rows) (db_muted d).

Lemma commit_events_commits rows d : commits rows d (commit_events rows d).
Proof. by repeat split. Qed.

(** The run that loses an event: the wallet draws the number 1, a handler that creates an
    account draws 2 and commits, and the broadcast comes before the wallet's commit. *)
Definition run_fresh : Shared := mkShared (mkDB [] [] ∅ [] []) 1 None ∅ None [] NewEventBroker.
Definition run_subscribed : Shared := set_sh_bp (subscribe_from 0 0%nat NewEventBroker) run_fresh.
Definition run_drawn : Shared :=
  let s := set_sh_wallet (Some []) run_subscribed in
  set_sh_wallet (Some [stored_row NewIncomingTxEvent JNull s]) (set_sh_seq 2 s).
Definition run_other : Shared :=
  let s := set_sh_accounts {[0%nat := []]} run_drawn in
  set_sh_accounts {[0%nat := [stored_row NewAddressEvent JNull s]]} (set_sh_seq 3 s).
Definition run_committed : Shared :=
  set_sh_accounts ∅ (set_sh_db (commit_events [stored_row NewAddressEvent JNull run_drawn] (sh_db run_other)) run_other).
Definition run_broadcast : Shared :=
  set_sh_bp (broadcast_events
    [mkNotificationWithSeq (mkNotification NewAddressEvent (DataGeneric JNull)) 2] (sh_bp run_committed)) run_committed.
Definition run_late : Shared :=
  set_sh_wallet None (set_sh_db (commit_events [stored_row NewIncomingTxEvent JNull run_subscribed]
    (sh_db run_broadcast)) run_broadcast).

Lemma run_steps : rtc interleave_step run_subscribed run_broadcast.
Proof.
  eapply rtc_l; [by apply wallet_begins|].
  eapply rtc_l; [by eapply (wallet_stores _ [] NewIncomingTxEvent JNull)|].
  change (rtc interleave_step run_drawn run_broadcast).
  eapply rtc_l; [by apply (account_begins _ 0%nat)|].
  eapply rtc_l; [by eapply (account_stores _ 0%nat [] JNull)|].
  eapply rtc_l; [by eapply (account_commits _ 0%nat), commit_events_commits|].
  apply rtc_once. by apply (broadcasts run_committed).
Qed.

(** C25: The numbers of events are drawn when they are inserted and seen when their
    transactions commit, so a live subscriber can miss an event: in a reachable state a
    client waits for all events from the first; while it stays subscribed an event that
    is not muted is committed, and whatever happens afterwards, that event is never put
    in the client's channel. *)
Theorem websocket_event_lost :
  exists (st0 st st1 : Shared) (ch : nat) (row : EventRow),
    interleave_reach st0 /\ bp_subs (sh_bp st0) !! ch = Some 0 /\
    rtc interleave_step st0 st /\ interleave_step st st1 /\
    row ∉ db_events (sh_db st) /\ row ∈ db_events (sh_db st1) /\ is_muted (sh_db st1) row = false /\
    0 <= er_seq row /\ is_Some (bp_subs (sh_bp st1) !! ch) /\
    forall st', rtc interleave_step st1 st' -> forall c, bp_chans (sh_bp st') !! ch = Some c ->
      er_seq row ∉ ns_Seq <$> mjoin (ch_queue c).
Proof.
  exists run_subscribed, run_broadcast, run_late, 0%nat, (stored_row NewIncomingTxEvent JNull run_subscribed).
  split_and!.
  - eapply interleave_more; [apply interleave_init|]. apply (subscribes run_fresh 0).
  - done.
  - apply run_steps.
  - by eapply wallet_commits, commit_events_commits.
  - apply not_elem_of_cons. split; [done|]. apply not_elem_of_nil.
  - right. left.
  - done.
  - done.
  - by eexists.
  - intros st' Hsteps c Hc Hin.
    assert (Hp : passed_by 1 0 (sh_bp run_late)).
    { split; [eexists; split; [done|]; by repeat constructor|]. by intros seq [= <-]. }
    destruct (passed_by_steps _ _ _ _ Hsteps Hp) as [(c' & Hc' & Hq) _].
    assert (c' = c) as -> by congruence. apply list_elem_of_fmap in Hin as (e & He & Hin).
    apply list_elem_of_join in Hin as (batch & Hin & Hb). rewrite Forall_forall in Hq.
    specialize (Hq _ Hb). rewrite Forall_forall in Hq. by apply (Hq _ Hin).
Qed.

End Subscribers.

(** The wallet's event of that run is posted, and its number stored. *)
Section Witness.
#[local] Instance interleave_env : Env := test_env no_fault.

Definition run_pass : Shared :=
  set_sh_posted [1] (set_sh_pass (Some (PostgresEventStorage.select_events 1 (sh_db run_late))) run_late).
Definition run_posted : Shared :=
  let s := set_sh_db (mkDB [] [] {["last_http_sent_seq" := "1"%string]} (db_events (sh_db run_late)) []) run_pass in
  set_sh_pass (Some (tail (PostgresEventStorage.select_events 1 (sh_db run_late)))) s.

Lemma run_posted_reach : interleave_reach run_posted.
Proof.
  assert (Hlate : interleave_reach run_late).
  { assert (Hr : interleave_reach run_broadcast).
    { assert (H0 : interleave_reach run_subscribed)
        by (eapply interleave_more; [apply interleave_init|]; apply (subscribes run_fresh 0)).
      revert H0. generalize run_steps. generalize run_subscribed, run_broadcast.
      induction 1; eauto using interleave_more. }
    eapply interleave_more; [exact Hr|]. by eapply wallet_commits, commit_events_commits. }
  eapply interleave_more; [eapply interleave_more; [eapply interleave_more; [exact Hlate|] |] |].
  - by apply pass_reads.
  - by apply pass_posts with (row := stored_row NewIncomingTxEvent JNull run_subscribed)
      (rest := tail (PostgresEventStorage.select_events 1 (sh_db run_late))).
  - eapply (pass_persists run_pass (stored_row NewIncomingTxEvent JNull run_subscribed)); [done | done | left | done].
Qed.

Lemma callback_never_skips_witness :
  last_sent (sh_db run_posted) = 1 /\
  (PostgresEventStorage.is_muted (sh_db run_posted) (stored_row NewIncomingTxEvent JNull run_subscribed) = true \/
   1 ∈ sh_posted run_posted \/
   stored_row NewIncomingTxEvent JNull run_subscribed ∈
     PostgresEventStorage.select_events (last_sent (sh_db run_posted) + 1) (sh_db run_posted)).
Proof.
  split; [reflexivity|].
  apply (callback_never_skips run_posted (stored_row NewIncomingTxEvent JNull run_subscribed)).
  - apply run_posted_reach.
  - right. left.
  - reflexivity.
Defined.

End Witness.
