(* ===== verification/EventLog.v ===== *)
(** * The event storage as an abstract log

    What the broker may rely on, whichever storage it runs with: numbered events in the
    order of their numbers, the transactions whose events are muted, the number of the
    last event sent to the callback and the lock. The log is a function from commands to
    replies; both storages give its replies. They differ in the first number (1 in
    PostgreSQL, 0 in memory), and the storage in memory cannot mute. *)
From S2P Require Import Prelude.
From S2P Require Import Go.
From S2P Require Import Util.
From S2P Require Import Bitcoin.
From S2P Require Import TxTypes.
From S2P Require Import EventTypes.
From S2P Require Import World.
From S2P Require Import Effects.
From S2P Require Import Storage.
From S2P Require Import EventStorage.
From S2P Require Import WellFormed.
From S2P Require Import EventProps.
From S2P Require Import ClientEvents.
From S2P Require Import TestEnv.
Local Open Scope Z_scope.

(** A numbered event with its data as JSON *)
Definition Entry : Type := Z * EventType * json.

Record EventLog := mkLog {
  el_entries : list Entry;
  el_next : Z;                 (* the number of the next event *)
  el_muted : list UUID;
  el_sent : Z;
  el_lock : string;            (* empty when the callback is not locked *)
}.

Inductive LogCommand :=
| Put (event : Notification)
| FromNumber (seq : Z)
| NextFrom (seq : Z)
| LastSent
| SetSent (seq : Z)
| LockCallback (operation : Z)
| UnlockCallback
| CheckCallback
| Mute (id : UUID).

Inductive LogReply :=
| LUnit
| LNumber (n : Z)
| LEntry (e : Entry)
| LEntries (es : list Entry)
| LLock (free : bool) (operation : string).

Section Spec.
Context {E : Env}.

(** The transaction that an event is about *)
Definition subject (e : Entry) : option UUID :=
  match json_field "id" e.2 with JStr s => uuid_UnmarshalText s | _ => None end.

Definition visible (g : EventLog) (e : Entry) : bool :=
  match subject e with Some id => bool_decide (id ∉ el_muted g) | None => true end.

(** The events from a number on, without the muted ones *)
Definition shown (g : EventLog) (seq : Z) : list Entry :=
  filter (fun e => seq <= e.1.1 /\ visible g e = true) (el_entries g).

Definition log_step (c : LogCommand) (g : EventLog) : outcome LogReply * EventLog :=
  let '(mkLog entries next muted sent lock) := g in
  match c with
  | Put event =>
      (Ok (LNumber next),
       mkLog (entries ++ [(next, n_Type event, EventData_MarshalJSON (n_Data event))]) (next + 1)
         muted sent lock)
  | FromNumber seq => (Ok (LEntries (shown g seq)), g)
  | NextFrom seq =>
      (match shown g seq with [] => Err ErrNoSuchEvent | e :: _ => Ok (LEntry e) end, g)
  | LastSent => (Ok (LNumber sent), g)
  | SetSent seq => (Ok LUnit, mkLog entries next muted seq lock)
  | LockCallback op => (Ok LUnit, mkLog entries next muted sent (json_text (JNum (itoa op))))
  | UnlockCallback => (Ok LUnit, mkLog entries next muted sent "")
  | CheckCallback => (Ok (LLock (bool_decide (lock = "")) lock), g)
  | Mute id =>
      if decide (id ∈ muted) then (Err ErrAlreadyMuted, g)
      else (Ok LUnit, mkLog entries next (muted ++ [id]) sent lock)
  end.

(** Numbers increase up to the next one; every event has a type that has a name and
    data of that type. *)
Record log_ok (g : EventLog) : Prop := {
  lok_sorted : StronglySorted Z.lt ((fun e : Entry => e.1.1) <$> el_entries g);
  lok_numbers : Forall (fun e : Entry => 0 <= e.1.1 < el_next g) (el_entries g);
  lok_next : 0 <= el_next g <= 2 ^ 31;
  lok_data : Forall (fun e : Entry => e.1.2 <> InvalidEvent /\
    exists d, data_fits e.1.2 d /\ e.2 = EventData_MarshalJSON d) (el_entries g);
  lok_sent : is_i64 (el_sent g);
}.

(** The commands on which the storages agree. Only one of them can mute. *)
Definition log_admissible (mutes : bool) (g : EventLog) (c : LogCommand) : Prop :=
  match c with
  | Put event => data_fits (n_Type event) (n_Data event) /\ el_next g < 2 ^ 31
  | FromNumber seq | NextFrom seq => 0 <= seq
  | SetSent seq => is_i64 seq
  | Mute _ => mutes = true
  | _ => True
  end.

Lemma data_fits_type et d : data_fits et d -> et <> InvalidEvent.
Proof. destruct d; simpl; naive_solver. Qed.

Lemma log_step_ok mutes c g : log_ok g -> log_admissible mutes g c -> log_ok (log_step c g).2.
Proof.
  intros [Hs Hn Hx Hd Hse] Hadm. destruct g as [entries next muted sent lock].
  destruct c; simpl in *; try (by split); [|by case_decide; split].
  destruct Hadm as [Hfit Hmax]. split; simpl; [| |lia| |done].
  - rewrite fmap_app. apply StronglySorted_snoc; [done|]. rewrite Forall_fmap.
    eapply Forall_impl; [exact Hn|]. simpl. lia.
  - apply Forall_app. split; [|apply Forall_singleton; simpl; lia].
    eapply Forall_impl; [exact Hn|]. simpl. lia.
  - apply Forall_app. split; [done|]. apply Forall_singleton. simpl.
    split; [by eapply data_fits_type | by exists (n_Data event)].
Qed.

(** ** The commands on a storage *)
Section Execute.
Context {ES : EventStorage}.

Definition entry_of (e : NotificationWithSeq) : Entry :=
  (ns_Seq e, ns_Type e, EventData_MarshalJSON (ns_Data e)).

Definition execute_log (ex : Exec) (c : LogCommand) : M LogReply :=
  match c with
  | Put event => e ← StoreEvent ex event; mret (LNumber (ns_Seq e))
  | FromNumber seq => es ← GetEventsFromSeq ex seq; mret (LEntries (entry_of <$> es))
  | NextFrom seq => e ← GetNextEventFromSeq ex seq; mret (LEntry (entry_of e))
  | LastSent => n ← GetLastHTTPSentSeq ex; mret (LNumber n)
  | SetSent seq => StoreLastHTTPSentSeq ex seq ;; mret LUnit
  | LockCallback op => LockHTTPCallback ex op ;; mret LUnit
  | UnlockCallback => ClearHTTPCallback ex ;; mret LUnit
  | CheckCallback => '(free, op) ← CheckHTTPCallbackLock ex; mret (LLock free op)
  | Mute id => MuteEventsWithTxID_storage ex id ;; mret LUnit
  end.

(** A sequence of commands; the caller goes on after an error. *)
Definition execute_commands (ex : Exec) (cs : list LogCommand) : M (list (LogReply + error)) :=
  mapM_list (fun c => try (execute_log ex c)) cs.

End Execute.

(** The log's own run *)
Fixpoint log_run (cs : list LogCommand) (g : EventLog) : list (outcome LogReply) * EventLog :=
  match cs with
  | [] => ([], g)
  | c :: cs => let '(r, g1) := log_step c g in let '(rs, g') := log_run cs g1 in (r :: rs, g')
  end.

Fixpoint log_admissible_run (mutes : bool) (cs : list LogCommand) (g : EventLog) : Prop :=
  match cs with
  | [] => True
  | c :: cs => log_admissible mutes g c /\ log_admissible_run mutes cs (log_step c g).2
  end.

Definition to_outcome (r : LogReply + error) : outcome LogReply :=
  match r with inl a => Ok a | inr e => Err e end.

(** ** Refinement
    A storage refines the log when a representation of logs by worlds is kept by every
    admissible command, whose reply is the log's. *)
Class RefinesLog (ES : EventStorage) (ex : Exec) (mutes : bool)
    (represents : EventLog -> World -> Prop) : Prop :=
  refines_log_step : forall g c w, represents g w -> log_admissible mutes g c ->
    wp (execute_log (ES := ES) ex c)
       (fun r w' => r = (log_step c g).1 /\ represents (log_step c g).2 w') w.

Lemma log_step_replies c g : exists r, (log_step c g).1 = to_outcome r.
Proof.
  destruct g, c; simpl; try (by eexists (inl _)).
  - destruct (shown _ _); [by exists (inr ErrNoSuchEvent) | by eexists (inl _)].
  - case_decide; [by exists (inr ErrAlreadyMuted) | by eexists (inl _)].
Qed.

Lemma refines_log_run {ES ex mutes rep} {R : RefinesLog ES ex mutes rep} cs : forall g w,
  rep g w -> log_admissible_run mutes cs g ->
  wp (execute_commands (ES := ES) ex cs)
     (fun r w' => exists rs, r = Ok rs /\ to_outcome <$> rs = (log_run cs g).1 /\
        rep (log_run cs g).2 w') w.
Proof.
  induction cs as [|c cs IH]; intros g w Hrep Hadm.
  - apply wp_ret. by exists [].
  - destruct Hadm as [Hc Hcs]. apply wp_bind, wp_try.
    eapply wp_mono; [by apply (refines_log_step g c w)|]. intros r w1 [-> Hrep1].
    cbn [log_run]. destruct (log_step c g) as [r g1] eqn:Hstep. simpl in Hrep1, Hcs.
    destruct (log_step_replies c g) as [a Ha]. rewrite Hstep in Ha. simpl in Ha. subst r.
    assert (Hgo : wp (rs ← execute_commands ex cs; mret (a :: rs))
      (fun r w' => exists rs, r = Ok rs /\
         to_outcome <$> rs = (let '(rs, g') := log_run cs g1 in (to_outcome a :: rs, g')).1 /\
         rep (let '(rs, g') := log_run cs g1 in (to_outcome a :: rs, g')).2 w') w1).
    { apply wp_bind. eapply wp_mono; [by apply IH|]. intros ? w' (rs & -> & Hrs & Hrep').
      apply wp_ret. exists (a :: rs). rewrite fmap_cons, Hrs. by destruct (log_run cs g1). }
    destruct a; exact Hgo.
Qed.

End Spec.

(** ** PostgreSQL, while the server does not fail *)
Section Postgres.
Context {E : Env} {EL : EnvLaws E} {DL : DecimalLaws env_decimal} {UL : UuidLaws env_uuidlib}.
Context (no_faults : forall n, env_fault n = NoFault).
#[local] Existing Instance PostgresEvents.
Import PostgresEventStorage.

Definition entry_row (e : Entry) : EventRow := mkEventRow e.1.1 (EventType_String e.1.2) e.2.

Record log_tables (g : EventLog) (d : DB) : Prop := {
  lt_events : db_events d = entry_row <$> el_entries g;
  lt_muted : db_muted d = el_muted g;
  lt_sent : atoi (default "0" (db_metadata d !! "last_http_sent_seq")) = Some (el_sent g);
  lt_lock : default "" (db_metadata d !! "http_callback_operation") = el_lock g;
}.

Record log_in_tables (ex : Exec) (g : EventLog) (w : World) : Prop := {
  li_ok : log_ok g;
  li_seq : events_seq w = el_next g;
  li_tables : exists d, target ex w = Some d /\ log_tables g d;
}.

Lemma log_in_tables_bump ex g w : log_in_tables ex g w -> log_in_tables ex g (bump_sql w).
Proof. intros []. split; [done|done|]. by destruct ex. Qed.

Lemma log_in_tables_put ex g d w :
  log_ok g -> events_seq w = el_next g -> log_tables g d -> log_in_tables ex g (put_db ex d w).
Proof. intros Hok Hs Ht. split; [done | by destruct ex | exists d; by destruct ex]. Qed.

Lemma muted_visible g d e : log_tables g d -> is_muted d (entry_row e) = negb (visible g e).
Proof.
  intros Ht. unfold is_muted, visible, event_tx_id, subject. simpl. rewrite (lt_muted _ _ Ht).
  destruct (json_field "id" e.2); try done. destruct (uuid_UnmarshalText _) as [id|]; [|done].
  rewrite bool_decide_not. by rewrite negb_involutive.
Qed.

(** The SELECT finds the rows of what the log shows. *)
Lemma select_shown g d seq :
  log_ok g -> log_tables g d -> select_events seq d = entry_row <$> shown g seq.
Proof.
  intros Hok Ht. unfold select_events, shown.
  assert (Hf : filter (fun row => seq <= er_seq row /\ is_muted d row = false) (db_events d) =
    entry_row <$> filter (fun e : Entry => seq <= e.1.1 /\ visible g e = true) (el_entries g)).
  { rewrite (lt_events _ _ Ht). induction (el_entries g) as [|e es IH]; [done|].
    rewrite fmap_cons, !filter_cons, (muted_visible g) by done. simpl.
    destruct (visible g e); simpl;
      [|by rewrite !decide_False by naive_solver]. 
    destruct (decide (seq <= e.1.1)).
    - by rewrite !decide_True, fmap_cons, IH by done.
    - by rewrite !decide_False by naive_solver. }
  rewrite Hf. apply order_by_id. unfold key_sorted.
  apply (sorted_fmap Z.le er_seq). rewrite <- list_fmap_compose.
  change (er_seq ∘ entry_row) with (fun e : Entry => e.1.1).
  apply (sorted_fmap Z.le (fun e : Entry => e.1.1)), sorted_filter.
  pose proof (lok_sorted _ Hok) as Hs. apply (sorted_fmap Z.lt (fun e : Entry => e.1.1)) in Hs.
  eapply sorted_impl; [|exact Hs]. simpl. lia.
Qed.

Lemma shown_data g seq :
  log_ok g -> Forall (fun e : Entry => is_i64 e.1.1 /\ e.1.2 <> InvalidEvent /\
    exists d, data_fits e.1.2 d /\ e.2 = EventData_MarshalJSON d) (shown g seq).
Proof.
  intros Hok. rewrite Forall_forall. intros e (_ & Hin)%list_elem_of_filter.
  pose proof (lok_data _ Hok) as Hd. pose proof (lok_numbers _ Hok) as Hn. pose proof (lok_next _ Hok) as Hx.
  rewrite Forall_forall in Hd, Hn. specialize (Hn e Hin). split; [unfold is_i64; simpl in *; lia|].
  by apply Hd.
Qed.

Lemma read_entries es w :
  Forall (fun e : Entry => e.1.2 <> InvalidEvent) es ->
  exists evs, mapM_list (fun row => lift (event_of_row row)) (entry_row <$> es) w = (Ok evs, w) /\
    entry_of <$> evs = es.
Proof.
  induction 1 as [|[[n et] j] es He _ (evs & Hrun & Hev)]; [by exists []|].
  exists (mkNotificationWithSeq (mkNotification et (DataGeneric j)) n :: evs).
  rewrite !fmap_cons, Hev. split; [|done]. cbn [mapM_list].
  assert (event_of_row (entry_row (n, et, j)) = Ok (mkNotificationWithSeq (mkNotification et (DataGeneric j)) n)) as Hr.
  { unfold event_of_row. simpl. by rewrite (proj2 (EventTypeFromString_String et)). }
  rewrite (bind_Ok _ _ _ w w) by by (unfold lift; rewrite Hr).
  by rewrite (bind_Ok _ _ _ _ _ Hrun).
Qed.

Lemma marshal_read_data d : EventData_MarshalJSON (read_data d) = EventData_MarshalJSON d.
Proof. by destruct d. Qed.

Lemma entry_decoded (e : Entry) d :
  is_i64 e.1.1 -> e.1.2 <> InvalidEvent -> data_fits e.1.2 d -> e.2 = EventData_MarshalJSON d ->
  exists n, NotificationWithSeq_UnmarshalJSON
      (JObj [ ("seq", JNum (itoa (er_seq (entry_row e)))); ("type", JStr (er_type (entry_row e)));
              ("data", er_data (entry_row e)) ]) = Ok n /\ entry_of n = e.
Proof.
  intros Hi Ht Hd Hj. exists (mkNotificationWithSeq (mkNotification e.1.2 (read_data d)) e.1.1).
  split.
  - unfold NotificationWithSeq_UnmarshalJSON. cbn [unmarshal_object mbind outcome_bind].
    erewrite (field_or_get _ _ "type") by (reflexivity || by apply EventTypeFromString_String).
    cbn [mbind outcome_bind].
    erewrite (field_or_get _ _ "seq") by (reflexivity || by apply unmarshal_int_itoa).
    cbn [mbind outcome_bind].
    erewrite (field_or_get _ _ "data") by (reflexivity || (simpl; rewrite Hj; by apply data_json_roundtrip)).
    reflexivity.
  - destruct e as [[n et] j]. unfold entry_of, ns_Seq, ns_Type, ns_Data. simpl in *.
    by rewrite marshal_read_data, Hj.
Qed.

Definition follows_log (ex : Exec) (g : EventLog) (c : LogCommand) (r : outcome LogReply) (w : World) : Prop :=
  r = (log_step c g).1 /\ log_in_tables ex (log_step c g).2 w.

Lemma pg_reads ex g c r w :
  log_in_tables ex g w -> log_step c g = (r, g) -> follows_log ex g c r (bump_sql w).
Proof. intros Hi Hs. unfold follows_log. rewrite Hs. split; [done|]. by apply log_in_tables_bump. Qed.

(** A metadata value is assigned. *)
Lemma pg_assigns ex g name value c w :
  log_in_tables ex g w -> log_admissible true g c -> (log_step c g).1 = Ok LUnit ->
  el_next (log_step c g).2 = el_next g ->
  (forall d, log_tables g d -> log_tables (log_step c g).2
     (mkDB (db_transactions d) (db_accounts d) (<[name := value]> (db_metadata d)) (db_events d) (db_muted d))) ->
  wp (SetMeta ex name value ;; mret LUnit) (follows_log ex g c) w.
Proof.
  intros Hi Hadm Hr Hn Hd. pose proof (li_tables _ _ _ Hi) as (d & Hw & Ht).
  apply wp_bind. eapply (wp_exec no_faults); [done..|]. apply wp_ret. split; [done|].
  apply log_in_tables_put; [eapply log_step_ok; [apply Hi | done] | rewrite Hn; apply Hi | by apply Hd].
Qed.

Lemma pg_metadata_log ex g c w :
  match c with LastSent | SetSent _ | LockCallback _ | UnlockCallback | CheckCallback => True | _ => False end ->
  log_in_tables ex g w -> log_admissible true g c ->
  wp (execute_log ex c) (follows_log ex g c) w.
Proof.
  intros Hc Hi Hadm. pose proof (li_tables _ _ _ Hi) as (d & Hw & Ht). pose proof Ht as [].
  destruct g as [entries next muted sent lock]. simpl in *.
  destruct c; try done.
  - apply wp_bind, wp_bind. eapply (wp_meta no_faults); [done..|]. apply wp_lift. simpl.
    rewrite lt_sent0. apply wp_ret. by apply pg_reads.
  - apply (pg_assigns _ _ _ _ (SetSent seq)); [done..|]. intros d' []. split; simpl in *; try done;
      rewrite ?lookup_insert_eq, ?lookup_insert_ne by done; [|done]. simpl. by rewrite atoi_itoa.
  - apply (pg_assigns _ _ _ _ (LockCallback operation)); [done..|]. intros d' []. split; simpl in *; try done;
      by rewrite ?lookup_insert_eq, ?lookup_insert_ne by done.
  - apply (pg_assigns _ _ _ _ UnlockCallback); [done..|]. intros d' []. split; simpl in *; try done;
      by rewrite ?lookup_insert_eq, ?lookup_insert_ne by done.
  - apply wp_bind, wp_bind. eapply (wp_meta no_faults); [done..|]. apply wp_ret, wp_ret.
    rewrite lt_lock0. by apply pg_reads.
Qed.

Lemma wp_next_event_seq (Q : outcome Z -> World -> Prop) w :
  Q (Ok (events_seq w)) (set_events_seq (events_seq w + 1) w) -> wp next_event_seq Q w.
Proof. done. Qed.

Lemma pg_put ex g event w :
  log_in_tables ex g w -> log_admissible true g (Put event) ->
  wp (execute_log ex (Put event)) (follows_log ex g (Put event)) w.
Proof.
  intros Hi Hadm. pose proof (li_tables _ _ _ Hi) as (d & Hw & Ht).
  assert (Hok := log_step_ok true (Put event) g (li_ok _ _ _ Hi) Hadm).
  apply wp_bind, wp_bind, wp_next_event_seq. rewrite (li_seq _ _ _ Hi). apply wp_bind.
  set (row := mkEventRow (el_next g) (EventType_String (n_Type event)) (EventData_MarshalJSON (n_Data event))).
  eapply (wp_exec no_faults _ _ d (mkDB (db_transactions d) (db_accounts d) (db_metadata d) (db_events d ++ [row]) (db_muted d))).
  - by destruct ex.
  - unfold insert_event. rewrite decide_False; [done|]. rewrite (lt_events _ _ Ht), <- list_fmap_compose.
    intros (e & He & Hin)%list_elem_of_fmap. pose proof (lok_numbers _ (li_ok _ _ _ Hi)) as Hn.
    rewrite Forall_forall in Hn. specialize (Hn e Hin). simpl in *. lia.
  - apply wp_ret, wp_ret. destruct g as [entries next muted sent lock]. split; [done|].
    apply log_in_tables_put; [exact Hok | done |]. destruct Ht. split; simpl in *; try done.
    by rewrite lt_events0, fmap_app.
Qed.

Lemma pg_mute ex g id w :
  log_in_tables ex g w ->
  wp (execute_log ex (Mute id)) (follows_log ex g (Mute id)) w.
Proof.
  intros Hi. pose proof (li_tables _ _ _ Hi) as (d & Hw & Ht). apply wp_bind, wp_bind, wp_try.
  destruct g as [entries next muted sent lock]. pose proof (lt_muted _ _ Ht) as Hm. simpl in Hm.
  destruct (decide (id ∈ muted)) as [Hin|Hin].
  - eapply (wp_exec_err no_faults); [done | unfold insert_muted; by rewrite Hm, decide_True |].
    apply wp_throw. apply pg_reads; [done|]. simpl. by rewrite decide_True.
  - eapply (wp_exec no_faults); [done | unfold insert_muted; by rewrite Hm, decide_False |].
    apply wp_ret, wp_ret. unfold follows_log. simpl. rewrite decide_False by done. split; [done|].
    apply log_in_tables_put; [by split; apply Hi | apply Hi |].
    destruct Ht. split; simpl in *; congruence.
Qed.

Lemma pg_log_lists ex g c w :
  match c with FromNumber _ | NextFrom _ => True | _ => False end -> log_in_tables ex g w ->
  wp (execute_log ex c) (follows_log ex g c) w.
Proof.
  intros Hc Hi. pose proof (li_tables _ _ _ Hi) as (d & Hw & Ht).
  assert (Hsel : forall seq, select_events seq d = entry_row <$> shown g seq)
    by (intros; apply select_shown; [apply Hi | done]).
  pose proof (fun seq => shown_data g seq (li_ok _ _ _ Hi)) as Hdata.
  destruct c; try done.
  - apply wp_bind, wp_bind. eapply (wp_ordered no_faults); [done|]. rewrite Hsel.
    destruct (read_entries (shown g seq) (bump_sql w)) as (evs & Hrun & Hev).
    { eapply Forall_impl; [apply Hdata|]. naive_solver. }
    unfold wp. rewrite Hrun. simpl. rewrite Hev. apply pg_reads; [done|]. by destruct g.
  - apply wp_bind, wp_bind. eapply (wp_ordered no_faults); [done|]. rewrite Hsel.
    specialize (Hdata seq). destruct (shown g seq) as [|e es] eqn:Hsh.
    + apply wp_throw. apply pg_reads; [done|]. destruct g. simpl in *. by rewrite Hsh.
    + apply Forall_cons in Hdata as [(Hn & Hty & dd & Hfit & Hj) _].
      destruct (entry_decoded e dd Hn Hty Hfit Hj) as (n & Hdec & Hen).
      rewrite fmap_cons. apply wp_lift. rewrite Hdec. apply wp_ret. rewrite Hen.
      apply pg_reads; [done|]. destruct g. simpl in *. by rewrite Hsh.
Qed.

#[export] Instance postgres_log ex : RefinesLog PostgresEvents ex true (log_in_tables ex).
Proof.
  intros g c w Hi Hadm. destruct c;
    first [ by apply pg_metadata_log | by apply pg_log_lists | by apply pg_put | by apply pg_mute ].
Qed.

End Postgres.

(** ** Memory: the number of an event is its index *)
Section Memory.
Context {E : Env}.
#[local] Existing Instance MemoryEvents.
Import InMemoryEvents.

Record log_in_memory (g : EventLog) (w : World) : Prop := {
  lm_ok : log_ok g;
  lm_entries : entry_of <$> me_events (mem_events w) = el_entries g;
  lm_numbers : forall i e, el_entries g !! i = Some e -> e.1.1 = Z.of_nat i;
  lm_next : el_next g = Z.of_nat (length (el_entries g));
  lm_muted : el_muted g = [];
  lm_sent : me_lastHTTPSentSeq (mem_events w) = el_sent g;
  lm_lock : me_httpCallbackOperation (mem_events w) = el_lock g;
}.

(** Among entries numbered from [base] on, those from [seq] on are a suffix. *)
Lemma numbered_from (es : list Entry) (base seq : Z) (P : Entry -> Prop) `{!forall e, Decision (P e)} :
  (forall e, P e) -> (forall i e, es !! i = Some e -> e.1.1 = base + Z.of_nat i) ->
  filter (fun e : Entry => seq <= e.1.1 /\ P e) es = drop (Z.to_nat (seq - base)) es.
Proof.
  intros HP. revert base. induction es as [|e es IH]; intros base Hn; [by rewrite drop_nil|].
  assert (He : e.1.1 = base) by (rewrite (Hn 0%nat e) by done; lia).
  assert (Hrest : forall i x, es !! i = Some x -> x.1.1 = base + 1 + Z.of_nat i)
    by (intros i x Hx; rewrite (Hn (S i) x) by done; lia).
  rewrite filter_cons. destruct (decide (seq <= base)).
  - rewrite decide_True by (rewrite He; auto). etrans; [apply (f_equal (cons e)), (IH (base + 1) Hrest)|].
    by replace (Z.to_nat (seq - base)) with 0%nat by lia;
       replace (Z.to_nat (seq - (base + 1))) with 0%nat by lia.
  - rewrite decide_False by (rewrite He; naive_solver). etrans; [apply (IH (base + 1) Hrest)|].
    by replace (Z.to_nat (seq - base)) with (S (Z.to_nat (seq - (base + 1)))) by lia.
Qed.

Lemma shown_in_memory g w seq :
  log_in_memory g w -> shown g seq = drop (Z.to_nat seq) (el_entries g).
Proof.
  intros []. unfold shown. rewrite (numbered_from _ 0); [by rewrite Z.sub_0_r | | done].
  intros e. unfold visible. destruct (subject e); [|done]. rewrite lm_muted0.
  apply bool_decide_eq_true_2, not_elem_of_nil.
Qed.

Lemma memory_length g w :
  log_in_memory g w -> length (me_events (mem_events w)) = length (el_entries g).
Proof. intros []. by rewrite <- lm_entries0, length_fmap. Qed.

Definition memory_follows (g : EventLog) (c : LogCommand) (r : outcome LogReply) (w : World) : Prop :=
  r = (log_step c g).1 /\ log_in_memory (log_step c g).2 w.

Lemma memory_reads g c r w : log_in_memory g w -> log_step c g = (r, g) -> memory_follows g c r w.
Proof. intros Hi Hs. unfold memory_follows. by rewrite Hs. Qed.

Lemma memory_puts ex g event w :
  log_in_memory g w -> log_admissible false g (Put event) ->
  wp (execute_log ex (Put event)) (memory_follows g (Put event)) w.
Proof.
  intros Hi Hadm. assert (Hok := log_step_ok false (Put event) g (lm_ok _ _ Hi) Hadm).
  pose proof (memory_length _ _ Hi) as Hlen.
  apply wp_bind, wp_bind, wp_gets, wp_bind, wp_modify, wp_ret, wp_ret.
  destruct Hi. destruct g as [entries next muted sent lock]. simpl in *.
  split; [by rewrite Hlen, <- lm_next0|]. split; simpl; [exact Hok | | | |done..].
  - rewrite fmap_app, lm_entries0. unfold entry_of at 1, ns_Seq. simpl. by rewrite Hlen, <- lm_next0.
  - intros i e [Hi|[Hge Hi]]%lookup_app_Some; [by apply lm_numbers0|].
    apply list_lookup_singleton_Some in Hi as [Hi <-]. simpl. unfold Entry in *. lia.
  - rewrite length_app. simpl. lia.
Qed.

Lemma memory_log_lists ex g c w :
  match c with FromNumber _ | NextFrom _ => True | _ => False end ->
  log_in_memory g w -> log_admissible false g c ->
  wp (execute_log ex c) (memory_follows g c) w.
Proof.
  intros Hc Hi Hadm. pose proof (memory_length _ _ Hi) as Hlen.
  assert (Hsh := fun seq => shown_in_memory g w seq Hi). pose proof (lm_entries _ _ Hi) as He.
  destruct c; try done; simpl in Hadm; apply wp_bind, wp_bind, wp_gets; cbv zeta.
  - rewrite Min_min, decide_False by lia. apply wp_ret, wp_ret, memory_reads; [done|].
    destruct g as [entries next muted sent lock]. simpl in *. rewrite Hsh, fmap_drop, He. do 3 f_equal.
    destruct (Z.le_gt_cases seq (Z.of_nat (length entries))).
    + do 2 f_equal. lia.
    + rewrite !drop_ge; [done|lia|lia].
  - case_decide as Hge.
    + apply wp_throw. apply memory_reads; [done|]. destruct g. simpl in *.
      by rewrite Hsh, drop_ge by lia.
    + rewrite decide_False by lia.
      destruct (me_events (mem_events w) !! Z.to_nat seq) as [n|] eqn:Hn;
        [|apply lookup_ge_None in Hn; lia].
      apply wp_ret, wp_ret. apply memory_reads; [done|]. destruct g as [entries next muted sent lock]. simpl in *.
      rewrite Hsh. assert (entries !! Z.to_nat seq = Some (entry_of n)) as Hen
        by (by rewrite <- He, list_lookup_fmap, Hn).
      by rewrite (drop_S _ _ _ Hen).
Qed.

#[export] Instance memory_log ex : RefinesLog MemoryEvents ex false log_in_memory.
Proof.
  intros g c w Hi Hadm. destruct c; try by apply memory_log_lists; try by apply memory_puts.
  - by apply memory_puts.
  - apply wp_bind, wp_gets, wp_ret. unfold compose. rewrite (lm_sent _ _ Hi). apply memory_reads; [done|]. by destruct g.
  - apply wp_bind, wp_modify, wp_ret. destruct Hi, g. split; [done|]. simpl in *.
    split; try done. by apply (log_step_ok false (SetSent seq) _ lm_ok0).
  - apply wp_bind, wp_modify, wp_ret. destruct Hi, g. split; [done|]. simpl in *.
    split; try done. by apply (log_step_ok false (LockCallback operation) _ lm_ok0).
  - apply wp_bind, wp_modify, wp_ret. destruct Hi, g. split; [done|]. simpl in *.
    split; try done. by apply (log_step_ok false UnlockCallback _ lm_ok0).
  - apply wp_bind, wp_bind, wp_gets, wp_ret, wp_ret. rewrite (lm_lock _ _ Hi).
    apply memory_reads; [done|]. by destruct g.
Qed.

End Memory.

Section LogProps.
Context {E : Env} {EL : EnvLaws E} {DL : DecimalLaws env_decimal} {UL : UuidLaws env_uuidlib}.

(** C13: The event storage in PostgreSQL is the log: while the server does not fail, any sequence
    of admissible operations, on the connection or in a transaction, gets exactly the
    replies of the log, and leaves tables that hold the log's next state: events are
    numbered one after the other, listed from a number on in their order without those of
    muted transactions, the next one is decoded to what was stored, and a transaction is
    muted once. *)
Theorem postgres_refines_log (ex : Exec) (cs : list LogCommand) (g : EventLog) (w : World)
    (no_faults : forall n, env_fault n = NoFault)
    (Hrep : log_in_tables ex g w) (Hadm : log_admissible_run true cs g) :
  exists rs, (execute_commands (ES := PostgresEvents) ex cs w).1 = Ok rs /\
    to_outcome <$> rs = (log_run cs g).1 /\
    log_in_tables ex (log_run cs g).2 (execute_commands (ES := PostgresEvents) ex cs w).2.
Proof. exact (refines_log_run (R := postgres_log no_faults ex) cs g w Hrep Hadm). Qed.

(** C14: So is the storage in memory, except that it cannot mute and that its numbers are
    the indices of a list. *)
Theorem memory_refines_log (ex : Exec) (cs : list LogCommand) (g : EventLog) (w : World)
    (Hrep : log_in_memory g w) (Hadm : log_admissible_run false cs g) :
  exists rs, (execute_commands (ES := MemoryEvents) ex cs w).1 = Ok rs /\
    to_outcome <$> rs = (log_run cs g).1 /\
    log_in_memory (log_run cs g).2 (execute_commands (ES := MemoryEvents) ex cs w).2.
Proof. exact (refines_log_run (R := memory_log ex) cs g w Hrep Hadm). Qed.

End LogProps.

(** ** Witnesses: two events, of which the second's transaction is muted *)
Section LogWitness.
#[local] Instance log_env : Env := test_env no_fault.

Definition logged : list Notification := ns_Notification <$> session_events.

Definition log_commands : list LogCommand :=
  (Put <$> logged) ++ [FromNumber 2; SetSent 1; LastSent; LockCallback 2; CheckCallback; NextFrom 1].
Definition muting_commands : list LogCommand := log_commands ++ [Mute 7; NextFrom 2; Mute 7].

Lemma log_run_admissible next :
  0 <= next <= 100 -> log_admissible_run true muting_commands (mkLog [] next [] 0 "") /\
  log_admissible_run false log_commands (mkLog [] next [] 0 "").
Proof.
  intros Hn. cbn. repeat split; try done; try lia; vm_compute; congruence.
Qed.

Lemma new_log_ok next : 0 <= next <= 1 -> log_ok (mkLog [] next [] 0 "").
Proof. intros Hn. split; simpl; try constructor; try done; lia. Qed.

Definition pg_log_replies : outcome (list (LogReply + error)) * World :=
  execute_commands (ES := PostgresEvents) OnDB muting_commands init_world.

Lemma postgres_refines_log_witness :
  (exists e, pg_log_replies.1 = Ok [inl (LNumber 1); inl (LNumber 2); inl (LEntries [e]); inl LUnit;
     inl (LNumber 1); inl LUnit; inl (LLock false "2");
     inl (LEntry (entry_of (mkNotificationWithSeq (default (mkNotification InvalidEvent (DataGeneric JNull)) (head logged)) 1)));
     inl LUnit; inr ErrNoSuchEvent; inr ErrAlreadyMuted]) /\
  exists g', log_in_tables OnDB g' pg_log_replies.2 /\ el_next g' = 3.
Proof.
  split; [eexists; vm_compute; reflexivity|].
  assert (T := postgres_refines_log (DL := test_decimal_laws) (UL := test_uuid_laws) OnDB muting_commands
    (mkLog [] 1 [] 0 "") init_world).
  destruct T as (rs & _ & _ & Hrep).
  - done.
  - split; [by apply new_log_ok | done | exists empty_db; by split].
  - by apply log_run_admissible.
  - eexists. split; [exact Hrep | vm_compute; reflexivity].
Defined.

Definition memory_log_replies : outcome (list (LogReply + error)) * World :=
  execute_commands (ES := MemoryEvents) OnDB log_commands init_world.

Lemma memory_refines_log_witness :
  (exists r, memory_log_replies.1 = Ok ([inl (LNumber 0); inl (LNumber 1); inl (LEntries []); inl LUnit;
     inl (LNumber 1); inl LUnit; inl (LLock false "2"); inl (LEntry r)])) /\
  exists g', log_in_memory g' memory_log_replies.2 /\ el_next g' = 2.
Proof.
  split; [eexists; vm_compute; reflexivity|].
  assert (T := memory_refines_log OnDB log_commands (mkLog [] 0 [] 0 "") init_world).
  destruct T as (rs & _ & _ & Hrep).
  - split; try done. by apply new_log_ok.
  - by apply log_run_admissible.
  - eexists. split; [exact Hrep | vm_compute; reflexivity].
Defined.

End LogWitness.
