(* ===== verification/JsonIndent.v ===== *)
(** * The indented form of a JSON value reads back

    The text of json.MarshalIndent, which the command-line client prints and the
    integration tests compare values by, is read as the value it was written from. *)
From Stdlib Require Import Ascii.
From S2P Require Import Prelude.
From S2P Require Import Go.
From S2P Require Import Json.
From S2P Require Import JsonText.
From S2P Require Import Cli.
Local Open Scope Z_scope.

Section Blanks.

Fixpoint blank (s : string) : bool :=
  match s with EmptyString => true | String c s' => is_space c && blank s' end.

Lemma skip_blank w s : blank w = true -> skip_space (w +:+ s) = skip_space s.
Proof.
  induction w as [|c w IH]; [done|]. simpl. intros [Hc Hw]%andb_true_iff.
  change (String c w +:+ s) with (String c (w +:+ s)). simpl. rewrite Hc. by apply IH.
Qed.

Lemma blank_newline p : blank p = true -> blank (newline p) = true.
Proof. done. Qed.

Lemma blank_deeper p : blank p = true -> blank (p +:+ "    ") = true.
Proof. induction p as [|c p IH]; [done|]. simpl. intros [-> Hp]%andb_true_iff. by apply IH. Qed.

Lemma stops_newline p s : stops (newline p +:+ s).
Proof. split; [done|]. by apply (bool_decide_unpack _). Qed.

Lemma parse_value_blank fuel w s :
  blank w = true -> parse_value fuel (w +:+ s) = parse_value fuel s.
Proof. intros Hw. destruct fuel; [done|]. by rewrite !parse_value_S, skip_blank. Qed.

End Blanks.

Section Indented.

(** [parse] reads the indented text of [j] wherever it stands. *)
Definition reads_indented (parse : string -> option (json * string)) (p : string) (j : json) : Prop :=
  forall w rest, blank w = true -> stops rest -> parse (w +:+ indent p j +:+ rest) = Some (j, rest).

(** The items of a block, from the first to the closing bracket *)
Definition items_text (p q : string) (item : string) (items : list string) (closing : ascii)
    (rest : string) : string :=
  newline p +:+ item +:+
  foldr (fun x rest => String ","%char (newline p +:+ x +:+ rest))
    (newline q +:+ String closing rest) items.

Lemma foldr_items p items t rest :
  foldr (fun x rest => "," +:+ newline p +:+ x +:+ rest) "" items +:+ t +:+ rest =
  foldr (fun x rest => String ","%char (newline p +:+ x +:+ rest)) (t +:+ rest) items.
Proof.
  induction items as [|x items IH]; [done|]. simpl.
  rewrite <- IH. rewrite !string_app_assoc. reflexivity.
Qed.

Lemma indented_block_text opening closing p item items rest :
  indented_block (String opening "") (String closing "") p (item :: items) +:+ rest =
  String opening (items_text (p +:+ "    ") p item items closing rest).
Proof.
  unfold indented_block, items_text. rewrite !string_app_assoc.
  change (newline p +:+ String closing rest) with (newline p +:+ (String closing "" +:+ rest)).
  rewrite <- string_app_assoc, <- foldr_items, !string_app_assoc. reflexivity.
Qed.

Lemma parse_elements_indent parse p q j l n rest :
  blank p = true -> blank q = true -> Forall (reads_indented parse p) (j :: l) ->
  (length (j :: l) <= n)%nat ->
  parse_elements parse n (items_text p q (indent p j) (indent p <$> l) "]" rest) =
  Some (j :: l, rest).
Proof.
  intros Hp Hq. revert j n. induction l as [|j' l IH]; intros j n Hl Hn;
    (destruct n as [|n]; [simpl in Hn; lia|]); apply Forall_cons in Hl as [Hj Hl];
    unfold items_text; rewrite parse_elements_S; simpl foldr.
  - rewrite Hj; [|by apply blank_newline | apply stops_newline]. cbn [mbind option_bind].
    rewrite skip_blank by by apply blank_newline. by rewrite skip_delimiter.
  - rewrite Hj; [|by apply blank_newline | apply stops_delimiter, (bool_decide_unpack _); by vm_compute].
    cbn [mbind option_bind]. rewrite skip_delimiter by done. cbv iota beta.
    unfold items_text in IH. rewrite IH; [done | done | simpl in Hn |- *; lia].
Qed.

Definition member_indent (p : string) (kv : string * json) : string :=
  quote kv.1 +:+ ": " +:+ indent p kv.2.

Lemma parse_member_indent parse n w k t :
  blank w = true ->
  parse_members parse (S n) (w +:+ quote k +:+ String ":"%char t) =
  '(j, r) ← parse t;
  match skip_space r with
  | String ","%char r' => '(l, r'') ← parse_members parse n r'; Some ((k, j) :: l, r'')
  | String "}"%char r' => Some ([(k, j)], r')
  | _ => None
  end.
Proof.
  intros Hw. rewrite <- parse_member_step, !parse_members_S. by rewrite skip_blank.
Qed.

Lemma member_indent_app p kv rest :
  member_indent p kv +:+ rest = quote kv.1 +:+ String ":"%char (" " +:+ indent p kv.2 +:+ rest).
Proof. unfold member_indent. rewrite !string_app_assoc. reflexivity. Qed.

Lemma parse_members_indent parse p q kv fields n rest :
  blank p = true -> blank q = true ->
  Forall (fun kv => reads_indented parse p kv.2) (kv :: fields) -> (length (kv :: fields) <= n)%nat ->
  parse_members parse n (items_text p q (member_indent p kv) (member_indent p <$> fields) "}" rest) =
  Some (kv :: fields, rest).
Proof.
  intros Hp Hq. revert kv n. induction fields as [|kv' fields IH]; intros [k j] n Hl Hn;
    (destruct n as [|n]; [simpl in Hn; lia|]); apply Forall_cons in Hl as [Hj Hl]; simpl in Hj;
    unfold items_text; rewrite member_indent_app, parse_member_indent by (by apply blank_newline);
    simpl foldr.
  - rewrite Hj; [|done | apply stops_newline]. cbn [mbind option_bind].
    rewrite skip_blank by by apply blank_newline. by rewrite skip_delimiter.
  - rewrite Hj; [|done | apply stops_delimiter, (bool_decide_unpack _); by vm_compute].
    cbn [mbind option_bind]. rewrite skip_delimiter by done. cbv iota beta.
    unfold items_text in IH. rewrite IH; [done | done | simpl in Hn |- *; lia].
Qed.

(** The texts of the items are shorter than the block, and so is their number. *)
Lemma items_text_bounds p q item items closing rest :
  (length (item :: items) <= String.length (items_text p q item items closing rest))%nat /\
  Forall (fun x => String.length x < String.length (items_text p q item items closing rest))%nat
    (item :: items).
Proof.
  revert item. induction items as [|x items IH]; intros item; unfold items_text; simpl foldr;
    rewrite !string_length_app; simpl String.length.
  - split; [simpl; lia|]. constructor; [lia | constructor].
  - destruct (IH x) as [Hlen Hall]. unfold items_text in Hlen, Hall.
    split; [simpl in *; lia|]. constructor; [lia|].
    apply (Forall_impl _ _ _ Hall). simpl. lia.
Qed.

Lemma indent_starts p j : json_ok j = true -> starts_value (indent p j).
Proof.
  intros Hok. destruct j as [| | | |l|fields]; try apply (text_starts_value _ Hok).
  - by destruct l.
  - by destruct fields.
Qed.

Lemma item_starts w x rest : blank w = true -> starts_value x -> skip_space (w +:+ x +:+ rest) = x +:+ rest.
Proof. intros Hw Hx. rewrite skip_blank by done. by apply skip_space_starts, starts_value_app. Qed.

Lemma reads_indented_scalar fuel p j :
  indent p j = json_text j -> json_ok j = true -> (String.length (indent p j) < fuel)%nat ->
  reads_indented (parse_value fuel) p j.
Proof.
  intros Hi Hok Hf w rest Hw Hrest. rewrite parse_value_blank by done. rewrite Hi in *.
  by apply parse_value_text.
Qed.

Lemma parts_indented {A} (f : A -> json) (g : A -> string) p q a l closing rest fuel :
  (String.length (items_text p q (g a) (g <$> l) closing rest) < S fuel)%nat ->
  (forall a, String.length (indent p (f a)) <= String.length (g a))%nat ->
  (forall a', a' ∈ a :: l -> forall fuel, (String.length (indent p (f a')) < fuel)%nat ->
     reads_indented (parse_value fuel) p (f a')) ->
  Forall (fun a => reads_indented (parse_value fuel) p (f a)) (a :: l) /\ (length (a :: l) <= fuel)%nat.
Proof.
  intros Hf Hle Hread. destruct (items_text_bounds p q (g a) (g <$> l) closing rest) as [Hlen Hall].
  change (g a :: (g <$> l)) with (g <$> a :: l) in Hlen, Hall. rewrite length_fmap in Hlen.
  split; [|lia]. rewrite Forall_fmap, Forall_forall in Hall. apply Forall_forall. intros a' Ha.
  apply Hread; [done|]. specialize (Hall a' Ha). specialize (Hle a'). unfold compose in Hall. lia.
Qed.

Lemma parse_value_indent j p fuel :
  blank p = true -> json_ok j = true -> (String.length (indent p j) < fuel)%nat ->
  reads_indented (parse_value fuel) p j.
Proof.
  revert p fuel. induction j as [|b|lit|s|l IH|fields IH] using json_nested_ind;
    intros p fuel Hp Hok Hf; try (by apply reads_indented_scalar);
    intros w rest Hw Hrest; rewrite parse_value_blank by done;
    (destruct fuel as [|fuel]; [lia|]); pose proof (blank_deeper p Hp) as Hp'.
  - destruct l as [|j l]; [reflexivity|].
    assert (Htext : forall rest, indent p (JArr (j :: l)) +:+ rest =
      String "["%char (items_text (p +:+ "    ") p (indent (p +:+ "    ") j)
                         (indent (p +:+ "    ") <$> l) "]" rest))
      by (intros; apply indented_block_text).
    assert (Hin : forall a, a ∈ j :: l -> json_ok a = true)
      by (intros a; apply (forallb_elem json_ok _ _ Hok)).
    rewrite <- (string_app_nil (indent p _)), Htext in Hf. cbn [String.length] in Hf.
    destruct (parts_indented id (indent (p +:+ "    ")) (p +:+ "    ") p j l "]"%char "" fuel)
      as [Hall Hlen]; [lia | done | |].
    { intros a Ha f Hf'. rewrite Forall_forall in IH. apply IH; [done | done | by apply Hin | done]. }
    rewrite Htext, parse_value_S, skip_delimiter by done. cbv beta iota.
    rewrite decide_False, decide_True by done.
    assert (Hsk : exists c t, skip_space (items_text (p +:+ "    ") p (indent (p +:+ "    ") j)
              (indent (p +:+ "    ") <$> l) "]" rest) = String c t /\ c <> "]"%char).
    { unfold items_text. rewrite item_starts; [|by apply blank_newline | by apply indent_starts, Hin; left].
      pose proof (indent_starts (p +:+ "    ") j (Hin j ltac:(left))) as Hst.
      destruct (indent _ j) as [|c t]; [done|]. destruct Hst as (_ & ? & _). by eexists c, _. }
    destruct Hsk as (c & t & -> & Hc).
    rewrite parse_elements_indent by done. by destruct c as [[] [] [] [] [] [] [] []].
  - destruct fields as [|kv fields]; [reflexivity|].
    assert (Htext : forall rest, indent p (JObj (kv :: fields)) +:+ rest =
      String "{"%char (items_text (p +:+ "    ") p (member_indent (p +:+ "    ") kv)
                         (member_indent (p +:+ "    ") <$> fields) "}" rest))
      by (intros; apply indented_block_text).
    assert (Hin : forall a, a ∈ kv :: fields -> json_ok a.2 = true)
      by (intros a; apply (forallb_elem (fun kv => json_ok kv.2) _ _ Hok)).
    rewrite <- (string_app_nil (indent p _)), Htext in Hf. cbn [String.length] in Hf.
    destruct (parts_indented snd (member_indent (p +:+ "    ")) (p +:+ "    ") p kv fields "}"%char
                "" fuel) as [Hall Hlen]; [lia | | |].
    { intros a. unfold member_indent. rewrite !string_length_app. lia. }
    { intros a Ha f Hf'. rewrite Forall_forall in IH. apply IH; [done | done | by apply Hin | done]. }
    rewrite Htext, parse_value_S, skip_delimiter by done. cbv beta iota.
    rewrite !decide_False, decide_True by done.
    assert (Hsk : exists c t, skip_space (items_text (p +:+ "    ") p (member_indent (p +:+ "    ") kv)
              (member_indent (p +:+ "    ") <$> fields) "}" rest) = String c t /\ c <> "}"%char).
    { unfold items_text. rewrite item_starts by done. by eexists _, _. }
    destruct Hsk as (c & t & -> & Hc).
    rewrite parse_members_indent by done. by destruct c as [[] [] [] [] [] [] [] []].
Qed.

(** [Unmarshal] reads what [MarshalIndent] wrote. *)
Lemma parse_json_indent j : json_ok j = true -> parse_json (indent "" j) = Some j.
Proof.
  intros Hok. unfold parse_json. rewrite <- (string_app_nil (indent "" j)) at 2.
  change (indent "" j +:+ "") with ("" +:+ indent "" j +:+ "").
  rewrite parse_value_indent; [done | done | done | lia | done | done].
Qed.

End Indented.
