(* ===== verification/Testing.v ===== *)
(** * testing: the test process of src/integrationtests

    A test function runs in the test process: it owns the test environment (the
    record [TestEnvironment] of testenv/testenv.go), the data of the transactions it
    follows, its websocket listeners, and the failures it has reported; the rest of
    the system (the processing server, the nodes, the database) is the world that it
    calls. [t.Errorf] reports and goes on, [t.Fatalf] stops the function and the
    subtest it belongs to, a panic unwinds. A failure is recorded by the names of its
    subtests and its format string. *)
From S2P Require Import Prelude.
From S2P Require Import Go.
From S2P Require Import Json.
From S2P Require Import Bitcoin.
From S2P Require Import TxTypes.
From S2P Require Import EventTypes.
From S2P Require Import World.
From S2P Require Import Effects.
From S2P Require Import Rpc.
From S2P Require Import Api.
From S2P Require Import Client.
Local Open Scope Z_scope.

(** ** The data of the test process *)

(** [txTestData] of checkers.go; [metainfo] is the JSON form of the Go value. *)
Record txTestData := mkTxTestData {
  td_id : UUID;
  td_address : string;
  td_amount : BTCAmount;
  td_fee : BTCAmount;
  td_hash : string;
  td_blockHash : string;
  td_metainfo : json;
  td_confirmations : Z;
}.

Definition set_td_id v t := mkTxTestData v (td_address t) (td_amount t) (td_fee t) (td_hash t)
  (td_blockHash t) (td_metainfo t) (td_confirmations t).
Definition set_td_hash v t := mkTxTestData (td_id t) (td_address t) (td_amount t) (td_fee t) v
  (td_blockHash t) (td_metainfo t) (td_confirmations t).
Definition set_td_blockHash v t := mkTxTestData (td_id t) (td_address t) (td_amount t) (td_fee t)
  (td_hash t) v (td_metainfo t) (td_confirmations t).
Definition set_td_confirmations v t := mkTxTestData (td_id t) (td_address t) (td_amount t)
  (td_fee t) (td_hash t) (td_blockHash t) (td_metainfo t) v.

(** [callbackRequest] of testenv/callback_listener.go; of the URL, its path *)
Record callbackRequest := mkCallbackRequest {
  cr_Method : string; cr_Path : string; cr_body : string }.

(** [WebsocketListener]: a nil [wsClient] is [None]; [wl_closed] is the channel's state. *)
Record WebsocketListener := mkListener {
  wl_wsClient : option nat;
  wl_stopped : bool;
  wl_messages : list NotificationWithSeq;
  wl_closed : bool;
  wl_LastSeq : Z;
}.

Record containerInfo := mkContainer { ci_ID : string; ci_name : string; ci_IP : string }.

(** [bitcoinNodeContainerInfo]: the API object once the node is connected *)
Record nodeContainerInfo := mkNodeContainer { bn_info : containerInfo; bn_NodeAPI : option RpcConfig }.

(** [ProcessingSettings] of testenv/processing.go *)
Record ProcessingSettings := mkProcessingSettings {
  ps_MaxConfirmations : Z;
  ps_CallbackURL : string;
  ps_MinWithdrawWithoutManualConfirmation : string;
  ps_AdditionalWalletSettings : string;
  ps_PostgresAddress : string;
  ps_PostgresPort : string;
  ps_AllowWithdrawalWithoutID : bool;
}.

(** [CallbackHandler]: the one handler that a test installs answers 500 and counts
    down the variable it captured; it uninstalls itself with the last error. *)
Record FailingHandler := mkFailingHandler { fh_errorCount : Z }.

(** [TestEnvironment]; a nil map or pointer is [None], a listener is the number of its
    object. The goroutine that loads the nodes is [te_regtestIsLoading] until
    somebody waits for it. *)
Record TestEnvironment := mkTestEnvironment {
  te_network : string;
  te_NetworkGateway : string;
  te_DB : option containerInfo;
  te_Regtest : option (list (string * nodeContainerInfo));
  te_regtestIsLoading : bool;
  te_notifyScript : option string;
  te_Processing : option containerInfo;
  te_ProcessingSettings : option ProcessingSettings;
  te_ProcessingClient : option Client;
  te_callbackClosed : bool;
  te_CallbackURL : string;
  te_callbackMessageQueue : list callbackRequest;
  te_CallbackHandler : option FailingHandler;
  te_WebsocketListeners : list nat;
  te_depositFee : BTCAmount;
}.

(** Assignments to the environment's fields *)
Section EnvSetters.
Implicit Type e : TestEnvironment.

Definition set_te_network v e : TestEnvironment :=
  mkTestEnvironment v (te_NetworkGateway e) (te_DB e) (te_Regtest e) (te_regtestIsLoading e)
    (te_notifyScript e) (te_Processing e) (te_ProcessingSettings e) (te_ProcessingClient e)
    (te_callbackClosed e) (te_CallbackURL e) (te_callbackMessageQueue e) (te_CallbackHandler e)
    (te_WebsocketListeners e) (te_depositFee e).
Definition set_te_NetworkGateway v e : TestEnvironment :=
  mkTestEnvironment (te_network e) v (te_DB e) (te_Regtest e) (te_regtestIsLoading e)
    (te_notifyScript e) (te_Processing e) (te_ProcessingSettings e) (te_ProcessingClient e)
    (te_callbackClosed e) (te_CallbackURL e) (te_callbackMessageQueue e) (te_CallbackHandler e)
    (te_WebsocketListeners e) (te_depositFee e).
Definition set_te_DB v e : TestEnvironment :=
  mkTestEnvironment (te_network e) (te_NetworkGateway e) v (te_Regtest e)
    (te_regtestIsLoading e) (te_notifyScript e) (te_Processing e) (te_ProcessingSettings e)
    (te_ProcessingClient e) (te_callbackClosed e) (te_CallbackURL e) (te_callbackMessageQueue e)
    (te_CallbackHandler e) (te_WebsocketListeners e) (te_depositFee e).
Definition set_te_Regtest v e : TestEnvironment :=
  mkTestEnvironment (te_network e) (te_NetworkGateway e) (te_DB e) v (te_regtestIsLoading e)
    (te_notifyScript e) (te_Processing e) (te_ProcessingSettings e) (te_ProcessingClient e)
    (te_callbackClosed e) (te_CallbackURL e) (te_callbackMessageQueue e) (te_CallbackHandler e)
    (te_WebsocketListeners e) (te_depositFee e).
Definition set_te_regtestIsLoading v e : TestEnvironment :=
  mkTestEnvironment (te_network e) (te_NetworkGateway e) (te_DB e) (te_Regtest e) v
    (te_notifyScript e) (te_Processing e) (te_ProcessingSettings e) (te_ProcessingClient e)
    (te_callbackClosed e) (te_CallbackURL e) (te_callbackMessageQueue e) (te_CallbackHandler e)
    (te_WebsocketListeners e) (te_depositFee e).
Definition set_te_notifyScript v e : TestEnvironment :=
  mkTestEnvironment (te_network e) (te_NetworkGateway e) (te_DB e) (te_Regtest e)
    (te_regtestIsLoading e) v (te_Processing e) (te_ProcessingSettings e)
    (te_ProcessingClient e) (te_callbackClosed e) (te_CallbackURL e) (te_callbackMessageQueue e)
    (te_CallbackHandler e) (te_WebsocketListeners e) (te_depositFee e).
Definition set_te_Processing v e : TestEnvironment :=
  mkTestEnvironment (te_network e) (te_NetworkGateway e) (te_DB e) (te_Regtest e)
    (te_regtestIsLoading e) (te_notifyScript e) v (te_ProcessingSettings e)
    (te_ProcessingClient e) (te_callbackClosed e) (te_CallbackURL e) (te_callbackMessageQueue e)
    (te_CallbackHandler e) (te_WebsocketListeners e) (te_depositFee e).
Definition set_te_ProcessingSettings v e : TestEnvironment :=
  mkTestEnvironment (te_network e) (te_NetworkGateway e) (te_DB e) (te_Regtest e)
    (te_regtestIsLoading e) (te_notifyScript e) (te_Processing e) v (te_ProcessingClient e)
    (te_callbackClosed e) (te_CallbackURL e) (te_callbackMessageQueue e) (te_CallbackHandler e)
    (te_WebsocketListeners e) (te_depositFee e).
Definition set_te_ProcessingClient v e : TestEnvironment :=
  mkTestEnvironment (te_network e) (te_NetworkGateway e) (te_DB e) (te_Regtest e)
    (te_regtestIsLoading e) (te_notifyScript e) (te_Processing e) (te_ProcessingSettings e) v
    (te_callbackClosed e) (te_CallbackURL e) (te_callbackMessageQueue e) (te_CallbackHandler e)
    (te_WebsocketListeners e) (te_depositFee e).
Definition set_te_callbackClosed v e : TestEnvironment :=
  mkTestEnvironment (te_network e) (te_NetworkGateway e) (te_DB e) (te_Regtest e)
    (te_regtestIsLoading e) (te_notifyScript e) (te_Processing e) (te_ProcessingSettings e)
    (te_ProcessingClient e) v (te_CallbackURL e) (te_callbackMessageQueue e)
    (te_CallbackHandler e) (te_WebsocketListeners e) (te_depositFee e).
Definition set_te_CallbackURL v e : TestEnvironment :=
  mkTestEnvironment (te_network e) (te_NetworkGateway e) (te_DB e) (te_Regtest e)
    (te_regtestIsLoading e) (te_notifyScript e) (te_Processing e) (te_ProcessingSettings e)
    (te_ProcessingClient e) (te_callbackClosed e) v (te_callbackMessageQueue e)
    (te_CallbackHandler e) (te_WebsocketListeners e) (te_depositFee e).
Definition set_te_callbackMessageQueue v e : TestEnvironment :=
  mkTestEnvironment (te_network e) (te_NetworkGateway e) (te_DB e) (te_Regtest e)
    (te_regtestIsLoading e) (te_notifyScript e) (te_Processing e) (te_ProcessingSettings e)
    (te_ProcessingClient e) (te_callbackClosed e) (te_CallbackURL e) v (te_CallbackHandler e)
    (te_WebsocketListeners e) (te_depositFee e).
Definition set_te_CallbackHandler v e : TestEnvironment :=
  mkTestEnvironment (te_network e) (te_NetworkGateway e) (te_DB e) (te_Regtest e)
    (te_regtestIsLoading e) (te_notifyScript e) (te_Processing e) (te_ProcessingSettings e)
    (te_ProcessingClient e) (te_callbackClosed e) (te_CallbackURL e) (te_callbackMessageQueue e)
    v (te_WebsocketListeners e) (te_depositFee e).
Definition set_te_WebsocketListeners v e : TestEnvironment :=
  mkTestEnvironment (te_network e) (te_NetworkGateway e) (te_DB e) (te_Regtest e)
    (te_regtestIsLoading e) (te_notifyScript e) (te_Processing e) (te_ProcessingSettings e)
    (te_ProcessingClient e) (te_callbackClosed e) (te_CallbackURL e) (te_callbackMessageQueue e)
    (te_CallbackHandler e) v (te_depositFee e).

End EnvSetters.

(** A failure: the subtests it happened in, outermost first, and the format *)
Abbreviation failure := (list string * string)%type (only parsing).

(** What is done to containers *)
Inductive DockerAct :=
| DCreate (name image : string) (id : string)
| DStart (id : string)
| DStop (id : string)
| DRemove (id : string)
| DKill (id : string).

(** The state of the test process; [ts_txs] and [ts_listeners] hold the objects that
    pointers refer to, [ts_vars] the integer variables that closures share, [ts_docker] the requests to docker, most recent first. *)
Record TestState := mkTestState {
  ts_world : World;
  ts_env : TestEnvironment;
  ts_txs : list txTestData;
  ts_listeners : list WebsocketListener;
  ts_vars : list Z;
  ts_docker : list DockerAct;
  ts_failures : list failure;
}.

Definition set_world v s := mkTestState v (ts_env s) (ts_txs s) (ts_listeners s) (ts_vars s) (ts_docker s) (ts_failures s).
Definition set_env v s := mkTestState (ts_world s) v (ts_txs s) (ts_listeners s) (ts_vars s) (ts_docker s) (ts_failures s).
Definition set_txs v s := mkTestState (ts_world s) (ts_env s) v (ts_listeners s) (ts_vars s) (ts_docker s) (ts_failures s).
Definition set_listeners v s := mkTestState (ts_world s) (ts_env s) (ts_txs s) v (ts_vars s) (ts_docker s) (ts_failures s).
Definition set_vars v s := mkTestState (ts_world s) (ts_env s) (ts_txs s) (ts_listeners s) v (ts_docker s) (ts_failures s).
Definition set_docker v s := mkTestState (ts_world s) (ts_env s) (ts_txs s) (ts_listeners s) (ts_vars s) v (ts_failures s).
Definition set_failures v s := mkTestState (ts_world s) (ts_env s) (ts_txs s) (ts_listeners s) (ts_vars s) (ts_docker s) v.

(** ** The monad of test functions *)

(** How a test function ends: it returns, [t.FailNow] stops it, it panics, or it does not
    end (within the fuel given to a loop without bound). *)
Inductive tresult (A : Type) : Type :=
| Done (a : A)
| FailNow
| Panicked (msg : string)
| Unfinished.
Arguments Done {A} a.
Arguments FailNow {A}.
Arguments Panicked {A} msg.
Arguments Unfinished {A}.

Definition T (A : Type) : Type := TestState -> tresult A * TestState.

#[export] Instance T_ret : MRet T := fun A a s => (Done a, s).
#[export] Instance T_bind : MBind T := fun A B f m s =>
  match m s with
  | (Done a, s') => f a s'
  | (FailNow, s') => (FailNow, s')
  | (Panicked p, s') => (Panicked p, s')
  | (Unfinished, s') => (Unfinished, s')
  end.

Definition t_panic {A} (msg : string) : T A := fun s => (Panicked msg, s).
Definition t_gets {A} (f : TestState -> A) : T A := fun s => (Done (f s), s).
Definition t_modify (f : TestState -> TestState) : T unit := fun s => (Done tt, f s).
Definition with_env (f : TestEnvironment -> TestEnvironment) : T unit :=
  t_modify (fun s => set_env (f (ts_env s)) s).

(** [t.Errorf] and [t.Fatalf] *)
Definition report (f : failure) (s : TestState) : TestState := set_failures (ts_failures s ++ [f]) s.
Definition Errorf (format : string) : T unit := t_modify (report ([], format)).
Definition Fatalf {A} (format : string) : T A := fun s => (FailNow, report ([], format) s).

(** [if !ok { t.Errorf(format) }], and the common [if got != want { ... }] *)
Definition expect (ok : bool) (format : string) : T unit :=
  if ok then mret tt else Errorf format.
Definition expect_eq {A} `{EqDecision A} (format : string) (got want : A) : T unit :=
  expect (bool_decide (got = want)) format.

Fixpoint t_forM {A} (l : list A) (body : A -> T unit) : T unit :=
  match l with [] => mret tt | x :: l' => body x ;; t_forM l' body end.

Fixpoint t_mapM {A B} (f : A -> T B) (l : list A) : T (list B) :=
  match l with [] => mret [] | x :: l' => y ← f x; ys ← t_mapM f l'; mret (y :: ys) end.

(** [r, err := f()] for a call into the rest of the system *)
Definition call {A} (m : M A) : T (A + error) := fun s =>
  match m (ts_world s) with
  | (Ok a, w) => (Done (inl a), set_world w s)
  | (Err e, w) => (Done (inr e), set_world w s)
  | (Panic p, w) => (Panicked p, set_world w s)
  end.

(** [if err != nil { return err }] in a function that returns a value and an error *)
Definition ebind {A B} (m : T (A + error)) (f : A -> T (B + error)) : T (B + error) :=
  r ← m; match r with inl a => f a | inr e => mret (inr e) end.

(** [if err != nil { t.Fatalf(format) }] *)
Definition or_fatal {A} (format : string) (m : T (A + error)) : T A :=
  r ← m; match r with inl a => mret a | inr _ => Fatalf format end.

(** [if err != nil { panic(err) }] *)
Definition or_panic {A} (m : T (A + error)) : T A :=
  r ← m; match r with inl a => mret a | inr _ => t_panic "error" end.

(** A call whose error is not looked at *)
Definition ignore_error {A} (m : T (A + error)) : T unit := m ;; mret tt.

(** [defer f()] at the start of [m]: [f] runs however [m] ends. *)
Definition deferred {A} (f : T unit) (m : T A) : T A := fun s =>
  let '(r, s1) := m s in
  match f s1 with
  | (Done _, s2) => (r, s2)
  | (FailNow, s2) => (FailNow, s2)
  | (Panicked p, s2) => (Panicked p, s2)
  | (Unfinished, s2) => (Unfinished, s2)
  end.

(** [t.Run] of util.go's [runSubtest]: the failures of the subtest get its name, a panic
    becomes a fatal failure of the subtest, and the parent goes on. A variable that the
    subtest assigns last keeps [zero] when it does not come so far. *)
Definition run_subtest {A} (name : string) (zero : A) (f : T A) : T A := fun s =>
  let '(r, s1) := f (set_failures [] s) in
  let named := (fun x : failure => (name :: x.1, x.2)) <$> ts_failures s1 in
  match r with
  | Done a => (Done a, set_failures (ts_failures s ++ named) s1)
  | FailNow => (Done zero, set_failures (ts_failures s ++ named) s1)
  | Panicked _ =>
      (Done zero, set_failures (ts_failures s ++ named ++
        [([name], "Test %s failed with panic: %v. Stack %s")]) s1)
  | Unfinished => (Unfinished, set_failures (ts_failures s ++ named) s1)
  end.

Definition runSubtest (name : string) (f : T unit) : T unit := run_subtest name tt f.

(** ** Objects behind pointers *)
Definition td_new (t : txTestData) : T nat := fun s =>
  (Done (length (ts_txs s)), set_txs (ts_txs s ++ [t]) s).

Definition td_load (l : nat) : T txTestData := fun s =>
  match ts_txs s !! l with Some t => (Done t, s) | None => (Panicked nil_deref, s) end.

Definition td_update (l : nat) (f : txTestData -> txTestData) : T unit :=
  t ← td_load l; t_modify (fun s => set_txs (<[l := f t]> (ts_txs s)) s).

Definition wl_load (l : nat) : T WebsocketListener := fun s =>
  match ts_listeners s !! l with Some x => (Done x, s) | None => (Panicked nil_deref, s) end.

Definition wl_store (l : nat) (x : WebsocketListener) : T unit :=
  t_modify (fun s => set_listeners (<[l := x]> (ts_listeners s)) s).

Definition var_new (z : Z) : T nat := fun s => (Done (length (ts_vars s)), set_vars (ts_vars s ++ [z]) s).
Definition var_get (v : nat) : T Z := fun s => (Done (default 0 (ts_vars s !! v)), s).
Definition var_set (v : nat) (z : Z) : T unit := t_modify (fun s => set_vars (<[v := z]> (ts_vars s)) s).

(** [*p] for a pointer that may be nil, and [l[i]] *)
Definition t_deref {A} (p : option A) : T A :=
  match p with Some a => mret a | None => t_panic nil_deref end.

Definition index_panic : string := "runtime error: index out of range".

Definition t_index {A} (l : list A) (i : Z) : T A :=
  match (if decide (0 <= i) then l !! Z.to_nat i else None) with
  | Some a => mret a
  | None => t_panic index_panic
  end.

(** [event.Data] asserted to be a pointer to a notification, or to an account *)
Definition as_notification (d : EventData) : T TxNotification :=
  match d with DataTxNotificationPtr n => mret n | _ => t_panic "interface conversion" end.

Definition as_account (d : EventData) : T Account :=
  match d with DataAccount a => mret a | _ => t_panic "interface conversion" end.

(** ** Reasoning
    A check passes when it ends and leaves the state, and so the failures, alone. *)
Definition passes (m : T unit) : Prop := forall s, m s = (Done tt, s).

Lemma passes_ret : passes (mret tt).
Proof. done. Qed.

Lemma passes_seq (m1 m2 : T unit) : passes m1 -> passes m2 -> passes (m1 ;; m2).
Proof. intros H1 H2 s. unfold mbind, T_bind. rewrite H1. apply H2. Qed.

Lemma passes_expect ok format : ok = true -> passes (expect ok format).
Proof. by intros ->. Qed.

Lemma passes_expect_eq {A} `{EqDecision A} format (a b : A) : a = b -> passes (expect_eq format a b).
Proof. intros Hab. apply passes_expect. by apply bool_decide_eq_true. Qed.

Lemma passes_let {A} (a : A) (f : A -> T unit) : passes (f a) -> passes (x ← mret a; f x).
Proof. done. Qed.

Lemma run_bind {A B} (m : T A) (f : A -> T B) s a s' :
  m s = (Done a, s') -> (m ≫= f) s = f a s'.
Proof. unfold mbind, T_bind. by intros ->. Qed.

(** What a check that ends reports *)
Definition reports (m : T unit) (fs : list failure) : Prop :=
  forall s, m s = (Done tt, set_failures (ts_failures s ++ fs) s).

Lemma passes_reports m : passes m -> reports m [].
Proof. intros Hm s. rewrite Hm, app_nil_r. by destruct s. Qed.

Lemma reports_nil m : reports m [] -> passes m.
Proof. intros Hm s. rewrite Hm, app_nil_r. by destruct s. Qed.

Lemma reports_seq m1 m2 fs1 fs2 : reports m1 fs1 -> reports m2 fs2 -> reports (m1 ;; m2) (fs1 ++ fs2).
Proof.
  intros H1 H2 s. unfold mbind, T_bind. rewrite H1, H2. by rewrite app_assoc.
Qed.

Lemma reports_pass_l m1 m2 fs : passes m1 -> reports m2 fs -> reports (m1 ;; m2) fs.
Proof. intros H1%passes_reports H2. exact (reports_seq _ _ _ _ H1 H2). Qed.

Lemma reports_pass_r m1 m2 fs : reports m1 fs -> passes m2 -> reports (m1 ;; m2) fs.
Proof. intros H1 H2%passes_reports. rewrite <- (app_nil_r fs). by apply reports_seq. Qed.

Lemma reports_expect_eq {A} `{EqDecision A} format (a b : A) :
  a <> b -> reports (expect_eq format a b) [([], format)].
Proof. intros Hab s. unfold expect_eq, expect. by rewrite bool_decide_eq_false_2. Qed.

(** A failing check is always reported. *)
Lemma expect_eq_false {A} `{EqDecision A} format (a b : A) s :
  a <> b -> expect_eq format a b s = (Done tt, report ([], format) s).
Proof. intros Hab. unfold expect_eq, expect. by rewrite bool_decide_eq_false_2. Qed.

Create HintDb checks.
#[export] Hint Resolve passes_ret passes_seq passes_expect passes_expect_eq : checks.
