(* ===== verification/Harness.v ===== *)
(** * integrationtests/testenv and integrationtests/util: the test environment

    The docker client, temporary files, sockets and the passing of time are parameters:
    while the test waits, the rest of the system runs, and what it sends reaches the
    callback server or a websocket listener. A wait is given what is waited for, so that
    it can end early, and the callback server's handler, which answers the requests. *)
From Stdlib Require Import Ascii.
From S2P Require Import Prelude.
From S2P Require Import Go.
From S2P Require Import Json.
From S2P Require Import Bitcoin.
From S2P Require Import TxTypes.
From S2P Require Import EventTypes.
From S2P Require Import World.
From S2P Require Import Effects.
From S2P Require Import Rpc.
From S2P Require Import Api.
From S2P Require Import Client.
From S2P Require Import Cli.
From S2P Require Import Testing.
Local Open Scope Z_scope.

(** ** What the test process meets *)
Inductive Arrival :=
| ArriveCallback (r : callbackRequest)
| ArriveMessage (listener : nat) (m : NotificationWithSeq).

Inductive waiting :=
| Sleeping (ms : Z)          (* the whole time passes *)
| AlreadyThere               (* no time passes: what has arrived before *)
| ForCallback (ms : Z)       (* until a callback request arrives, or the time is over *)
| ForMessage (listener : nat) (ms : Z).

Class Outside := {
  os_wait : waiting -> option FailingHandler -> M (list Arrival);
  os_map_order : forall {A : Type}, list A -> list A;        (* the order of a range over a map *)
}.

(** What a container is created with, and the text of the configuration file that is
    mounted in it *)
Record ContainerConfig := mkContainerConfig {
  cc_Image : string;
  cc_Entrypoint : list string;
  cc_NetworkMode : string;
  cc_AutoRemove : bool;
  cc_Binds : list string;
  cc_ConfigText : string;
}.

(** [types.ContainerJSON]: the addresses in each network, and the state *)
Record ContainerJSON := mkContainerJSON {
  cj_Networks : list (string * string);
  cj_Status : string;
  cj_ExitCode : Z;
}.

Class DockerLib := {
  docker_NewEnvClient : M unit;
  docker_NetworkList : M (list (string * list string));       (* name, gateways *)
  docker_NetworkCreate : string -> M string;
  docker_NetworkInspect : string -> M (list string);
  docker_ContainerCreate : ContainerConfig -> string -> M string;
  docker_ContainerStart : string -> M unit;
  docker_ContainerStop : string -> M unit;
  docker_ContainerRemove : string -> M unit;
  docker_ContainerKill : string -> string -> M unit;
  docker_ContainerInspect : string -> M ContainerJSON;
  docker_ContainerLogs : string -> M unit;
  os_OpenLog : string -> M unit;                               (* os.OpenFile, to append *)
  os_TempFile : M string;                                      (* the path *)
  os_source_path : string -> string;                           (* getFullSourcePath *)
  net_Dial : string -> Z -> M unit;
  net_Listen : string -> M string;                             (* httptest server: its URL *)
  fmt_float : float64 -> string;                               (* "%v" *)
}.

Section Harness.
Context {D : DecimalLib} {BU : BtcUtil} {U : UuidLib} {R : RpcLib} {L : UrlLib}.
Context {CT : ClientTransport} {OS : Outside} {K : DockerLib}.

(** ** Waiting *)

(** The callback server's handler: the installed one answers 500 and counts its errors,
    else the request is queued. *)
Definition serve_callback (r : callbackRequest) (e : TestEnvironment) : TestEnvironment :=
  match te_CallbackHandler e with
  | Some h =>
      if decide (fh_errorCount h > 1)
      then set_te_CallbackHandler (Some (mkFailingHandler (fh_errorCount h - 1))) e
      else set_te_CallbackHandler None e
  | None => set_te_callbackMessageQueue (te_callbackMessageQueue e ++ [r]) e
  end.

(** websocket_listener.go: [processMessage] *)
Definition processMessage (l : nat) (message : NotificationWithSeq) : T unit :=
  x ← wl_load l;
  if wl_closed x then t_panic "send on closed channel"
  else wl_store l (mkListener (wl_wsClient x) (wl_stopped x) (wl_messages x ++ [message])
                     (wl_closed x) (ns_Seq message)).

Definition deliver (a : Arrival) : T unit :=
  match a with
  | ArriveCallback r => with_env (serve_callback r)
  | ArriveMessage l m => processMessage l m
  end.

(** The goroutines of the test process that receive run while the test waits. *)
Definition wait_for (what : waiting) : T unit := fun s =>
  match os_wait what (te_CallbackHandler (ts_env s)) (ts_world s) with
  | (Ok arrivals, w) => t_forM arrivals deliver (set_world w s)
  | (_, w) => (Done tt, set_world w s)
  end.

(** *** integrationtests/util/util.go *)
Definition waitForEventRetries : nat := 120.

(** The ticks are 500 ms apart. The callback is a closure: [captured] is the state of the
    variables that it assigns, [A] what it leaves in one of them when it succeeds. *)
Fixpoint wait_loop {S A} (retries : nat) (callback : S -> T (S * (A + error)))
    (captured : S) : T (A + error) :=
  wait_for (Sleeping 500) ;;
  '(captured, r) ← callback captured;
  match r with
  | inl a => mret (inl a)
  | inr err =>
      match retries with
      | 0%nat | 1%nat => mret (inr err)
      | Datatypes.S retries => wait_loop retries callback captured
      end
  end.

Definition WaitForEvent {A} (callback : T (A + error)) : T (A + error) :=
  wait_loop waitForEventRetries (fun captured => r ← callback; mret (captured, r)) tt.

(** *** testenv/util.go *)
Definition waitForEventOrPanic (callback : T (unit + error)) : T unit :=
  or_panic (WaitForEvent callback).

Definition waitForPort (host : string) (port : Z) : T unit :=
  waitForEventOrPanic (call (net_Dial host port)).

(** ** callback_listener.go *)
Definition listenersMessageWaitTimeout : Z := 60000.
Definition DefaultCallbackURLPath : string := "/wallets/cb".

Definition UnmarshalOrFail (c : callbackRequest) : T TxNotification :=
  match (j ← of_option ErrJSON (parse_json (cr_body c)); TxNotification_UnmarshalJSON j) with
  | Ok notification => mret notification
  | Err _ => Fatalf "Failed to deserialize notification data from http callback request body: %v"
  | Panic p => t_panic p
  end.

(** Receiving the first element of the queue *)
Definition pop_callback : T (option callbackRequest) := fun s =>
  match te_callbackMessageQueue (ts_env s) with
  | [] => (Done None, s)
  | r :: rest =>
      (Done (Some r), set_env (set_te_callbackMessageQueue rest (ts_env s)) s)
  end.

(** A closed queue gives a nil request, which its users dereference. *)
Definition GetNextCallbackRequestWithTimeout : T callbackRequest :=
  req ← pop_callback;
  closed ← t_gets (fun s => te_callbackClosed (ts_env s));
  match req with
  | Some req => mret req
  | None => if closed : bool then t_panic nil_deref else
      wait_for (ForCallback listenersMessageWaitTimeout) ;;
      req ← pop_callback;
      match req with
      | Some req => mret req
      | None => Fatalf "No message arrived before timeout"
      end
  end.

Definition GetNextCallbackNotificationWithTimeout : T TxNotification :=
  req ← GetNextCallbackRequestWithTimeout; UnmarshalOrFail req.

(** ** websocket_listener.go *)
Definition pop_message (l : nat) : T (option NotificationWithSeq) :=
  x ← wl_load l;
  match wl_messages x with
  | [] => mret None
  | m :: rest =>
      wl_store l (mkListener (wl_wsClient x) (wl_stopped x) rest (wl_closed x) (wl_LastSeq x)) ;;
      mret (Some m)
  end.

(** The channel of a stopped listener gives a nil message, which its users dereference. *)
Definition GetNextMessageWithTimeout (l : nat) : T NotificationWithSeq :=
  msg ← pop_message l;
  x ← wl_load l;
  match msg with
  | Some msg => mret msg
  | None => if wl_closed x then t_panic nil_deref else
      wait_for (ForMessage l listenersMessageWaitTimeout) ;;
      msg ← pop_message l;
      match msg with
      | Some msg => mret msg
      | None => Fatalf "No message arrived before timeout"
      end
  end.

(** [Stop]: the method of a nil client dereferences it. *)
Definition listener_Stop (l : nat) : T unit :=
  x ← wl_load l;
  if wl_stopped x then mret tt
  else
    t_deref (wl_wsClient x) ;;
    (if wl_closed x then t_panic "close of closed channel"
     else wl_store l (mkListener None (wl_stopped x) (wl_messages x) true (wl_LastSeq x))).

Definition processing_client : T Client :=
  cli ← t_gets (fun s => te_ProcessingClient (ts_env s)); t_deref cli.

(** The websocket client's number is that of its listener. *)
Definition NewWebsocketListener (startSeq : Z) : T (nat + error) :=
  cli ← processing_client;
  number ← t_gets (fun s => length (ts_listeners s));
  ebind (call (NewWebsocketClient cli number)) (fun '(wsClient, cli) =>
  with_env (set_te_ProcessingClient (Some cli)) ;;
  t_modify (fun s => set_listeners (ts_listeners s ++ [mkListener (Some wsClient) false [] false 0]) s) ;;
  with_env (fun e => set_te_WebsocketListeners (te_WebsocketListeners e ++ [number]) e) ;;
  mret (inl number)).

(** [e.WebsocketListeners[0]] *)
Definition first_listener : T nat :=
  l ← t_gets (fun s => te_WebsocketListeners (ts_env s)); t_index l 0.

Definition next_message : T NotificationWithSeq :=
  l ← first_listener; GetNextMessageWithTimeout l.

(** Reading [LastSeq], which the receiving goroutine sets *)
Definition listener_LastSeq (l : nat) : T Z :=
  wait_for AlreadyThere ;; x ← wl_load l; mret (wl_LastSeq x).

End Harness.
