(* ===== verification/Regtest.v ===== *)
(** * integrationtests/testenv: the containers

    The database, the regtest nodes, the cold storage and the processing server, each in
    a container; the mining of blocks on the miner's node. *)
From Stdlib Require Import Ascii.
From S2P Require Import Prelude.
From S2P Require Import Go.
From S2P Require Import Json.
From S2P Require Import Bitcoin.
From S2P Require Import TxTypes.
From S2P Require Import EventTypes.
From S2P Require Import World.
From S2P Require Import Effects.
From S2P Require Import Rpc.
From S2P Require Import Api.
From S2P Require Import Client.
From S2P Require Import Cli.
From S2P Require Import Testing.
From S2P Require Import Harness.
Local Open Scope Z_scope.

Definition bitcoinNodeImageName : string := "kylemanna/bitcoind".
Definition nodeNamePrefix : string := "bitcoin-processing-integration-test-".
Definition regtestNodeUser : string := "bitcoinrpc".
Definition regtestNodePassword : string := "TEST_BITCOIN_NODE_PASSWORD".
Definition bitcoinNodes : list string := ["node-our"; "node-client"; "node-miner"].
Definition networkName : string := "bitcoin-processing-integration-test-network".
Definition dbImageName : string := "postgres:10.5".
Definition dbContainerName : string := "bitcoin-processing-integration-test-db".
Definition baseImageName : string := "debian:stretch".
Definition processingContainerName : string := "bitcoin-processing-integration-test-main".
Definition coldStorageContainerName : string := "node-cold-storage".

Definition join_lines (l : list string) : string := foldr (fun x rest => x +:+ newline "" +:+ rest) "" l.

(** [strings.Join(l, "\n")] *)
Fixpoint lines_of (l : list string) : string :=
  match l with [] => "" | [x] => x | x :: l' => x +:+ newline "" +:+ lines_of l' end.

(** Writing at the start of a file that is not truncated *)
Fixpoint drop_chars (n : nat) (s : string) : string :=
  match n, s with S n', String _ s' => drop_chars n' s' | _, _ => s end.
Definition overwrite (text old : string) : string := text +:+ drop_chars (String.length text) old.

(** [s[1:len(s)-1]], which panics on fewer than two bytes *)
Definition inner (s : string) : option string :=
  match s with
  | String _ (String c rest) => Some (String.substring 0 (String.length rest) (String c rest))
  | _ => None
  end.

(** A map with string keys *)
Definition node_lookup {A} (name : string) (m : list (string * A)) : option A :=
  snd <$> find_first (fun p => bool_decide (p.1 = name)) m.
Definition node_delete {A} (name : string) (m : list (string * A)) : list (string * A) :=
  filter (fun p => p.1 <> name) m.

Section Containers.
Context {D : DecimalLib} {BU : BtcUtil} {U : UuidLib} {R : RpcLib} {L : UrlLib}.
Context {CT : ClientTransport} {OS : Outside} {K : DockerLib}.

(** The requests to docker are logged when they are made. *)
Definition docker_log (a : DockerAct) : T unit := t_modify (fun s => set_docker (a :: ts_docker s) s).

Definition ContainerCreate (config : ContainerConfig) (name : string) : T (string + error) :=
  ebind (call (docker_ContainerCreate config name)) (fun id =>
  docker_log (DCreate name (cc_Image config) id) ;; mret (inl id)).
Definition ContainerStart (id : string) : T (unit + error) :=
  docker_log (DStart id) ;; call (docker_ContainerStart id).
Definition ContainerStop (id : string) : T (unit + error) :=
  docker_log (DStop id) ;; call (docker_ContainerStop id).
Definition ContainerRemove (id : string) : T (unit + error) :=
  docker_log (DRemove id) ;; call (docker_ContainerRemove id).
Definition ContainerKill (id sig : string) : T (unit + error) :=
  docker_log (DKill id) ;; call (docker_ContainerKill id sig).

Definition get_env : T TestEnvironment := t_gets ts_env.

(** ** container_logs.go; the goroutine that copies the log is not part of the test. *)
Definition writeContainerLogs (container : containerInfo) (filename : string) : T (unit + error) :=
  ebind (call (os_OpenLog filename)) (fun _ => call (docker_ContainerLogs (ci_ID container))).

(** ** testenv.go *)
Definition getContainerIP (id : string) : T string :=
  resp ← or_panic (call (docker_ContainerInspect id));
  e ← get_env;
  match node_lookup (te_network e) (cj_Networks resp) with
  | Some ip => mret ip
  | None => t_panic "Failed to find container ip in network "
  end.

Definition setupNetwork : T (unit + error) :=
  with_env (set_te_network networkName) ;;
  ebind (call docker_NetworkList) (fun resp =>
  match node_lookup networkName resp with
  | Some gateways =>
      gateway ← t_index gateways 0; with_env (set_te_NetworkGateway gateway) ;; mret (inl tt)
  | None =>
      ebind (call (docker_NetworkCreate networkName)) (fun id =>
      ebind (call (docker_NetworkInspect id)) (fun gateways =>
      gateway ← t_index gateways 0; with_env (set_te_NetworkGateway gateway) ;; mret (inl tt)))
  end).

Definition setupDockerClient : T (unit + error) :=
  ebind (call docker_NewEnvClient) (fun _ => setupNetwork).

Definition new_env (depositFee : BTCAmount) : TestEnvironment :=
  mkTestEnvironment "" "" None None false None None None None true "" [] None [] depositFee.

Definition NewTestEnvironment (depositFee : BTCAmount) : T (unit + error) :=
  with_env (fun _ => new_env depositFee) ;; setupDockerClient.

(** ** database.go *)
Definition the_db : T containerInfo := e ← get_env; t_deref (te_DB e).

Definition LaunchDatabaseContainer : T (unit + error) :=
  db ← the_db;
  ebind (ContainerStart (ci_ID db)) (fun _ =>
  ip ← getContainerIP (ci_ID db);
  let db := mkContainer (ci_ID db) (ci_name db) ip in
  with_env (set_te_DB (Some db)) ;; writeContainerLogs db "postgres.log").

Definition StartDatabase : T (unit + error) :=
  e ← get_env;
  let config := mkContainerConfig dbImageName [] (te_network e) false
    [os_source_path "tools/create-user-and-db.sql" +:+ ":/create-user-and-db.sql";
     os_source_path "tools/init-db.sql" +:+ ":/init-db.sql";
     os_source_path "integrationtests/testdata/docker-create-user-and-db-and-initialize.sh" +:+
       ":/docker-entrypoint-initdb.d/initdb.sh"] "" in
  ebind (ContainerCreate config dbContainerName) (fun id =>
  with_env (set_te_DB (Some (mkContainer id "db" ""))) ;; LaunchDatabaseContainer).

Definition stopDatabase : T (unit + error) :=
  e ← get_env;
  match te_DB e with
  | None => mret (inl tt)
  | Some db =>
      ebind (ContainerStop (ci_ID db)) (fun _ =>
      ebind (ContainerRemove (ci_ID db)) (fun _ =>
      with_env (set_te_DB None) ;; mret (inl tt)))
  end.

Definition WaitForDatabase : T unit := db ← the_db; waitForPort (ci_IP db) 5432.

Definition KillDatabase (removeInfo : bool) : T (unit + error) :=
  e ← get_env;
  (if removeInfo then with_env (set_te_DB None) else mret tt) ;;
  db ← t_deref (te_DB e); ContainerKill (ci_ID db) "SIGKILL".

(** ** regtest.go *)
Definition nodeConfigText (depositFee : float64) (additional peers : string) : string :=
  join_lines ["printtoconsole=1"; "rpcuser=bitcoinrpc"; "rpcpassword=TEST_BITCOIN_NODE_PASSWORD";
    "regtest=1"; "rpcallowip=0.0.0.0/0"; "fallbackfee=" +:+ fmt_float depositFee; additional; "";
    "[regtest]"; "rpcbind=0.0.0.0"; peers].

Definition processingNotifyScriptText (address : string) : string :=
  join_lines ["#!/bin/bash -e"; "echo " +:+ quote "notify about tx $1";
    "echo -e " +:+ String dquote ("GET /notify_wallet HTTP/1.1\r\nhost: " +:+ address +:+
      "\r\nConnection: close\r\n\r\n" +:+ String dquote (" > /dev/tcp/" +:+ address +:+ "/8000"))].

(** Iteration over the nodes; on an error the nodes that were started are stopped. *)
Definition stopRegtest : T (unit + error) :=
  e ← get_env;
  match te_Regtest e with
  | None => mret (inl tt)
  | Some nodes =>
      (fix stop (nodes : list (string * nodeContainerInfo)) : T (unit + error) :=
         match nodes with
         | [] =>
             with_env (set_te_Regtest None) ;;
             with_env (set_te_notifyScript None) ;; mret (inl tt)
         | (_, container) :: nodes =>
             ebind (ContainerStop (ci_ID (bn_info container))) (fun _ => stop nodes)
         end) (os_map_order nodes)
  end.

Definition set_node (name : string) (n : nodeContainerInfo) (e : TestEnvironment) : TestEnvironment :=
  set_te_Regtest (map_set name n <$> te_Regtest e) e.

Definition peers_of (node : string) : list string :=
  (fun other => "addnode=" +:+ nodeNamePrefix +:+ other) <$> filter (fun other => other <> node) bitcoinNodes.

(** [if err != nil { e.stopRegtest(ctx); return err }] *)
Definition or_stop {A B} (m : T (A + error)) (f : A -> T (B + error)) : T (B + error) :=
  r ← m;
  match r with inl a => f a | inr err => ignore_error stopRegtest ;; mret (inr err) end.

Definition startNode (depositFee : BTCAmount) (node : string) : T (unit + error) :=
  let additional := if decide (node = "node-our")
    then "walletnotify=/bin/bash /usr/share/notify-processing.sh %s" else "" in
  or_stop (call os_TempFile) (fun configTempFilePath =>
  let config_text := nodeConfigText (Float64 depositFee) additional (lines_of (peers_of node)) in
  or_stop (if decide (node = "node-our") then
             ebind (call os_TempFile) (fun path =>
             with_env (set_te_notifyScript (Some "")) ;;
             mret (inl [path +:+ ":/usr/share/notify-processing.sh";
                        os_source_path "tools/curl" +:+ ":/usr/local/bin/notifyprocessing"]))
           else mret (inl [])) (fun more =>
  e ← get_env;
  let config := mkContainerConfig bitcoinNodeImageName [] (te_network e) true
    ((configTempFilePath +:+ ":/bitcoin/.bitcoin/bitcoin.conf") :: more) config_text in
  or_stop (ContainerCreate config (nodeNamePrefix +:+ node)) (fun id =>
  or_stop (ContainerStart id) (fun _ =>
  with_env (set_node node (mkNodeContainer (mkContainer id node "") None)) ;;
  ip ← getContainerIP id;
  let info := mkContainer id node ip in
  with_env (set_node node (mkNodeContainer info None)) ;;
  or_stop (writeContainerLogs info (node +:+ ".log")) (fun _ => mret (inl tt)))))).

Fixpoint start_nodes (depositFee : BTCAmount) (nodes : list string) : T (unit + error) :=
  match nodes with
  | [] => mret (inl tt)
  | node :: nodes => ebind (startNode depositFee node) (fun _ => start_nodes depositFee nodes)
  end.

Definition startRegtest (depositFee : BTCAmount) : T (unit + error) :=
  with_env (set_te_Regtest (Some [])) ;;
  ebind (start_nodes depositFee bitcoinNodes) (fun _ =>
  with_env (set_te_regtestIsLoading true) ;; mret (inl tt)).

Definition setProcessingAddressForNotifications (address : string) : T unit :=
  e ← get_env;
  match te_notifyScript e with
  | None => t_panic "Failed to seek on notify script file"
  | Some old => with_env (set_te_notifyScript (Some (overwrite (processingNotifyScriptText address) old)))
  end.

(** *** Connections to the nodes *)

(** [connectToNode]: the panic of the constructor is recovered and becomes an error. *)
Definition connectToNode (host : string) : T (RpcConfig + error) := fun s =>
  match NewNodeAPI (host +:+ ":18443") regtestNodeUser regtestNodePassword false (ts_world s) with
  | (Ok n, w) => (Done (inl n), set_world w s)
  | (_, w) => (Done (inr (ErrMsg "Failed to connect to node")), set_world w s)
  end.

Definition connectToNodeWithBackoff (host : string) : T (RpcConfig + error) :=
  WaitForEvent (connectToNode host).

(** Decoding an error on top of the one that the variable holds *)
Definition unmarshal_error_onto (prev : option error) (j : json) : outcome (option error) :=
  match j with
  | JNull => Ok None
  | _ =>
      is_struct j ;;
      let '(c, m) := match prev with Some (ErrJSONRPC c m) => (c, m) | _ => (0, "") end in
      code ← match struct_field_opt "Code" j with None | Some JNull => Ok c | Some v => unmarshal_int v end;
      message ← match struct_field_opt "Message" j with None | Some JNull => Ok m | Some v => unmarshal_string v end;
      Ok (Some (ErrJSONRPC code message))
  end.

(** The response is declared outside of the closure: what a reply does not mention keeps
    the value of the one before. The result is the indented text of the reply's. *)
Definition sendRequestToNodeWithBackoff (n : RpcConfig) (method : string) (params : list value)
    : T (string + error) :=
  wait_loop waitForEventRetries (fun '(prevResult, prevError) =>
    r ← call (SendRequestToNode n method params);
    match r with
    | inr err => mret ((prevResult, prevError), inr err)
    | inl responseJSON =>
        match (response ← of_option ErrJSON (parse_json responseJSON);
               is_struct response ;;
               result ← field_with prevResult Ok "Result" response;
               err ← field_with prevError (unmarshal_error_onto prevError) "Error" response;
               Ok (result, err)) with
        | Ok (result, None) => mret ((result, None), inl (indent "" result))
        | Ok (result, Some err) => mret ((result, Some err), inr err)
        | Err e => mret ((prevResult, prevError), inr e)
        | Panic p => t_panic p
        end
    end) (JNull, None).

Definition createWallet (n : RpcConfig) (name : string) : T (unit + error) :=
  WaitForEvent (call (CreateWallet n name)).

Definition generateNewAddress (n : RpcConfig) : T string :=
  nodeOutput ← or_panic (sendRequestToNodeWithBackoff n "getnewaddress" []);
  match inner nodeOutput with
  | Some address => mret address
  | None => t_panic "slice bounds out of range"
  end.

Definition unmarshal_strings (j : json) : outcome (list string) :=
  match j with
  | JNull => Ok []
  | JArr l => all_Ok (unmarshal_string <$> l)
  | _ => Err ErrJSON
  end.

Definition node_info (name : string) : T nodeContainerInfo :=
  e ← get_env; t_deref (nodes ← te_Regtest e; node_lookup name nodes).

(** [e.Regtest[name].NodeAPI], whose method is called next *)
Definition node_api (name : string) : T RpcConfig :=
  n ← node_info name; t_deref (bn_NodeAPI n).

Definition assign_node_api (name : string) (api : RpcConfig) : T unit :=
  n ← node_info name; with_env (set_node name (mkNodeContainer (bn_info n) (Some api))).

(** A node is connected, gets a wallet and, when it mines, its first blocks. *)
Definition unmarshal_blocks (text : string) : T unit :=
  match (j ← of_option ErrJSON (parse_json text); unmarshal_strings j) with
  | Ok _ => mret tt
  | _ => t_panic "node API returned malformed JSON"
  end.

Definition initRegtest : T (unit + error) :=
  info ← node_info "node-client";
  ebind (connectToNodeWithBackoff (ci_IP (bn_info info))) (fun clientNode =>
  assign_node_api "node-client" clientNode ;;
  ebind (createWallet clientNode "default") (fun _ =>
  address ← generateNewAddress clientNode;
  ebind (sendRequestToNodeWithBackoff clientNode "generatetoaddress" [VInt 3; VStr address])
    (fun nodeOutput =>
  unmarshal_blocks nodeOutput ;;
  info ← node_info "node-miner";
  ebind (connectToNodeWithBackoff (ci_IP (bn_info info))) (fun minerNode =>
  ebind (createWallet minerNode "default") (fun _ =>
  assign_node_api "node-miner" minerNode ;;
  address ← generateNewAddress minerNode;
  ebind (sendRequestToNodeWithBackoff minerNode "generatetoaddress" [VInt 110; VStr address])
    (fun nodeOutput =>
  unmarshal_blocks nodeOutput ;;
  info ← node_info "node-our";
  ebind (connectToNodeWithBackoff (ci_IP (bn_info info))) (fun ourNode =>
  ebind (createWallet ourNode "default") (fun _ =>
  assign_node_api "node-our" ourNode ;; mret (inl tt))))))))).

(** Receiving from a channel that nothing is sent on does not end. *)
Definition waitForRegtest : T unit :=
  e ← get_env;
  if te_regtestIsLoading e then
    with_env (set_te_regtestIsLoading false) ;; or_panic initRegtest
  else fun s => (Unfinished, s).

Definition WaitForContainerRemoval (containerID : string) : T (unit + error) :=
  WaitForEvent (
    r ← call (docker_ContainerInspect containerID);
    match r with
    | inr _ => mret (inl tt)
    | inl _ => mret (inr (ErrMsg "Container is still running"))
    end).

(** *** Blocks *)
Definition GenerateBlocks (n : RpcConfig) (amount : Z) : T (list string + error) :=
  address ← generateNewAddress n;
  ebind (call (SendRequestToNode n "generatetoaddress" [VInt amount; VStr address])) (fun responseJSON =>
  match unmarshal_response unmarshal_strings responseJSON with
  | Ok blocks => mret (inl blocks)
  | Err e => mret (inr e)
  | Panic p => t_panic p
  end).

(** The miner's mempool, as each poll asks for it *)
Definition getrawmempool (miner : RpcConfig) : T (list string + error) :=
  ebind (call (SendRequestToNode miner "getrawmempool" [])) (fun responseJSON =>
  match unmarshal_response unmarshal_strings responseJSON with
  | Ok hashes => mret (inl hashes)
  | Err e => mret (inr e)
  | Panic p => t_panic p
  end).

(** Wait until the mempool passes the test, then mine one block *)
Definition mine_when (ready : list string -> outcome unit) : T (string + error) :=
  miner ← node_api "node-miner";
  ebind (WaitForEvent (
    ebind (getrawmempool miner) (fun hashes =>
    match ready hashes with
    | Ok _ => mret (inl tt) | Err e => mret (inr e) | Panic p => t_panic p
    end))) (fun _ =>
  ebind (GenerateBlocks miner 1) (fun generatedBlocks =>
  block ← t_index generatedBlocks 0; mret (inl block))).

Definition not_in_mempool (hash : string) : error :=
  ErrMsg ("Tx " +:+ hash +:+ " not in miner mempool").

Definition MineTx (txHash : string) : T (string + error) :=
  mine_when (fun hashes => if decide (txHash ∈ hashes) then Ok tt else Err (not_in_mempool txHash)).

Definition MineAnyTx : T (string + error) :=
  mine_when (fun hashes => match hashes with [] => Err (ErrMsg "Miner mempool is empty") | _ => Ok tt end).

Fixpoint all_in (hashes mempool : list string) : outcome unit :=
  match hashes with
  | [] => Ok tt
  | hash :: rest => if decide (hash ∈ mempool) then all_in rest mempool else Err (not_in_mempool hash)
  end.

Definition MineMultipleTxns (txHashes : list string) : T (string + error) :=
  mine_when (all_in txHashes).

Definition GetNodeBalance (n : RpcConfig) : T (BalanceInfo + error) :=
  ebind (call (GetConfirmedAndUnconfirmedBalance n)) (fun '(balanceConf, balanceUnconf) =>
  mret (inl (mkBalanceInfo balanceConf (u64 (balanceConf + balanceUnconf))))).

Definition GetClientBalance : T (BalanceInfo + error) :=
  n ← node_api "node-client"; GetNodeBalance n.

(** ** coldstorage.go *)
Definition StartColdStorage : T (unit + error) :=
  e ← get_env;
  ebind (call os_TempFile) (fun configTempFilePath =>
  let config := mkContainerConfig bitcoinNodeImageName [] (te_network e) true
    [configTempFilePath +:+ ":/bitcoin/.bitcoin/bitcoin.conf"]
    (nodeConfigText (Float64 (te_depositFee e)) ""
       (lines_of ((fun other => "addnode=" +:+ nodeNamePrefix +:+ other) <$> bitcoinNodes))) in
  ebind (ContainerCreate config (nodeNamePrefix +:+ coldStorageContainerName)) (fun id =>
  ebind (ContainerStart id) (fun _ =>
  e ← get_env;
  (match te_Regtest e with
   | None => t_panic "assignment to entry in nil map"
   | Some _ =>
       with_env (set_node coldStorageContainerName
         (mkNodeContainer (mkContainer id coldStorageContainerName "") None))
   end) ;;
  ip ← getContainerIP id;
  with_env (set_node coldStorageContainerName
    (mkNodeContainer (mkContainer id coldStorageContainerName ip) None)) ;;
  mret (inl tt)))).

Definition StopColdStorage : T (unit + error) :=
  e ← get_env;
  match te_Regtest e with
  | None => mret (inl tt)
  | Some nodes =>
      match node_lookup coldStorageContainerName nodes with
      | None => mret (inl tt)
      | Some cont =>
          with_env (set_te_Regtest (Some (node_delete coldStorageContainerName nodes))) ;;
          ContainerStop (ci_ID (bn_info cont))
      end
  end.

Definition ColdStorageLoadAndGenerateAddress : T string :=
  info ← node_info coldStorageContainerName;
  csNode ← or_panic (connectToNodeWithBackoff (ci_IP (bn_info info)));
  or_panic (createWallet csNode "default") ;;
  assign_node_api coldStorageContainerName csNode ;;
  generateNewAddress csNode.

End Containers.
