(* ===== verification/Processing.v ===== *)
(** * integrationtests/testenv: the processing server's container, and the environment's
    start and stop *)
From S2P Require Import Prelude.
From S2P Require Import Go.
From S2P Require Import Json.
From S2P Require Import Bitcoin.
From S2P Require Import TxTypes.
From S2P Require Import EventTypes.
From S2P Require Import World.
From S2P Require Import Effects.
From S2P Require Import Rpc.
From S2P Require Import Api.
From S2P Require Import Client.
From S2P Require Import Cli.
From S2P Require Import Testing.
From S2P Require Import Harness.
From S2P Require Import Regtest.
Local Open Scope Z_scope.

Section Processing.
Context {D : DecimalLib} {BU : BtcUtil} {U : UuidLib} {R : RpcLib} {L : UrlLib}.
Context {CT : ClientTransport} {OS : Outside} {K : DockerLib}.

(** ** processing.go *)
Definition DefaultSettings : ProcessingSettings := {|
  ps_MaxConfirmations := 1;
  ps_CallbackURL := "http://127.0.0.1:9000" +:+ DefaultCallbackURLPath;
  ps_MinWithdrawWithoutManualConfirmation := "0.1";
  ps_AdditionalWalletSettings := "";
  ps_PostgresAddress := "bitcoin-processing-integration-test-db";
  ps_PostgresPort := "5432";
  ps_AllowWithdrawalWithoutID := true;
|}.

Definition set_ps_CallbackURL v s := mkProcessingSettings (ps_MaxConfirmations s) v
  (ps_MinWithdrawWithoutManualConfirmation s) (ps_AdditionalWalletSettings s)
  (ps_PostgresAddress s) (ps_PostgresPort s) (ps_AllowWithdrawalWithoutID s).
Definition set_ps_MaxConfirmations v s := mkProcessingSettings v (ps_CallbackURL s)
  (ps_MinWithdrawWithoutManualConfirmation s) (ps_AdditionalWalletSettings s)
  (ps_PostgresAddress s) (ps_PostgresPort s) (ps_AllowWithdrawalWithoutID s).
Definition set_ps_AdditionalWalletSettings v s := mkProcessingSettings (ps_MaxConfirmations s)
  (ps_CallbackURL s) (ps_MinWithdrawWithoutManualConfirmation s) v
  (ps_PostgresAddress s) (ps_PostgresPort s) (ps_AllowWithdrawalWithoutID s).

(** [configTemplate] filled in with the settings *)
Definition processingConfigText (s : ProcessingSettings) : string :=
  lines_of [
    "transaction:";
    "  callback:";
    "    url: " +:+ ps_CallbackURL s;
    "  max_confirmations: " +:+ itoa (ps_MaxConfirmations s);
    "api:";
    "  http:";
    "    address: 0.0.0.0:8000";
    "storage:";
    "  type: postgres";
    "  dsn: >";
    "    host=" +:+ ps_PostgresAddress s +:+ " port=" +:+ ps_PostgresPort s +:+ " dbname=bitcoin_processing";
    "    user=bitcoin_processing sslmode=disable";
    "bitcoin:";
    "  node:";
    "    address: bitcoin-processing-integration-test-node-our:18443";
    "    user: bitcoinrpc";
    "    password: TEST_BITCOIN_NODE_PASSWORD";
    "wallet:";
    "   allow_withdrawal_without_id: " +:+ (if ps_AllowWithdrawalWithoutID s then "true" else "false");
    "   min_withdraw_without_manual_confirmation: " +:+ ps_MinWithdrawWithoutManualConfirmation s;
    "   " +:+ ps_AdditionalWalletSettings s].

Definition the_processing : T containerInfo := e ← get_env; t_deref (te_Processing e).

(** [url.URL.String] of a host with a port and a path *)
Definition processingURL (ip relative : string) : string := "http://" +:+ ip +:+ ":8000" +:+ relative.

Definition StartProcessing (s : ProcessingSettings) : T (unit + error) :=
  ebind (call os_TempFile) (fun configTempFilePath =>
  e ← get_env;
  let config := mkContainerConfig baseImageName ["/bitcoin-processing"; "-c"; "/config.yml"]
    (te_network e) false
    [os_source_path "cmd/bitcoin-processing/bitcoin-processing" +:+ ":/bitcoin-processing";
     configTempFilePath +:+ ":/config.yml"] (processingConfigText s) in
  ebind (ContainerCreate config processingContainerName) (fun id =>
  with_env (set_te_Processing (Some (mkContainer id "main" ""))) ;;
  ebind (ContainerStart id) (fun _ =>
  ip ← getContainerIP id;
  let processing := mkContainer id "main" ip in
  with_env (set_te_Processing (Some processing)) ;;
  setProcessingAddressForNotifications ip ;;
  with_env (set_te_ProcessingClient (Some (NewClient (processingURL ip "/")))) ;;
  with_env (set_te_ProcessingSettings (Some s)) ;;
  writeContainerLogs processing "processing.log"))).

Definition StartProcessingWithDefaultSettings : T (unit + error) :=
  e ← get_env;
  let settings := DefaultSettings in
  let settings := if decide (te_CallbackURL e <> "")
                  then set_ps_CallbackURL (te_CallbackURL e) settings else settings in
  StartProcessing settings.

Definition is_down (status : string) : bool := bool_decide (status ∈ ["exited"; "dead"]).

Definition StopProcessing : T (unit + error) :=
  e ← get_env;
  match te_Processing e with
  | None => mret (inl tt)
  | Some processing =>
      let id := ci_ID processing in
      ebind (ContainerStop id) (fun _ =>
      ebind (WaitForEvent (
        ebind (call (docker_ContainerInspect id)) (fun info =>
        mret (if is_down (cj_Status info) then inl tt
              else inr (ErrMsg "Processing container unexpectedly still running"))))) (fun _ =>
      ebind (ContainerRemove id) (fun _ =>
      ignore_error (WaitForEvent (
        r ← call (docker_ContainerInspect id);
        match r with
        | inr _ => mret (inl tt)
        | inl _ => mret (inr (ErrMsg "Processing container unexpectedly still exists"))
        end)) ;;
      with_env (set_te_Processing None) ;; mret (inl tt))))
  end.

Definition WaitForProcessing : T unit := p ← the_processing; waitForPort (ci_IP p) 8000.

Definition KillProcessing : T (unit + error) :=
  e ← get_env;
  with_env (set_te_Processing None) ;;
  processing ← t_deref (te_Processing e); ContainerRemove (ci_ID processing).

Definition GetProcessingContainerState : T ((string * Z) + error) :=
  p ← the_processing;
  ebind (call (docker_ContainerInspect (ci_ID p))) (fun info =>
  mret (inl (cj_Status info, cj_ExitCode info))).

(** ** callback_listener.go *)
Definition startCallbackListener : T unit :=
  e ← get_env;
  url ← or_panic (call (net_Listen (te_NetworkGateway e)));
  with_env (set_te_CallbackURL (url +:+ DefaultCallbackURLPath)) ;;
  with_env (set_te_callbackClosed false) ;;
  with_env (set_te_callbackMessageQueue []).

(** A listener that was not started is a nil pointer, the queue of a stopped one is
    closed: both panic. *)
Definition stopCallbackListener : T unit :=
  e ← get_env;
  if te_callbackClosed e then t_panic "close of closed channel"
  else with_env (set_te_callbackClosed true).

(** ** testenv.go *)
Definition env_Start : T (unit + error) :=
  ebind StartDatabase (fun _ =>
  e ← get_env;
  ebind (startRegtest (te_depositFee e)) (fun _ =>
  startCallbackListener ;; mret (inl tt))).

Definition env_Stop : T (unit + error) :=
  dbStopErr ← stopDatabase;
  regtestStopErr ← stopRegtest;
  stopCallbackListener ;;
  e ← get_env;
  t_forM (te_WebsocketListeners e) listener_Stop ;;
  with_env (set_te_WebsocketListeners []) ;;
  match dbStopErr, regtestStopErr with
  | inl _, inl _ => mret (inl tt)
  | _, _ => mret (inr (ErrMsg "Error stopping containers"))
  end.

Definition WaitForLoad : T unit := WaitForDatabase ;; waitForRegtest.

End Processing.
