(* ===== verification/Checkers.v ===== *)
(** * integrationtests/checkers.go and util.go: what the tests expect of the system

    The oracles of the integration tests: what a notification has to contain at each
    stage of a deposit or a withdrawal, what the answer to a withdrawal repeats, what
    the balances have to be; and the helpers that look for events. A checker reads the
    data that a pointer refers to when it is called. *)
From Stdlib Require Import SpecFloat.
From S2P Require Import Prelude.
From S2P Require Import Go.
From S2P Require Import Json.
From S2P Require Import Bitcoin.
From S2P Require Import TxTypes.
From S2P Require Import EventTypes.
From S2P Require Import World.
From S2P Require Import Effects.
From S2P Require Import WalletBase.
From S2P Require Import Withdraw.
From S2P Require Import Rpc.
From S2P Require Import Api.
From S2P Require Import Client.
From S2P Require Import Cli.
From S2P Require Import Testing.
From S2P Require Import Harness.
From S2P Require Import Regtest.
Local Open Scope Z_scope.

(** ** Metainfo *)

(** [json.Unmarshal] into an [interface{}]: a number has to fit a [float64]. *)
Fixpoint decodable (j : json) : bool :=
  match j with
  | JNum lit => match parse_float lit with Some _ => true | None => false end
  | JArr l => forallb decodable l
  | JObj fields => forallb (fun kv => decodable kv.2) fields
  | _ => true
  end.

(** The value that a map holds for a key: the last one in the text *)
Definition last_get (key : string) (fields : list (string * json)) : option json :=
  json_get key (reverse fields).

Definition same_elements (eq : json -> json -> bool) : list json -> list json -> bool :=
  fix go l m :=
    match l, m with
    | [], [] => true
    | x :: l, y :: m => eq x y && go l m
    | _, _ => false
    end.

(** The entries of the map that the first list makes are entries of the other's. *)
Definition entries_in (eq : json -> json -> bool) (g : list (string * json))
    : list (string * json) -> bool :=
  fix go f :=
    match f with
    | [] => true
    | (k, v) :: f =>
        (if bool_decide (k ∈ f.*1) then true
         else match last_get k g with Some w => eq v w | None => false end) && go f
    end.

(** [reflect.DeepEqual] of two decoded values: numbers as [float64], objects as maps *)
Fixpoint deep_equal (a b : json) : bool :=
  match a, b with
  | JNull, JNull => true
  | JBool x, JBool y => Bool.eqb x y
  | JNum x, JNum y =>
      match parse_float x, parse_float y with Some x, Some y => SFeqb x y | _, _ => false end
  | JStr x, JStr y => bool_decide (x = y)
  | JArr l, JArr m =>
      same_elements deep_equal l m
  | JObj f, JObj g =>
      forallb (fun kv => bool_decide (kv.1 ∈ f.*1)) g &&
      entries_in deep_equal g f
  | _, _ => false
  end.

Definition unify (j : json) : option json :=
  j ← parse_json (indent "" j); if decodable j then Some j else None.

Definition compareMetainfo (got want : json) : T unit :=
  match unify got, unify want with
  | Some gotUnified, Some wantUnified =>
      if deep_equal gotUnified wantUnified then mret tt
      else Fatalf "Unexpected metainfo. Got %s, wanted %s"
  | None, _ | _, None => Fatalf "Failed to unmarshal metainfo %s back from JSON for comparison: %s"
  end.

Section Notifications.
Context {U : UuidLib}.
Implicit Type (n : TxNotification) (tx : txTestData).

(** The fields of the embedded transaction *)
Definition nt (n : TxNotification) : Transaction := tn_Transaction n.

Definition checkTxNotificationFields n tx : T unit :=
  expect_eq "Incorrect amount for tx: expected %s, got %s" (tx_Amount (nt n)) (td_amount tx) ;;
  expect_eq "Currency should always be '%s', instead got '%s'" (tn_Currency n) "BTC" ;;
  let txIDStr := uuid_String (tx_ID (nt n)) in
  expect (negb (bool_decide (txIDStr = "") || bool_decide (tn_IpnID n <> txIDStr)))
    "Expected tx id and 'ipn_id' field to be equal and nonempty instead they were '%s' and '%s'" ;;
  compareMetainfo (tx_Metainfo (nt n)) (td_metainfo tx).

Definition checkUnconfirmedTxNotificationFields n tx : T unit :=
  expect_eq "Expected that block hash for new tx will be empty, instead got %s" (tx_BlockHash (nt n)) "" ;;
  expect_eq "Expected 0 confirmations for new tx, instead got %d" (tx_Confirmations (nt n)) 0.

Definition checkNewTxNotificationFields n tx : T unit :=
  checkUnconfirmedTxNotificationFields n tx ;;
  expect_eq "Expected status code 0 for new tx, instead got %d" (tn_StatusCode n) 0.

Definition checkConfirmedTxNotificationFields n tx : T unit :=
  expect_eq "Expected that tx id will be %s, instead got %s" (tx_ID (nt n)) (td_id tx) ;;
  expect_eq "Expected that bitcoin tx hash will be %s, instead got %s" (tx_Hash (nt n)) (td_hash tx) ;;
  expect_eq "Expected that block hash will be %s, instead got %s" (tx_BlockHash (nt n)) (td_blockHash tx) ;;
  expect_eq "Expected %d confirmations for confirmed tx, instead got %d"
    (tx_Confirmations (nt n)) (td_confirmations tx).

Definition checkFullyConfirmedTxNotificationFields n tx : T unit :=
  checkConfirmedTxNotificationFields n tx ;;
  expect_eq "Expected status code %d for fully confirmed tx, instead got %d" (tn_StatusCode n) 100 ;;
  expect_eq "Expected status name %s for fully confirmed tx, instead got %s"
    (tn_StatusStr n) (Status_String FullyConfirmedTransaction).

Definition checkPartiallyConfirmedTxNotificationFields n tx : T unit :=
  checkConfirmedTxNotificationFields n tx ;;
  expect (bool_decide (tn_StatusCode n > 0 /\ tn_StatusCode n < 100))
    "Expected status code for partially confirmed tx to be more than 0, but less than 100. Instead got %d" ;;
  expect_eq "Expected status name %s for confirmed tx, instead got %s"
    (tn_StatusStr n) (Status_String ConfirmedTransaction).

(** ** Deposits *)
Definition checkNotificationFieldsForDeposit n tx : T unit :=
  checkTxNotificationFields n tx ;;
  expect_eq "Incorrect address for deposit: expected %s, got %s" (tx_Address (nt n)) (td_address tx) ;;
  expect_eq "Incorrect direction for deposit: expected %s, got %s" (tx_Direction (nt n)) IncomingDirection ;;
  expect_eq "Incorrect tx hash for deposit: expected %s, got %s" (tx_Hash (nt n)) (td_hash tx) ;;
  expect_eq "Expected 'ipn_type' field to be '%s', instead got '%s'" (tn_IpnType n) "deposit" ;;
  expect_eq "Cold storage flag should be false for any incoming tx, instead it was true"
    (tx_ColdStorage (nt n)) false.

Definition checkNotificationFieldsForNewDeposit n tx : T unit :=
  checkNotificationFieldsForDeposit n tx ;;
  checkNewTxNotificationFields n tx ;;
  expect_eq "Expected status name %s for new incoming tx, instead got %s"
    (tn_StatusStr n) (Status_String NewTransaction).

Definition checkNotificationFieldsForFullyConfirmedDeposit n tx : T unit :=
  checkNotificationFieldsForDeposit n tx ;; checkFullyConfirmedTxNotificationFields n tx.

Definition checkNotificationFieldsForPartiallyConfirmedDeposit n tx : T unit :=
  checkNotificationFieldsForDeposit n tx ;; checkPartiallyConfirmedTxNotificationFields n tx.

(** ** The answer to a withdrawal *)
Definition checkWithdrawRequest (gotRequest wantRequest : WithdrawRequest) : T unit :=
  expect_eq "Expected resulting amount to equal requested one %s, but got %s"
    (wr_Amount gotRequest) (wr_Amount wantRequest) ;;
  expect_eq "Expected resulting fee to equal requested one %s, but got %s"
    (wr_Fee gotRequest) (wr_Fee wantRequest) ;;
  expect (bool_decide (wr_ID gotRequest <> uuid_Nil)) "Expected resulting tx id to be non-nil".

Definition checkClientWithdrawRequest (gotRequest wantRequest : WithdrawRequest) : T unit :=
  checkWithdrawRequest gotRequest wantRequest ;;
  expect_eq "Expected resulting address to equal requested one %s, but got %s"
    (wr_Address gotRequest) (wr_Address wantRequest).

Definition checkCSWithdrawRequest (gotRequest wantRequest : WithdrawRequest)
    (defaultCSAddress : string) : T unit :=
  checkWithdrawRequest gotRequest wantRequest ;;
  if decide (wr_Address wantRequest = "") then
    expect_eq "Expected resulting address to equal default cold storage address %s, but got %s"
      (wr_Address gotRequest) defaultCSAddress
  else
    expect_eq "Expected resulting address to equal requested one %s, but got %s"
      (wr_Address gotRequest) (wr_Address wantRequest).

(** ** Withdrawals *)
Definition checkNotificationFieldsForWithdraw n tx : T unit :=
  checkTxNotificationFields n tx ;;
  expect_eq "Incorrect direction for withdraw: expected %s, got %s" (tx_Direction (nt n)) OutgoingDirection ;;
  expect_eq "Expected 'ipn_type' field to be '%s', instead got '%s'" (tn_IpnType n) "withdrawal" ;;
  expect_eq "Expected fee field to be %s, instead got %s" (tx_Fee (nt n)) (td_fee tx).

Definition checkNotificationFieldsForNewWithdraw n tx : T unit :=
  checkNotificationFieldsForWithdraw n tx ;; checkNewTxNotificationFields n tx.

Definition checkNotificationFieldsForClientWithdraw n tx : T unit :=
  expect_eq "Incorrect address for regular withdraw: expected %s, got %s"
    (tx_Address (nt n)) (td_address tx) ;;
  expect_eq "Cold storage flag should be false for regular withdraw, instead it was true"
    (tx_ColdStorage (nt n)) false.

Definition checkNotificationFieldsForNewClientWithdraw n tx : T unit :=
  checkNotificationFieldsForNewWithdraw n tx ;;
  checkNotificationFieldsForClientWithdraw n tx ;;
  expect_eq "Expected that tx id in withdraw notification data be %s, but got %s"
    (tx_ID (nt n)) (td_id tx).

Definition checkNotificationFieldsForFullyConfirmedWithdraw n tx : T unit :=
  checkNotificationFieldsForWithdraw n tx ;; checkFullyConfirmedTxNotificationFields n tx.

Definition checkNotificationFieldsForPartiallyConfirmedWithdraw n tx : T unit :=
  checkNotificationFieldsForWithdraw n tx ;; checkPartiallyConfirmedTxNotificationFields n tx.

Definition checkNotificationFieldsForFullyConfirmedClientWithdraw n tx : T unit :=
  checkNotificationFieldsForFullyConfirmedWithdraw n tx ;;
  checkNotificationFieldsForClientWithdraw n tx.

Definition checkNotificationFieldsForPartiallyConfirmedClientWithdraw n tx : T unit :=
  checkNotificationFieldsForPartiallyConfirmedWithdraw n tx ;;
  checkNotificationFieldsForClientWithdraw n tx.

(** *** Pending and cancelled withdrawals *)
Definition checkNotificationFieldsForAnyPendingWithdraw n tx : T unit :=
  checkNotificationFieldsForWithdraw n tx ;;
  checkUnconfirmedTxNotificationFields n tx ;;
  checkNotificationFieldsForClientWithdraw n tx ;;
  expect_eq "Expected that tx id in withdraw notification data be %s, but got %s"
    (tx_ID (nt n)) (td_id tx) ;;
  expect (bool_decide (tx_Hash (nt n) = ""))
    "Expected pending tx to have no bitcoin tx hash, but tx hash is %s" ;;
  expect (negb (bool_decide (tn_StatusCode n >= 100)))
    "Status code for pending tx should be less than 100, but it is %d".

Definition checkNotificationFieldsForWithdrawPendingManualConfirmation n tx : T unit :=
  checkNotificationFieldsForAnyPendingWithdraw n tx ;;
  expect_eq "Expected status name %s for tx, instead got %s"
    (tn_StatusStr n) (Status_String PendingManualConfirmationTransaction).

Definition checkNotificationFieldsForWithdrawPending n tx : T unit :=
  checkNotificationFieldsForAnyPendingWithdraw n tx ;;
  expect_eq "Expected status name %s for tx, instead got %s"
    (tn_StatusStr n) (Status_String PendingTransaction).

Definition checkNotificationFieldsForWithdrawPendingColdStorage n tx : T unit :=
  checkNotificationFieldsForAnyPendingWithdraw n tx ;;
  expect_eq "Expected status name %s for tx, instead got %s"
    (tn_StatusStr n) (Status_String PendingColdStorageTransaction).

Definition checkNotificationFieldsForCancelledWithdrawal n tx : T unit :=
  checkNotificationFieldsForWithdraw n tx ;;
  checkUnconfirmedTxNotificationFields n tx ;;
  checkNotificationFieldsForClientWithdraw n tx ;;
  expect_eq "Expected that tx id in withdraw notification data be %s, but got %s"
    (tx_ID (nt n)) (td_id tx) ;;
  expect_eq "Expected status name %s for tx, instead got %s"
    (tn_StatusStr n) (Status_String CancelledTransaction) ;;
  expect (bool_decide (tx_Hash (nt n) = ""))
    "Expected tx pending manual confirmation to have no bitcoin tx hash, but tx hash is %s" ;;
  expect (negb (bool_decide (tn_StatusCode n >= 100)))
    "Status code for cancelled tx should be less than 100, but it is %d".

(** ** util.go: looking for notifications and events *)
Definition relevant tx n : bool :=
  if decide (td_id tx <> uuid_Nil) then bool_decide (tx_ID (nt n) = td_id tx)
  else bool_decide (tx_Hash (nt n) = td_hash tx) && bool_decide (tx_Amount (nt n) = td_amount tx) &&
       bool_decide (tx_Address (nt n) = td_address tx).

Definition findNotificationForTxOrFail (notifications : list TxNotification) tx : T TxNotification :=
  match find_first (relevant tx) notifications with
  | Some n => mret n
  | None => Fatalf "Failed to find relevant notification for tx id %s hash %s address %s amount %s."
  end.

Definition findEventWithTypeOrFail (evts : list NotificationWithSeq) (et : EventType) : T NotificationWithSeq :=
  match find_first (fun e => bool_decide (ns_Type e = et)) evts with
  | Some e => mret e
  | None => Fatalf "Failed to find event with requested type %s"
  end.

(** The test for enough results comes after each element: of no events none are enough. *)
Fixpoint find_all (et : EventType) (n : Z) (evts result : list NotificationWithSeq)
    : option (list NotificationWithSeq) :=
  match evts with
  | [] => None
  | e :: evts =>
      let result := if decide (ns_Type e = et) then result ++ [e] else result in
      if decide (Z.of_nat (length result) >= n) then Some result else find_all et n evts result
  end.

Definition findAllEventsWithTypeOrFail (evts : list NotificationWithSeq) (et : EventType) (n : Z)
    : T (list NotificationWithSeq) :=
  match find_all et n evts [] with
  | Some result => mret result
  | None => Fatalf "Failed to find %d events with requested type %s"
  end.

Definition findAllWsNotificationsWithTypeOrFail (evts : list NotificationWithSeq) (et : EventType)
    (n : Z) : T (list TxNotification) :=
  found ← findAllEventsWithTypeOrFail evts et n; t_mapM (fun e => as_notification (ns_Data e)) found.

Definition stableBalanceOrFail (bal : BalanceInfo) : T BTCAmount :=
  if decide (bi_Balance bal <> bi_BalanceWithUnconf bal) then
    Fatalf "Expected that confirmed and uncofirmed %s to be equal by this moment, but they are %s %s"
  else mret (bi_Balance bal).

End Notifications.

Section Checkers.
Context {D : DecimalLib} {BU : BtcUtil} {U : UuidLib} {R : RpcLib} {L : UrlLib}.
Context {CT : ClientTransport} {OS : Outside} {K : DockerLib}.

(** ** Transactions and blocks *)

(** [mineOrFail] of a transaction and of a collection *)
Definition mined (blockHash : string) (l : nat) : T unit :=
  td_update l (fun t => set_td_confirmations (i64 (td_confirmations t + 1)) (set_td_blockHash blockHash t)).

Definition mineOrFail (l : nat) : T unit :=
  tx ← td_load l;
  blockHash ← or_fatal "Failed to mine tx %s into blockchain: %v" (MineTx (td_hash tx));
  mined blockHash l.

Definition collection_mineOrFail (tc : list nat) : T unit :=
  hashes ← t_mapM (fun l => tx ← td_load l; mret (td_hash tx)) tc;
  blockHash ← or_fatal "Failed to mine txns %v into blockchain: %v" (MineMultipleTxns hashes);
  t_forM tc (mined blockHash).

(** ** Balances *)
Definition processing_call {A} (f : Client -> M A) : T (A + error) :=
  cli ← processing_client; call (f cli).

Definition checkBalance (balance balanceWithUnconf : BTCAmount) : T unit :=
  balanceInfo ← or_fatal "Failed to get balance from processing: %v" (processing_call GetBalance_client);
  expect_eq "Wrong confirmed wallet balance: expected %s, got %s" (bi_Balance balanceInfo) balance ;;
  expect_eq "Wrong wallet balance including unconfirmed: expected %s, got %s"
    (bi_BalanceWithUnconf balanceInfo) balanceWithUnconf.

Definition checkRequiredFromColdStorage (balance : BTCAmount) : T unit :=
  required ← or_fatal "Failed request amount required from cold storage from processing: %v"
               (processing_call GetRequiredFromColdStorage_client);
  expect_eq "Expected that amount required from cold storage will be %s but got %s" required balance.

Definition waitForEventOrFailTest (callback : T (unit + error)) : T unit :=
  or_fatal "%v" (WaitForEvent callback).

Definition checkBalanceBecame (balanceFunc : T (BalanceInfo + error))
    (balance balanceWithUnconf : BTCAmount) : T unit :=
  waitForEventOrFailTest (
    ebind balanceFunc (fun currentBalance =>
    mret (if decide (bi_Balance currentBalance <> balance) then
            inr (ErrMsg "Expected confirmed balance to be %s, but it is %s")
          else if decide (bi_BalanceWithUnconf currentBalance <> balanceWithUnconf) then
            inr (ErrMsg "Expected balance including unconfirmed to be %s, but it is %s")
          else inl tt))).

Definition checkClientBalanceBecame (balance balanceWithUnconf : BTCAmount) : T unit :=
  checkBalanceBecame GetClientBalance balance balanceWithUnconf.

Definition getStableClientBalanceOrFail : T BTCAmount :=
  clientBalance ← or_fatal "%v" GetClientBalance; stableBalanceOrFail clientBalance.

Definition getStableBalanceOrFail : T BTCAmount :=
  balanceInfo ← or_fatal "%v" (processing_call GetBalance_client); stableBalanceOrFail balanceInfo.

Definition getNewAddressForWithdrawOrFail : T string :=
  n ← node_api "node-client";
  or_fatal "Failed to request new address from client node: %v" (call (CreateNewAddress n)).

(** ** Collecting what arrives *)
Definition collectNotificationsAndEvents (n : nat)
    : T (list TxNotification * list NotificationWithSeq) :=
  pairs ← t_mapM (fun _ : unit =>
    notification ← GetNextCallbackNotificationWithTimeout;
    event ← next_message; mret (notification, event)) (replicate n tt);
  mret (pairs.*1, pairs.*2).

Definition collectNotifications (eventType : EventType) (n : nat)
    : T (list TxNotification * list TxNotification) :=
  pairs ← t_mapM (fun _ : unit =>
    notification ← GetNextCallbackNotificationWithTimeout;
    event ← next_message;
    (if decide (ns_Type event <> eventType)
     then Fatalf "Unexpected event type for event, wanted %s, got %s:" else mret tt) ;;
    wsNotification ← as_notification (ns_Data event);
    mret (notification, wsNotification)) (replicate n tt);
  mret (pairs.*1, pairs.*2).

(** ** A new withdrawal, seen by the callback and by the listener *)
Definition checkNewInternalWithdrawTransactionNotificationAndEvent (notification : TxNotification)
    (event : NotificationWithSeq) (l : nat) : T unit :=
  tx ← td_load l;
  checkNotificationFieldsForNewClientWithdraw notification tx ;;
  expect_eq "Expected status name %s for new outgoing tx, instead got %s"
    (tn_StatusStr notification) (Status_String NewTransaction) ;;
  td_update l (set_td_hash (tx_Hash (nt notification))) ;;
  expect_eq "Expected type of event for fresh successful withdraw to be %s, instead got %s"
    (ns_Type event) NewOutgoingTxEvent ;;
  data ← as_notification (ns_Data event);
  tx ← td_load l;
  checkNotificationFieldsForNewClientWithdraw data tx ;;
  expect_eq "Expected status name %s for new outgoing tx, instead got %s"
    (tn_StatusStr data) (Status_String NewTransaction) ;;
  expect_eq "Expected bitcoin tx hash to be equal in http and websocket notification, instead they are %s %s"
    (tx_Hash (nt data)) (td_hash tx).

Definition checkNewWithdrawTransactionNotificationAndEvent (notification : TxNotification)
    (event : NotificationWithSeq) (l : nat)
    (clientBalance expectedClientBalanceAfterWithdraw : BTCAmount) : T unit :=
  tx ← td_load l;
  checkNotificationFieldsForNewClientWithdraw notification tx ;;
  expect_eq "Expected status name %s for new outgoing tx, instead got %s"
    (tn_StatusStr notification) (Status_String NewTransaction) ;;
  td_update l (set_td_hash (tx_Hash (nt notification))) ;;
  expect_eq "Expected type of event for fresh successful withdraw to be %s, instead got %s"
    (ns_Type event) NewOutgoingTxEvent ;;
  data ← as_notification (ns_Data event);
  tx ← td_load l;
  checkNotificationFieldsForNewClientWithdraw data tx ;;
  expect_eq "Expected status name %s for new outgoing tx, instead got %s"
    (tn_StatusStr data) (Status_String NewTransaction) ;;
  expect_eq "Expected bitcoin tx hash to be equal in http and websocket notification, instead they are %s %s"
    (tx_Hash (nt data)) (td_hash tx) ;;
  checkClientBalanceBecame clientBalance expectedClientBalanceAfterWithdraw.

End Checkers.
