(* ===== verification/Acceptance.v ===== *)
(** * The wallet's notifications pass the acceptance tests

    The oracles of Checkers.v, which state what a client may expect, against what the
    wallet stores and the broker delivers: for every transaction, through the JSON text
    of the HTTP callback and of the websocket message. *)
From Stdlib Require Import SpecFloat Ascii.
From S2P Require Import Prelude.
From S2P Require Import Go.
From S2P Require Import Json.
From S2P Require Import JsonText.
From S2P Require Import Bitcoin.
From S2P Require Import TxTypes.
From S2P Require Import EventTypes.
From S2P Require Import World.
From S2P Require Import Effects.
From S2P Require Import Storage.
From S2P Require Import EventStorage.
From S2P Require Import Broadcaster.
From S2P Require Import Broker.
From S2P Require Import NodeAPI.
From S2P Require Import WalletBase.
From S2P Require Import Withdraw.
From S2P Require Import NotifySpec.
From S2P Require Import Api.
From S2P Require Import Client.
From S2P Require Import ClientEvents.
From S2P Require Import Cli.
From S2P Require Import JsonIndent.
From S2P Require Import Testing.
From S2P Require Import Harness.
From S2P Require Import Checkers.
Local Open Scope Z_scope.

(** ** Comparing metainfo *)
Section Metainfo.

Lemma SFeqb_refl f : f <> S754_nan -> SFeqb f f = true.
Proof.
  unfold SFeqb. destruct f as [s|s| |s m e]; try done; intros _.
  - by destruct s.
  - simpl. rewrite Z.compare_refl, Pcompare_refl. by destruct s.
Qed.

Lemma parse_float_number lit f : parse_float lit = Some f -> f <> S754_nan.
Proof. unfold parse_float. intros H ->. repeat case_match; simplify_eq. Qed.

Lemma last_get_last k v pre post :
  k ∉ post.*1 -> last_get k (pre ++ (k, v) :: post) = Some v.
Proof.
  intros Hk. unfold last_get. rewrite reverse_app, reverse_cons, <- app_assoc. simpl.
  assert (Hr : forall l, k ∉ l.*1 -> forall rest, json_get k (l ++ rest) = json_get k rest).
  { intros l Hl rest. induction l as [|[k' w] l IH]; [done|]. unfold json_get in *. simpl.
    rewrite bool_decide_eq_false_2 by set_solver. apply IH. set_solver. }
  rewrite Hr; [unfold json_get; simpl; by rewrite bool_decide_eq_true_2|].
  rewrite fmap_reverse. by rewrite elem_of_reverse.
Qed.

Lemma entries_in_self pre fields :
  Forall (fun kv => decodable kv.2 = true -> deep_equal kv.2 kv.2 = true) fields ->
  forallb (fun kv => decodable kv.2) fields = true ->
  entries_in deep_equal (pre ++ fields) fields = true.
Proof.
  revert pre. induction fields as [|[k v] fields IH]; intros pre Hf Hd; [done|].
  apply Forall_cons in Hf as [Hv Hf]. simpl in Hd. apply andb_true_iff in Hd as [Hdv Hd].
  simpl. apply andb_true_iff. split.
  - case_bool_decide as Hk; [done|]. rewrite last_get_last by done. by apply Hv.
  - specialize (IH (pre ++ [(k, v)]) Hf Hd). by rewrite <- app_assoc in IH.
Qed.

Lemma deep_equal_refl j : decodable j = true -> deep_equal j j = true.
Proof.
  induction j as [|b|lit|s|l IH|fields IH] using json_nested_ind; simpl; try done.
  - by destruct b.
  - destruct (parse_float lit) as [f|] eqn:E; [|done]. intros _. by eapply SFeqb_refl, parse_float_number.
  - intros _. by apply bool_decide_eq_true.
  - induction IH as [|x l Hx _ IHl]; simpl; [done|]. intros [Hd Hl]%andb_true_iff.
    by rewrite Hx, IHl.
  - intros Hd. apply andb_true_iff. split.
    + apply forallb_forall. intros kv Hkv%list_elem_of_In. apply bool_decide_eq_true.
      by apply list_elem_of_fmap_2.
    + by apply (entries_in_self [] fields).
Qed.

(** JSON that a client can have sent as metainfo *)
Definition metainfo_ok (j : json) : Prop := json_ok j = true /\ decodable j = true.

Lemma passes_compareMetainfo j : metainfo_ok j -> passes (compareMetainfo j j).
Proof.
  intros [Hok Hd]. unfold compareMetainfo, unify. rewrite parse_json_indent by done. simpl.
  rewrite Hd, deep_equal_refl by done. done.
Qed.

End Metainfo.

(** ** What a client receives of a stored notification *)
Section Received.
Context {E : Env} {DL : DecimalLaws env_decimal} {UL : UuidLaws env_uuidlib}.
Implicit Type tx : Transaction.

(** The body that the broker posts, as the tests' callback listener decodes it *)
Definition received_callback (row : EventRow) : outcome TxNotification :=
  event ← PostgresEventStorage.event_of_row row;
  body ← marshalFlattenedEvent event;
  j ← of_option ErrJSON (parse_json (json_text body));
  TxNotification_UnmarshalJSON j.

(** The websocket message, as the Go client decodes it *)
Definition received_message (row : EventRow) : outcome NotificationWithSeq :=
  event ← PostgresEventStorage.event_of_row row;
  j ← of_option ErrJSON (parse_first (message_text (NotificationWithSeq_MarshalJSON event)));
  NotificationWithSeq_UnmarshalJSON j.

(** A notification as it is read, with the sequence number that the callback adds *)
Definition seen (tx : Transaction) (seq : Z) : TxNotification :=
  let n := notification_of tx in
  mkTxNotification (json_visible tx) (tn_StatusCode n) (tn_StatusStr n) (tn_IpnType n)
    (tn_Currency n) (tn_IpnID n) seq.

Definition tx_event (s : Z) (et : EventType) (tx : Transaction) : EventRow :=
  mkEventRow s (EventType_String et) (TxNotification_MarshalJSON (notification_of tx)).

Lemma status_code_i64 ts : is_i64 (ToCoinpaymentsLikeCode ts).
Proof. apply (bool_decide_unpack _). by destruct ts. Qed.

Lemma notification_text_ok tx :
  json_ok (tx_Metainfo tx) = true ->
  json_ok (TxNotification_MarshalJSON (notification_of tx)) = true.
Proof. intros Hm. simpl. by rewrite !number_ok_itoa, Hm. Qed.

(** Decoding looks up the fields it knows. *)
Lemma unmarshal_notification_type fields v :
  TxNotification_UnmarshalJSON (JObj (fields ++ [("type", v)])) =
  TxNotification_UnmarshalJSON (JObj fields).
Proof.
  assert (Hget : forall key, key <> "type" ->
    json_get key (fields ++ [("type", v)]) = json_get key fields).
  { intros key Hne. induction fields as [|[k w] fields IH]; unfold json_get in *; simpl.
    - by rewrite bool_decide_eq_false_2.
    - destruct (bool_decide (k = key)); [done | exact IH]. }
  assert (Hf : forall A (zero : A) dec key, key <> "type" ->
    field_or zero dec key (fields ++ [("type", v)]) = field_or zero dec key fields).
  { intros. unfold field_or. by rewrite Hget. }
  unfold TxNotification_UnmarshalJSON, unmarshal_object, Transaction_UnmarshalFields.
  cbv beta iota delta [mbind outcome_bind]. by rewrite !Hf.
Qed.

Lemma received_callback_seen s et tx :
  et <> InvalidEvent -> tx_in_range tx -> json_ok (tx_Metainfo tx) = true -> 0 < s -> is_i64 s ->
  received_callback (tx_event s et tx) = Ok (seen tx s).
Proof.
  intros Het Hr Hm Hs Hi. unfold received_callback, PostgresEventStorage.event_of_row, tx_event.
  cbn [er_type er_data er_seq]. apply EventTypeFromString_String in Het as ->.
  cbn [mbind outcome_bind].
  set (n := mkTxNotification tx (ToCoinpaymentsLikeCode (tx_Status tx)) (Status_String (tx_Status tx))
              (ToCoinpaymentsLikeType (tx_Direction tx)) "BTC" (uuid_String (tx_ID tx)) s).
  assert (exists fields, TxNotification_MarshalJSON n = JObj fields /\
    marshalFlattenedEvent (mkNotificationWithSeq (mkNotification et
      (DataGeneric (TxNotification_MarshalJSON (notification_of tx)))) s) =
    Ok (JObj (fields ++ [("type", EventType_MarshalJSON et)]))) as (fields & Hn & ->).
  { eexists. split; [reflexivity|]. unfold n. simpl tn_Seq. rewrite decide_False by lia. reflexivity. }
  assert (Hok : json_ok (JObj (fields ++ [("type", EventType_MarshalJSON et)])) = true).
  { assert (json_ok (JObj fields) = true) as Hf.
    { rewrite <- Hn. unfold n. simpl. rewrite (decide_False (P := s = 0)) by lia. simpl.
      by rewrite !number_ok_itoa, Hm. }
    simpl in Hf |- *. by rewrite forallb_app, Hf. }
  cbn [mbind outcome_bind]. rewrite parse_json_text by exact Hok. cbn [of_option mbind outcome_bind].
  rewrite unmarshal_notification_type, <- Hn. rewrite notification_json_roundtrip; [done|].
  split; [exact Hr|]. split; [apply status_code_i64 | exact Hi].
Qed.

Lemma ok_bind {A B} (a : A) (f : A -> outcome B) : Ok a ≫= f = f a.
Proof. reflexivity. Qed.

Lemma event_of_tx s et tx :
  et <> InvalidEvent ->
  PostgresEventStorage.event_of_row (tx_event s et tx) =
  Ok (mkNotificationWithSeq (mkNotification et
        (DataGeneric (TxNotification_MarshalJSON (notification_of tx)))) s).
Proof.
  intros Het%EventTypeFromString_String. unfold PostgresEventStorage.event_of_row, tx_event.
  cbn [er_type er_data er_seq]. by rewrite Het.
Qed.

Lemma marshal_generic et s n :
  NotificationWithSeq_MarshalJSON
    (mkNotificationWithSeq (mkNotification et (DataGeneric (TxNotification_MarshalJSON n))) s) =
  NotificationWithSeq_MarshalJSON
    (mkNotificationWithSeq (mkNotification et (DataTxNotificationPtr n)) s).
Proof. reflexivity. Qed.

Lemma as_read_seen et s tx :
  as_read (mkNotificationWithSeq (mkNotification et (DataTxNotificationPtr (notification_of tx))) s) =
  mkNotificationWithSeq (mkNotification et (DataTxNotificationPtr (seen tx 0))) s.
Proof. reflexivity. Qed.

Lemma received_message_seen s et tx :
  et <> InvalidEvent -> et <> NewAddressEvent -> tx_in_range tx ->
  json_ok (tx_Metainfo tx) = true -> is_i64 s ->
  received_message (tx_event s et tx) =
  Ok (mkNotificationWithSeq (mkNotification et (DataTxNotificationPtr (seen tx 0))) s).
Proof.
  intros Het Hna Hr Hm Hi. unfold received_message. rewrite event_of_tx by done.
  rewrite ok_bind, marshal_generic.
  assert (Hread : readable (mkNotificationWithSeq (mkNotification et
            (DataTxNotificationPtr (notification_of tx))) s)).
  { split; [|split; [exact Hi | by apply notification_text_ok]].
    split; [done|]. split; [done|]. split; [exact Hr|].
    split; [apply status_code_i64 | by apply (bool_decide_unpack _)]. }
  rewrite message_read by done. by rewrite as_read_seen.
Qed.

(** ** The checkers on what is received *)

(** What the test follows is the transaction; its confirmations and its block are those of
    the stage that is notified. *)
Definition follows (td : txTestData) (tx : Transaction) : Prop :=
  td_address td = tx_Address tx /\ td_amount td = tx_Amount tx /\
  td_hash td = tx_Hash tx /\ td_metainfo td = tx_Metainfo tx.

(** Of a withdrawal the test knows the id and the fee as well. *)
Definition follows_withdrawal (td : txTestData) (tx : Transaction) : Prop :=
  td_id td = tx_ID tx /\ td_fee td = tx_Fee tx.

Definition sane (tx : Transaction) : Prop :=
  tx_in_range tx /\ metainfo_ok (tx_Metainfo tx) /\ uuid_String (tx_ID tx) <> "".

Lemma passes_tx_fields td tx s :
  follows td tx -> sane tx -> passes (checkTxNotificationFields (seen tx s) td).
Proof.
  intros (_ & Ha & _ & Hm) (_ & Hmeta & Hid). unfold checkTxNotificationFields, nt. cbn.
  apply passes_seq; [by apply passes_expect_eq|]. apply passes_seq; [by apply passes_expect_eq|].
  apply passes_seq; [|rewrite Hm; by apply passes_compareMetainfo].
  apply passes_expect. rewrite bool_decide_eq_false_2 by done. by rewrite bool_decide_eq_false_2 by auto.
Qed.

Lemma passes_unconfirmed td tx s :
  tx_BlockHash tx = "" -> tx_Confirmations tx = 0 ->
  passes (checkUnconfirmedTxNotificationFields (seen tx s) td).
Proof. intros Hb Hc. apply passes_seq; by apply passes_expect_eq. Qed.

Lemma passes_confirmed td tx s :
  follows td tx -> td_id td = tx_ID tx -> td_blockHash td = tx_BlockHash tx ->
  td_confirmations td = tx_Confirmations tx ->
  passes (checkConfirmedTxNotificationFields (seen tx s) td).
Proof.
  intros (_ & _ & ? & _) ? Hb Hc.
  apply passes_seq; [by apply passes_expect_eq|]. apply passes_seq; [by apply passes_expect_eq|].
  apply passes_seq; by apply passes_expect_eq.
Qed.

(** The only complaint about a deposit can be its cold storage flag. *)
Definition flag_complaint (tx : Transaction) : list failure :=
  if tx_ColdStorage tx
  then [([], "Cold storage flag should be false for any incoming tx, instead it was true")] else [].

Lemma reports_deposit td tx s :
  follows td tx -> sane tx -> tx_Direction tx = IncomingDirection ->
  reports (checkNotificationFieldsForDeposit (seen tx s) td) (flag_complaint tx).
Proof.
  intros Hf Hs Hd. pose proof Hf as (? & _ & ? & _).
  apply reports_pass_l; [by apply passes_tx_fields|].
  apply reports_pass_l; [by apply passes_expect_eq|].
  apply reports_pass_l; [by apply passes_expect_eq|].
  apply reports_pass_l; [by apply passes_expect_eq|].
  apply reports_pass_l; [apply passes_expect_eq; cbn; by rewrite Hd|].
  unfold flag_complaint. destruct (tx_ColdStorage tx) eqn:Hc.
  - apply reports_expect_eq. cbn. by rewrite Hc.
  - by apply passes_reports, passes_expect_eq.
Qed.

Lemma passes_withdraw td tx s :
  follows td tx -> sane tx -> tx_Direction tx = OutgoingDirection -> td_fee td = tx_Fee tx ->
  passes (checkNotificationFieldsForWithdraw (seen tx s) td).
Proof.
  intros Hf Hs Hd Hfee. apply passes_seq; [by apply passes_tx_fields|].
  apply passes_seq; [by apply passes_expect_eq|].
  apply passes_seq; apply passes_expect_eq; [|done]. cbn. by rewrite Hd.
Qed.

Lemma passes_client_withdraw td tx s :
  follows td tx -> tx_ColdStorage tx = false ->
  passes (checkNotificationFieldsForClientWithdraw (seen tx s) td).
Proof. intros (? & _) Hc. apply passes_seq; by apply passes_expect_eq. Qed.

(** ** Confirmations *)
Context {CFG : WalletConfig}.

Definition on_chain (tx : Transaction) : Prop :=
  tx_Status tx ∈ [NewTransaction; ConfirmedTransaction; FullyConfirmedTransaction].

(** The status with [i] confirmations *)
Definition stage (i : Z) : TransactionStatus :=
  if decide (i <= 0) then NewTransaction
  else if decide (i < maxConfirmations) then ConfirmedTransaction else FullyConfirmedTransaction.

Lemma notification_copy_stage i tx :
  on_chain tx ->
  notification_copy i tx =
  set_Confirmations i (set_BlockHash (if decide (i = 0) then "" else tx_BlockHash tx)
    (set_Status (stage i) tx)).
Proof.
  intros Hst. assert (Hs : ~ (tx_Status tx <> NewTransaction /\ tx_Status tx <> ConfirmedTransaction /\
    tx_Status tx <> FullyConfirmedTransaction)).
  { unfold on_chain in Hst. rewrite !elem_of_cons, elem_of_nil in Hst. naive_solver. }
  unfold notification_copy, setTxStatusByConfirmations, stage.
  destruct (decide (i = 0)) as [->|Hi]; simpl; rewrite decide_False by done;
    repeat case_decide; try lia; destruct tx; try done.
Qed.

Lemma follows_copy td i tx : on_chain tx -> follows td tx -> follows td (notification_copy i tx).
Proof. intros Hst. rewrite notification_copy_stage by done. exact (fun H => H). Qed.

Lemma sane_copy i tx : on_chain tx -> is_i64 i -> sane tx -> sane (notification_copy i tx).
Proof.
  intros Hst Hi ((_ & Ha & Hf & Hd) & Hm & Hid). rewrite notification_copy_stage by done. done.
Qed.

(** The test's data at the stage that is notified; the test takes the id of a deposit from
    the first notification. *)
Definition follows_at (i : Z) (td : txTestData) (tx : Transaction) : Prop :=
  follows td tx /\
  (0 < i -> td_id td = tx_ID tx /\ td_blockHash td = tx_BlockHash tx /\ td_confirmations td = i).

Lemma passes_new i td tx s :
  on_chain tx -> i = 0 -> passes (checkNewTxNotificationFields (seen (notification_copy i tx) s) td).
Proof.
  intros Hst ->. rewrite notification_copy_stage by done.
  apply passes_seq; [by apply passes_unconfirmed | by apply passes_expect_eq].
Qed.

Lemma passes_partially i td tx s :
  on_chain tx -> follows_at i td tx -> 0 < i -> i < maxConfirmations ->
  passes (checkPartiallyConfirmedTxNotificationFields (seen (notification_copy i tx) s) td).
Proof.
  intros Hst [Hf Hb] Hi Hmax. pose proof (follows_copy td i tx Hst Hf) as Hf'. revert Hf'.
  rewrite notification_copy_stage by done. destruct (Hb Hi) as (Hi1 & Hb1 & Hc1). intros Hf'.
  unfold stage in *. rewrite !decide_False, !decide_True in * by lia.
  apply passes_seq; [by apply passes_confirmed|].
  apply passes_seq; [by apply passes_expect, bool_decide_eq_true | by apply passes_expect_eq].
Qed.

Lemma passes_fully i td tx s :
  on_chain tx -> follows_at i td tx -> 0 < i -> maxConfirmations <= i ->
  passes (checkFullyConfirmedTxNotificationFields (seen (notification_copy i tx) s) td).
Proof.
  intros Hst [Hf Hb] Hi Hmax. pose proof (follows_copy td i tx Hst Hf) as Hf'. revert Hf'.
  rewrite notification_copy_stage by done. destruct (Hb Hi) as (Hi1 & Hb1 & Hc1). intros Hf'.
  unfold stage in *. rewrite !decide_False in * by lia.
  apply passes_seq; [by apply passes_confirmed|]. apply passes_seq; by apply passes_expect_eq.
Qed.

Definition deposit_check (i : Z) (n : TxNotification) (td : txTestData) : T unit :=
  if decide (i = 0) then checkNotificationFieldsForNewDeposit n td
  else if decide (i < maxConfirmations) then checkNotificationFieldsForPartiallyConfirmedDeposit n td
  else checkNotificationFieldsForFullyConfirmedDeposit n td.

Definition withdraw_check (i : Z) (n : TxNotification) (td : txTestData) : T unit :=
  if decide (i = 0) then
    checkNotificationFieldsForNewClientWithdraw n td ;;
    expect_eq "Expected status name %s for new outgoing tx, instead got %s"
      (tn_StatusStr n) (Status_String NewTransaction)
  else if decide (i < maxConfirmations)
  then checkNotificationFieldsForPartiallyConfirmedClientWithdraw n td
  else checkNotificationFieldsForFullyConfirmedClientWithdraw n td.

Lemma copy_fields i tx :
  on_chain tx -> tx_Direction (notification_copy i tx) = tx_Direction tx /\
  tx_ColdStorage (notification_copy i tx) = tx_ColdStorage tx /\
  tx_Fee (notification_copy i tx) = tx_Fee tx /\
  tx_ID (notification_copy i tx) = tx_ID tx.
Proof. intros Hst. by rewrite notification_copy_stage by done. Qed.

Lemma reports_deposit_check i td tx s :
  on_chain tx -> 0 <= i -> is_i64 i -> follows_at i td tx -> sane tx ->
  tx_Direction tx = IncomingDirection ->
  reports (deposit_check i (seen (notification_copy i tx) s) td) (flag_complaint tx).
Proof.
  intros Hst Hi Hi64 Hf Hs Hd. destruct (copy_fields i tx Hst) as (Hd' & Hc' & _ & _).
  assert (Hdep : reports (checkNotificationFieldsForDeposit (seen (notification_copy i tx) s) td)
                   (flag_complaint tx)).
  { replace (flag_complaint tx) with (flag_complaint (notification_copy i tx))
      by (unfold flag_complaint; by rewrite Hc').
    apply reports_deposit; [by apply follows_copy, Hf | by apply sane_copy | by rewrite Hd']. }
  unfold deposit_check. case_decide as Hz; [|case_decide].
  - apply reports_pass_r; [done|]. apply passes_seq; [by apply passes_new|].
    apply passes_expect_eq. subst i. by rewrite notification_copy_stage by done.
  - apply reports_pass_r; [done | apply passes_partially; [done.. | lia | done]].
  - apply reports_pass_r; [done | apply passes_fully; [done.. | lia | lia]].
Qed.

Lemma passes_withdraw_check i td tx s :
  on_chain tx -> 0 <= i -> is_i64 i -> follows_at i td tx -> sane tx ->
  tx_Direction tx = OutgoingDirection -> tx_ColdStorage tx = false -> follows_withdrawal td tx ->
  passes (withdraw_check i (seen (notification_copy i tx) s) td).
Proof.
  intros Hst Hi Hi64 Hf Hs Hd Hc [Htd Hfee]. destruct (copy_fields i tx Hst) as (Hd' & Hc' & Hf' & Hid).
  assert (Hw : passes (checkNotificationFieldsForWithdraw (seen (notification_copy i tx) s) td)).
  { apply passes_withdraw; [by apply follows_copy, Hf | by apply sane_copy | by rewrite Hd' | by rewrite Hf']. }
  assert (Hcl : passes (checkNotificationFieldsForClientWithdraw (seen (notification_copy i tx) s) td)).
  { apply passes_client_withdraw; [by apply follows_copy, Hf | by rewrite Hc']. }
  unfold withdraw_check. case_decide as Hz; [|case_decide].
  - apply passes_seq.
    2: { apply passes_expect_eq. subst i. by rewrite notification_copy_stage by done. }
    apply passes_seq; [apply passes_seq; [done | by apply passes_new]|].
    apply passes_seq; [done|]. apply passes_expect_eq. cbn. rewrite Hid.
    by symmetry.
  - apply passes_seq; [|done]. apply passes_seq; [done | apply passes_partially; [done.. | lia | done]].
  - apply passes_seq; [|done]. apply passes_seq; [done | apply passes_fully; [done.. | lia | lia]].
Qed.

(** *** Pending withdrawals *)
Definition pending_check (status : TransactionStatus) (n : TxNotification) (td : txTestData) : T unit :=
  match status with
  | PendingTransaction => checkNotificationFieldsForWithdrawPending n td
  | PendingColdStorageTransaction => checkNotificationFieldsForWithdrawPendingColdStorage n td
  | PendingManualConfirmationTransaction =>
      checkNotificationFieldsForWithdrawPendingManualConfirmation n td
  | CancelledTransaction => checkNotificationFieldsForCancelledWithdrawal n td
  | _ => mret tt
  end.

(** A client's withdrawal that was not sent *)
Definition unsent (tx : Transaction) : Prop :=
  tx_Direction tx = OutgoingDirection /\ tx_ColdStorage tx = false /\
  tx_Hash tx = "" /\ tx_BlockHash tx = "" /\ tx_Confirmations tx = 0.

Lemma passes_pending_check td tx s :
  unsent tx -> sane tx -> follows td tx -> follows_withdrawal td tx ->
  passes (pending_check (tx_Status tx) (seen tx s) td).
Proof.
  intros (Hd & Hc & Hh & Hb & Hn) Hs Hf [Htd Hfee].
  assert (Hid : passes (expect_eq "Expected that tx id in withdraw notification data be %s, but got %s"
    (tx_ID (nt (seen tx s))) (td_id td))) by (apply passes_expect_eq; by symmetry).
  assert (Hcode : tx_Status tx <> FullyConfirmedTransaction ->
    (negb (bool_decide (tn_StatusCode (seen tx s) >= 100))) = true).
  { cbn. by destruct (tx_Status tx). }
  assert (Hany : tx_Status tx <> FullyConfirmedTransaction ->
    passes (checkNotificationFieldsForAnyPendingWithdraw (seen tx s) td)).
  { intros Hst. repeat (apply passes_seq;
      [by first [apply passes_withdraw | apply passes_unconfirmed | apply passes_client_withdraw
                | exact Hid | apply passes_expect, bool_decide_eq_true]|]).
    by apply passes_expect, Hcode. }
  unfold pending_check. destruct (tx_Status tx) eqn:Hst; try (by intros ?);
    try (apply passes_seq; [by apply Hany | apply passes_expect_eq; cbn; by rewrite Hst]).
  repeat (apply passes_seq;
      [by first [apply passes_withdraw | apply passes_unconfirmed | apply passes_client_withdraw
                | exact Hid | apply passes_expect_eq; cbn; rewrite Hst
                | apply passes_expect, bool_decide_eq_true]|]).
  by apply passes_expect, Hcode.
Qed.

End Received.
