(* ===== verification/AcceptanceProps.v ===== *)
(** * Properties: what the wallet sends passes the oracles of the integration tests *)
From Stdlib Require Import Ascii.
From S2P Require Import Prelude.
From S2P Require Import Go.
From S2P Require Import Json.
From S2P Require Import JsonText.
From S2P Require Import Util.
From S2P Require Import Bitcoin.
From S2P Require Import TxTypes.
From S2P Require Import EventTypes.
From S2P Require Import World.
From S2P Require Import Effects.
From S2P Require Import Storage.
From S2P Require Import WalletStorage.
From S2P Require Import PgWallet.
From S2P Require Import EventStorage.
From S2P Require Import PgSpec.
From S2P Require Import Broadcaster.
From S2P Require Import Broker.
From S2P Require Import NodeAPI.
From S2P Require Import WalletBase.
From S2P Require Import Withdraw.
From S2P Require Import NotifySpec.
From S2P Require Import NotifyProps.
From S2P Require Import TestEnv.
From S2P Require Import Testing.
From S2P Require Import Checkers.
From S2P Require Import Acceptance.
Local Open Scope Z_scope.

Section AcceptanceProps.
Context {E : Env} {EL : EnvLaws E} {CFG : WalletConfig}.
Context {DL : DecimalLaws env_decimal} {UL : UuidLaws env_uuidlib}.
#[local] Existing Instance PostgresStorage.
#[local] Existing Instance PostgresEvents.
Import PostgresWalletStorage PostgresEventStorage.

(** The events that a notification run stores, one for each number of confirmations *)
Lemma notified_rows ex l tx d w w' :
  heap w !! l = Some tx -> target ex w = Some d -> notifyTransaction ex l w = (Ok tt, w') ->
  exists rows d', target ex w' = Some d' /\ db_events d' = db_events d ++ rows /\
    forall k row, rows !! k = Some row ->
      let i := tx_ReportedConfirmations tx + 1 + Z.of_nat k in
      i <= tx_Confirmations tx /\ events_seq w + Z.of_nat k < events_seq w' /\
      confirmation_event tx (events_seq w + Z.of_nat k) i = Ok row.
Proof.
  intros Hl Hd Hrun. by_wp Hrun. apply (wp_notifyTransaction _ _ tx d); [done | done | |].
  { intros [] w1 _ _ Hr; [by destruct Hr | done..]. }
  intros w1 d' _ _ Hn Hd' _ Hseq _.
  apply notified_shape in Hn as (rows & Hev & Hlen & Hk & _). exists rows, d'.
  split; [done|]. split; [done|]. intros k row Hrow. cbv zeta.
  assert (Hlt : (k < length (to_notify tx))%nat) by (rewrite <- Hlen; by eapply lookup_lt_Some).
  destruct (lookup_lt_is_Some_2 _ _ Hlt) as [i Hi]. destruct (Hk _ _ Hi) as (row' & Hrow' & Hc).
  assert (row' = row) as -> by congruence.
  pose proof Hi as Hin%list_elem_of_lookup_2. unfold to_notify in Hin, Hi.
  apply elem_of_zrange in Hin. rewrite Min64_min in *. unfold zrange in Hi.
  rewrite lookup_seqZ in Hi. destruct Hi as [-> _]. split; [lia|]. split; [rewrite Hseq; lia | done].
Qed.

Definition in_type (i : Z) : EventType :=
  if decide (i = 0) then NewIncomingTxEvent else IncomingTxConfirmedEvent.
Definition out_type (i : Z) : EventType :=
  if decide (i = 0) then NewOutgoingTxEvent else OutgoingTxConfirmedEvent.

(** A row is received by both ways as the notification of [tx], which both check. *)
Definition received_with (check : TxNotification -> T unit) (complaint : list failure)
    (et : EventType) (row : EventRow) : Prop :=
  exists n data,
    received_callback row = Ok n /\
    received_message row = Ok (mkNotificationWithSeq (mkNotification et (DataTxNotificationPtr data)) (er_seq row)) /\
    tn_Seq n = er_seq row /\ reports (check n) complaint /\ reports (check data) complaint.

Lemma received_event check complaint s et tx :
  et <> InvalidEvent -> et <> NewAddressEvent -> sane tx -> 0 < s < 2 ^ 63 ->
  (forall seq, reports (check (seen tx seq)) complaint) ->
  received_with check complaint et (tx_event s et tx).
Proof.
  intros He1 He2 (Hr & [Hm _] & _) Hs Hc. exists (seen tx s), (seen tx 0).
  assert (is_i64 s) by (unfold is_i64; lia).
  rewrite received_callback_seen, received_message_seen by (done || lia).
  split_and!; auto; done.
Qed.

(** C9: Every notification of a deposit that the wallet stores, for any transaction and any
    number of confirmations, is accepted by the integration tests' oracle for its stage
    (new, partially or fully confirmed), as the HTTP callback receives it and as a
    websocket listener reads it; the one complaint there can be is about the cold
    storage flag, when the transaction has it. *)
Theorem deposit_notifications_accepted (ex : Exec) (l : loc) (tx : Transaction) (d : DB) (w w' : World)
    (Hl : heap w !! l = Some tx) (Hd : target ex w = Some d)
    (Hrun : notifyTransaction ex l w = (Ok tt, w'))
    (Hdir : tx_Direction tx = IncomingDirection) (Hst : on_chain tx) (Hsane : sane tx)
    (Hrep : -1 <= tx_ReportedConfirmations tx) (Hseq : 0 < events_seq w) (Hend : events_seq w' < 2 ^ 63) :
  exists rows d', target ex w' = Some d' /\ db_events d' = db_events d ++ rows /\
    forall k row td, rows !! k = Some row ->
      let i := tx_ReportedConfirmations tx + 1 + Z.of_nat k in
      follows_at i td tx ->
      received_with (fun n => deposit_check i n td) (flag_complaint tx) (in_type i) row.
Proof.
  destruct (notified_rows _ _ _ _ _ _ Hl Hd Hrun) as (rows & d' & Hd' & Hev & Hrows).
  exists rows, d'. split; [done|]. split; [done|]. intros k row td Hrow. cbv zeta.
  destruct (Hrows k row Hrow) as (Hle & Hlt & Hc). set (i := tx_ReportedConfirmations tx + 1 + Z.of_nat k) in *.
  intros Hf. assert (Hi : is_i64 i) by (destruct Hsane as ((Hi & _) & _); unfold is_i64 in *; lia).
  unfold confirmation_event, getTransactionNotificationType in Hc. rewrite Hdir in Hc.
  assert (row = tx_event (events_seq w + Z.of_nat k) (in_type i) (notification_copy i tx)) as ->
    by (unfold in_type; destruct (decide (i = 0)); by injection Hc as <-).
  apply received_event; [by unfold in_type; case_decide.. | by apply sane_copy | lia |].
  intros seq. apply reports_deposit_check; (done || lia).
Qed.

(** C10: The same of a client's withdrawal: each notification passes the oracle of its stage,
    by both ways, without a complaint. *)
Theorem withdrawal_notifications_accepted (ex : Exec) (l : loc) (tx : Transaction) (d : DB) (w w' : World)
    (Hl : heap w !! l = Some tx) (Hd : target ex w = Some d)
    (Hrun : notifyTransaction ex l w = (Ok tt, w'))
    (Hdir : tx_Direction tx = OutgoingDirection) (Hcs : tx_ColdStorage tx = false)
    (Hst : on_chain tx) (Hsane : sane tx)
    (Hrep : -1 <= tx_ReportedConfirmations tx) (Hseq : 0 < events_seq w) (Hend : events_seq w' < 2 ^ 63) :
  exists rows d', target ex w' = Some d' /\ db_events d' = db_events d ++ rows /\
    forall k row td, rows !! k = Some row ->
      let i := tx_ReportedConfirmations tx + 1 + Z.of_nat k in
      follows_at i td tx -> follows_withdrawal td tx ->
      received_with (fun n => withdraw_check i n td) [] (out_type i) row.
Proof.
  destruct (notified_rows _ _ _ _ _ _ Hl Hd Hrun) as (rows & d' & Hd' & Hev & Hrows).
  exists rows, d'. split; [done|]. split; [done|]. intros k row td Hrow. cbv zeta.
  destruct (Hrows k row Hrow) as (Hle & Hlt & Hc). set (i := tx_ReportedConfirmations tx + 1 + Z.of_nat k) in *.
  intros Hf Hfee. assert (Hi : is_i64 i) by (destruct Hsane as ((Hi & _) & _); unfold is_i64 in *; lia).
  unfold confirmation_event, getTransactionNotificationType in Hc. rewrite Hdir in Hc.
  assert (row = tx_event (events_seq w + Z.of_nat k) (out_type i) (notification_copy i tx)) as ->
    by (unfold out_type; destruct (decide (i = 0)); by injection Hc as <-).
  apply received_event; [by unfold out_type; case_decide.. | by apply sane_copy | lia |].
  intros seq. apply passes_reports, passes_withdraw_check; (done || lia).
Qed.

(** C11: A change of the pending status of a client's withdrawal that was not sent stores one
    event that passes the tests' oracle for the new status (pending, waiting for cold
    storage, waiting for a manual confirmation, cancelled), by both ways. *)
Theorem pending_notifications_accepted (ex : Exec) (l : loc) (status : TransactionStatus)
    (tx : Transaction) (d : DB) (w w' : World)
    (Hl : heap w !! l = Some tx) (Hd : target ex w = Some d) (Hne : status <> tx_Status tx)
    (Hrun : updatePendingTxStatus ex l status w = (Ok tt, w'))
    (Hun : unsent tx) (Hsane : sane tx) (Hseq : 0 < events_seq w < 2 ^ 63) :
  exists tx' row d', heap w' !! l = Some tx' /\ tx_Status tx' = status /\
    target ex w' = Some d' /\ db_events d' = db_events d ++ [row] /\
    (uuid_String (tx_ID tx') <> "" -> forall td, follows td tx' -> follows_withdrawal td tx' ->
     received_with (fun n => pending_check status n td) [] (pending_event_type status) row).
Proof.
  by_wp Hrun. apply (wp_updatePendingTxStatus _ _ _ tx d); [done | done | | |].
  - intros [] w1 _ _ Hr; [by destruct Hr | done..].
  - intros ?. done.
  - intros w1 d' tx' _ _ _ (d1 & tx1 & Hs & (id & rep & Hre) & Hi) Hd' Hl' _ _.
    assert (He1 : db_events d1 = db_events d).
    { destruct Hs as [(row & ext & _ & _ & [= <-] & _)|(_ & _ & Hins)]; [done|].
      revert Hins. unfold insert_transaction. by repeat case_decide; intros; simplify_eq. }
    exists tx', (tx_event (events_seq w) (pending_event_type status) tx'), d'.
    assert (Hstatus : tx_Status tx' = status) by (by rewrite Hre).
    revert Hi. unfold insert_event. case_decide; [done|]. intros [= <-].
    split_and!; [done | done | done | simpl; by rewrite He1|].
    intros Hid td Hf Hfee. apply received_event; [by unfold pending_event_type; case_decide.. | | lia |].
    + subst tx'. destruct Hsane as (Hr & Hm & _). by split; [|split].
    + intros seq. apply passes_reports. rewrite <- Hstatus at 1.
      apply passes_pending_check; try done.
      * by rewrite Hre.
      * subst tx'. destruct Hsane as (Hr & Hm & _). by split; [|split].
Qed.

End AcceptanceProps.

(** ** Witnesses
    A deposit with three confirmations, of which the tests follow the first. *)
Definition followed (tx : Transaction) (confirmations : Z) : txTestData :=
  mkTxTestData (tx_ID tx) (tx_Address tx) (tx_Amount tx) (tx_Fee tx) (tx_Hash tx) (tx_BlockHash tx)
    (tx_Metainfo tx) confirmations.

Section AcceptanceRuns.
#[local] Instance accept_env : Env := test_env no_fault.
#[local] Existing Instance PostgresStorage.
#[local] Existing Instance PostgresEvents.
#[local] Existing Instance test_config.

Ltac solve_sane :=
  split; [unfold tx_in_range, is_i64, is_u64; vm_compute; repeat split; congruence|];
  split; [split; vm_compute; reflexivity | vm_compute; congruence].

Lemma deposit_notifications_accepted_witness :
  exists row, db_events (committed notify_run.2) !! 1%nat = Some row /\
    received_with (fun n => deposit_check 1 n (followed incoming_tx 1)) [] IncomingTxConfirmedEvent row.
Proof.
  destruct (deposit_notifications_accepted OnDB 0 incoming_tx incoming_db incoming_world notify_run.2
    eq_refl eq_refl) as (rows & d' & Hd' & Hev & H);
    [vm_compute; reflexivity | reflexivity | unfold on_chain; vm_compute; constructor | solve_sane |
     vm_compute; congruence | vm_compute; reflexivity | vm_compute; reflexivity |].
  apply target_OnDB in Hd'. simpl in Hev.
  destruct (rows !! 1%nat) as [row|] eqn:Hrow.
  - exists row. split; [rewrite Hd', Hev; exact Hrow|].
    apply (H 1%nat row (followed incoming_tx 1) Hrow). split; [repeat split|].
    intros _. repeat split.
  - exfalso. rewrite <- Hd' in Hev. rewrite <- Hev in Hrow. vm_compute in Hrow. discriminate.
Defined.

Definition outgoing_tx : Transaction := set_Direction OutgoingDirection incoming_tx.
Definition outgoing_db : DB := mkDB [PostgresWalletStorage.row_of_transaction outgoing_tx] [] ∅ [] [].
Definition outgoing_world : World := set_heap [outgoing_tx] (set_committed outgoing_db init_world).
Definition outgoing_run : outcome unit * World := notifyTransaction OnDB 0 outgoing_world.

Lemma withdrawal_notifications_accepted_witness :
  exists row, db_events (committed outgoing_run.2) !! 0%nat = Some row /\
    received_with (fun n => withdraw_check 0 n (followed outgoing_tx 0)) [] NewOutgoingTxEvent row.
Proof.
  destruct (withdrawal_notifications_accepted OnDB 0 outgoing_tx outgoing_db outgoing_world outgoing_run.2
    eq_refl eq_refl) as (rows & d' & Hd' & Hev & H);
    [vm_compute; reflexivity | reflexivity | reflexivity | unfold on_chain; vm_compute; constructor |
     solve_sane | vm_compute; congruence | vm_compute; reflexivity | vm_compute; reflexivity |].
  apply target_OnDB in Hd'. simpl in Hev.
  destruct (rows !! 0%nat) as [row|] eqn:Hrow.
  - exists row. split; [rewrite Hd', Hev; exact Hrow|].
    apply (H 0%nat row (followed outgoing_tx 0) Hrow); [split; [repeat split|] | split; reflexivity].
    intros Hi. exfalso. revert Hi. vm_compute. discriminate.
  - exfalso. rewrite <- Hd' in Hev. rewrite <- Hev in Hrow. vm_compute in Hrow. discriminate.
Defined.

(** A withdrawal that is held becomes one that waits for its confirmation. *)
Definition held_world : World := set_heap [test_tx 7 "client" 50000]
  (set_committed (mkDB [PostgresWalletStorage.row_of_transaction (test_tx 7 "client" 50000)] [] ∅ [] [])
    init_world).
Definition held_run : outcome unit * World :=
  updatePendingTxStatus OnDB 0 PendingManualConfirmationTransaction held_world.

Lemma pending_notifications_accepted_witness :
  exists row, db_events (committed held_run.2) = [row] /\
    received_with (fun n => pending_check PendingManualConfirmationTransaction n
      (followed (test_tx 7 "client" 50000) 0)) [] PendingStatusUpdatedEvent row.
Proof.
  destruct (pending_notifications_accepted OnDB 0 PendingManualConfirmationTransaction
    (test_tx 7 "client" 50000) (committed held_world) held_world held_run.2 eq_refl eq_refl)
    as (tx' & row & d' & Hl' & Hst & Hd' & Hev & H);
    [discriminate | vm_compute; reflexivity | repeat split | solve_sane | split; vm_compute; reflexivity |].
  apply target_OnDB in Hd'. exists row. split; [rewrite Hd'; exact Hev|].
  assert (Htx : tx' = set_Status PendingManualConfirmationTransaction (test_tx 7 "client" 50000)).
  { vm_compute in Hl'. injection Hl' as <-. vm_compute. reflexivity. }
  apply H; rewrite Htx; [vm_compute; congruence | repeat split | split; reflexivity].
Defined.
End AcceptanceRuns.
