(* ===== verification/DepositTests.v ===== *)
(** * integrationtests: accounts, deposits and the list of transactions

    The test functions of account_creation_test_functions.go,
    deposit_test_functions.go and get_transactions_test_functions.go, and the constants
    of integration_test.go that they use. *)
From S2P Require Import Prelude.
From S2P Require Import Go.
From S2P Require Import Json.
From S2P Require Import Bitcoin.
From S2P Require Import TxTypes.
From S2P Require Import EventTypes.
From S2P Require Import World.
From S2P Require Import Effects.
From S2P Require Import NodeAPI.
From S2P Require Import Rpc.
From S2P Require Import Api.
From S2P Require Import Client.
From S2P Require Import Testing.
From S2P Require Import Harness.
From S2P Require Import Regtest.
From S2P Require Import Processing.
From S2P Require Import Checkers.
Local Open Scope Z_scope.

(** The JSON form of [initialTestMetainfo] *)
Definition initialTestMetainfo : json :=
  JObj [("testing", JStr "testtest"); ("index", JNum "123");
        ("data", JObj [("user", JStr "tester")])].

Definition zeroBTC : BTCAmount := 0.

Section DepositTests.
Context {D : DecimalLib} {BU : BtcUtil} {U : UuidLib} {R : RpcLib} {L : UrlLib}.
Context {CT : ClientTransport} {OS : Outside} {K : DockerLib}.

(** [bitcoin.Must(bitcoin.BTCAmountFromStringedFloat(s))] *)
Definition btc (s : string) : T BTCAmount :=
  match Must (BTCAmountFromStringedFloat s) with Ok a => mret a | _ => t_panic "error" end.

Definition testDepositAmount : T BTCAmount := btc "0.5".
Definition depositFee : T BTCAmount := btc "0.004".

(** [a + b] and [a - b] on amounts *)
Definition plus (a b : BTCAmount) : BTCAmount := u64 (a + b).
Definition minus (a b : BTCAmount) : BTCAmount := u64 (a - b).

Definition next_notification : T TxNotification := GetNextCallbackNotificationWithTimeout.

(** ** account_creation_test_functions.go *)

(** A nil [metainfo] is [None]; a result's nil map is [JNull]. *)
Definition is_null (j : json) : bool := match j with JNull => true | _ => false end.

Definition testGenerateClientWalletWithMetainfo (metainfo : option json) (checkSeq : Z) : T Account :=
  result ← or_fatal "%v" (processing_call (fun cli => NewWallet_client cli metainfo));
  (match metainfo with
   | Some metainfo =>
       if is_null (acc_Metainfo result) then Fatalf "Metainfo unexpectedly nil"
       else compareMetainfo (acc_Metainfo result) metainfo
   | None => if negb (is_null (acc_Metainfo result))
             then Errorf "Metainfo unexpectedly non-nil: %v" else mret tt
   end) ;;
  let address := acc_Address result in
  expect (bool_decide (address <> "")) "Generated address is empty" ;;
  event ← next_message;
  (if decide (checkSeq >= 0) then
     expect_eq "Unxpected sequence number of second event: %d, wanted %d" (ns_Seq event) checkSeq
   else mret tt) ;;
  expect_eq "Unexpected event type for new wallet generation, wanted %s, got %s:"
    (ns_Type event) NewAddressEvent ;;
  data ← as_account (ns_Data event);
  expect_eq "Expected address from WS notification to be equal to address from API response (%s), but instead got %s"
    (acc_Address data) address ;;
  (match metainfo with
   | Some metainfo => compareMetainfo (acc_Metainfo data) metainfo
   | None => mret tt
   end) ;;
  mret result.

(** A nil pointer to an account is [None]. *)
Definition testGenerateClientWallet : T (option Account) :=
  runSubtest "EmptyMetainfo" (testGenerateClientWalletWithMetainfo None 1 ;; mret tt) ;;
  run_subtest "NonEmptyMetainfo" None
    (a ← testGenerateClientWalletWithMetainfo (Some initialTestMetainfo) 2; mret (Some a)).

Definition testMetainfos : list (option json) :=
  [ Some (JObj [("testtest", JNum "321"); ("name", JStr "Foo Bar"); ("active", JBool false);
                ("info", JArr [JObj [("id", JNum "777")]; JObj [("id", JNum "99")] ])]);
    None;
    Some initialTestMetainfo ].

Definition testGenerateMultipleClientWallets : T (list Account) :=
  t_mapM (fun m => testGenerateClientWalletWithMetainfo m (-1)) testMetainfos.

(** ** deposit_test_functions.go *)
Definition testMakeDeposit (address : string) (amount : BTCAmount) (metainfo : json) : T nat :=
  n ← node_api "node-client";
  fee ← depositFee;
  txHash ← or_fatal "Failed to send money from client node for deposit"
             (call (SendWithPerKBFee n address amount fee false));
  td_new (mkTxTestData uuid_Nil address amount 0 txHash "" metainfo 0).

(** The next event is about the deposit [l] and passes [check]. *)
Definition check_deposit_event (et : EventType) (typeFormat idFormat : string)
    (check : TxNotification -> txTestData -> T unit) (l : nat) : T unit :=
  event ← next_message;
  expect_eq typeFormat (ns_Type event) et ;;
  data ← as_notification (ns_Data event);
  tx ← td_load l;
  expect_eq idFormat (tx_ID (nt data)) (td_id tx) ;;
  check data tx.

Definition new_deposit_format : string := "Unexpected event type for new deposit, wanted %s, got %s:".
Definition confirmed_deposit_format : string :=
  "Unexpected event type for confirmed deposit, wanted %s, got %s:".
Definition same_id_format : string :=
  "Expected that tx id in websocket and http callback notification will be the same, but they are %s %s".
Definition ws_id_format : string :=
  "Expected that tx id for confirmed tx in websocket notification will match one for initial tx, but they are %s %s".
Definition cb_id_format : string :=
  "Expected that tx id for confirmed tx in http callback data to match id of initial tx, but they are %s %s".

(** As [check_deposit_event], with the data asserted before the type is compared *)
Definition check_new_deposit_event (l : nat) : T unit :=
  event ← next_message;
  data ← as_notification (ns_Data event);
  expect_eq new_deposit_format (ns_Type event) NewIncomingTxEvent ;;
  tx ← td_load l;
  expect_eq same_id_format (tx_ID (nt data)) (td_id tx) ;;
  checkNotificationFieldsForNewDeposit data tx.

Definition testDepositPartiallyConfirmed (l : nat) : T unit :=
  notification ← next_notification;
  tx ← td_load l;
  expect_eq cb_id_format (tx_ID (nt notification)) (td_id tx) ;;
  checkNotificationFieldsForPartiallyConfirmedDeposit notification tx ;;
  check_deposit_event IncomingTxConfirmedEvent confirmed_deposit_format ws_id_format
    checkNotificationFieldsForPartiallyConfirmedDeposit l.

Definition testDepositFullyConfirmed (l : nat) : T unit :=
  notification ← next_notification;
  tx ← td_load l;
  expect_eq cb_id_format (tx_ID (nt notification)) (td_id tx) ;;
  checkNotificationFieldsForFullyConfirmedDeposit notification tx ;;
  check_deposit_event IncomingTxConfirmedEvent confirmed_deposit_format ws_id_format
    checkNotificationFieldsForFullyConfirmedDeposit l.

(** The callback's notification of a new deposit, which tells its id *)
Definition learn_new_deposit (notification : TxNotification) (l : nat) : T unit :=
  td_update l (set_td_id (tx_ID (nt notification))) ;;
  tx ← td_load l;
  checkNotificationFieldsForNewDeposit notification tx.

Definition testDeposit (clientAddress : string) : T unit :=
  amount ← testDepositAmount;
  tx ← testMakeDeposit clientAddress amount initialTestMetainfo;
  runSubtest "NewTransaction" (
    req ← GetNextCallbackRequestWithTimeout;
    runSubtest "CallbackMethodAndUrl" (
      expect_eq "Expected callback request to use method %s, instead was %s" (cr_Method req) "POST" ;;
      expect_eq "Callback path should be %s, instead got %s" (cr_Path req) DefaultCallbackURLPath) ;;
    runSubtest "CallbackNewDepositData" (
      notification ← UnmarshalOrFail req; learn_new_deposit notification tx) ;;
    check_new_deposit_event tx ;;
    checkBalance zeroBTC amount) ;;
  mineOrFail tx ;;
  runSubtest "ConfirmedTransaction" (testDepositFullyConfirmed tx).

(** One block more, and the notification that it brings *)
Definition another_block (f : txTestData -> txTestData) (l : nat) (check : T unit) : T unit :=
  miner ← node_api "node-miner";
  or_fatal "%v" (GenerateBlocks miner 1) ;;
  td_update l f ;; check.

Definition testDepositSeveralConfirmations (clientAddress : string) (neededConfirmations : Z) : T unit :=
  amount ← testDepositAmount;
  tx ← testMakeDeposit clientAddress amount JNull;
  runSubtest "NewTransaction" (
    notification ← next_notification;
    learn_new_deposit notification tx ;;
    check_new_deposit_event tx ;;
    checkBalance zeroBTC amount) ;;
  mineOrFail tx ;;
  runSubtest "Confirmation" (
    runSubtest "First" (testDepositPartiallyConfirmed tx) ;;
    runSubtest "Successive" (
      t_forM (zrange 2 (neededConfirmations - 1)) (fun i =>
        another_block (set_td_confirmations i) tx (testDepositPartiallyConfirmed tx)) ;;
      another_block (fun t => set_td_confirmations (i64 (td_confirmations t + 1)) t) tx
        (testDepositFullyConfirmed tx))).

(** *** Several deposits at a time *)

(** The new notification of one deposit among those that were collected *)
Definition check_new_among (httpNotifications wsNotifications : list TxNotification) (l : nat) : T unit :=
  tx ← td_load l;
  n ← findNotificationForTxOrFail httpNotifications tx;
  checkNotificationFieldsForNewDeposit n tx ;;
  td_update l (set_td_id (tx_ID (nt n))) ;;
  tx ← td_load l;
  wsN ← findNotificationForTxOrFail wsNotifications tx;
  checkNotificationFieldsForNewDeposit wsN tx.

(** The confirmation of one transaction among those that were collected *)
Definition check_confirmed_among (check : TxNotification -> txTestData -> T unit)
    (httpNotifications wsNotifications : list TxNotification) (l : nat) : T unit :=
  tx ← td_load l;
  n ← findNotificationForTxOrFail httpNotifications tx;
  check n tx ;;
  wsN ← findNotificationForTxOrFail wsNotifications tx;
  expect_eq cb_id_format (tx_ID (nt n)) (td_id tx) ;;
  expect_eq ws_id_format (tx_ID (nt wsN)) (td_id tx) ;;
  check wsN tx.

Definition testDepositMultipleSimultaneous (accounts : list Account) (amounts : list BTCAmount)
    (useDifferentAddresses : bool) (nDeposits : nat) : T unit :=
  balanceByNow ← getStableBalanceOrFail;
  total ← btc "0.6";
  let balanceAfterDeposit := plus balanceByNow total in
  runSubtest "Simultaneous" (
    deposits ← t_mapM (fun i =>
      account ← t_index accounts (if useDifferentAddresses then i else 0);
      amount ← t_index amounts i;
      testMakeDeposit (acc_Address account) amount (acc_Metainfo account))
      (zrange 0 (Z.of_nat nDeposits - 1));
    runSubtest "NewTransactions" (
      '(httpNotifications, wsNotifications) ← collectNotifications NewIncomingTxEvent nDeposits;
      t_forM deposits (check_new_among httpNotifications wsNotifications) ;;
      checkBalance balanceByNow balanceAfterDeposit) ;;
    collection_mineOrFail deposits ;;
    runSubtest "ConfirmedTxns" (
      '(httpNotifications, wsNotifications) ← collectNotifications IncomingTxConfirmedEvent nDeposits;
      t_forM deposits (check_confirmed_among checkNotificationFieldsForFullyConfirmedDeposit
                         httpNotifications wsNotifications) ;;
      checkBalance balanceAfterDeposit balanceAfterDeposit)).

(** The confirmation of [txOlder] among what was collected *)
Definition check_older_deposit (cbNotifications : list TxNotification)
    (wsEvents : list NotificationWithSeq) (txOlder : nat) : T unit :=
  tx ← td_load txOlder;
  notification ← findNotificationForTxOrFail cbNotifications tx;
  checkNotificationFieldsForFullyConfirmedDeposit notification tx ;;
  event ← findEventWithTypeOrFail wsEvents IncomingTxConfirmedEvent;
  data ← as_notification (ns_Data event);
  checkNotificationFieldsForFullyConfirmedDeposit data tx.

Definition check_younger_deposit (cbNotifications : list TxNotification)
    (wsEvents : list NotificationWithSeq) (txYounger : nat) : T unit :=
  tx ← td_load txYounger;
  notification ← findNotificationForTxOrFail cbNotifications tx;
  learn_new_deposit notification txYounger ;;
  event ← findEventWithTypeOrFail wsEvents NewIncomingTxEvent;
  eventData ← as_notification (ns_Data event);
  tx ← td_load txYounger;
  expect_eq "Expected tx id from cb and ws notification to be equal, but they are %s %s"
    (tx_ID (nt eventData)) (td_id tx) ;;
  checkNotificationFieldsForNewDeposit eventData tx.

(** Each round mines the deposit of the round before; a nil pointer is [None]. *)
Fixpoint interleaved_deposits (accounts : list Account) (amounts : list BTCAmount)
    (useDifferentAddresses : bool) (rounds : list Z) (txOlder : option nat) : T (option nat) :=
  match rounds with
  | [] => mret txOlder
  | i :: rounds =>
      (match txOlder with Some l => mineOrFail l | None => mret tt end) ;;
      account ← t_index accounts (if useDifferentAddresses then i else 0);
      amount ← t_index amounts i;
      txYounger ← testMakeDeposit (acc_Address account) amount (acc_Metainfo account);
      '(cbNotifications, wsEvents) ←
        collectNotificationsAndEvents (match txOlder with Some _ => 2 | None => 1 end);
      (match txOlder with
       | Some l => check_older_deposit cbNotifications wsEvents l
       | None => mret tt
       end) ;;
      check_younger_deposit cbNotifications wsEvents txYounger ;;
      interleaved_deposits accounts amounts useDifferentAddresses rounds (Some txYounger)
  end.

Definition testDepositMultipleInterleaved (accounts : list Account) (amounts : list BTCAmount)
    (useDifferentAddresses : bool) (nDeposits : nat) : T unit :=
  balanceByNow ← getStableBalanceOrFail;
  runSubtest "Interleaved" (
    txOlder ← interleaved_deposits accounts amounts useDifferentAddresses
                (zrange 0 (Z.of_nat nDeposits - 1)) None;
    txOlder ← t_deref txOlder;
    mineOrFail txOlder ;;
    '(cbNotifications, wsEvents) ← collectNotificationsAndEvents 1;
    check_older_deposit cbNotifications wsEvents txOlder ;;
    total ← btc "0.6";
    let wantBalance := plus balanceByNow total in
    checkBalance wantBalance wantBalance).

Definition address_tests : list (string * bool) := [("DifferentAddresses", true); ("SameAddress", false)].

Definition testDepositMultiple (accounts : list Account) : T unit :=
  amounts ← t_mapM btc ["0.1"; "0.2"; "0.3"];
  t_forM (os_map_order address_tests) (fun '(testName, useDifferentAddresses) =>
    runSubtest testName (
      testDepositMultipleSimultaneous accounts amounts useDifferentAddresses 3 ;;
      testDepositMultipleInterleaved accounts amounts useDifferentAddresses 3)).

(** Waiting until a part of the processing server's balance is as expected *)
Definition balance_becomes (part : BalanceInfo -> BTCAmount) (format : string) (expected : BTCAmount)
    : T unit :=
  waitForEventOrFailTest (
    ebind (processing_call GetBalance_client) (fun balanceInfo =>
    mret (if decide (part balanceInfo = expected) then inl tt else inr (ErrMsg format)))).

(** An error of the sending leaves the hash empty. *)
Definition testSendFundsToHotWallet (hotWalletAddress : string) : T unit :=
  balance ← getStableBalanceOrFail;
  hotWalletIncome ← btc "0.3";
  let expectedBalanceAfterIncome := plus balance hotWalletIncome in
  n ← node_api "node-client";
  fee ← depositFee;
  sent ← call (SendWithPerKBFee n hotWalletAddress hotWalletIncome fee false);
  let txHash := match sent with inl h => h | inr _ => "" end in
  balance_becomes bi_BalanceWithUnconf
    "Expected unconfirmed wallet balance to become %s after tx sending money to hot wallet address was created, but it is %s"
    expectedBalanceAfterIncome ;;
  or_fatal "Failed to mine tx %s into blockchain: %v" (MineTx txHash) ;;
  balance_becomes bi_Balance
    "Expected confirmed wallet balance to become %s after tx sending money to hot wallet address was mined, but it is %s"
    expectedBalanceAfterIncome.

(** [BTCAmountFromFloat(0.1 * float64(i+1))], with Go's constant and product in [float64] *)
Definition tenth_times (i : Z) : T BTCAmount :=
  match BTCAmountFromFloat (SpecFloat.SFmul 53 1024 (float_of_decimal false 1 (-1))
          (SpecFloat.binary_normalize 53 1024 (i + 1) 0 false)) with
  | Ok a => mret a
  | _ => t_panic "Cannot create a Decimal from a non-finite float"
  end.

Definition amount_for (address : string) (amounts : list (string * BTCAmount)) : BTCAmount :=
  default 0 (node_lookup address amounts).

Definition testDepositSingleBitcoinTxWithMultipleExists (accounts : list Account) : T unit :=
  balanceByNow ← getStableBalanceOrFail;
  let nDeposits := length accounts in
  values ← t_mapM tenth_times (zrange 0 (Z.of_nat nDeposits - 1));
  let amounts := foldl (fun m '(account, amount) => map_set (acc_Address account) amount m) []
                   (zip accounts values) in
  total ← btc "0.6";
  let balanceAfterDeposit := plus balanceByNow total in
  n ← node_api "node-client";
  hash ← or_fatal "Failed to send money from client node for deposit: %v"
           (call (SendToMultipleAddresses n amounts));
  deposits ← t_mapM (fun account =>
    td_new (mkTxTestData uuid_Nil (acc_Address account) (amount_for (acc_Address account) amounts)
              0 hash "" (acc_Metainfo account) 0)) accounts;
  runSubtest "NewTransactions" (
    '(httpNotifications, wsNotifications) ← collectNotifications NewIncomingTxEvent nDeposits;
    t_forM deposits (check_new_among httpNotifications wsNotifications) ;;
    checkBalance balanceByNow balanceAfterDeposit) ;;
  blockHash ← or_fatal "Failed to mine deposit bitcoin tx on miner node: %v" (MineTx hash);
  t_forM deposits (fun l =>
    td_update l (fun t => set_td_confirmations 1 (set_td_blockHash blockHash t))) ;;
  runSubtest "ConfirmedTxns" (
    '(httpNotifications, wsNotifications) ← collectNotifications IncomingTxConfirmedEvent nDeposits;
    t_forM deposits (check_confirmed_among checkNotificationFieldsForFullyConfirmedDeposit
                       httpNotifications wsNotifications) ;;
    checkBalance balanceAfterDeposit balanceAfterDeposit).

(** ** The hot wallet, across a restart of the processing server *)
Definition restart_processing (start : T unit) : T unit :=
  p ← the_processing;
  let processingContainerID := ci_ID p in
  l ← first_listener; listener_Stop l ;;
  with_env (set_te_WebsocketListeners []) ;;
  ignore_error StopProcessing ;;
  ignore_error (WaitForContainerRemoval processingContainerID) ;;
  start.

Definition testHotWallet : T unit :=
  hotWalletAddress ← run_subtest "WasGenerated" "" (
    hotWalletAddress ← or_fatal "Failed to request hot wallet address %v"
                         (processing_call GetHotStorageAddress);
    (if decide (hotWalletAddress = "")
     then Fatalf "Hot wallet address from get_hot_storage_address API is empty" else mret tt) ;;
    mret hotWalletAddress);
  runSubtest "SendFundsToHotWallet" (testSendFundsToHotWallet hotWalletAddress) ;;
  runSubtest "PersistsRestart" (
    p ← the_processing;
    l ← first_listener;
    lastSeq ← listener_LastSeq l;
    restart_processing (ignore_error StartProcessingWithDefaultSettings ;; WaitForProcessing) ;;
    hotWalletAddressNow ← or_fatal "Failed to request hot wallet address %v"
                            (processing_call GetHotStorageAddress);
    (if decide (hotWalletAddressNow <> hotWalletAddress)
     then Fatalf "Expected that hot wallet address after restart will be same as before restart (%s), but it was %s"
     else mret tt) ;;
    or_fatal "Failed to connect websocket event listener %v" (NewWebsocketListener (lastSeq + 1)) ;;
    mret tt).

(** ** get_transactions_test_functions.go *)
Definition getTransactionsOrFail (directionFilter statusFilter : string) : T (list (option Transaction)) :=
  resp ← or_fatal "API request to get transactions from processing failed: %v"
           (processing_call (fun cli => GetTransactions cli (mkFilter directionFilter statusFilter)));
  mret (default [] resp).

(** [reflect.DeepEqual] of the metainfo of a decoded transaction and of an account: a
    nil map is not equal to a nil interface. *)
Definition same_metainfo (got want : json) : bool :=
  match want with JNull => false | _ => deep_equal got want end.

Fixpoint checkThereIsDepositTx (deposit : txTestData) (txns : list (option Transaction)) : T Transaction :=
  match txns with
  | [] => Fatalf "New transaction %s not in tx list"
  | tx :: txns =>
      tx ← t_deref tx;
      if decide (tx_Hash tx = td_hash deposit) then
        if bool_decide (tx_Address tx = td_address deposit) &&
           bool_decide (tx_Amount tx = td_amount deposit) &&
           same_metainfo (tx_Metainfo tx) (td_metainfo deposit)
        then mret tx
        else Fatalf "Expected that address, amount and metainfo of tx returned by 'get transactions' API call will be equal to those of created deposit (%s %s %v), but they are %s %s %v"
      else checkThereIsDepositTx deposit txns
  end.

Definition expect_no_transactions (direction status : string) : T unit :=
  txns ← getTransactionsOrFail direction status;
  expect (bool_decide (length txns = 0%nat)) "Expected that list of txns to be empty".

(** A nil account is dereferenced when the deposit is made. *)
Definition testGetTransactions (clientAccount : option Account) : T unit :=
  runSubtest "ExistingTransactions" (
    txns ← getTransactionsOrFail "" "";
    expect (bool_decide (length txns <> 0%nat))
      "Expected 'get transactions' API to return some exising txns, instead got nothing ") ;;
  clientAccount ← t_deref clientAccount;
  amount ← btc "0.1";
  deposit ← testMakeDeposit (acc_Address clientAccount) amount (acc_Metainfo clientAccount);
  next_notification ;; next_message ;;
  runSubtest "NewTx" (
    txns ← getTransactionsOrFail "" "";
    td ← td_load deposit;
    tx ← checkThereIsDepositTx td txns;
    td_update deposit (set_td_id (tx_ID tx))) ;;
  runSubtest "Filter" (
    runSubtest "Empty" (
      expect_no_transactions "randomsomething" "" ;;
      expect_no_transactions "" "nonexistent" ;;
      expect_no_transactions "nonexistentdirection" "nonexistentstatus") ;;
    runSubtest "Direction" (
      txns ← getTransactionsOrFail (Direction_String IncomingDirection) "";
      td ← td_load deposit; checkThereIsDepositTx td txns ;; mret tt) ;;
    runSubtest "Status" (
      txns ← getTransactionsOrFail "" (Status_String NewTransaction);
      td ← td_load deposit; checkThereIsDepositTx td txns ;; mret tt)) ;;
  mineOrFail deposit ;;
  GetNextCallbackRequestWithTimeout ;; next_message ;; mret tt.

End DepositTests.
