(* ===== verification/WithdrawTests.v ===== *)
(** * integrationtests: withdrawals

    The test functions of withdraw_test_functions.go and
    deposit_and_withdraw_test_functions.go. *)
From S2P Require Import Prelude.
From S2P Require Import Go.
From S2P Require Import Json.
From S2P Require Import Bitcoin.
From S2P Require Import TxTypes.
From S2P Require Import EventTypes.
From S2P Require Import World.
From S2P Require Import Effects.
From S2P Require Import Withdraw.
From S2P Require Import Rpc.
From S2P Require Import Api.
From S2P Require Import Client.
From S2P Require Import Testing.
From S2P Require Import Harness.
From S2P Require Import Regtest.
From S2P Require Import Processing.
From S2P Require Import Checkers.
From S2P Require Import DepositTests.
Local Open Scope Z_scope.

Section WithdrawTests.
Context {D : DecimalLib} {BU : BtcUtil} {U : UuidLib} {R : RpcLib} {L : UrlLib}.
Context {CT : ClientTransport} {OS : Outside} {K : DockerLib}.

Definition withdrawFee : T BTCAmount := btc "0.0001".
Definition withdrawAmountSmall : T BTCAmount := btc "0.05".

(** ** One withdrawal *)
Definition testMakeWithdraw (address : string) (amount : BTCAmount) (metainfo : json) : T nat :=
  fee ← withdrawFee;
  let req := mkWithdrawRequest uuid_Nil address amount fee "" metainfo in
  resp ← or_fatal "%v" (processing_call (fun cli => Withdraw_client cli req));
  checkClientWithdrawRequest resp req ;;
  td_new (mkTxTestData (wr_ID resp) address amount fee "" "" metainfo 0).

Definition testWithdrawNewTransaction (l : nat)
    (clientBalance expectedClientBalanceAfterWithdraw : BTCAmount) : T unit :=
  notification ← next_notification;
  event ← next_message;
  checkNewWithdrawTransactionNotificationAndEvent notification event l clientBalance
    expectedClientBalanceAfterWithdraw.

Definition withdraw_confirmed_format : string :=
  "Expected type of event for confirmed successful withdraw to be %s, instead got %s".

(** A notification and an event about [l] that both pass [check] *)
Definition check_withdraw_both (et : EventType) (typeFormat : string)
    (check : TxNotification -> txTestData -> T unit) (l : nat) : T unit :=
  notification ← next_notification;
  tx ← td_load l;
  check notification tx ;;
  event ← next_message;
  expect_eq typeFormat (ns_Type event) et ;;
  data ← as_notification (ns_Data event);
  check data tx.

Definition testWithdrawPartiallyConfirmed (l : nat) (expectedClientBalanceAfterWithdraw : BTCAmount)
    : T unit :=
  check_withdraw_both OutgoingTxConfirmedEvent withdraw_confirmed_format
    checkNotificationFieldsForPartiallyConfirmedClientWithdraw l ;;
  checkClientBalanceBecame expectedClientBalanceAfterWithdraw expectedClientBalanceAfterWithdraw.

Definition testWithdrawFullyConfirmed (l : nat) (expectedClientBalanceAfterWithdraw : BTCAmount)
    : T unit :=
  check_withdraw_both OutgoingTxConfirmedEvent withdraw_confirmed_format
    checkNotificationFieldsForFullyConfirmedClientWithdraw l ;;
  checkClientBalanceBecame expectedClientBalanceAfterWithdraw expectedClientBalanceAfterWithdraw.

Definition event_type_format : string := "Expected event type to be %s, but got %s".

(** The same balance as before: the withdrawal is not confirmed yet. *)
Definition check_old_balance (ourOldBalance : BTCAmount) (testBalance : bool) : T unit :=
  if testBalance then checkBalance ourOldBalance ourOldBalance else mret tt.

Definition testWithdrawTransactionPendingManualConfirmation (l : nat) (ourOldBalance : BTCAmount)
    (testBalance : bool) : T unit :=
  check_withdraw_both PendingStatusUpdatedEvent event_type_format
    checkNotificationFieldsForWithdrawPendingManualConfirmation l ;;
  check_old_balance ourOldBalance testBalance.

Definition testWithdrawTransactionPendingColdStorage (l : nat) (ourOldBalance : BTCAmount)
    (testBalance : bool) : T unit :=
  check_withdraw_both PendingStatusUpdatedEvent event_type_format
    checkNotificationFieldsForWithdrawPendingColdStorage l ;;
  check_old_balance ourOldBalance testBalance.

Definition testWithdrawTransactionPending (l : nat) (ourOldBalance : BTCAmount)
    (testBalance : bool) : T unit :=
  check_withdraw_both PendingStatusUpdatedEvent event_type_format
    checkNotificationFieldsForWithdrawPending l ;;
  check_old_balance ourOldBalance testBalance.

Definition testWithdrawTransactionCancelled (l : nat) : T unit :=
  check_withdraw_both PendingTxCancelledEvent event_type_format
    checkNotificationFieldsForCancelledWithdrawal l.

(** [env.ProcessingClient.Confirm(tx.id)] and [Cancel] *)
Definition confirm_tx (format : string) (l : nat) : T unit :=
  tx ← td_load l; or_fatal format (processing_call (fun cli => Confirm cli (td_id tx))).
Definition cancel_tx (format : string) (l : nat) : T unit :=
  tx ← td_load l; or_fatal format (processing_call (fun cli => Cancel cli (td_id tx))).

(** ** Withdrawals that wait *)
Definition testMakePendingWithdraw (amount : BTCAmount) : T nat :=
  withdrawAddress ← getNewAddressForWithdrawOrFail;
  tx ← testMakeWithdraw withdrawAddress amount JNull;
  testWithdrawTransactionPendingManualConfirmation tx zeroBTC false ;;
  confirm_tx "%v" tx ;;
  testWithdrawTransactionPending tx zeroBTC false ;;
  mret tx.

Definition transactions_with_status (status : TransactionStatus) : T (list (option Transaction)) :=
  txns ← or_fatal "%v" (processing_call (fun cli => GetTransactions cli (mkFilter "" (Status_String status))));
  mret (default [] txns).

Fixpoint found_by_id (txID : UUID) (txns : list (option Transaction)) : T bool :=
  match txns with
  | [] => mret false
  | tx :: txns =>
      filteredTx ← t_deref tx;
      if decide (tx_ID filteredTx = txID) then mret true else found_by_id txID txns
  end.

Definition testGetTransactionsTxFoundByStatus (txID : UUID) (status : TransactionStatus) : T unit :=
  txns ← transactions_with_status status;
  found ← found_by_id txID txns;
  expect found "GetTransactions API did not return test transaction with status %s".

(** One failure for each transaction that should not be there *)
Definition testGetTransactionsTxNotFoundByStatus (txID : UUID) (status : TransactionStatus) : T unit :=
  txns ← transactions_with_status status;
  t_forM txns (fun tx =>
    filteredTx ← t_deref tx;
    expect (bool_decide (tx_ID filteredTx <> txID))
      "GetTransactions API returns tx with status %s when it should not").

(** An error of the sending leaves the hash empty. *)
Definition testWithdrawInsufficientFundsPending (cancel : bool) : T unit :=
  ourBalance ← getStableBalanceOrFail;
  one ← btc "1";
  let withdrawAmountTooBig := plus ourBalance one in
  unconfirmedIncome ← btc "2";
  clientAccount ← or_fatal "%v" (processing_call (fun cli => NewWallet_client cli None));
  next_message ;;
  n ← node_api "node-client";
  fee ← depositFee;
  sent ← call (SendWithPerKBFee n (acc_Address clientAccount) unconfirmedIncome fee false);
  let unconfirmedIncomeTxHash := match sent with inl h => h | inr _ => "" end in
  next_notification ;; next_message ;;
  checkBalance ourBalance (plus ourBalance unconfirmedIncome) ;;
  tx ← testMakePendingWithdraw withdrawAmountTooBig;
  clientBalance ← getStableClientBalanceOrFail;
  td ← td_load tx;
  runSubtest "GetTransactionsPending" (
    testGetTransactionsTxFoundByStatus (td_id td) PendingTransaction) ;;
  (if cancel then
     cancel_tx "%v" tx ;;
     testWithdrawTransactionCancelled tx ;;
     checkBalance ourBalance (plus ourBalance unconfirmedIncome)
   else mret tt) ;;
  or_fatal "%v" (MineTx unconfirmedIncomeTxHash) ;;
  if cancel then
    next_notification ;; next_message ;;
    let ourBalanceAfterIncome := plus ourBalance unconfirmedIncome in
    checkBalance ourBalanceAfterIncome ourBalanceAfterIncome
  else
    '(notifications, wsEvents) ← collectNotificationsAndEvents 2;
    withdrawNotification ← findNotificationForTxOrFail notifications td;
    withdrawEvent ← findEventWithTypeOrFail wsEvents NewOutgoingTxEvent;
    fee ← withdrawFee;
    let clientBalanceAfterWithdraw := minus (plus clientBalance withdrawAmountTooBig) fee in
    checkNewWithdrawTransactionNotificationAndEvent withdrawNotification withdrawEvent tx
      clientBalance clientBalanceAfterWithdraw ;;
    mineOrFail tx ;;
    testWithdrawFullyConfirmed tx clientBalanceAfterWithdraw.

Definition testWithdrawInsufficientFundsPendingColdStorage (cancel : bool) : T unit :=
  ourBalance ← getStableBalanceOrFail;
  overflowAmount ← btc "1";
  let withdrawAmountTooBig := plus ourBalance overflowAmount in
  checkRequiredFromColdStorage zeroBTC ;;
  tx ← testMakePendingWithdraw withdrawAmountTooBig;
  testWithdrawTransactionPendingColdStorage tx ourBalance true ;;
  checkRequiredFromColdStorage overflowAmount ;;
  td ← td_load tx;
  runSubtest "GetTransactionsPendingColdStorage" (
    testGetTransactionsTxFoundByStatus (td_id td) PendingColdStorageTransaction) ;;
  if cancel then
    cancel_tx "%v" tx ;;
    testWithdrawTransactionCancelled tx ;;
    checkRequiredFromColdStorage zeroBTC ;;
    checkBalance ourBalance ourBalance
  else
    hsAddress ← or_fatal "%v" (processing_call GetHotStorageAddress);
    one ← btc "1";
    let incomeAmount := plus overflowAmount one in
    n ← node_api "node-client";
    fee ← depositFee;
    incomeTxHash ← or_fatal "%v" (call (SendWithPerKBFee n hsAddress incomeAmount fee false));
    testWithdrawTransactionPending tx zeroBTC false ;;
    runSubtest "GetTransactionsNotPendingColdStorage" (
      testGetTransactionsTxNotFoundByStatus (td_id td) PendingColdStorageTransaction) ;;
    runSubtest "GetTransactionsPending" (
      testGetTransactionsTxFoundByStatus (td_id td) PendingTransaction) ;;
    checkRequiredFromColdStorage zeroBTC ;;
    or_fatal "%v" (MineTx incomeTxHash) ;;
    clientBalance ← getStableClientBalanceOrFail;
    fee ← withdrawFee;
    let clientBalanceAfterWithdraw := minus (plus clientBalance withdrawAmountTooBig) fee in
    testWithdrawNewTransaction tx clientBalance clientBalanceAfterWithdraw ;;
    mineOrFail tx ;;
    testWithdrawFullyConfirmed tx clientBalanceAfterWithdraw.

Definition testWithdrawInsufficientFunds : T unit :=
  t_forM [false; true] (fun doCancel =>
    runSubtest (if doCancel : bool then "Cancel" else "PayMissing") (
      runSubtest "PendingIncomingTxConfirmation" (testWithdrawInsufficientFundsPending doCancel) ;;
      runSubtest "PendingColdStorage" (testWithdrawInsufficientFundsPendingColdStorage doCancel))).

(** ** The whole sequence of testWithdraw, subtest by subtest *)
Definition testWithdraw_small (withdrawAddress : string) (clientBalance : BTCAmount) : T unit :=
  amount ← withdrawAmountSmall; fee ← withdrawFee;
  let expectedClientBalanceAfterWithdraw := minus (plus clientBalance amount) fee in
  tx ← testMakeWithdraw withdrawAddress amount JNull;
  runSubtest "NewTransaction" (
    testWithdrawNewTransaction tx clientBalance expectedClientBalanceAfterWithdraw) ;;
  wantBalance ← btc "0.45";
  checkBalance wantBalance wantBalance ;;
  mineOrFail tx ;;
  runSubtest "ConfirmedTransaction" (testWithdrawFullyConfirmed tx expectedClientBalanceAfterWithdraw).

Definition testWithdraw_big (withdrawAddress : string) (clientBalance : BTCAmount) : T unit :=
  withdrawAmountBig ← btc "0.15"; fee ← withdrawFee;
  tx ← testMakeWithdraw withdrawAddress withdrawAmountBig JNull;
  runSubtest "NewTransactionNotConfirmedYet" (
    before ← btc "0.45"; testWithdrawTransactionPendingManualConfirmation tx before true) ;;
  let expectedClientBalanceAfterWithdraw := minus (plus clientBalance withdrawAmountBig) fee in
  runSubtest "ManuallyConfirmTransaction" (
    confirm_tx "Failed to confirm tx: %v" tx ;;
    testWithdrawNewTransaction tx clientBalance expectedClientBalanceAfterWithdraw) ;;
  wantBalance ← btc "0.3";
  checkBalance wantBalance wantBalance ;;
  mineOrFail tx ;;
  runSubtest "ConfirmedTransaction" (testWithdrawFullyConfirmed tx expectedClientBalanceAfterWithdraw) ;;
  runSubtest "CancelInsteadOfConfirming" (
    tx ← testMakeWithdraw withdrawAddress withdrawAmountBig JNull;
    testWithdrawTransactionPendingManualConfirmation tx wantBalance true ;;
    cancel_tx "Failed to cancel tx pending manual confirmation: %v" tx ;;
    testWithdrawTransactionCancelled tx ;;
    checkBalance wantBalance wantBalance).

(** [uuid.Must(uuid.FromString(s))] *)
Definition fixed_id : T UUID :=
  match uuid_UnmarshalText "e06ed38b-ff2c-4e3d-885f-135fe6c72625" with
  | Some id => mret id
  | None => t_panic "uuid"
  end.

Definition fixed_id_request (withdrawAddress : string) : T WithdrawRequest :=
  withdrawID ← fixed_id; amount ← withdrawAmountSmall; fee ← withdrawFee;
  mret (mkWithdrawRequest withdrawID withdrawAddress amount fee "" JNull).

Definition testWithdraw_fixed_id (withdrawAddress : string) : T unit :=
  req ← fixed_id_request withdrawAddress;
  resp ← or_fatal "%v" (processing_call (fun cli => Withdraw_client cli req));
  checkClientWithdrawRequest resp req ;;
  expect_eq "Expected resulting withdraw id to be equal to requested one %s, but got %s"
    (wr_ID resp) (wr_ID req) ;;
  notification ← next_notification;
  expect_eq "Expected withdraw id in http notification to be equal to requested one %s, but got %s"
    (tx_ID (nt notification)) (wr_ID req) ;;
  event ← next_message;
  data ← as_notification (ns_Data event);
  expect_eq "Expected withdraw id in http notification to be equal to requested one %s, but got %s"
    (tx_ID (nt data)) (wr_ID req) ;;
  ignore_error (MineTx (tx_Hash (nt notification))) ;;
  next_notification ;; next_message ;; mret tt.

Definition testWithdraw_duplicate_id (withdrawAddress : string) : T unit :=
  ourBalance ← getStableBalanceOrFail;
  req ← fixed_id_request withdrawAddress;
  r ← processing_call (fun cli => Withdraw_client cli req);
  (match r with
   | inl _ => Fatalf "Expected duplicate tx id to cause withdraw error, but it did not"
   | inr _ => mret tt
   end) ;;
  checkBalance ourBalance ourBalance ;;
  miner ← node_api "node-miner";
  ignore_error (GenerateBlocks miner 1) ;;
  checkBalance ourBalance ourBalance.

(** A withdrawal to an address of the wallet: no bitcoin transaction, two of the wallet *)
Definition testWithdraw_internal : T unit :=
  clientAccount ← testGenerateClientWalletWithMetainfo (Some initialTestMetainfo) (-1);
  ourInitialBalance ← getStableBalanceOrFail;
  let withdrawAddress := acc_Address clientAccount in
  amount ← withdrawAmountSmall; fee ← withdrawFee;
  tx ← testMakeWithdraw withdrawAddress amount JNull;
  runSubtest "Outgoing" (
    runSubtest "NewTransaction" (
      notification ← next_notification;
      event ← next_message;
      checkNewInternalWithdrawTransactionNotificationAndEvent notification event tx) ;;
    checkBalance ourInitialBalance ourInitialBalance ;;
    td_update tx (set_td_confirmations 1) ;;
    runSubtest "ConfirmedTransaction" (
      check_withdraw_both OutgoingTxConfirmedEvent withdraw_confirmed_format
        checkNotificationFieldsForFullyConfirmedClientWithdraw tx)) ;;
  runSubtest "Incoming" (
    tx ← td_new (mkTxTestData uuid_Nil withdrawAddress (minus amount fee) 0 "" "" initialTestMetainfo 0);
    runSubtest "NewTransaction" (
      req ← GetNextCallbackRequestWithTimeout;
      runSubtest "CallbackNewDepositData" (
        notification ← UnmarshalOrFail req; learn_new_deposit notification tx) ;;
      check_new_deposit_event tx ;;
      checkBalance ourInitialBalance ourInitialBalance) ;;
    td_update tx (set_td_confirmations 1) ;;
    runSubtest "ConfirmedTransaction" (testDepositFullyConfirmed tx)).

Definition testWithdraw : T unit :=
  withdrawAddress ← getNewAddressForWithdrawOrFail;
  clientBalance ← getStableClientBalanceOrFail;
  runSubtest "WithoutManualConfirmation" (testWithdraw_small withdrawAddress clientBalance) ;;
  clientBalance ← getStableClientBalanceOrFail;
  runSubtest "WithManualConfirmation" (testWithdraw_big withdrawAddress clientBalance) ;;
  runSubtest "InsufficientFunds" testWithdrawInsufficientFunds ;;
  runSubtest "FixedID" (testWithdraw_fixed_id withdrawAddress) ;;
  runSubtest "DuplicateFixedID" (testWithdraw_duplicate_id withdrawAddress) ;;
  runSubtest "Internal" testWithdraw_internal.

(** ** More confirmations *)
Definition testWithdrawSeveralConfirmations (neededConfirmations : Z) : T unit :=
  clientBalance ← getStableClientBalanceOrFail;
  withdrawAddress ← getNewAddressForWithdrawOrFail;
  amount ← withdrawAmountSmall; fee ← withdrawFee;
  let expectedClientBalanceAfterWithdraw := minus (plus clientBalance amount) fee in
  tx ← testMakeWithdraw withdrawAddress amount JNull;
  runSubtest "NewTransaction" (
    testWithdrawNewTransaction tx clientBalance expectedClientBalanceAfterWithdraw) ;;
  wantBalance ← btc "0.45";
  checkBalance wantBalance wantBalance ;;
  mineOrFail tx ;;
  runSubtest "Confirmation" (
    runSubtest "First" (testWithdrawPartiallyConfirmed tx expectedClientBalanceAfterWithdraw) ;;
    runSubtest "Successive" (
      t_forM (zrange 2 (neededConfirmations - 1)) (fun i =>
        another_block (set_td_confirmations i) tx
          (testWithdrawPartiallyConfirmed tx expectedClientBalanceAfterWithdraw)) ;;
      another_block (fun t => set_td_confirmations (i64 (td_confirmations t + 1)) t) tx
        (testWithdrawFullyConfirmed tx expectedClientBalanceAfterWithdraw))).

(** ** Several withdrawals at a time *)
Definition total_amount (amounts : list BTCAmount) : BTCAmount := foldl plus zeroBTC amounts.

Definition withdraw_total (amounts : list BTCAmount) (balanceByNow : BTCAmount) : T BTCAmount :=
  let totalWithdrawAmount := total_amount amounts in
  if decide (totalWithdrawAmount > balanceByNow) then
    Fatalf "Test assumes wallet has enough money for withdrawals, but current balance is %s, and total withdraw is %s"
  else mret (minus balanceByNow totalWithdrawAmount).

Definition check_new_withdraw_among (httpNotifications wsNotifications : list TxNotification) (l : nat)
    : T unit :=
  tx ← td_load l;
  n ← findNotificationForTxOrFail httpNotifications tx;
  checkNotificationFieldsForNewClientWithdraw n tx ;;
  td_update l (set_td_hash (tx_Hash (nt n))) ;;
  tx ← td_load l;
  wsN ← findNotificationForTxOrFail wsNotifications tx;
  checkNotificationFieldsForNewClientWithdraw wsN tx.

Definition testWithdrawMultipleSimultaneous (addresses : list string) (amounts : list BTCAmount)
    (useDifferentAddresses : bool) : T unit :=
  balanceByNow ← getStableBalanceOrFail;
  let nWithdrawals := length amounts in
  balanceAfterWithdraw ← withdraw_total amounts balanceByNow;
  withdrawals ← t_mapM (fun i =>
    address ← t_index addresses (if useDifferentAddresses then i else 0);
    amount ← t_index amounts i;
    testMakeWithdraw address amount initialTestMetainfo) (zrange 0 (Z.of_nat nWithdrawals - 1));
  runSubtest "NewTransactions" (
    '(httpNotifications, wsNotifications) ← collectNotifications NewOutgoingTxEvent nWithdrawals;
    t_forM withdrawals (check_new_withdraw_among httpNotifications wsNotifications) ;;
    checkBalance balanceAfterWithdraw balanceAfterWithdraw) ;;
  collection_mineOrFail withdrawals ;;
  runSubtest "ConfirmedTxns" (
    '(httpNotifications, wsNotifications) ← collectNotifications OutgoingTxConfirmedEvent nWithdrawals;
    t_forM withdrawals (check_confirmed_among checkNotificationFieldsForFullyConfirmedClientWithdraw
                          httpNotifications wsNotifications) ;;
    checkBalance balanceAfterWithdraw balanceAfterWithdraw).

Definition check_older_withdraw (cbNotifications : list TxNotification)
    (wsEvents : list NotificationWithSeq) (txOlder : nat) : T unit :=
  tx ← td_load txOlder;
  notification ← findNotificationForTxOrFail cbNotifications tx;
  checkNotificationFieldsForFullyConfirmedClientWithdraw notification tx ;;
  event ← findEventWithTypeOrFail wsEvents OutgoingTxConfirmedEvent;
  data ← as_notification (ns_Data event);
  checkNotificationFieldsForFullyConfirmedClientWithdraw data tx.

Definition check_younger_withdraw (cbNotifications : list TxNotification)
    (wsEvents : list NotificationWithSeq) (txYounger : nat) : T unit :=
  tx ← td_load txYounger;
  notification ← findNotificationForTxOrFail cbNotifications tx;
  td_update txYounger (set_td_hash (tx_Hash (nt notification))) ;;
  tx ← td_load txYounger;
  checkNotificationFieldsForNewClientWithdraw notification tx ;;
  event ← findEventWithTypeOrFail wsEvents NewOutgoingTxEvent;
  eventData ← as_notification (ns_Data event);
  expect_eq "Expected tx id from cb and ws notification to be equal, but they are %s %s"
    (tx_ID (nt eventData)) (td_id tx) ;;
  checkNotificationFieldsForNewClientWithdraw eventData tx.

Fixpoint interleaved_withdrawals (addresses : list string) (amounts : list BTCAmount)
    (useDifferentAddresses : bool) (rounds : list Z) (txOlder : option nat) : T (option nat) :=
  match rounds with
  | [] => mret txOlder
  | i :: rounds =>
      (match txOlder with Some l => mineOrFail l | None => mret tt end) ;;
      address ← t_index addresses (if useDifferentAddresses then i else 0);
      amount ← t_index amounts i;
      txYounger ← testMakeWithdraw address amount initialTestMetainfo;
      '(cbNotifications, wsEvents) ←
        collectNotificationsAndEvents (match txOlder with Some _ => 2 | None => 1 end);
      (match txOlder with
       | Some l => check_older_withdraw cbNotifications wsEvents l
       | None => mret tt
       end) ;;
      check_younger_withdraw cbNotifications wsEvents txYounger ;;
      interleaved_withdrawals addresses amounts useDifferentAddresses rounds (Some txYounger)
  end.

Definition testWithdrawMultipleInterleaved (addresses : list string) (amounts : list BTCAmount)
    (useDifferentAddresses : bool) : T unit :=
  balanceByNow ← getStableBalanceOrFail;
  let nWithdrawals := length amounts in
  balanceAfterWithdraw ← withdraw_total amounts balanceByNow;
  txOlder ← interleaved_withdrawals addresses amounts useDifferentAddresses
              (zrange 0 (Z.of_nat nWithdrawals - 1)) None;
  txOlder ← t_deref txOlder;
  mineOrFail txOlder ;;
  '(cbNotifications, wsEvents) ← collectNotificationsAndEvents 1;
  check_older_withdraw cbNotifications wsEvents txOlder ;;
  checkBalance balanceAfterWithdraw balanceAfterWithdraw.

Definition testWithdrawMultiple : T unit :=
  made ← t_mapM (fun i =>
    unit ← btc "0.01";
    address ← getNewAddressForWithdrawOrFail;
    mret (u64 (i * unit), address)) (zrange 1 3);
  let amounts := made.*1 in
  let addresses := made.*2 in
  t_forM (os_map_order address_tests) (fun '(testName, useDifferentAddresses) =>
    runSubtest testName (
      runSubtest "Simultaneous" (testWithdrawMultipleSimultaneous addresses amounts useDifferentAddresses) ;;
      runSubtest "Interleaved" (testWithdrawMultipleInterleaved addresses amounts useDifferentAddresses))).

(** ** Withdrawals to the cold storage *)
Definition cold_storage_balance : T (BalanceInfo + error) :=
  n ← node_api coldStorageContainerName; GetNodeBalance n.

(** The withdrawal of [withdrawAmount], and its arrival at the cold storage node *)
Definition withdraw_to_cold_storage_and_mine (req : WithdrawRequest) (defaultCSAddress : string)
    (balance oldColdBalance : BTCAmount) : T unit :=
  resp ← or_fatal "Failed to perform withdraw to cold storage: %v"
           (processing_call (fun cli => WithdrawToColdStorage cli req));
  checkCSWithdrawRequest resp req defaultCSAddress ;;
  checkBalance (minus balance (wr_Amount req)) (minus balance (wr_Amount req)) ;;
  or_fatal "Mining cold storage withdraw tx failed: %v" MineAnyTx ;;
  let coldStorageIncome := minus (wr_Amount req) (wr_Fee req) in
  checkBalanceBecame cold_storage_balance (plus oldColdBalance coldStorageIncome)
    (plus oldColdBalance coldStorageIncome).

Definition enough_balance : T (BTCAmount * BTCAmount) :=
  balance ← getStableBalanceOrFail;
  withdrawAmount ← btc "1";
  if decide (balance < withdrawAmount)
  then Fatalf "Expected that wallet balance will be >= 1 BTC by now"
  else mret (balance, withdrawAmount).

(** The address of the cold storage in the settings; the settings are changed in place. *)
Definition restart_with_cold_address (csAddress : string) : T unit :=
  l ← first_listener; listener_Stop l ;;
  with_env (set_te_WebsocketListeners []) ;;
  p ← the_processing;
  stopped ← StopProcessing;
  ignore_error (WaitForContainerRemoval (ci_ID p)) ;;
  (match stopped with
   | inr _ => Fatalf "Failed to stop processing for restart: %v"
   | inl _ => mret tt
   end) ;;
  e ← get_env;
  settings ← t_deref (te_ProcessingSettings e);
  let settings := set_ps_AdditionalWalletSettings ("cold_wallet_address: " +:+ csAddress) settings in
  with_env (set_te_ProcessingSettings (Some settings)) ;;
  or_fatal "Failed to start processing: %v" (StartProcessing settings) ;;
  WaitForProcessing.

Definition testWithdrawToColdStorage : T unit :=
  or_fatal "Failed to start cold storage: %v" StartColdStorage ;;
  deferred (ignore_error StopColdStorage) (
    csAddress ← ColdStorageLoadAndGenerateAddress;
    runSubtest "Successful" (
      '(balance, withdrawAmount) ← enough_balance;
      fee ← withdrawFee;
      withdraw_to_cold_storage_and_mine
        (mkWithdrawRequest uuid_Nil csAddress withdrawAmount fee "" JNull) "" balance 0) ;;
    runSubtest "InsufficientFunds" (
      balance ← getStableBalanceOrFail;
      one ← btc "1"; fee ← withdrawFee;
      let withdrawAmountTooBig := plus balance one in
      r ← processing_call (fun cli => WithdrawToColdStorage cli
            (mkWithdrawRequest uuid_Nil csAddress withdrawAmountTooBig fee "" JNull));
      match r with
      | inl _ => Fatalf "Expected that withdrawing more money than we have in wallet to cold storage will raise an error but it did not"
      | inr _ => mret tt
      end) ;;
    l ← first_listener;
    lastSeq ← listener_LastSeq l;
    runSubtest "AddressFromConfig" (
      restart_with_cold_address csAddress ;;
      '(balance, withdrawAmount) ← enough_balance;
      fee ← withdrawFee;
      csBalance ← or_fatal "Failed to request balance from cold storage %v" cold_storage_balance;
      (if decide (bi_Balance csBalance <> bi_BalanceWithUnconf csBalance)
       then Fatalf "Expected cold storage balance to be stable by this momen" else mret tt) ;;
      withdraw_to_cold_storage_and_mine
        (mkWithdrawRequest uuid_Nil "" withdrawAmount fee "" JNull) csAddress balance
        (bi_Balance csBalance)) ;;
    ignore_error (NewWebsocketListener (lastSeq + 1))).

End WithdrawTests.
