(* ===== verification/EventTests.v ===== *)
(** * integrationtests: events, mixed transactions, and the whole tests

    The test functions of event_test_functions.go and
    deposit_and_withdraw_test_functions.go, and the tests of integration_test.go that
    run all of them. *)
From S2P Require Import Prelude.
From S2P Require Import Go.
From S2P Require Import Json.
From S2P Require Import Util.
From S2P Require Import Bitcoin.
From S2P Require Import TxTypes.
From S2P Require Import EventTypes.
From S2P Require Import World.
From S2P Require Import Effects.
From S2P Require Import Rpc.
From S2P Require Import Api.
From S2P Require Import Client.
From S2P Require Import Testing.
From S2P Require Import Harness.
From S2P Require Import Regtest.
From S2P Require Import Processing.
From S2P Require Import Checkers.
From S2P Require Import DepositTests.
From S2P Require Import WithdrawTests.
Local Open Scope Z_scope.

Section EventTests.
Context {D : DecimalLib} {BU : BtcUtil} {U : UuidLib} {R : RpcLib} {L : UrlLib}.
Context {CT : ClientTransport} {OS : Outside} {K : DockerLib}.
(** The most messages that [GetAllNotifications] is followed for *)
Context (fuel : nat).

(** ** deposit_and_withdraw_test_functions.go *)

(** The confirmation of one transaction among those that were collected, after which
    [f] assigns a field *)
Definition check_mixed (check : TxNotification -> txTestData -> T unit)
    (f : TxNotification -> txTestData -> txTestData)
    (cbNotifications eventNotifications : list TxNotification) (l : nat) : T unit :=
  tx ← td_load l;
  n ← findNotificationForTxOrFail cbNotifications tx;
  check n tx ;;
  td_update l (f n) ;;
  tx ← td_load l;
  wsN ← findNotificationForTxOrFail eventNotifications tx;
  check wsN tx.

Definition learn_id (n : TxNotification) : txTestData -> txTestData := set_td_id (tx_ID (nt n)).
Definition learn_hash (n : TxNotification) : txTestData -> txTestData := set_td_hash (tx_Hash (nt n)).

(** A new transaction, found by the callback, and the only event of its kind *)
Definition check_only_new (check : TxNotification -> txTestData -> T unit)
    (f : TxNotification -> txTestData -> txTestData)
    (cbNotifications eventNotifications : list TxNotification) (l : nat) : T unit :=
  tx ← td_load l;
  n ← findNotificationForTxOrFail cbNotifications tx;
  check n tx ;;
  td_update l (f n) ;;
  tx ← td_load l;
  first ← t_index eventNotifications 0;
  check first tx.

Definition check_last_confirmed (check : TxNotification -> txTestData -> T unit) (et : EventType)
    (cbNotifications : list TxNotification) (wsEvents : list NotificationWithSeq) (l : nat) : T unit :=
  tx ← td_load l;
  n ← findNotificationForTxOrFail cbNotifications tx;
  check n tx ;;
  event ← findEventWithTypeOrFail wsEvents et;
  data ← as_notification (ns_Data event);
  check data tx.

Definition testDepositAndWithdrawMultipleMixed (accounts : list Account) : T unit :=
  balanceByNow ← getStableBalanceOrFail;
  account ← t_index accounts 0;
  amount ← btc "0.017";
  deposit0 ← testMakeDeposit (acc_Address account) amount (acc_Metainfo account);
  account ← testGenerateClientWalletWithMetainfo (Some initialTestMetainfo) (-1);
  amount ← btc "0.06";
  deposit1 ← testMakeDeposit (acc_Address account) amount initialTestMetainfo;
  address ← getNewAddressForWithdrawOrFail;
  amount ← btc "0.03";
  withdrawal0 ← testMakeWithdraw address amount initialTestMetainfo;
  address ← getNewAddressForWithdrawOrFail;
  amount ← btc "0.0095";
  withdrawal1 ← testMakeWithdraw address amount initialTestMetainfo;
  let deposits := [deposit0; deposit1] in
  let withdrawals := [withdrawal0; withdrawal1] in
  '(cbNotifications, wsEvents) ← collectNotificationsAndEvents 4;
  depositEvents ← findAllWsNotificationsWithTypeOrFail wsEvents NewIncomingTxEvent 2;
  withdrawEvents ← findAllWsNotificationsWithTypeOrFail wsEvents NewOutgoingTxEvent 2;
  t_forM deposits (check_mixed checkNotificationFieldsForNewDeposit learn_id cbNotifications depositEvents) ;;
  t_forM withdrawals (check_mixed checkNotificationFieldsForNewClientWithdraw learn_hash
                        cbNotifications withdrawEvents) ;;
  collection_mineOrFail (deposits ++ withdrawals) ;;
  td ← td_load deposit1;
  amount ← btc "0.033";
  newDeposit ← testMakeDeposit (td_address td) amount (td_metainfo td);
  td ← td_load withdrawal0;
  amount ← btc "0.0278";
  newWithdraw ← testMakeWithdraw (td_address td) amount JNull;
  '(cbNotifications, wsEvents) ← collectNotificationsAndEvents 6;
  confirmedDeposits ← findAllWsNotificationsWithTypeOrFail wsEvents IncomingTxConfirmedEvent 2;
  confirmedWithdrawals ← findAllWsNotificationsWithTypeOrFail wsEvents OutgoingTxConfirmedEvent 2;
  t_forM deposits (check_mixed checkNotificationFieldsForFullyConfirmedDeposit learn_id
                     cbNotifications confirmedDeposits) ;;
  t_forM withdrawals (check_mixed checkNotificationFieldsForFullyConfirmedClientWithdraw learn_hash
                        cbNotifications confirmedWithdrawals) ;;
  newDeposits ← findAllWsNotificationsWithTypeOrFail wsEvents NewIncomingTxEvent 1;
  newWithdrawals ← findAllWsNotificationsWithTypeOrFail wsEvents NewOutgoingTxEvent 1;
  check_only_new checkNotificationFieldsForNewDeposit learn_id cbNotifications newDeposits newDeposit ;;
  check_only_new checkNotificationFieldsForNewClientWithdraw learn_hash cbNotifications newWithdrawals
    newWithdraw ;;
  (* unconfirmed withdrawals are subtracted from the confirmed balance by the node *)
  confirmed ← btc "0.0097"; all ← btc "0.0427";
  let balanceAfterAllTxns := plus balanceByNow all in
  checkBalance (plus balanceByNow confirmed) balanceAfterAllTxns ;;
  collection_mineOrFail [newDeposit; newWithdraw] ;;
  '(cbNotifications, wsEvents) ← collectNotificationsAndEvents 2;
  check_last_confirmed checkNotificationFieldsForFullyConfirmedDeposit IncomingTxConfirmedEvent
    cbNotifications wsEvents newDeposit ;;
  check_last_confirmed checkNotificationFieldsForFullyConfirmedClientWithdraw OutgoingTxConfirmedEvent
    cbNotifications wsEvents newWithdraw ;;
  checkBalance balanceAfterAllTxns balanceAfterAllTxns.

(** ** event_test_functions.go: events that happen while the server is down *)

(** The map from hashes to the notifications of deposits, and the withdrawal's, nil when
    it did not come *)
Definition Missed : Type := list (string * list TxNotification) * option TxNotification.

Definition notifications_of (hash : string) (m : list (string * list TxNotification))
    : list TxNotification := default [] (node_lookup hash m).

Definition add_notification (hash : string) (n : TxNotification) (m : list (string * list TxNotification))
    : list (string * list TxNotification) := map_set hash (notifications_of hash m ++ [n]) m.

Definition testNotificationsAboutMissedEvents (deposits : list nat) (withdraw : nat) (missed : Missed)
    : T unit :=
  let '(depositNotifications, withdrawNotification) := missed in
  t_forM deposits (fun l =>
    tx ← td_load l;
    match notifications_of (td_hash tx) depositNotifications with
    | [n0; n1] =>
        (if decide (tn_StatusCode n0 <> 0 \/ tn_StatusStr n0 <> Status_String NewTransaction)
         then Fatalf "Notification order error: expected notification about new tx to come before notification about confirmatios"
         else mret tt) ;;
        checkNotificationFieldsForNewDeposit n0 tx ;;
        td_update l (set_td_id (tx_ID (nt n0))) ;;
        tx ← td_load l;
        checkNotificationFieldsForFullyConfirmedDeposit n1 tx
    | _ => Fatalf "Expected 2 notifications about a deposit to arrive: 1 about new tx and 1 about confirmation. instead got %d"
    end) ;;
  n ← t_deref withdrawNotification;
  tx ← td_load withdraw;
  checkNotificationFieldsForFullyConfirmedClientWithdraw n tx.

(** The five callbacks; a withdrawal's hash is looked at first. *)
Fixpoint collect_missed (n : nat) (withdrawHash hash0 hash1 : string) (maxSeq : nat) (missed : Missed)
    : T Missed :=
  match n with
  | O => mret missed
  | S n =>
      httpNotification ← next_notification;
      seq ← var_get maxSeq;
      var_set maxSeq (Max seq (tn_Seq httpNotification)) ;;
      let hash := tx_Hash (nt httpNotification) in
      missed ← (
        if decide (hash = withdrawHash) then
          expect (match missed.2 with None => true | Some _ => false end)
            "Expected only 1 notification for withdraw tx, got more" ;;
          mret (missed.1, Some httpNotification)
        else if decide (hash = hash0 \/ hash = hash1) then
          mret (add_notification hash httpNotification missed.1, missed.2)
        else Errorf "Unexpected notification for tx %s" ;; mret missed);
      collect_missed n withdrawHash hash0 hash1 maxSeq missed
  end.

(** What one websocket event adds *)
Definition missed_event (ev : NotificationWithSeq) (missed : Missed) : T Missed :=
  data ← as_notification (ns_Data ev);
  let hash := tx_Hash (nt data) in
  match ns_Type ev with
  | OutgoingTxConfirmedEvent => mret (missed.1, Some data)
  | NewIncomingTxEvent =>
      expect (bool_decide (length (notifications_of hash missed.1) = 0%nat))
        "Websocket event order error: expected event about new tx to come before event about confirmation" ;;
      mret (add_notification hash data missed.1, missed.2)
  | IncomingTxConfirmedEvent => mret (add_notification hash data missed.1, missed.2)
  | _ => mret missed
  end.

Fixpoint missed_events (evts : list NotificationWithSeq) (missed : Missed) : T Missed :=
  match evts with
  | [] => mret missed
  | ev :: evts => missed ← missed_event ev missed; missed_events evts missed
  end.

Definition testWebsocketEvents (deposits : list nat) (withdraw : nat) (evts : list NotificationWithSeq)
    : T unit :=
  missed ← missed_events evts ([], None);
  testNotificationsAboutMissedEvents deposits withdraw missed.

(** Messages up to the one with the number [maxSeq] *)
Fixpoint messages_to (fuel : nat) (listener : nat) (maxSeq : Z) (allMessages : list NotificationWithSeq)
    : T (list NotificationWithSeq) :=
  match fuel with
  | O => fun s => (Unfinished, s)
  | S fuel =>
      msg ← GetNextMessageWithTimeout listener;
      let allMessages := allMessages ++ [msg] in
      if decide (ns_Seq msg = maxSeq) then mret allMessages
      else messages_to fuel listener maxSeq allMessages
  end.

(** [l[len(l)-n:]] *)
Definition last_n (n : nat) (l : list NotificationWithSeq) : T (list NotificationWithSeq) :=
  if decide (length l < n)%nat then t_panic "slice bounds out of range"
  else mret (drop (length l - n) l).

Definition or_no_listener (m : T (nat + error)) : T nat :=
  or_fatal "Failed to connect websocket event listener %v" m.

(** Only the first listener is kept. *)
Definition keep_first_listener : T unit :=
  l ← first_listener; with_env (set_te_WebsocketListeners [l]).

Definition stop_extra_listener (listener : nat) : T unit :=
  listener_Stop listener ;; keep_first_listener.

(** *** The deposits and the withdrawal, made around the stop of the server *)
Definition missed_setup (accounts : list Account) : T (nat * list nat) :=
  address ← getNewAddressForWithdrawOrFail;
  amount ← btc "0.088";
  withdraw ← testMakeWithdraw address amount JNull;
  n ← next_notification;
  td ← td_load withdraw;
  (if decide (tx_ID (nt n) <> td_id td)
   then Fatalf "Expected that notification will correspond to tx %s, but got %s" else mret tt) ;;
  td_update withdraw (set_td_hash (tx_Hash (nt n))) ;;
  next_message ;;
  l ← first_listener; listener_Stop l ;;
  with_env (set_te_WebsocketListeners []) ;;
  p ← the_processing;
  ignore_error StopProcessing ;;
  ignore_error (WaitForContainerRemoval (ci_ID p)) ;;
  account0 ← t_index accounts 0;
  amount ← btc "0.041";
  deposit0 ← testMakeDeposit (acc_Address account0) amount (acc_Metainfo account0);
  account1 ← t_index accounts 1;
  amount ← btc "0.96";
  deposit1 ← testMakeDeposit (acc_Address account1) amount (acc_Metainfo account1);
  let deposits := [deposit0; deposit1] in
  collection_mineOrFail (deposits ++ [withdraw]) ;;
  ignore_error StartProcessingWithDefaultSettings ;;
  mret (withdraw, deposits).

Definition testProcessingCatchesMissedEvents (accounts : list Account) : T unit :=
  '(withdraw, deposits) ← missed_setup accounts;
  maxSeqVar ← var_new 0;
  runSubtest "HTTPCallbackNotifications" (
    tdw ← td_load withdraw;
    hashes ← t_mapM (fun l => td ← td_load l; mret (td_hash td)) deposits;
    hash0 ← t_index hashes 0;
    hash1 ← t_index hashes 1;
    missed ← collect_missed 5 (td_hash tdw) hash0 hash1 maxSeqVar ([], None);
    testNotificationsAboutMissedEvents deposits withdraw missed) ;;
  maxSeq ← var_get maxSeqVar;
  runSubtest "WebsocketNotifications" (
    runSubtest "GetAllNotifications" (
      listener ← or_no_listener (NewWebsocketListener 0);
      allMessages ← messages_to fuel listener maxSeq [];
      evts ← last_n 5 allMessages;
      testWebsocketEvents deposits withdraw evts) ;;
    runSubtest "GetOnlyNeededNotifications" (
      listener ← or_no_listener (NewWebsocketListener (maxSeq - 4));
      neededMessages ← t_mapM (fun _ : unit => GetNextMessageWithTimeout listener) (replicate 5 tt);
      newest ← t_deref (last neededMessages);
      (if decide (ns_Seq newest <> maxSeq)
       then Fatalf "Expected last websocket message to have seq %d, instead it is %d" else mret tt) ;;
      testWebsocketEvents deposits withdraw neededMessages ;;
      stop_extra_listener listener)).

(** *** Listeners *)
Definition check_lost_events (lastSeq : Z) (withdraw : nat) (account2 : Account) (deposit1 : nat) : T unit :=
  listener ← NewWebsocketListener (lastSeq + 1);
  listener ← (match listener with inl l => mret l | inr _ => t_panic nil_deref end);
  withdrawEvent ← GetNextMessageWithTimeout listener;
  expect_eq "Unexpected event type: wanted %s, got %s" (ns_Type withdrawEvent) PendingStatusUpdatedEvent ;;
  data ← as_notification (ns_Data withdrawEvent);
  td ← td_load withdraw;
  checkNotificationFieldsForWithdrawPendingManualConfirmation data td ;;
  newAccountEvent ← GetNextMessageWithTimeout listener;
  expect_eq "Unexpected event type for new wallet generation, wanted %s, got %s:"
    (ns_Type newAccountEvent) NewAddressEvent ;;
  newAccountEventData ← as_account (ns_Data newAccountEvent);
  expect_eq "Expected address to be %s, but instead got %s"
    (acc_Address newAccountEventData) (acc_Address account2) ;;
  expect (is_null (acc_Metainfo newAccountEventData)) "Expected metainfo to be nil, but instead got %v" ;;
  deposit1ConfirmedEvent ← GetNextMessageWithTimeout listener;
  expect_eq "Unexpected event type: wanted %s, got %s" (ns_Type deposit1ConfirmedEvent)
    IncomingTxConfirmedEvent ;;
  data ← as_notification (ns_Data deposit1ConfirmedEvent);
  td ← td_load deposit1;
  checkNotificationFieldsForFullyConfirmedDeposit data td.

Definition testGetLostEvents : T unit :=
  l ← first_listener;
  seq ← listener_LastSeq l;
  account1 ← testGenerateClientWalletWithMetainfo (Some initialTestMetainfo) (seq + 1);
  amount ← testDepositAmount;
  deposit1 ← testMakeDeposit (acc_Address account1) amount (acc_Metainfo account1);
  n ← next_notification;
  td_update deposit1 (learn_id n) ;;
  event ← next_message;
  let lastSeq := ns_Seq event in
  expect_eq new_deposit_format (ns_Type event) NewIncomingTxEvent ;;
  data ← as_notification (ns_Data event);
  td ← td_load deposit1;
  checkNotificationFieldsForNewDeposit data td ;;
  l ← first_listener; listener_Stop l ;;
  with_env (set_te_WebsocketListeners []) ;;
  address ← getNewAddressForWithdrawOrFail;
  amount ← btc "0.4";
  withdraw ← testMakeWithdraw address amount JNull;
  next_notification ;;
  account2 ← or_fatal "%v" (processing_call (fun cli => NewWallet_client cli None));
  mineOrFail deposit1 ;;
  next_notification ;;
  check_lost_events lastSeq withdraw account2 deposit1.

(** [reflect.DeepEqual] of two messages about accounts *)
Definition same_account_event (a b : NotificationWithSeq) : T bool :=
  da ← as_account (ns_Data a);
  match ns_Data b with
  | DataAccount db =>
      mret (bool_decide (ns_Type a = ns_Type b) && bool_decide (ns_Seq a = ns_Seq b) &&
            bool_decide (acc_Address da = acc_Address db) &&
            deep_equal (acc_Metainfo da) (acc_Metainfo db))
  | _ => mret false
  end.

(** A new address event of [account] with the number [seq] *)
Definition check_address_event (event : NotificationWithSeq) (seq : Z) (account : Account) : T unit :=
  expect_eq "Expected next notification seqnum be %d, but it is %d" (ns_Seq event) seq ;;
  expect_eq "Unexpected event type for new wallet generation, wanted %s, got %s:"
    (ns_Type event) NewAddressEvent ;;
  data ← as_account (ns_Data event);
  expect_eq "Expected address from WS notification to be equal to address from API response (%s), but instead got %s"
    (acc_Address data) (acc_Address account) ;;
  compareMetainfo (acc_Metainfo data) initialTestMetainfo.

Definition testWebsocketListeners : T unit :=
  runSubtest "ExistingEvents" (
    listener ← or_no_listener (NewWebsocketListener 0);
    GetNextMessageWithTimeout listener ;;
    stop_extra_listener listener) ;;
  runSubtest "GetEventsFromSeq" (
    runSubtest "Sanity" (
      l ← first_listener;
      lastSeq ← listener_LastSeq l;
      let seq := lastSeq - 10 in
      listener ← or_no_listener (NewWebsocketListener seq);
      event ← GetNextMessageWithTimeout listener;
      expect (negb (bool_decide (ns_Seq event < seq)))
        "Expected event requested from seq to have seq >= %d, but received %d" ;;
      stop_extra_listener listener) ;;
    runSubtest "GetLostEvents" testGetLostEvents) ;;
  runSubtest "ParallelListeners" (
    l ← first_listener;
    lastSeq ← listener_LastSeq l;
    let seq := lastSeq + 1 in
    listener1 ← or_no_listener (NewWebsocketListener seq);
    listener2 ← or_no_listener (NewWebsocketListener seq);
    account ← testGenerateClientWalletWithMetainfo (Some initialTestMetainfo) seq;
    event1 ← GetNextMessageWithTimeout listener1;
    event2 ← GetNextMessageWithTimeout listener2;
    check_address_event event1 seq account ;;
    same ← same_account_event event1 event2;
    expect same
      "Expected notifications from 2 websocket listeners to beidentical, but they are %v %v" ;;
    listener_Stop listener1 ;; listener_Stop listener2 ;;
    keep_first_listener).

(** *** /get_events *)
Definition get_events_or_fail (seq : Z) (format emptyFormat : string)
    : T (list (option NotificationWithSeq)) :=
  evts ← or_fatal format (processing_call (fun cli => GetEvents cli seq));
  match default [] evts with
  | [] => Fatalf emptyFormat
  | evts => mret evts
  end.

Definition testGetEvents : T unit :=
  lastSeq ← run_subtest "ExistingEvents" 0 (
    evts ← get_events_or_fail 0 "API call /get_events with seq 0 failed: %v"
             "Expected /get_events call to return some existing events, instead got nothing";
    newest ← t_deref (mjoin (last evts));
    mret (ns_Seq newest));
  runSubtest "GetEventsFromSeq" (
    let seq := lastSeq - 10 in
    evts ← get_events_or_fail seq "API call /get_events with seq %d failed: %v"
             "Expected /get_events call to return some events, instead got nothing";
    first ← t_deref (mjoin (head evts));
    expect (negb (bool_decide (ns_Seq first < seq)))
      "Expected event requested from seq to have seq >= %d, but received %d") ;;
  runSubtest "NewEvent" (
    let seq := lastSeq + 1 in
    account ← testGenerateClientWalletWithMetainfo (Some initialTestMetainfo) seq;
    evts ← get_events_or_fail seq "API call /get_events with seq %d failed: %v"
             "Expected /get_events call to return new event, instead got nothing";
    event ← t_deref (mjoin (head evts));
    check_address_event event seq account).

(** *** A callback that fails three times *)
Definition testHTTPCallbackBackoff (clientAccount : option Account) : T unit :=
  with_env (set_te_CallbackHandler (Some (mkFailingHandler 3))) ;;
  clientAccount ← t_deref clientAccount;
  amount ← btc "0.076";
  deposit ← testMakeDeposit (acc_Address clientAccount) amount (acc_Metainfo clientAccount);
  n ← next_notification;
  learn_new_deposit n deposit ;;
  mineOrFail deposit ;;
  n ← next_notification;
  td ← td_load deposit;
  checkNotificationFieldsForFullyConfirmedDeposit n td ;;
  next_message ;; next_message ;; mret tt.

(** ** integration_test.go *)

(** A new environment with a running server; both are stopped in the end. *)
Definition with_processing (start : T (unit + error)) (test : T unit) : T unit :=
  fee ← depositFee;
  or_fatal "%v" (NewTestEnvironment fee) ;;
  or_fatal "%v" env_Start ;;
  deferred (ignore_error env_Stop) (
    WaitForLoad ;;
    or_fatal "%v" start ;;
    deferred (ignore_error StopProcessing) (WaitForProcessing ;; test)).

Definition TestSmoke : T unit :=
  with_processing StartProcessingWithDefaultSettings (
    or_fatal "%v" (processing_call (fun cli => GetEvents cli 0)) ;; mret tt).

(** A nil account, when its subtest failed, is dereferenced by the subtests that use it. *)
Definition TestCommonUsage : T unit :=
  with_processing StartProcessingWithDefaultSettings (
    or_no_listener (NewWebsocketListener 0) ;;
    runSubtest "InitialCheckBalanceGivesZero" (checkBalance zeroBTC zeroBTC) ;;
    runSubtest "InitialRequiredFromColdStorageGivesZero" (checkRequiredFromColdStorage zeroBTC) ;;
    clientAccount ← run_subtest "GenerateClientWallet" None testGenerateClientWallet;
    runSubtest "Deposit" (a ← t_deref clientAccount; testDeposit (acc_Address a)) ;;
    runSubtest "GetBalanceAfterDeposit" (amount ← testDepositAmount; checkBalance amount amount) ;;
    runSubtest "Withdraw" testWithdraw ;;
    runSubtest "HotWallet" testHotWallet ;;
    accounts ← run_subtest "MultipleAccounts" [] testGenerateMultipleClientWallets;
    runSubtest "MultipleDeposits" (testDepositMultiple accounts) ;;
    runSubtest "MultipleWithdrawals" testWithdrawMultiple ;;
    runSubtest "MultipleDepositsAndWithdrawalsMixed" (testDepositAndWithdrawMultipleMixed accounts) ;;
    runSubtest "MissedEvents" (testProcessingCatchesMissedEvents accounts) ;;
    runSubtest "WebsocketListeners" testWebsocketListeners ;;
    runSubtest "GetEvents" testGetEvents ;;
    runSubtest "HTTPCallbackBackoff" (testHTTPCallbackBackoff clientAccount) ;;
    runSubtest "GetTransactions" (testGetTransactions clientAccount) ;;
    runSubtest "WithdrawToColdStorage" testWithdrawToColdStorage).

Definition TestMoreConfirmations : T unit :=
  with_processing (e ← get_env;
      StartProcessing (set_ps_CallbackURL (te_CallbackURL e) (set_ps_MaxConfirmations 4 DefaultSettings))) (
    or_no_listener (NewWebsocketListener 0) ;;
    clientWallet ← processing_call (fun cli => NewWallet_client cli None);
    next_message ;;
    runSubtest "Deposit" (
      match clientWallet with
      | inl a => testDepositSeveralConfirmations (acc_Address a) 4
      | inr _ => t_panic nil_deref
      end) ;;
    runSubtest "GetBalanceAfterDeposit" (amount ← testDepositAmount; checkBalance amount amount) ;;
    runSubtest "Withdraw" (testWithdrawSeveralConfirmations 4)).

Definition TestMultipleExits : T unit :=
  with_processing StartProcessingWithDefaultSettings (
    or_no_listener (NewWebsocketListener 0) ;;
    accounts ← testGenerateMultipleClientWallets;
    testDepositSingleBitcoinTxWithMultipleExists accounts).

End EventTests.
