(* ===== verification/Tools.v ===== *)
(** * tools: the racer and the auto-paying proxy; settings/testutil

    tools/racer.go loads a processing server with concurrent requests; its goroutines
    share two pools of addresses. tools/regtest/auto-paying-proxy.go stands between the
    wallet and its node and pays 2 BTC to each new address. Running a command, HTTP and
    random choices are parameters. *)
From Stdlib Require Import Ascii.
From S2P Require Import Prelude.
From S2P Require Import Go.
From S2P Require Import Json.
From S2P Require Import Bitcoin.
From S2P Require Import TxTypes.
From S2P Require Import EventTypes.
From S2P Require Import World.
From S2P Require Import Effects.
From S2P Require Import Withdraw.
From S2P Require Import Rpc.
From S2P Require Import Settings.
From S2P Require Import Api.
From S2P Require Import Client.
Local Open Scope Z_scope.

(** ** tools/racer.go *)

(** The two slices, each behind its mutex: an operation on one is one step. *)
Record Pools := mkPools { accounts : list string; clientAddresses : list string }.

(** [exec.Command(args).Output()]: the output, and an error that is an [*exec.ExitError]
    ([true]) or another one, as when the command was not found *)
Class ExecLib := { exec_Output : list string -> M (string * option bool) }.

(** [s[len(s)-1]] and [s[:len(s)-1]] *)
Definition pop_last (l : list string) : option (string * list string) :=
  match reverse l with [] => None | x :: rest => Some (x, reverse rest) end.

Definition getAccountAddress (p : Pools) : string * Pools :=
  match pop_last (accounts p) with
  | None => ("", p)
  | Some (res, rest) => (res, mkPools rest (clientAddresses p))
  end.

Definition getClientAddress (p : Pools) : string * Pools :=
  match pop_last (clientAddresses p) with
  | None => ("", p)
  | Some (res, rest) => (res, mkPools (accounts p) rest)
  end.

Definition addAccountAddress (address : string) (p : Pools) : Pools :=
  mkPools (accounts p ++ [address]) (clientAddresses p).
Definition addClientAddress (address : string) (p : Pools) : Pools :=
  mkPools (accounts p) (clientAddresses p ++ [address]).

(** [strings.TrimSpace] on ASCII *)
Fixpoint trim_left (s : string) : string :=
  match s with
  | String c s' => if is_space c then trim_left s' else s
  | EmptyString => ""
  end.
Fixpoint trim_right (s : string) : string :=
  match s with
  | String c s' => match trim_right s' with
                   | EmptyString => if is_space c then "" else String c ""
                   | t => String c t
                   end
  | EmptyString => ""
  end.
Definition TrimSpace (s : string) : string := trim_right (trim_left s).

Definition bitcoin_cli (args : list string) : list string :=
  ["docker"; "exec"; "regtest_node3_1"; "bitcoin-cli"; "-regtest"] ++ args.

Section Racer.
Context {D : DecimalLib} {U : UuidLib} {L : UrlLib} {CT : ClientTransport} {X : ExecLib}.
Context (c : Client).

(** The error is asserted to be an [*exec.ExitError] for the log. *)
Definition run_command (args : list string) : M string :=
  '(out, err) ← exec_Output (bitcoin_cli args);
  match err with
  | Some false => panic "interface conversion: error is *exec.Error, not *exec.ExitError"
  | _ => mret out
  end.

(** An action is a sequence of parts, between which other goroutines run: what it takes
    from a pool, its calls, and what it puts into a pool. The state of a goroutine: *)
Inductive Action :=
| Idle
| StoringWallet (address : string)                             (* makeAndStoreWallet *)
| Withdrawing (address : string) (addrWasCreated : bool)       (* makeWithdraw *)
| Depositing (accountAddr : string) (addrWasCreated : bool).   (* makeDeposit *)

Definition makeWallet : M string :=
  r ← try (NewWallet_client c (Some (JObj [("Test", JStr "123")])));
  mret (match r with inl w => acc_Address w | inr _ => "" end).

Definition makeClientAddress : M string :=
  out ← run_command ["getnewaddress"]; mret (TrimSpace out).

(** The first part, with the pool operation that starts the action *)
Definition start_withdraw (p : Pools) : M (Action * Pools) :=
  let '(addr, p) := getClientAddress p in
  if decide (addr <> "") then mret (Withdrawing addr false, p)
  else
    addr ← makeClientAddress;
    mret (if decide (addr = "") then Idle else Withdrawing addr true, p).

Definition start_deposit (p : Pools) : M (Action * Pools) :=
  let '(accountAddr, p) := getAccountAddress p in
  if decide (accountAddr <> "") then mret (Depositing accountAddr false, p)
  else
    accountAddr ← makeWallet;
    mret (if decide (accountAddr = "") then Idle else Depositing accountAddr true, p).

(** [log.Fatalf] on a constant that is not an amount *)
Definition constant_amount (s : string) : M BTCAmount :=
  match BTCAmountFromStringedFloat s with Ok a => mret a | _ => panic "os.Exit(1)" end.

(** The calls of the middle part; their results are only logged. *)
Definition request_withdraw (addr : string) : M unit :=
  amount ← constant_amount "0.24";
  fee ← constant_amount "0.0003";
  try (Withdraw_client c (mkWithdrawRequest uuid_Nil addr amount fee "" JNull)) ;; mret tt.

Definition send_deposit (accountAddr : string) : M unit :=
  run_command ["sendtoaddress"; accountAddr; "0.4"] ;; mret tt.

Definition genBlocks : M unit := run_command ["generate"; "2"] ;; mret tt.

(** The last part: an address that was made by the action goes to its pool. *)
Definition finish (a : Action) (p : Pools) : Pools :=
  match a with
  | StoringWallet address => if decide (address <> "") then addAccountAddress address p else p
  | Withdrawing addr true => addClientAddress addr p
  | Depositing addr true => addAccountAddress addr p
  | _ => p
  end.

(** The four actions, run by one goroutine alone *)
Definition makeAndStoreWallet (p : Pools) : M Pools :=
  address ← makeWallet; mret (finish (StoringWallet address) p).

Definition makeWithdraw (p : Pools) : M Pools :=
  '(a, p) ← start_withdraw p;
  match a with
  | Withdrawing addr _ => request_withdraw addr ;; mret (finish a p)
  | _ => mret p
  end.

Definition makeDeposit (p : Pools) : M Pools :=
  '(a, p) ← start_deposit p;
  match a with
  | Depositing addr _ => send_deposit addr ;; mret (finish a p)
  | _ => mret p
  end.

Definition actions : list (Pools -> M Pools) :=
  [makeAndStoreWallet; makeDeposit; makeWithdraw; (fun p => genBlocks ;; mret p)].

(** [race] for the choices that were drawn *)
Fixpoint race (choices : list nat) (p : Pools) : M Pools :=
  match choices with
  | [] => mret p
  | i :: choices =>
      p ← (match actions !! (i mod length actions)%nat with Some action => action p | None => mret p end);
      race choices p
  end.

End Racer.

(** [PersistentPreRun]: the URL of the server *)
Definition racer_apiURL (address : string) : string :=
  match strip "http" address with Some _ => address | None => "http://" +:+ address end.

(** *** The goroutines beside each other
    A step of one goroutine is one part of its action; addresses that are made are new,
    which is what a node promises. Between finding a pool empty and having made an
    address for it, other goroutines may have filled the pool. *)
Section Racing.

(** The addresses of the pools and of the goroutines' actions *)
Definition held (a : Action) : list string :=
  match a with
  | Idle => []
  | StoringWallet s => if decide (s = "") then [] else [s]
  | Withdrawing s _ | Depositing s _ => [s]
  end.

Definition in_use (goroutines : list Action) (p : Pools) : list string :=
  accounts p ++ clientAddresses p ++ (goroutines ≫= held).

(** In [step_wallet] the address is "" when the call failed. *)
Inductive racer_step : list Action * Pools -> list Action * Pools -> Prop :=
| step_wallet i gs p address :
    gs !! i = Some Idle -> (address <> "" -> address ∉ in_use gs p) ->
    racer_step (gs, p) (<[i := StoringWallet address]> gs, p)
| step_take_client i gs p addr p' :
    gs !! i = Some Idle -> getClientAddress p = (addr, p') -> addr <> "" ->
    racer_step (gs, p) (<[i := Withdrawing addr false]> gs, p')
| step_make_client i gs p addr :
    gs !! i = Some Idle -> addr <> "" -> addr ∉ in_use gs p ->
    racer_step (gs, p) (<[i := Withdrawing addr true]> gs, p)
| step_take_account i gs p addr p' :
    gs !! i = Some Idle -> getAccountAddress p = (addr, p') -> addr <> "" ->
    racer_step (gs, p) (<[i := Depositing addr false]> gs, p')
| step_make_account i gs p addr :
    gs !! i = Some Idle -> addr <> "" -> addr ∉ in_use gs p ->
    racer_step (gs, p) (<[i := Depositing addr true]> gs, p)
| step_finish i gs p a :
    gs !! i = Some a -> racer_step (gs, p) (<[i := Idle]> gs, finish a p).

Inductive racer_reach (n : nat) : list Action * Pools -> Prop :=
| racer_init : racer_reach n (replicate n Idle, mkPools [] [])
| racer_more s s' : racer_reach n s -> racer_step s s' -> racer_reach n s'.

End Racing.

(** ** tools/regtest/auto-paying-proxy.go *)

(** A body: what reading it gives; [None] is a nil body *)
Record HttpMessage := mkHttpMessage { hm_body : option (outcome string); hm_authorization : string }.

Class ProxyLib := {
  http_RoundTrip : HttpMessage -> M HttpMessage;               (* http.DefaultTransport *)
  http_Do : string -> string -> string -> M (outcome string);  (* url, body, authorization: the body *)
}.

Section Proxy.
Context {P : ProxyLib}.
Variable payingNodeAddr : string.

Definition bitcoindRequest_UnmarshalJSON (j : json) : outcome string :=
  is_struct j ;; unmarshal_string (struct_field "Method" j).

Definition unmarshal_node_error (j : json) : outcome (Z * string) :=
  is_struct j ;;
  code ← unmarshal_int (struct_field "Code" j);
  message ← unmarshal_string (struct_field "Message" j);
  Ok (code, message).

Definition bitcoindResponse_UnmarshalJSON (j : json) : outcome (string * option (Z * string)) :=
  is_struct j ;;
  result ← unmarshal_string (struct_field "Result" j);
  error ← unmarshal_ptr unmarshal_node_error (struct_field "Error" j);
  Ok (result, error).

Definition unmarshal_text {A} (dec : json -> outcome A) (text : string) : outcome A :=
  j ← of_option ErrJSON (parse_json text); dec j.

(** The payment: its failures are only logged. *)
Definition addMoneyToWalletAfterDelay (address authorization : string) : M unit :=
  log_act (ASleep 1) ;;
  let requestBody := json_text (JObj [("method", JStr "sendtoaddress");
                                      ("params", JArr [JStr address; JNum "2"])]) in
  try (http_Do ("http://" +:+ payingNodeAddr) requestBody authorization) ;; mret tt.

(** What [RoundTrip] returns, and the payment that it starts in another goroutine *)
Definition RoundTrip (req : HttpMessage) : M (HttpMessage * option (string * string)) :=
  '(isGetNewAddress, authorization, req) ← (
    match hm_body req with
    | None => mret (false, "", req)
    | Some body =>
        bodyBytes ← lift body;
        let req := mkHttpMessage (Some (Ok bodyBytes)) (hm_authorization req) in
        method ← lift (unmarshal_text bitcoindRequest_UnmarshalJSON bodyBytes);
        if decide (method = "getnewaddress") then mret (true, hm_authorization req, req)
        else mret (false, "", req)
    end);
  res ← http_RoundTrip req;
  if negb isGetNewAddress then mret (res, None)
  else
    match hm_body res with
    | None => mret (res, None)
    | Some body =>
        bodyBytes ← lift body;
        let res := mkHttpMessage (Some (Ok bodyBytes)) (hm_authorization res) in
        match unmarshal_text bitcoindResponse_UnmarshalJSON bodyBytes with
        | Ok (address, None) => mret (res, Some (address, authorization))
        | Panic p => panic p
        | _ => mret (res, None)
        end
    end.

End Proxy.

(** ** settings/testutil/settings_mock.go *)

(** The values that the tests put into [Data] *)
Inductive MockValue :=
| MockString (s : string) | MockInt (z : Z) | MockAmount (a : BTCAmount) | MockOther.

Record SettingsMock := mkSettingsMock { Data : gmap string MockValue }.

Definition mock_GetString (s : SettingsMock) (key : string) : string :=
  match Data s !! key with Some (MockString st) => st | _ => "" end.
Definition mock_GetStringMandatory (s : SettingsMock) (key : string) : string :=
  match Data s !! key with Some (MockString st) => st | _ => "" end.
Definition mock_GetInt (s : SettingsMock) (key : string) : Z :=
  match Data s !! key with Some (MockInt i) => i | _ => 0 end.
Definition mock_GetBTCAmount (s : SettingsMock) (key : string) : BTCAmount :=
  match Data s !! key with Some (MockAmount a) => a | _ => 0 end.
