(* ===== verification/PgMitm.v ===== *)
(** * integrationtests/testenv/pgmitm: the proxy between the server and its database

    A connection has two loops that relay messages, one for each direction; the tests'
    handlers see each message before it goes on, and can shut the connection down to
    make it fail. The loops run beside each other: a step of one is the receiving of a
    message, or its sending. The pgproto3 library and the sockets are parameters: what a
    loop receives and whether a sending succeeds are the choices of the steps. *)
From S2P Require Import Prelude.
From S2P Require Import Go.
Local Open Scope Z_scope.

(** ** integrationtests/util/atomicflag.go *)
Section AtomicFlag.

(** An [int32] that is 0 or 1 *)
Definition flag_Get (af : Z) : bool := bool_decide (af = 1).
Definition flag_Set (val : bool) (af : Z) : Z := if val then 1 else 0.

(** [SetIf]: a compare and swap, and whether it swapped *)
Definition flag_SetIf (old new : bool) (af : Z) : bool * Z :=
  let o := if old then 1 else 0 in
  let n := if new then 1 else 0 in
  if decide (af = o) then (true, n) else (false, af).

Lemma flag_Get_Set val af : flag_Get (flag_Set val af) = val.
Proof. by destruct val. Qed.

End AtomicFlag.

(** ** connection.go *)

(** Where a loop is: it waits for a message, it has run the handlers on one, it has
    returned, or it has panicked. *)
Inductive Loop (A : Type) := Receiving | Handled (msg : A) | Returned | Crashed.
Arguments Receiving {A}.
Arguments Handled {A} msg.
Arguments Returned {A}.
Arguments Crashed {A}.

(** What [Receive] returns *)
Inductive Received (A : Type) := GotMessage (msg : A) | GotEOF | GotError.
Arguments GotMessage {A} msg.
Arguments GotEOF {A}.
Arguments GotError {A}.

Section PgMitm.
(** The messages of the two directions; [is_Terminate] is the type test of the client's. *)
Context {FrontendMessage BackendMessage : Type} (is_Terminate : FrontendMessage -> bool).

(** A connection: the flag, whether the write sides are closed, the loops, and what each
    has received, shown to the handlers and sent on, oldest first. [c2s_started] is
    false until the startup message was relayed. *)
Record Connection := mkConnection {
  exiting : Z;
  client_closed : bool;                 (* CloseWrite of the client's connection *)
  server_closed : bool;
  c2s_started : bool;
  c2s : Loop FrontendMessage;
  c2s_received : list FrontendMessage;
  c2s_handled : list FrontendMessage;
  c2s_sent : list FrontendMessage;
  s2c : Loop BackendMessage;
  s2c_received : list BackendMessage;
  s2c_handled : list BackendMessage;
  s2c_sent : list BackendMessage;
}.

Definition new_connection : Connection :=
  mkConnection 0 false false false Receiving [] [] [] Receiving [] [] [].

Implicit Type c : Connection.

Definition set_exiting v c := mkConnection v (client_closed c) (server_closed c) (c2s_started c)
  (c2s c) (c2s_received c) (c2s_handled c) (c2s_sent c)
  (s2c c) (s2c_received c) (s2c_handled c) (s2c_sent c).
Definition close_writes (client server : bool) c :=
  mkConnection (exiting c) (client_closed c || client) (server_closed c || server) (c2s_started c)
    (c2s c) (c2s_received c) (c2s_handled c) (c2s_sent c)
    (s2c c) (s2c_received c) (s2c_handled c) (s2c_sent c).
Definition set_c2s v c := mkConnection (exiting c) (client_closed c) (server_closed c) (c2s_started c)
  v (c2s_received c) (c2s_handled c) (c2s_sent c)
  (s2c c) (s2c_received c) (s2c_handled c) (s2c_sent c).
Definition set_s2c v c := mkConnection (exiting c) (client_closed c) (server_closed c) (c2s_started c)
  (c2s c) (c2s_received c) (c2s_handled c) (c2s_sent c)
  v (s2c_received c) (s2c_handled c) (s2c_sent c).
Definition set_started c := mkConnection (exiting c) (client_closed c) (server_closed c) true
  (c2s c) (c2s_received c) (c2s_handled c) (c2s_sent c)
  (s2c c) (s2c_received c) (s2c_handled c) (s2c_sent c).

(** [Shutdown] *)
Definition conn_Shutdown c : Connection :=
  let '(wasNotShuttingDownAlready, flag) := flag_SetIf false true (exiting c) in
  let c := set_exiting flag c in
  if wasNotShuttingDownAlready then close_writes true true c else c.

(** *** proxyClientToServer *)

(** The startup message, relayed before the loop; an error panics. *)
Definition c2s_startup (ok : bool) c : Connection :=
  if ok then set_started c else set_c2s Crashed c.

Definition log_c2s (msg : FrontendMessage) c : Connection :=
  mkConnection (exiting c) (client_closed c) (server_closed c) (c2s_started c)
    (Handled msg) (c2s_received c ++ [msg]) (c2s_handled c ++ [msg]) (c2s_sent c)
    (s2c c) (s2c_received c) (s2c_handled c) (s2c_sent c).

(** One [Receive] and what follows it up to the handlers; [handlers] is what they do to
    the connection. *)
Definition c2s_receive (r : Received FrontendMessage) (handlers : Connection -> Connection) c
    : Connection :=
  match r with
  | GotMessage msg =>
      let c := if is_Terminate msg then set_exiting (flag_Set true (exiting c)) c else c in
      handlers (log_c2s msg c)
  | GotEOF =>
      if flag_Get (exiting c) then set_c2s Returned c
      else
        let c := set_exiting (flag_Set true (exiting c)) c in
        set_c2s Returned (close_writes false true c)
  | GotError => set_c2s Crashed c
  end.

Definition sent_c2s (msg : FrontendMessage) c : Connection :=
  mkConnection (exiting c) (client_closed c) (server_closed c) (c2s_started c)
    Receiving (c2s_received c) (c2s_handled c) (c2s_sent c ++ [msg])
    (s2c c) (s2c_received c) (s2c_handled c) (s2c_sent c).

(** [c.frontend.Send(msg)]: a failure is passed over once the connection is exiting. *)
Definition c2s_send (msg : FrontendMessage) (ok : bool) c : Connection :=
  if ok then sent_c2s msg c
  else if flag_Get (exiting c) then set_c2s Receiving c else set_c2s Crashed c.

(** *** proxyServerToClient *)
Definition log_s2c (msg : BackendMessage) c : Connection :=
  mkConnection (exiting c) (client_closed c) (server_closed c) (c2s_started c)
    (c2s c) (c2s_received c) (c2s_handled c) (c2s_sent c)
    (Handled msg) (s2c_received c ++ [msg]) (s2c_handled c ++ [msg]) (s2c_sent c).

Definition s2c_receive (r : Received BackendMessage) (handlers : Connection -> Connection) c
    : Connection :=
  match r with
  | GotMessage msg => handlers (log_s2c msg c)
  | GotEOF =>
      if flag_Get (exiting c) then set_s2c Returned c
      else
        let c := set_exiting (flag_Set true (exiting c)) c in
        set_s2c Returned (close_writes true false c)
  | GotError => set_s2c Crashed c
  end.

Definition sent_s2c (msg : BackendMessage) c : Connection :=
  mkConnection (exiting c) (client_closed c) (server_closed c) (c2s_started c)
    (c2s c) (c2s_received c) (c2s_handled c) (c2s_sent c)
    Receiving (s2c_received c) (s2c_handled c) (s2c_sent c ++ [msg]).

Definition s2c_send (msg : BackendMessage) (ok : bool) c : Connection :=
  if ok then sent_s2c msg c
  else if flag_Get (exiting c) then set_s2c Receiving c else set_s2c Crashed c.

(** *** The two loops beside each other, and [Shutdown] from elsewhere
    A handler leaves the connection alone or shuts it down. *)
Definition run_handlers (shut : bool) : Connection -> Connection :=
  if shut then conn_Shutdown else id.

Inductive conn_step : Connection -> Connection -> Prop :=
| cs_startup c ok :
    c2s c = Receiving -> c2s_started c = false -> conn_step c (c2s_startup ok c)
| cs_receive c r shut :
    c2s c = Receiving -> c2s_started c = true -> conn_step c (c2s_receive r (run_handlers shut) c)
| cs_send c msg ok : c2s c = Handled msg -> conn_step c (c2s_send msg ok c)
| sc_receive c r shut : s2c c = Receiving -> conn_step c (s2c_receive r (run_handlers shut) c)
| sc_send c msg ok : s2c c = Handled msg -> conn_step c (s2c_send msg ok c)
| shutdown c : conn_step c (conn_Shutdown c).

Definition reaches : Connection -> Connection -> Prop := rtc conn_step.

(** ** pgmitm.go
    The connections of the proxy by number; a number that is done is removed. *)
Record PgMITM := mkPgMITM {
  UpstreamAddr : string;
  AllowUpstreamConnFailure : bool;
  connections : gmap nat Connection;
  shuttingDown : Z;
  listener_closed : bool;
}.

Definition NewPgMITM (upstreamAddr : string) (allowUpstreamConnFailure : bool) : outcome PgMITM :=
  if decide (upstreamAddr = "") then Err (ErrMsg "UpstreamAddr can't be empty")
  else Ok (mkPgMITM upstreamAddr allowUpstreamConnFailure ∅ 0 false).

(** What [Accept] returns in [handleConnections]: the loop goes on, ends or panics. *)
Inductive accepted := AcceptConn | AcceptOpError | AcceptOtherError.

Definition handle_accept (a : accepted) (p : PgMITM) : outcome bool :=
  match a with
  | AcceptConn => Ok true
  | AcceptOpError => if flag_Get (shuttingDown p) then Ok false else Panic "accept"
  | AcceptOtherError => Panic "accept"
  end.

(** [runProxyConnection] up to the start of the loops *)
Definition add_connection (id : nat) (dial_ok : bool) (p : PgMITM) : outcome PgMITM :=
  if dial_ok then
    Ok (mkPgMITM (UpstreamAddr p) (AllowUpstreamConnFailure p) (<[id := new_connection]> (connections p))
          (shuttingDown p) (listener_closed p))
  else if AllowUpstreamConnFailure p then Ok p else Panic "dial".

(** Both loops have returned: the wait group lets the connection go. *)
Definition conn_done c : bool :=
  match c2s c, s2c c with Returned, Returned => true | _, _ => false end.

Definition remove_done (id : nat) (p : PgMITM) : PgMITM :=
  match connections p !! id with
  | Some c => if conn_done c
              then mkPgMITM (UpstreamAddr p) (AllowUpstreamConnFailure p) (delete id (connections p))
                     (shuttingDown p) (listener_closed p)
              else p
  | None => p
  end.

Definition mitm_Shutdown (p : PgMITM) : PgMITM :=
  let '(wasNotShuttingDownAlready, flag) := flag_SetIf false true (shuttingDown p) in
  if wasNotShuttingDownAlready then
    mkPgMITM (UpstreamAddr p) (AllowUpstreamConnFailure p) (conn_Shutdown <$> connections p) flag true
  else mkPgMITM (UpstreamAddr p) (AllowUpstreamConnFailure p) (connections p) flag (listener_closed p).

(** ** What the relay promises *)

(** The messages sent on, with the one that is between the handlers and the sending *)
Definition in_hand {A} (l : Loop A) : list A := match l with Handled m => [m] | _ => [] end.

(** One direction: the handlers saw exactly what was received. While the flag is not set,
    what is sent on is what was received, in order, up to the message in hand; later it is
    still a part of that, in order. A loop that returned has set the flag or found it set. *)
Definition direction_ok {A} (flag : Z) (l : Loop A) (received handled sent : list A) : Prop :=
  handled = received /\
  sublist (sent ++ in_hand l) received /\
  (flag = 0 -> l <> Crashed -> sent ++ in_hand l = received) /\
  (l = Returned -> flag = 1).

(** Nothing is relayed before the startup message; a write side is closed only when the
    connection is exiting. *)
Definition relay_ok c : Prop :=
  (exiting c = 0 \/ exiting c = 1) /\
  direction_ok (exiting c) (c2s c) (c2s_received c) (c2s_handled c) (c2s_sent c) /\
  direction_ok (exiting c) (s2c c) (s2c_received c) (s2c_handled c) (s2c_sent c) /\
  (client_closed c = true \/ server_closed c = true -> exiting c = 1) /\
  (c2s_started c = false -> c2s_received c = []).

End PgMitm.
