(* ===== verification/Reliability.v ===== *)
(** * integrationtests/reliability_test.go: failures in the middle of the work

    The tests put the proxy of PgMitm.v between the server and the database. A handler on
    the client's messages recognises a statement that writes what the case is about and
    causes a failure before the statement goes on: the connection is closed, once or
    twice, or the server or the database is killed. What passes through the proxy while
    the test waits is a parameter; the handlers run under a mutex, one message at a time. *)
From Stdlib Require Import Ascii.
From S2P Require Import Prelude.
From S2P Require Import Go.
From S2P Require Import Json.
From S2P Require Import Bitcoin.
From S2P Require Import TxTypes.
From S2P Require Import EventTypes.
From S2P Require Import World.
From S2P Require Import Effects.
From S2P Require Import Withdraw.
From S2P Require Import Rpc.
From S2P Require Import Api.
From S2P Require Import Client.
From S2P Require Import Testing.
From S2P Require Import Harness.
From S2P Require Import Regtest.
From S2P Require Import Processing.
From S2P Require Import Checkers.
From S2P Require Import DepositTests.
From S2P Require Import WithdrawTests.
From S2P Require Import EventTests.
From S2P Require Import PgMitm.
Local Open Scope Z_scope.

(** ** The cases *)
Inductive failureType :=
| FailureConnFailure | FailureConnFailureMultiple | FailureProcessingCrash | FailureDBCrash.
#[export] Instance failureType_eq_dec : EqDecision failureType.
Proof. solve_decision. Defined.

Definition failureTypes : list (failureType * string) :=
  [(FailureConnFailure, "ConnFailure"); (FailureConnFailureMultiple, "ConnFailureMultiple");
   (FailureProcessingCrash, "ProcessingCrash"); (FailureDBCrash, "DBCrash")].

Inductive failureMoment :=
| FailureMomentTxWrite | FailureMomentEventWrite | FailureMomentLastSeenBlockHashWrite
| FailureMomentHTTPSentSeqWrite | FailureMomentCommit.
#[export] Instance failureMoment_eq_dec : EqDecision failureMoment.
Proof. solve_decision. Defined.

(** There is no entry for the commit. *)
Definition failureMoments : list (failureMoment * string) :=
  [(FailureMomentTxWrite, "TxWrite"); (FailureMomentEventWrite, "EventWrite");
   (FailureMomentLastSeenBlockHashWrite, "LastSeenBlockHashWrite");
   (FailureMomentHTTPSentSeqWrite, "HTTPSentSeqWrite")].

Definition withdrawFailureMoments : list (failureMoment * string) :=
  filter (fun m => m.1 ∈ [FailureMomentTxWrite; FailureMomentEventWrite; FailureMomentHTTPSentSeqWrite])
    failureMoments.

Inductive queryType := queryUndefined | queryTxWrite | queryEventWrite | queryMetainfoWrite.
#[export] Instance queryType_eq_dec : EqDecision queryType.
Proof. solve_decision. Defined.

Definition HasPrefix (s p : string) : bool := match strip p s with Some _ => true | None => false end.

Definition determineQueryTypeFromParseMsg (query : string) : queryType :=
  if HasPrefix query "INSERT INTO transactions" then queryTxWrite
  else if HasPrefix query "INSERT INTO events" then queryEventWrite
  else if HasPrefix query "INSERT INTO metadata" then queryMetainfoWrite
  else queryUndefined.

(** The messages of pgproto3 that the handlers tell apart *)
Inductive FrontendMessage :=
| Parse (query : string)
| Query (text : string)
| Bind (parameters : list string)
| OtherMessage.

(** ** The variables that the handlers capture
    A connection is a number; [fp_shutdown] lists the calls of its [Shutdown]. *)
Record FailurePlan := mkFailurePlan {
  fp_failure : failureType;
  fp_moment : failureMoment;
  fp_count : Z;
  fp_failureDone : bool;                 (* the channel is closed *)
  fp_qtForConn : gmap nat queryType;
  fp_shutdown : list nat;
}.

Definition new_plan (failure : failureType) (moment : failureMoment) : FailurePlan :=
  mkFailurePlan failure moment (if decide (failure = FailureConnFailureMultiple) then 2 else 1)
    false ∅ [].

Section FailurePlanSetters.
Implicit Type p : FailurePlan.
Definition set_fp_count v p := mkFailurePlan (fp_failure p) (fp_moment p) v (fp_failureDone p)
  (fp_qtForConn p) (fp_shutdown p).
Definition set_fp_failureDone v p := mkFailurePlan (fp_failure p) (fp_moment p) (fp_count p) v
  (fp_qtForConn p) (fp_shutdown p).
Definition set_fp_qtForConn v p := mkFailurePlan (fp_failure p) (fp_moment p) (fp_count p)
  (fp_failureDone p) v (fp_shutdown p).
Definition set_fp_shutdown v p := mkFailurePlan (fp_failure p) (fp_moment p) (fp_count p)
  (fp_failureDone p) (fp_qtForConn p) v.
End FailurePlanSetters.

(** The first handler: what the connection's parsed statement writes *)
Definition note_query (c : nat) (msg : FrontendMessage) (p : FailurePlan) : FailurePlan :=
  match msg with
  | Parse query => set_fp_qtForConn (<[c := determineQueryTypeFromParseMsg query]> (fp_qtForConn p)) p
  | _ => p
  end.

(** Whether a message is the one that the case waits for; a connection that parsed nothing
    has the zero value. *)
Definition metadata_write (qt : queryType) (key : string) (parameters : list string) : outcome bool :=
  if decide (qt = queryMetainfoWrite) then
    match parameters with
    | [] => Panic index_panic
    | k :: _ => Ok (bool_decide (k = key))
    end
  else Ok false.

Definition is_the_moment (moment : failureMoment) (qt : queryType) (msg : FrontendMessage) : outcome bool :=
  match msg with
  | Query text => Ok (bool_decide (moment = FailureMomentCommit /\ text = "COMMIT"))
  | Bind parameters =>
      match moment with
      | FailureMomentTxWrite => Ok (bool_decide (qt = queryTxWrite))
      | FailureMomentEventWrite => Ok (bool_decide (qt = queryEventWrite))
      | FailureMomentLastSeenBlockHashWrite => metadata_write qt "last_seen_block_hash" parameters
      | FailureMomentHTTPSentSeqWrite => metadata_write qt "last_http_sent_seq" parameters
      | FailureMomentCommit => Ok false
      end
  | _ => Ok false
  end.

Definition qt_of (c : nat) (p : FailurePlan) : queryType := default queryUndefined (fp_qtForConn p !! c).

(** The proxy as the tests use it: listening, the address, and what it receives from the
    server while the test waits for the failure; and the UUIDs that the test draws *)
Class MitmLib := {
  mitm_Start : M string;
  net_SplitHostPort : string -> outcome (string * string);
  mitm_traffic : FailurePlan -> M (list (nat * FrontendMessage));
  mitm_Stop : M unit;
  test_NewV4 : M UUID;
}.

Section Reliability.
Context {D : DecimalLib} {BU : BtcUtil} {U : UuidLib} {R : RpcLib} {L : UrlLib}.
Context {CT : ClientTransport} {OS : Outside} {K : DockerLib} {MI : MitmLib}.

(** ** Failing *)
Definition causeFailure (c : nat) (p : FailurePlan) : T FailurePlan :=
  if decide (fp_count p <= 0) then mret p
  else
    let p := set_fp_count (fp_count p - 1) p in
    match fp_failure p with
    | FailureConnFailureMultiple | FailureConnFailure => mret (set_fp_shutdown (fp_shutdown p ++ [c]) p)
    | FailureProcessingCrash => or_fatal "%v" KillProcessing ;; mret p
    | FailureDBCrash => or_fatal "%v" (KillDatabase false) ;; mret p
    end.

(** [close(failureDone); failureCount--] when the last failure was caused *)
Definition close_when_done (p : FailurePlan) : T FailurePlan :=
  if decide (fp_count p = 0) then
    if fp_failureDone p then t_panic "close of closed channel"
    else mret (set_fp_count (fp_count p - 1) (set_fp_failureDone true p))
  else mret p.

Definition failing_handler (c : nat) (msg : FrontendMessage) (p : FailurePlan) : T FailurePlan :=
  match is_the_moment (fp_moment p) (qt_of c p) msg with
  | Ok true => p ← causeFailure c p; close_when_done p
  | Ok false => mret p
  | Err _ => mret p
  | Panic e => t_panic e
  end.

Definition client_message (c : nat) (msg : FrontendMessage) (p : FailurePlan) : T FailurePlan :=
  failing_handler c msg (note_query c msg p).

Fixpoint client_messages (msgs : list (nat * FrontendMessage)) (p : FailurePlan) : T FailurePlan :=
  match msgs with
  | [] => mret p
  | (c, msg) :: msgs => p ← client_message c msg p; client_messages msgs p
  end.

(** [<-failureDone]: the messages are handled; without the failure the wait does not end. *)
Definition unfinished {A} : T A := fun s => (Unfinished, s).

Definition wait_failureDone (p : FailurePlan) : T FailurePlan :=
  traffic ← call (mitm_traffic p);
  match traffic with
  | inl msgs =>
      p ← client_messages msgs p;
      if fp_failureDone p then mret p else unfinished
  | inr _ => unfinished
  end.

(** *** integrationtests/util.go *)
Definition set_ps_Postgres (address port : string) (s : ProcessingSettings) : ProcessingSettings :=
  mkProcessingSettings (ps_MaxConfirmations s) (ps_CallbackURL s)
    (ps_MinWithdrawWithoutManualConfirmation s) (ps_AdditionalWalletSettings s) address port
    (ps_AllowWithdrawalWithoutID s).

Definition addPgMITMOrFail (settings : ProcessingSettings) (allowUpstreamConnFailure : bool)
    : T ProcessingSettings :=
  db ← the_db;
  match @NewPgMITM FrontendMessage unit (ci_IP db +:+ ":5432") allowUpstreamConnFailure with
  | Ok _ =>
      mitmAddr ← or_fatal "%v" (call mitm_Start);
      match net_SplitHostPort mitmAddr with
      | Ok (address, port) => mret (set_ps_Postgres address port settings)
      | _ => Fatalf "%v"
      end
  | _ => Fatalf "%v"
  end.

(** ** After the failure *)
Definition handleUnrecoverableCrash : T unit :=
  or_fatal "%v" (WaitForEvent (
    ebind GetProcessingContainerState (fun '(status, exitCode) =>
    mret (if negb (is_down status) then
            inr (ErrMsg "Expected processing container to exit, but it's state is %s")
          else if decide (exitCode = 0) then
            inr (ErrMsg "Expected processing container to exit with nonzero code")
          else inl tt)))) ;;
  ignore_error KillProcessing ;;
  or_fatal "%v" env_Stop ;;
  or_fatal "%v" env_Start ;;
  WaitForLoad.

(** [env.WebsocketListeners[1:]] *)
Definition drop_first_listener : T unit :=
  e ← get_env;
  match te_WebsocketListeners e with
  | [] => t_panic "slice bounds out of range"
  | _ :: rest => with_env (set_te_WebsocketListeners rest)
  end.

Definition the_settings : T ProcessingSettings := e ← get_env; t_deref (te_ProcessingSettings e).

Definition restoreAfterFailure (failure : failureType) (moment : failureMoment) (isWithdraw : bool)
    : T bool :=
  match failure with
  | FailureProcessingCrash =>
      e ← get_env;
      (match te_Processing e with
       | Some _ => Fatalf "Expected processing to be down after crash"
       | None => mret tt
       end) ;;
      l ← first_listener;
      lastSeq ← listener_LastSeq l;
      drop_first_listener ;;
      settings ← the_settings;
      or_fatal "%v" (StartProcessing settings) ;;
      if negb isWithdraw && bool_decide (moment <> FailureMomentHTTPSentSeqWrite) then
        WaitForProcessing ;;
        or_fatal "%v" (NewWebsocketListener (lastSeq + 1)) ;;
        mret true
      else handleUnrecoverableCrash ;; mret false
  | FailureDBCrash =>
      or_fatal "%v" LaunchDatabaseContainer ;; WaitForDatabase ;; mret true
  | _ => mret true
  end.

(** ** What the cases check in the end *)
Definition checkDepositCompletedNormally (l : nat) (ourBalance amount : BTCAmount) : T unit :=
  notification ← next_notification;
  learn_new_deposit notification l ;;
  check_new_deposit_event l ;;
  checkBalance ourBalance (plus ourBalance amount) ;;
  mineOrFail l ;;
  testDepositFullyConfirmed l ;;
  checkBalance (plus ourBalance amount) (plus ourBalance amount).

Definition checkWithdrawCompletedNormally (req resp : WithdrawRequest) (clientBalance : BTCAmount)
    : T unit :=
  checkClientWithdrawRequest resp req ;;
  amount ← withdrawAmountSmall;
  fee ← withdrawFee;
  tx ← td_new (mkTxTestData (wr_ID resp) (wr_Address req) amount fee "" "" JNull 0);
  let expectedClientBalanceAfterWithdraw := minus (plus clientBalance amount) fee in
  testWithdrawNewTransaction tx clientBalance expectedClientBalanceAfterWithdraw ;;
  mineOrFail tx ;;
  testWithdrawFullyConfirmed tx expectedClientBalanceAfterWithdraw.

(** ** The cases *)

(** The proxy, the server behind it and a listener; the listener of the end may be another *)
Definition stop_first_listener : T unit :=
  e ← get_env;
  match te_WebsocketListeners e with
  | [] => mret tt
  | l :: _ => listener_Stop l ;; drop_first_listener
  end.

Definition with_failing_processing {A} (failure : failureType) (eventSeq : Z) (body : T A) : T A :=
  e ← get_env;
  settings ← addPgMITMOrFail (set_ps_CallbackURL (te_CallbackURL e) DefaultSettings)
               (bool_decide (failure = FailureDBCrash));
  deferred (ignore_error (call mitm_Stop)) (
    or_fatal "%v" (StartProcessing settings) ;;
    deferred (ignore_error StopProcessing) (
      WaitForProcessing ;;
      or_fatal "%v" (NewWebsocketListener (eventSeq + 1)) ;;
      deferred stop_first_listener body)).

Definition last_seq : T Z := l ← first_listener; listener_LastSeq l.

Definition runDepositReliabilityCase (failure : failureType) (moment : failureMoment) (eventSeq : Z)
    : T Z :=
  with_failing_processing failure eventSeq (
    clientAccount ← testGenerateClientWalletWithMetainfo (Some initialTestMetainfo) (-1);
    ourBalance ← getStableBalanceOrFail;
    amount ← testDepositAmount;
    tx ← testMakeDeposit (acc_Address clientAccount) amount initialTestMetainfo;
    wait_failureDone (new_plan failure moment) ;;
    recoverable ← restoreAfterFailure failure moment false;
    if negb recoverable then mret 0
    else checkDepositCompletedNormally tx ourBalance amount ;; last_seq).

(** The withdrawal runs in another goroutine. It is called before the wait in which its
    statements pass the proxy, and its result is looked at when it is done. *)
Definition runWithdrawReliabilityCase (failure : failureType) (moment : failureMoment) (eventSeq : Z)
    : T Z :=
  depositBig ← btc "5";
  with_failing_processing failure eventSeq (
    ourBalance ← getStableBalanceOrFail;
    clientAccount ← testGenerateClientWalletWithMetainfo (Some initialTestMetainfo) (-1);
    tx ← testMakeDeposit (acc_Address clientAccount) depositBig initialTestMetainfo;
    checkDepositCompletedNormally tx ourBalance depositBig ;;
    getStableBalanceOrFail ;;
    clientBalance ← getStableClientBalanceOrFail;
    withdrawAddress ← getNewAddressForWithdrawOrFail;
    amount ← withdrawAmountSmall;
    fee ← withdrawFee;
    let req := mkWithdrawRequest uuid_Nil withdrawAddress amount fee "" JNull in
    result ← processing_call (fun cli => Withdraw_client cli req);
    wait_failureDone (new_plan failure moment) ;;
    recoverable ← restoreAfterFailure failure moment true;
    (match result with
     | inl _ => if decide (failure = FailureProcessingCrash /\ moment <> FailureMomentHTTPSentSeqWrite)
                then Fatalf "Expected Withdraw to return error when processing crashed" else mret tt
     | inr _ => if decide (failure <> FailureProcessingCrash) then Fatalf "%v" else mret tt
     end) ;;
    if negb recoverable then mret 0
    else
      resp ← (match result with inl resp => mret resp | inr _ => t_panic nil_deref end);
      checkWithdrawCompletedNormally req resp clientBalance ;; last_seq).

(** ** The test functions *)
Definition with_environment (test : T unit) : T unit :=
  fee ← depositFee;
  or_fatal "%v" (NewTestEnvironment fee) ;;
  or_fatal "%v" env_Start ;;
  deferred (ignore_error env_Stop) (WaitForLoad ;; test).

(** The cases one after the other; a case that fails leaves [eventSeq] as it was. *)
Fixpoint run_cases (case : failureType -> failureMoment -> Z -> T Z)
    (cases : list ((failureType * string) * (failureMoment * string))) (eventSeq : Z) : T unit :=
  match cases with
  | [] => mret tt
  | ((failure, failureName), (moment, momentName)) :: cases =>
      eventSeq ← run_subtest (failureName +:+ "On" +:+ momentName) eventSeq (case failure moment eventSeq);
      run_cases case cases eventSeq
  end.

(** Each of the two loops ranges over a map. *)
Definition cases_of (moments : list (failureMoment * string))
    : list ((failureType * string) * (failureMoment * string)) :=
  os_map_order failureTypes ≫= (fun f => (fun m => (f, m)) <$> os_map_order moments).

Definition TestDepositReliability : T unit :=
  with_environment (run_cases runDepositReliabilityCase (cases_of failureMoments) 0).

Definition TestWithdrawReliability : T unit :=
  with_environment (run_cases runWithdrawReliabilityCase (cases_of withdrawFailureMoments) 0).

Definition set_ps_AllowWithdrawalWithoutID v (s : ProcessingSettings) : ProcessingSettings :=
  mkProcessingSettings (ps_MaxConfirmations s) (ps_CallbackURL s)
    (ps_MinWithdrawWithoutManualConfirmation s) (ps_AdditionalWalletSettings s)
    (ps_PostgresAddress s) (ps_PostgresPort s) v.

Definition TestDisallowAnonymousWithdraw : T unit :=
  with_processing (e ← get_env;
      StartProcessing (set_ps_AllowWithdrawalWithoutID false
        (set_ps_CallbackURL (te_CallbackURL e) DefaultSettings))) (
    or_fatal "%v" (NewWebsocketListener 0) ;;
    depositBig ← btc "1";
    ourBalance ← getStableBalanceOrFail;
    clientAccount ← testGenerateClientWalletWithMetainfo (Some initialTestMetainfo) (-1);
    tx ← testMakeDeposit (acc_Address clientAccount) depositBig initialTestMetainfo;
    checkDepositCompletedNormally tx ourBalance depositBig ;;
    clientBalance ← getStableClientBalanceOrFail;
    withdrawAddress ← getNewAddressForWithdrawOrFail;
    amount ← withdrawAmountSmall;
    fee ← withdrawFee;
    let req := mkWithdrawRequest uuid_Nil withdrawAddress amount fee "" JNull in
    result ← processing_call (fun cli => Withdraw_client cli req);
    (match result with
     | inl _ => Fatalf "Expected that withdraw without id would cause an error"
     | inr _ => mret tt
     end) ;;
    id ← or_panic (call test_NewV4);
    let req := set_wr_ID id req in
    resp ← or_fatal "%v" (processing_call (fun cli => Withdraw_client cli req));
    checkWithdrawCompletedNormally req resp clientBalance).

End Reliability.
