(* ===== verification/ToolsProps.v ===== *)
(** * Properties: the racer, the auto-paying proxy, the database proxy of the tests *)
From Stdlib Require Import Ascii.
From S2P Require Import Prelude.
From S2P Require Import Go.
From S2P Require Import Json.
From S2P Require Import JsonText.
From S2P Require Import Bitcoin.
From S2P Require Import TxTypes.
From S2P Require Import World.
From S2P Require Import Effects.
From S2P Require Import Api.
From S2P Require Import Client.
From S2P Require Import Tools.
From S2P Require Import PgMitm.
From S2P Require Import TestEnv.
Local Open Scope Z_scope.

(** ** The goroutines of the racer *)
Section RacerProps.

Lemma pop_last_spec l x rest : pop_last l = Some (x, rest) -> l = rest ++ [x].
Proof.
  unfold pop_last. destruct (reverse l) as [|y r] eqn:E; [done|]. intros [= <- <-].
  by rewrite <- (reverse_involutive l), E, reverse_cons.
Qed.

(** What the addresses of a goroutine become when its action does *)
Lemma held_insert gs i a b :
  gs !! i = Some a ->
  exists rest, (gs ≫= held) ≡ₚ held a ++ rest /\ (<[i := b]> gs ≫= held) ≡ₚ held b ++ rest.
Proof.
  intros Hi. exists ((take i gs ++ drop (S i) gs) ≫= held).
  assert (Hlt : (i < length gs)%nat) by (by eapply lookup_lt_Some).
  assert (Hb : forall x, (take i gs ++ x :: drop (S i) gs) ≫= held ≡ₚ
    held x ++ ((take i gs ++ drop (S i) gs) ≫= held)).
  { intros x. rewrite !bind_app. simpl. solve_Permutation. }
  split.
  - rewrite <- Hb. by rewrite take_drop_middle.
  - rewrite insert_take_drop by done. apply Hb.
Qed.

(** The addresses in use change by what an action takes, makes or gives up. *)
Lemma in_use_insert gs i a b p p' :
  gs !! i = Some a ->
  exists rest, in_use gs p ≡ₚ held a ++ accounts p ++ clientAddresses p ++ rest /\
    in_use (<[i := b]> gs) p' ≡ₚ held b ++ accounts p' ++ clientAddresses p' ++ rest.
Proof.
  intros Hi. destruct (held_insert gs i a b Hi) as (rest & Ha & Hb). exists rest.
  unfold in_use. rewrite Ha, Hb. split; solve_Permutation.
Qed.

Definition addresses_distinct (s : list Action * Pools) : Prop :=
  NoDup (in_use s.1 s.2) /\ "" ∉ in_use s.1 s.2.

Lemma distinct_perm gs p l :
  in_use gs p ≡ₚ l -> addresses_distinct (gs, p) <-> NoDup l /\ "" ∉ l.
Proof. intros Hl. unfold addresses_distinct. simpl. by rewrite Hl. Qed.

(** An action that ends puts its address into a pool, or gives it up. *)
Lemma finish_keeps a p rest :
  held a ++ accounts p ++ clientAddresses p ++ rest ≡ₚ
    accounts (finish a p) ++ clientAddresses (finish a p) ++ rest \/
  exists x, held a ++ accounts p ++ clientAddresses p ++ rest ≡ₚ
    x :: accounts (finish a p) ++ clientAddresses (finish a p) ++ rest.
Proof.
  destruct a as [|s|s [|]|s [|]]; simpl; repeat (case_decide; simpl in *); simplify_eq; auto;
    try (left; solve_Permutation); right; by exists s.
Qed.

(** An action that starts takes an address that nobody else has. *)
Lemma distinct_start gs i p p' addr a :
  gs !! i = Some Idle -> held a = [addr] -> addresses_distinct (gs, p) -> addr <> "" ->
  (forall rest, accounts p ++ clientAddresses p ++ rest ≡ₚ addr :: accounts p' ++ clientAddresses p' ++ rest) \/
  (p' = p /\ addr ∉ in_use gs p) ->
  addresses_distinct (<[i := a]> gs, p').
Proof.
  intros Hi Ha Hd Hne Hp. destruct (in_use_insert gs i _ a p p' Hi) as (rest & H1 & H2).
  apply (distinct_perm _ _ _ H1) in Hd. apply (distinct_perm _ _ _ H2). rewrite Ha in *. simpl in *.
  destruct Hp as [Hp|[-> Hf]]; [by rewrite Hp in Hd|].
  rewrite H1 in Hf. rewrite NoDup_cons. set_solver.
Qed.

Lemma distinct_step s s' : addresses_distinct s -> racer_step s s' -> addresses_distinct s'.
Proof.
  intros Hd Hs. destruct Hs as [i gs p addr Hi Hf|i gs p addr p' Hi Hg Ha|i gs p addr Hi Ha Hf|
    i gs p addr p' Hi Hg Ha|i gs p addr Hi Ha Hf|i gs p a Hi].
  - destruct (decide (addr = "")) as [->|Hne].
    + destruct (in_use_insert gs i _ (StoringWallet "") p p Hi) as (rest & H1 & H2).
      apply (distinct_perm _ _ _ H1) in Hd. by apply (distinct_perm _ _ _ H2).
    + eapply distinct_start; eauto. simpl. by rewrite decide_False.
  - eapply distinct_start; eauto. left. intros rest. unfold getClientAddress in Hg.
    destruct (pop_last _) as [[x r]|] eqn:E; simplify_eq.
    apply pop_last_spec in E. rewrite E. simpl. solve_Permutation.
  - eapply distinct_start; eauto.
  - eapply distinct_start; eauto. left. intros rest. unfold getAccountAddress in Hg.
    destruct (pop_last _) as [[x r]|] eqn:E; simplify_eq.
    apply pop_last_spec in E. rewrite E. simpl. solve_Permutation.
  - eapply distinct_start; eauto.
  - destruct (in_use_insert gs i _ Idle p (finish a p) Hi) as (rest & H1 & H2).
    apply (distinct_perm _ _ _ H1) in Hd. apply (distinct_perm _ _ _ H2).
    destruct (finish_keeps a p rest) as [Hp|[x Hp]]; rewrite Hp in Hd; [done|].
    rewrite NoDup_cons in Hd. set_solver.
Qed.

End RacerProps.

Section RacerTheorem.

(** Whatever the order in which the goroutines of the racer run, no address is in a pool
    twice, no two goroutines work with the same address, and an address that a goroutine
    works with is in no pool; the empty string, which means that there is none, is not
    among them. *)
Theorem racer_addresses_exclusive (n : nat) (gs : list Action) (p : Pools)
    (Hreach : racer_reach n (gs, p)) :
  NoDup (accounts p ++ clientAddresses p) /\ "" ∉ accounts p ++ clientAddresses p /\
  (forall i a x, gs !! i = Some a -> x ∈ held a ->
    x <> "" /\ x ∉ accounts p /\ x ∉ clientAddresses p /\
    (forall j b, gs !! j = Some b -> x ∈ held b -> i = j)).
Proof.
  assert (Hd : addresses_distinct (gs, p)).
  { remember (gs, p) as s eqn:Es. clear Es. induction Hreach as [|s s' _ IH Hs].
    - assert (Hh : replicate n Idle ≫= held = []) by (induction n; simpl; auto).
      unfold addresses_distinct, in_use. simpl. rewrite Hh. split; [constructor | set_solver].
    - by eapply distinct_step. }
  destruct Hd as [Hnd Hemp]. simpl in Hnd, Hemp. unfold in_use in Hnd, Hemp.
  rewrite app_assoc in Hnd, Hemp. apply NoDup_app in Hnd as (Hp & Hdis & Hg).
  split; [done|]. split; [set_solver|]. intros i a x Hi Hx.
  assert (Hin : x ∈ (gs ≫= held)) by (apply list_elem_of_bind; eauto using list_elem_of_lookup_2).
  split; [set_solver|]. split; [set_solver|]. split; [set_solver|].
  intros j b Hj Hxb. destruct (decide (i = j)) as [|Hne]; [done|]. exfalso.
  destruct (held_insert gs i a Idle Hi) as (rest & H1 & H2). simpl in H2.
  rewrite H1 in Hg. apply NoDup_app in Hg as (_ & Hg & _). apply (Hg x Hx). rewrite <- H2.
  apply list_elem_of_bind. exists b. split; [done|].
  apply list_elem_of_lookup. exists j. by rewrite list_lookup_insert_ne.
Qed.

(** One goroutine has made the address of a wallet and another withdraws to an address
    that it made. *)
Lemma racer_addresses_exclusive_witness :
  racer_reach 2 ([StoringWallet "a"; Withdrawing "b" true], mkPools [] []) /\
  forall j b, [StoringWallet "a"; Withdrawing "b" true] !! j = Some b -> "a" ∈ held b -> 0%nat = j.
Proof.
  assert (Hr : racer_reach 2 ([StoringWallet "a"; Withdrawing "b" true], mkPools [] [])).
  { apply (racer_more 2 ([StoringWallet "a"; Idle], mkPools [] [])).
    - apply (racer_more 2 ([Idle; Idle], mkPools [] [])); [apply (racer_init 2)|].
      apply (step_wallet 0 [Idle; Idle]); [done | by vm_compute; set_solver].
    - apply (step_make_client 1 [StoringWallet "a"; Idle]); [done | done | by vm_compute; set_solver]. }
  split; [exact Hr|].
  apply (racer_addresses_exclusive 2 _ _ Hr) with (i := 0%nat) (a := StoringWallet "a");
    [done | by vm_compute; constructor].
Defined.

End RacerTheorem.

(** ** The starts of the actions are steps *)
Section RacerSteps.
Context {D : DecimalLib} {U : UuidLib} {L : UrlLib} {CT : ClientTransport} {X : ExecLib}.

Lemma start_withdraw_steps i gs p a p' w w' :
  gs !! i = Some Idle -> "" ∉ clientAddresses p -> start_withdraw p w = (Ok (a, p'), w') ->
  (forall x, a = Withdrawing x true -> x ∉ in_use gs p) ->
  (a = Idle /\ p' = p) \/ racer_step (gs, p) (<[i := a]> gs, p').
Proof.
  intros Hi Hemp Hrun Hf. unfold start_withdraw in Hrun.
  destruct (getClientAddress p) as [addr p1] eqn:E. case_decide as Ha.
  - injection Hrun as <- <- <-. right. by apply step_take_client.
  - assert (p1 = p) as ->.
    { unfold getClientAddress in E. destruct (pop_last _) as [[x r]|] eqn:Ep; [|by injection E].
      injection E as -> <-. apply pop_last_spec in Ep. rewrite Ep in Hemp.
      destruct Hemp. apply elem_of_app. right. destruct (decide (addr = "")) as [->|]; [|done].
      by apply list_elem_of_singleton. }
    clear E. unfold mbind, M_bind in Hrun.
    destruct (makeClientAddress w) as [[addr'| |] w1]; [|done..]. injection Hrun as Hna <- _.
    destruct (decide (addr' = "")) as [|Hne]; subst a; [by left|]. right. apply step_make_client; auto.
Qed.

End RacerSteps.

(** ** The auto-paying proxy *)
Section ProxyProps.
Context {P : ProxyLib}.

(** The request asks for a new address; the reply has one. *)
Definition asks_for_address (req : HttpMessage) : bool :=
  match hm_body req with
  | Some (Ok text) =>
      match unmarshal_text bitcoindRequest_UnmarshalJSON text with
      | Ok method => bool_decide (method = "getnewaddress")
      | _ => false
      end
  | _ => false
  end.

Definition address_of_reply (res : HttpMessage) : option string :=
  match hm_body res with
  | Some (Ok text) =>
      match unmarshal_text bitcoindResponse_UnmarshalJSON text with
      | Ok (address, None) => Some address
      | _ => None
      end
  | _ => None
  end.

(** The proxy is transparent: the node gets the request as it came and the wallet gets the
    node's reply as it is. A payment is started exactly when the request asked for a new
    address and the reply has one without an error: to that address, with the request's
    authorization. *)
Theorem proxy_transparent_and_pays (req res : HttpMessage) (pay : option (string * string)) (w w' : World)
    (Hrun : RoundTrip req w = (Ok (res, pay), w')) :
  http_RoundTrip req w = (Ok res, w') /\
  pay = if asks_for_address req
        then (address ← address_of_reply res; Some (address, hm_authorization req)) else None.
Proof.
  destruct req as [body auth]. unfold RoundTrip, asks_for_address in *. simpl in *.
  set (reply := address_of_reply).
  assert (Hres : forall (pays : bool) auth',
    (res0 ← http_RoundTrip (mkHttpMessage body auth);
     if negb pays then mret (res0, None)
     else match hm_body res0 with
          | None => mret (res0, None)
          | Some b =>
              bodyBytes ← lift b;
              let res0 := mkHttpMessage (Some (Ok bodyBytes)) (hm_authorization res0) in
              match unmarshal_text bitcoindResponse_UnmarshalJSON bodyBytes with
              | Ok (address, None) => mret (res0, Some (address, auth'))
              | Panic p => panic p
              | _ => mret (res0, None)
              end
          end) w = (Ok (res, pay), w') ->
    http_RoundTrip (mkHttpMessage body auth) w = (Ok res, w') /\
    pay = if pays then (address ← reply res; Some (address, auth')) else None).
  { clear Hrun. intros pays auth'. unfold mbind at 1, M_bind.
    destruct (http_RoundTrip _ w) as [[res0| |] w1]; try done. destruct pays; simpl; [|by intros [= <- <- <-]].
    unfold reply, address_of_reply. destruct res0 as [[b|] auth0]; simpl; [|by intros [= <- <- <-]].
    unfold mbind, M_bind, lift. destruct b as [text| |]; try done.
    destruct (unmarshal_text _ text) as [[address [e|]]| |] eqn:Eu; try done;
      intros [= <- <- <-]; simpl; by rewrite Eu. }
  destruct body as [[text| |]|]; try done.
  - unfold mbind, M_bind, lift in Hrun. cbv beta iota zeta in Hrun.
    destruct (unmarshal_text bitcoindRequest_UnmarshalJSON text) as [method| |]; try done.
    destruct (decide (method = "getnewaddress")) as [Hm|Hm].
    + rewrite bool_decide_eq_true_2 by done. exact (Hres true auth Hrun).
    + rewrite bool_decide_eq_false_2 by done. exact (Hres false "" Hrun).
  - by apply (Hres false "") in Hrun.
Qed.

End ProxyProps.

(** A node that answers every request with the address "m1" *)
Definition test_reply : HttpMessage :=
  mkHttpMessage (Some (Ok (json_text (JObj [("result", JStr "m1"); ("error", JNull)])))) "".
Definition test_asking : HttpMessage :=
  mkHttpMessage (Some (Ok (json_text (JObj [("method", JStr "getnewaddress")])))) "Basic x".

#[local] Instance test_proxy : ProxyLib := {|
  http_RoundTrip req w := (Ok test_reply, w);
  http_Do _ _ _ w := (Err (ErrMsg "refused"), w);
|}.

Lemma proxy_transparent_and_pays_witness :
  http_RoundTrip test_asking init_world = (Ok test_reply, init_world) /\
  Some ("m1", "Basic x") = address ← address_of_reply test_reply; Some (address, "Basic x").
Proof.
  assert (Hrun : RoundTrip test_asking init_world = (Ok (test_reply, Some ("m1", "Basic x")), init_world))
    by (vm_compute; reflexivity).
  exact (proxy_transparent_and_pays _ _ _ _ _ Hrun).
Defined.

(** ** The proxy between the server and the database *)
Section MitmProps.
Context {FrontendMessage BackendMessage : Type} (is_Terminate : FrontendMessage -> bool).
Implicit Type c : @Connection FrontendMessage BackendMessage.

(** *** One direction *)
Section Direction.
Context {A : Type}.
Implicit Types (l : Loop A) (received handled sent : list A).

Lemma direction_exiting f l received handled sent :
  direction_ok f l received handled sent -> direction_ok 1 l received handled sent.
Proof. intros (H1 & H2 & _ & _). split_and!; done. Qed.

Lemma direction_receive f received handled sent msg :
  direction_ok f Receiving received handled sent ->
  direction_ok f (Handled msg) (received ++ [msg]) (handled ++ [msg]) sent.
Proof.
  intros (-> & Hs & He & _). simpl in *. rewrite app_nil_r in *. split_and!; try done.
  - by apply sublist_app.
  - intros Hf _. by rewrite He.
Qed.

Lemma direction_send f received handled sent msg :
  direction_ok f (Handled msg) received handled sent ->
  direction_ok f Receiving received handled (sent ++ [msg]).
Proof.
  intros (-> & Hs & He & _). simpl in *. unfold direction_ok. simpl. rewrite app_nil_r.
  split_and!; try done. intros Hf _. by apply He.
Qed.

Lemma direction_drop received handled sent msg :
  direction_ok 1 (Handled msg) received handled sent ->
  direction_ok 1 Receiving received handled sent.
Proof.
  intros (-> & Hs & _). unfold direction_ok. simpl in *. rewrite app_nil_r.
  split_and!; try done. etrans; [|exact Hs]. by apply sublist_inserts_r.
Qed.

Lemma direction_stop f l l' received handled sent :
  in_hand l' = [] -> (l' = Crashed \/ l' = Returned /\ f = 1) ->
  direction_ok f l received handled sent -> direction_ok f l' received handled sent.
Proof.
  intros Hl Hf (-> & Hs & _). unfold direction_ok. rewrite Hl, app_nil_r. split_and!; try done.
  - etrans; [|exact Hs]. by apply sublist_inserts_r.
  - destruct Hf as [->|[-> ->]]; done.
  - destruct Hf as [->|[-> ->]]; done.
Qed.

End Direction.

Lemma exiting_flag c : relay_ok c -> flag_Get (exiting c) = true -> exiting c = 1.
Proof. intros _ H. by apply bool_decide_eq_true in H. Qed.

Lemma relay_Shutdown c : relay_ok c -> relay_ok (conn_Shutdown c).
Proof.
  intros (He & H1 & H2 & H3 & H4). unfold conn_Shutdown, flag_SetIf.
  destruct He as [He|He]; rewrite He; simpl; unfold relay_ok; simpl; split_and!; auto;
    by eapply direction_exiting.
Qed.

(** [Shutdown] leaves the connection exiting, and doing it again changes nothing. *)
Lemma Shutdown_exits c : relay_ok c -> exiting (conn_Shutdown c) = 1.
Proof. intros ([He|He] & _); unfold conn_Shutdown, flag_SetIf; by rewrite He. Qed.

Lemma Shutdown_exiting c : exiting c = 1 -> conn_Shutdown c = c.
Proof.
  intros He. unfold conn_Shutdown, flag_SetIf. rewrite He. simpl. unfold set_exiting.
  rewrite <- He. by destruct c.
Qed.

Lemma relay_handlers shut c : relay_ok c -> relay_ok (run_handlers shut c).
Proof. destruct shut; [apply relay_Shutdown | done]. Qed.

Lemma relay_set_exiting c : relay_ok c -> relay_ok (set_exiting (flag_Set true (exiting c)) c).
Proof.
  intros (He & H1 & H2 & H3 & H4). unfold relay_ok. simpl. split_and!; auto; by eapply direction_exiting.
Qed.

Lemma relay_close a b c : relay_ok c -> exiting c = 1 -> relay_ok (close_writes a b c).
Proof. intros (He & H1 & H2 & H3 & H4) Hx. unfold relay_ok. simpl. split_and!; auto. Qed.

Lemma relay_stop_c2s l c :
  in_hand l = [] -> (l = Crashed \/ l = Returned /\ exiting c = 1) -> relay_ok c -> relay_ok (set_c2s l c).
Proof.
  intros Hl Hf (He & H1 & H2 & H3 & H4). unfold relay_ok. simpl. split_and!; auto.
  by eapply direction_stop.
Qed.

Lemma relay_stop_s2c l c :
  in_hand l = [] -> (l = Crashed \/ l = Returned /\ exiting c = 1) -> relay_ok c -> relay_ok (set_s2c l c).
Proof.
  intros Hl Hf (He & H1 & H2 & H3 & H4). unfold relay_ok. simpl. split_and!; auto.
  by eapply direction_stop.
Qed.

#[local] Hint Resolve relay_handlers relay_set_exiting relay_close relay_stop_c2s relay_stop_s2c
  relay_Shutdown exiting_flag : relay.

Lemma relay_step c c' : relay_ok c -> conn_step is_Terminate c c' -> relay_ok c'.
Proof.
  intros Hr Hs. destruct Hs as [c ok Hc Hst|c r shut Hc Hst|c msg ok Hc|c r shut Hc|c msg ok Hc|c].
  - unfold c2s_startup. destruct ok; [|by apply relay_stop_c2s; auto].
    destruct Hr as (He & H1 & H2 & H3 & H4). by unfold relay_ok.
  - unfold c2s_receive. destruct r as [msg| |]; [|destruct (flag_Get _) eqn:E|]; auto 8 with relay.
    apply relay_handlers.
    set (c1 := if is_Terminate msg then _ else c).
    assert (Hr1 : relay_ok c1 /\ c2s c1 = Receiving /\ c2s_started c1 = true)
      by (subst c1; destruct (is_Terminate msg); auto with relay).
    destruct Hr1 as ((He & H1 & H2 & H3 & H4) & Hc1 & Hs1). rewrite Hc1 in H1.
    unfold relay_ok. simpl. rewrite Hs1. split_and!; auto; [by apply direction_receive | done].
  - unfold c2s_send. destruct ok; [|destruct (flag_Get _) eqn:E; [|by apply relay_stop_c2s; auto]].
    + destruct Hr as (He & H1 & H2 & H3 & H4). rewrite Hc in H1. unfold relay_ok. simpl.
      split_and!; auto. by apply direction_send.
    + apply bool_decide_eq_true in E. destruct Hr as (He & H1 & H2 & H3 & H4). rewrite Hc, E in H1.
      unfold relay_ok. simpl. rewrite E in *. split_and!; auto. by eapply direction_drop.
  - unfold s2c_receive. destruct r as [msg| |]; [|destruct (flag_Get _) eqn:E|]; auto 8 with relay.
    apply relay_handlers. destruct Hr as (He & H1 & H2 & H3 & H4). rewrite Hc in H2.
    unfold relay_ok. simpl. split_and!; auto. by apply direction_receive.
  - unfold s2c_send. destruct ok; [|destruct (flag_Get _) eqn:E; [|by apply relay_stop_s2c; auto]].
    + destruct Hr as (He & H1 & H2 & H3 & H4). rewrite Hc in H2. unfold relay_ok. simpl.
      split_and!; auto. by apply direction_send.
    + apply bool_decide_eq_true in E. destruct Hr as (He & H1 & H2 & H3 & H4). rewrite Hc, E in H2.
      unfold relay_ok. simpl. rewrite E in *. split_and!; auto. by eapply direction_drop.
  - by apply relay_Shutdown.
Qed.

Lemma relay_new : relay_ok (@new_connection FrontendMessage BackendMessage).
Proof. unfold relay_ok, direction_ok. simpl. naive_solver. Qed.

Lemma reaches_ok c : reaches is_Terminate new_connection c -> relay_ok c.
Proof.
  intros H. assert (Hi : relay_ok (@new_connection FrontendMessage BackendMessage)) by apply relay_new.
  induction H as [|c c1 c2 Hs _ IH]; [done|]. apply IH. by eapply relay_step.
Qed.


End MitmProps.

(** A message of the client is received and sent on; the server's is in hand. *)
Definition test_connection : @Connection nat nat :=
  mkConnection 0 false false true Receiving [7%nat] [7%nat] [7%nat] (Handled 9%nat) [9%nat] [9%nat] [].

