(* ===== verification/HarnessProps.v ===== *)
(** * Properties: the test environment and the tests' steps *)
From Stdlib Require Import Ascii.
From S2P Require Import Prelude.
From S2P Require Import Go.
From S2P Require Import Json.
From S2P Require Import JsonText.
From S2P Require Import Bitcoin.
From S2P Require Import TxTypes.
From S2P Require Import EventTypes.
From S2P Require Import World.
From S2P Require Import Effects.
From S2P Require Import Storage.
From S2P Require Import WalletStorage.
From S2P Require Import WellFormed.
From S2P Require Import PgWallet.
From S2P Require Import EventStorage.
From S2P Require Import Broadcaster.
From S2P Require Import Broker.
From S2P Require Import NodeAPI.
From S2P Require Import StorageProps.
From S2P Require Import Rpc.
From S2P Require Import WalletBase.
From S2P Require Import TestEnv.
From S2P Require Import Withdraw.
From S2P Require Import Pending.
From S2P Require Import Api.
From S2P Require Import Client.
From S2P Require Import EventProps.
From S2P Require Import Delivery.
From S2P Require Import Cli.
From S2P Require Import ClientProps.
From S2P Require Import ClientEvents.
From S2P Require Import EventLog.
From S2P Require Import AccountProps.
From S2P Require Import JsonIndent.
From S2P Require Import Testing.
From S2P Require Import Harness.
From S2P Require Import Regtest.
From S2P Require Import Processing.
From S2P Require Import Checkers.
From S2P Require Import Acceptance.
From S2P Require Import DepositTests.
From S2P Require Import WithdrawTests.
Local Open Scope Z_scope.

(** ** Waiting for an event *)
Section Waiting.
Context {D : DecimalLib} {BU : BtcUtil} {U : UuidLib} {R : RpcLib} {L : UrlLib}.
Context {CT : ClientTransport} {OS : Outside} {K : DockerLib}.

(** One tick: half a second, then the callback *)
Definition poll {A} (callback : T (A + error)) : T (A + error) :=
  wait_for (Sleeping 500) ;; callback.

(** [n] polls that fail with an error *)
Inductive failed_polls {A} (callback : T (A + error)) : nat -> TestState -> TestState -> Prop :=
| no_polls s : failed_polls callback 0 s s
| more_polls n s e s1 s2 :
    poll callback s = (Done (inr e), s1) -> failed_polls callback n s1 s2 ->
    failed_polls callback (S n) s s2.

Definition is_error {A} (r : tresult (A + error)) : bool :=
  match r with Done (inr _) => true | _ => false end.

Lemma wait_loop_step {A} (callback : T (A + error)) n s :
  wait_loop n (fun u => r ← callback; mret (u, r)) tt s =
  match poll callback s with
  | (Done (inl a), s') => (Done (inl a), s')
  | (Done (inr e), s') =>
      match n with
      | 0%nat | 1%nat => (Done (inr e), s')
      | S n => wait_loop n (fun u => r ← callback; mret (u, r)) tt s'
      end
  | (FailNow, s') => (FailNow, s')
  | (Panicked p, s') => (Panicked p, s')
  | (Unfinished, s') => (Unfinished, s')
  end.
Proof.
  destruct n as [|n]; cbn [wait_loop]; unfold poll, mbind, T_bind;
    destruct (wait_for _ s) as [[u| | |] s0]; try done;
    destruct (callback s0) as [[[a|e]| | |] s1]; try done. by destruct n.
Qed.

Lemma wait_loop_iff {A} (callback : T (A + error)) n s r s' :
  wait_loop (S n) (fun u => r ← callback; mret (u, r)) tt s = (r, s') <->
  exists k s1, (k <= n)%nat /\ failed_polls callback k s s1 /\ poll callback s1 = (r, s') /\
    (is_error r = true -> k = n).
Proof.
  revert s. induction n as [|n IH]; intros s; rewrite wait_loop_step.
  - split.
    + intros Hr. exists 0%nat, s. split; [done|]. split; [constructor|]. split; [|done].
      by destruct (poll callback s) as [[[a|e]| | |] s1].
    + intros (k & s1 & Hk & Hf & Hp & _). assert (k = 0%nat) as -> by lia.
      inversion Hf; subst. rewrite Hp. by destruct r as [[a|e]| | |].
  - destruct (poll callback s) as [[[a|e]| | |] s1] eqn:Hp.
    2: { rewrite IH. split.
      - intros (k & s2 & Hk & Hf & Hp2 & He). exists (S k), s2. split; [lia|].
        split; [by econstructor|]. split; [done|]. intros Hr. by rewrite He.
      - intros (k & s2 & Hk & Hf & Hp2 & He). inversion Hf as [|k' ? e' s1' ? Hp' Hf']; subst.
        + rewrite Hp in Hp2. injection Hp2 as <- <-. specialize (He eq_refl). lia.
        + rewrite Hp in Hp'. injection Hp' as <- <-. exists k', s2.
          split; [lia|]. split; [done|]. split; [done|]. intros Hr. specialize (He Hr). lia. }
    all: split; [intros [= <- <-]; exists 0%nat, s; split; [lia|]; split; [constructor|]; by split|];
      intros (k & s2 & Hk & Hf & Hp2 & He); inversion Hf as [|k' ? e' s1' ? Hp' Hf']; subst;
      [by rewrite Hp in Hp2 | by rewrite Hp in Hp'].
Qed.

Lemma failed_polls_snoc {A} (callback : T (A + error)) n s s1 e s2 :
  failed_polls callback n s s1 -> poll callback s1 = (Done (inr e), s2) ->
  failed_polls callback (S n) s s2.
Proof.
  intros Hf. revert s2. induction Hf as [s|n s e0 s0 s1 Hp Hf IH]; intros s2 Hp2.
  - eapply more_polls; [exact Hp2 | apply no_polls].
  - eapply more_polls; [exact Hp | by apply IH].
Qed.

(** [WaitForEvent] calls its callback after each tick until it succeeds, panics or stops the
    test, at most 120 times: it ends with [r] exactly when some number [k] of calls below
    120 failed with an error and the next one gave [r], which is an error only when it
    was the 120th. *)
Theorem WaitForEvent_polls {A} (callback : T (A + error)) (s : TestState)
    (r : tresult (A + error)) (s' : TestState) :
  WaitForEvent callback s = (r, s') <->
  exists k s1, (k < 120)%nat /\ failed_polls callback k s s1 /\ poll callback s1 = (r, s') /\
    (is_error r = true -> k = 119%nat).
Proof.
  unfold WaitForEvent, waitForEventRetries. rewrite wait_loop_iff.
  split; intros (k & s1 & H & H'); exists k, s1; (split; [lia | done]).
Qed.

End Waiting.

(** ** Mining a transaction *)
Section Mining.
Context {D : DecimalLib} {BU : BtcUtil} {U : UuidLib} {R : RpcLib} {L : UrlLib}.
Context {CT : ClientTransport} {OS : Outside} {K : DockerLib}.

Lemma ebind_inv {A B} (m : T (A + error)) (f : A -> T (B + error)) s r s' :
  ebind m f s = (Done r, s') ->
  (exists a s1, m s = (Done (inl a), s1) /\ f a s1 = (Done r, s')) \/
  (exists e, m s = (Done (inr e), s') /\ r = inr e).
Proof.
  unfold ebind, mbind, T_bind. destruct (m s) as [[[a|e]| | |] s1]; try done.
  - intros H. left. by exists a, s1.
  - intros [= <- <-]. right. by exists e.
Qed.

Lemma bind_inv {A B} (m : T A) (f : A -> T B) s b s' :
  (m ≫= f) s = (Done b, s') -> exists a s1, m s = (Done a, s1) /\ f a s1 = (Done b, s').
Proof. unfold mbind, T_bind. destruct (m s) as [[a| | |] s1]; try done. eauto. Qed.

Lemma node_api_state name s n s' : node_api name s = (Done n, s') -> s' = s.
Proof.
  unfold node_api, node_info, t_deref. intros (i & s1 & Hi & H)%bind_inv.
  apply bind_inv in Hi as (e & s2 & [= <- <-] & Hi).
  destruct (nodes ← te_Regtest (ts_env s); node_lookup name nodes); [|done]. injection Hi as <- <-.
  destruct (bn_NodeAPI _); [|done]. by injection H.
Qed.

(** The answers of the mempool that pass [P], and what is mined after the first of them;
    or 120 polls without one, and nothing mined *)
Definition asks_mempool (miner : RpcConfig) (ready : list string -> outcome unit) : T (unit + error) :=
  ebind (getrawmempool miner) (fun hashes =>
    match ready hashes with Ok _ => mret (inl tt) | Err e => mret (inr e) | Panic p => t_panic p end).

Definition mined_after (P : list string -> Prop) (miner : RpcConfig) (r : string + error) (s' : TestState) : Prop :=
  exists hashes s1 s2 s3, wait_for (Sleeping 500) s1 = (Done tt, s2) /\
    getrawmempool miner s2 = (Done (inl hashes), s3) /\ P hashes /\
    ((exists block blocks, r = inl block /\
        GenerateBlocks miner 1 s3 = (Done (inl (block :: blocks)), s')) \/
     (exists e, r = inr e /\ GenerateBlocks miner 1 s3 = (Done (inr e), s'))).

Lemma mine_when_cases (ready : list string -> outcome unit) (s : TestState)
    (r : string + error) (s' : TestState) (Hrun : mine_when ready s = (Done r, s')) :
  exists miner, node_api "node-miner" s = (Done miner, s) /\
  (mined_after (fun hashes => ready hashes = Ok tt) miner r s' \/
   (exists e, r = inr e /\ failed_polls (asks_mempool miner ready) 120 s s')).
Proof.
  unfold mine_when in Hrun. apply bind_inv in Hrun as (miner & s0 & Hn & Hrun).
  pose proof (node_api_state _ _ _ _ Hn) as ->. exists miner. split; [done|].
  apply ebind_inv in Hrun as [([] & s3 & Hw & Hrun)|(e & Hw & ->)].
  - left. unfold WaitForEvent, waitForEventRetries in Hw.
    apply wait_loop_iff in Hw as (k & s1 & _ & _ & Hp & _).
    unfold poll in Hp. apply bind_inv in Hp as ([] & s2 & Hs & Hp).
    apply ebind_inv in Hp as [(hashes & s4 & Hg & Hp)|(e & _ & ?)]; [|done].
    exists hashes, s1, s2, s4. split; [done|].
    destruct (ready hashes) as [[]|e|p] eqn:Hr; try done. injection Hp as <-.
    split; [done|]. split; [done|].
    apply ebind_inv in Hrun as [(blocks & s5 & Hb & Hrun)|(e & Hb & ->)]; [|right; by exists e].
    apply bind_inv in Hrun as (block & s6 & Hi & [= <- <-]).
    destruct blocks as [|b blocks]; [done|]. injection Hi as <- <-. left. by exists b, blocks.
  - right. exists e. split; [done|]. unfold WaitForEvent, waitForEventRetries in Hw.
    apply wait_loop_iff in Hw as (k & s1 & _ & Hf & Hp & Hk). specialize (Hk eq_refl). subst k.
    by eapply (failed_polls_snoc _ 119).
Qed.

Lemma mined_after_weaken (P Q : list string -> Prop) miner r s' :
  (forall hashes, P hashes -> Q hashes) -> mined_after P miner r s' -> mined_after Q miner r s'.
Proof. intros HPQ (hashes & s1 & s2 & s3 & H1 & H2 & H3 & H4). exists hashes, s1, s2, s3. auto. Qed.

Lemma all_in_Ok hashes mempool : all_in hashes mempool = Ok tt -> Forall (fun h => h ∈ mempool) hashes.
Proof. induction hashes as [|h hashes IH]; simpl; [constructor|]. case_decide; [|done]. auto. Qed.

(** [MineTx] and [MineMultipleTxns] succeed with a block hash only when an answer of the
    miner's mempool, one of at most 120, contained the transactions that the test wants
    in the block; right after it one block was asked for, whose hash it is. [MineAnyTx]
    does so when the mempool was not empty. *)
Theorem mined_from_mempool (s s' : TestState) (block : string) :
  (forall txHash, MineTx txHash s = (Done (inl block), s') ->
     exists miner, mined_after (fun hashes => txHash ∈ hashes) miner (inl block) s') /\
  (MineAnyTx s = (Done (inl block), s') ->
     exists miner, mined_after (fun hashes => hashes <> []) miner (inl block) s') /\
  (forall txHashes, MineMultipleTxns txHashes s = (Done (inl block), s') ->
     exists miner, mined_after (fun hashes => Forall (fun h => h ∈ hashes) txHashes) miner (inl block) s').
Proof.
  split_and!; [intros txHash Hrun | intros Hrun | intros txHashes Hrun];
    apply mine_when_cases in Hrun as (miner & _ & [Hm|(e & ? & _)]); try done; exists miner;
    revert Hm; apply mined_after_weaken; intros hashes.
  - by case_decide.
  - by destruct hashes.
  - apply all_in_Ok.
Qed.

End Mining.

(** ** A withdrawal that a test makes *)
Section MakeWithdraw.
Context {E : Env} {EL : EnvLaws E} {ST : Storage} {ES : EventStorage} {N : NodeAPI} {CFG : WalletConfig}.
Context {DL : DecimalLaws env_decimal} {UL : UuidLaws env_uuidlib}.
Context {HC : HTTPClient} {BCFG : BrokerConfig} {TX : ErrorTexts} {L : UrlLib}.
#[local] Instance tested_server : ClientTransport := ServedBy true.

Lemma expect_eq_refl {A} `{EqDecision A} format (a : A) s : expect_eq format a a s = (Done tt, s).
Proof. unfold expect_eq, expect. by rewrite bool_decide_eq_true_2. Qed.

(** A withdrawal that is not to cold storage returns the request as it came. *)
Lemma Withdraw_same_request request w r w' :
  Withdraw request false w = (Ok r, w') -> r = request.
Proof.
  unfold Withdraw, mbind, M_bind, gets, lift.
  destruct (prepare_withdraw _ _ _ _) as [[[r' tx] hold]|e|p] eqn:Hp; [|done..].
  destruct (alloc tx _) as [[l|e|p] w2]; [|done..].
  destruct (withdrawViaWalletUpdater l hold _) as [[u|e|p] w3]; [|done..]. intros [= <- _].
  unfold prepare_withdraw in Hp. apply outcome_bind_Ok in Hp as (ft & _ & Hp).
  apply outcome_bind_Ok in Hp as (need & _ & Hp). apply outcome_bind_Ok in Hp as (r'' & Hr & Hp).
  destruct (decide (wr_Address request = "")); [done|]. injection Hr as <-.
  destruct (decide (wr_Address request = _)); [done|]. by injection Hp as <- _ _.
Qed.

(** The wallet keeps what a client asks for, and gives the request an id. *)
Lemma withdraw_request_keeps req w r w' :
  withdraw_request true false req w = (Ok r, w') ->
  wr_Amount r = wr_Amount req /\ wr_Fee r = wr_Fee req /\ wr_Address r = wr_Address req /\
  wr_Metainfo r = wr_Metainfo req /\ wr_ID r <> uuid_Nil.
Proof.
  unfold withdraw_request, mbind, M_bind.
  set (m := if decide (wr_ID req = uuid_Nil) then _ else _).
  destruct (m w) as [[req1|e|p] w1] eqn:Hm; [|done..].
  assert (Hreq : exists id, id <> uuid_Nil /\ req1 = set_wr_ID id req).
  { subst m. case_decide as Hid; [|injection Hm as <- _; exists (wr_ID req); by destruct req].
    unfold uuid_NewV4, mbind, M_bind in Hm. injection Hm as <- _. eexists.
    split; [|done]. apply env_uuid_nonnil. }
  destruct Hreq as (id & Hid & ->). intros Hw.
  apply Withdraw_same_request in Hw as ->. unfold default_fee_type. by case_decide.
Qed.

(** C20: The test's step of making a withdrawal, by the Go client and the served HTTP API:
    it passes exactly when the wallet accepts the request, and then follows the
    transaction with the id that the wallet gave it; when the wallet refuses, or the
    handler panics, the step stops the test. *)
Theorem testMakeWithdraw_passes {laws : UrlLaws L client_paths }
    (address : string) (amount fee : BTCAmount) (metainfo : json) (cli : Client) (b : URL) (s : TestState)
    (Hcli : te_ProcessingClient (ts_env s) = Some cli) (Hb : url_Parse (apiBaseURL cli) = Ok b)
    (Hamount : is_u64 amount) (Hfee : BTCAmountFromStringedFloat "0.0001" = Ok fee /\ is_u64 fee)
    (Hmeta : json_ok metainfo = true) :
  let req := mkWithdrawRequest uuid_Nil address amount fee "" metainfo in
  let '(accepted, w') := withdraw_request true false req (ts_world s) in
  (forall e, accepted = Err e -> error_Error e <> "ok") ->
  testMakeWithdraw address amount metainfo s =
  match accepted with
  | Ok r => (Done (length (ts_txs s)),
      set_txs (ts_txs s ++ [mkTxTestData (wr_ID r) address amount fee "" "" metainfo 0]) (set_world w' s))
  | _ => (FailNow, report ([], "%v") (set_world w' s))
  end.
Proof.
  intros req. destruct (withdraw_request true false req (ts_world s)) as [accepted w'] eqn:Hw.
  intros Hok. unfold testMakeWithdraw, withdrawFee, btc. destruct Hfee as [-> Hfee]. cbn [Must].
  assert (Hreq : request_ok req) by (split; [done|]; split; done).
  assert (Hs : Withdraw_client cli req (ts_world s) = (withdrawal_seen accepted, w')).
  { pose proof (withdraw_served true cli false req b (ts_world s) Hb Hreq) as Hs.
    by rewrite Hw in Hs. }
  fold req.
  assert (Hcall : processing_call (fun cli => Withdraw_client cli req) s =
    match withdrawal_seen accepted with
    | Ok a => (Done (inl a), set_world w' s)
    | Err e => (Done (inr e), set_world w' s)
    | Panic p => (Panicked p, set_world w' s)
    end).
  { unfold processing_call, processing_client, mbind, T_bind, t_gets, t_deref, call. rewrite Hcli.
    unfold mret, T_ret. rewrite Hs. by destruct (withdrawal_seen accepted). }
  unfold mbind at 1, T_bind at 1, mret at 1, T_ret at 1. unfold or_fatal. fold req.
  unfold mbind at 1 3, T_bind at 1 3. rewrite Hcall.
  destruct accepted as [r|e|p]; cbn [withdrawal_seen].
  - apply withdraw_request_keeps in Hw as (Ha & Hf & Had & Hm & Hid).
    unfold mret, T_ret. unfold checkClientWithdrawRequest, checkWithdrawRequest.
    unfold mbind, T_bind. rewrite Ha, Hf, Had, !expect_eq_refl.
    unfold expect. rewrite bool_decide_eq_true_2 by done. unfold mret, T_ret.
    by rewrite expect_eq_refl.
  - rewrite decide_True by by apply Hok. done.
  - done.
Qed.

End MakeWithdraw.

(** ** A test function run against the program
    The server that is tested, with a websocket listener that is subscribed: when the
    test waits for a message, the broker's goroutine broadcasts, the handler of the
    connection writes what its channel has, and the client reads it. *)
Section AccountTests.
Context {E : Env} {EL : EnvLaws E} {N : NodeAPI} {NL : NodeAPILaws N} {CFG : WalletConfig}.
Context {DL : DecimalLaws env_decimal} {UL : UuidLaws env_uuidlib}.
Context {HC : HTTPClient} {BCFG : BrokerConfig} {TX : ErrorTexts} {L : UrlLib}.
#[local] Existing Instance PostgresStorage.
#[local] Existing Instance PostgresEvents.
#[local] Existing Instance tested_server.

Definition live_wait (l ch : nat) (what : waiting) : M (list Arrival) :=
  match what with
  | ForMessage l' _ =>
      if decide (l' = l) then
        sendWSNotifications ;;
        written ← ws_loop ch [WsBatch None] [];
        mret (ArriveMessage l <$> read_notifications ((fun n => Ok (event_message n)) <$> written))
      else mret []
  | _ => mret []
  end.

Definition live (l ch : nat) : Outside := {|
  os_wait what _ := live_wait l ch what;
  os_map_order A x := x;
|}.

Context (no_faults : forall n, env_fault n = NoFault).
Context (fresh_addresses : forall w : World, exists address, (NodeAPI.CreateNewAddress w).1 = Ok address /\
  address <> "" /\ address ∉ fst <$> db_accounts (committed w)).

(** *** The wallet's side *)
Lemma wp_Notify_stored ex et data d (Q : outcome unit -> World -> Prop) w :
  target ex w = Some d -> (events_seq w ∉ er_seq <$> db_events d) ->
  (forall w', w' = put_db ex (mkDB (db_transactions d) (db_accounts d) (db_metadata d)
       (db_events d ++ [mkEventRow (events_seq w) (EventType_String et) (EventData_MarshalJSON data)])
       (db_muted d)) (bump_sql (set_events_seq (events_seq w + 1) w)) -> Q (Ok tt) w') ->
  wp (Notify ex et data) Q w.
Proof.
  intros Hd Hseq HQ. apply wp_bind, wp_bind, wp_next_event_seq, wp_bind.
  eapply (wp_exec no_faults); [by destruct ex | unfold PostgresEventStorage.insert_event; by rewrite decide_False |].
  apply wp_ret, wp_ret. by apply HQ.
Qed.

(** A new account and its event, with the number that was next *)
Definition with_account (account : Account) (seq : Z) (d : DB) : DB :=
  mkDB (db_transactions d) (db_accounts d ++ [(acc_Address account, acc_Metainfo account)]) (db_metadata d)
    (db_events d ++ [mkEventRow seq "new-address" (Account_MarshalJSON account)]) (db_muted d).

Lemma account_created metainfo w :
  (events_seq w ∉ er_seq <$> db_events (committed w)) ->
  exists address w', CreateAccount metainfo w = (Ok (mkAccount address metainfo), w') /\ address <> "" /\
    (address ∉ fst <$> db_accounts (committed w)) /\
    committed w' = with_account (mkAccount address metainfo) (events_seq w) (committed w) /\
    events_seq w' = events_seq w + 1 /\ bp_subs (broker_proc w') = bp_subs (broker_proc w) /\
    bp_chans (broker_proc w') = bp_chans (broker_proc w) /\
    bp_minSeq (broker_proc w') = bp_minSeq (broker_proc w).
Proof.
  intros Hseq. destruct (fresh_addresses w) as (address & Ha & Hne & Hfresh).
  destruct (CreateAccount metainfo w) as [r w'] eqn:Hrun. exists address, w'.
  refine (wp_run _ (fun r w' => (r, w') = (Ok _, w') /\ _) _ _ _ Hrun _).
  apply wp_bind. unfold wp at 1, WalletBase.generateNewAddress.
  destruct (requests_CreateNewAddress w) as (acts & Hacts & _).
  destruct (NodeAPI.CreateNewAddress w) as [r1 w1]. simpl in Ha, Hacts. subst r1 w1.
  apply wp_bind, (wp_commits no_faults), wp_bind.
  eapply (wp_exec no_faults); [reflexivity | unfold PostgresWalletStorage.insert_account; by rewrite decide_False |].
  eapply wp_Notify_stored; [reflexivity | exact Hseq |]. intros w1 ->. eexists. split; [reflexivity|].
  apply wp_bind, wp_bind, wp_modify, wp_modify, wp_ret. by split_and!.
Qed.

(** *** The broadcast, the connection's handler and the client *)
Lemma broadcast_succeeds w :
  wf_db (events_seq w) (committed w) ->
  exists w', Broadcast w = (Ok tt, w') /\ committed w' = committed w /\ events_seq w' = events_seq w.
Proof.
  intros Hwf. destruct (Broadcast w) as [r w'] eqn:Hrun. exists w'.
  refine (wp_run _ (fun r w' => (r, w') = (Ok tt, w') /\ _) _ _ _ Hrun _).
  apply wp_bind, wp_gets, wp_bind, wp_bind.
  eapply (wp_ordered no_faults); [reflexivity|]. unfold wp at 1. rewrite decode_rows.
  { apply wp_modify. by split_and!. }
  apply Forall_forall. intros row (Hin & _)%select_events_in.
  pose proof (wf_events _ _ Hwf) as He. rewrite Forall_forall in He.
  destruct (He row Hin) as [_ [et Het]%is_ok_Ok]. eexists. unfold PostgresEventStorage.event_of_row.
  by rewrite Het.
Qed.

Lemma same_message e n : event_fields e = event_fields n -> event_message e = event_message n.
Proof.
  unfold event_fields, event_message, NotificationWithSeq_MarshalJSON, EventType_MarshalJSON.
  by intros [= -> -> ->].
Qed.

(** One event that the subscriber is still waiting for *)
Lemma live_delivers l ch ms seq row n w :
  wf_db (events_seq w) (committed w) -> min_seq_ok (broker_proc w) ->
  at_channel ch (broker_proc w) = (Some seq, Some (mkChannel [] false)) ->
  filter (fun row => seq <= er_seq row /\ PostgresEventStorage.is_muted (committed w) row = false)
    (db_events (committed w)) = [row] ->
  row_fields row = event_fields n -> readable n ->
  exists w', live_wait l ch (ForMessage l ms) w = (Ok [ArriveMessage l (as_read n)], w') /\
    committed w' = committed w /\ events_seq w' = events_seq w /\ min_seq_ok (broker_proc w') /\
    at_channel ch (broker_proc w') = (Some (ns_Seq n + 1), Some (mkChannel [] false)).
Proof.
  intros Hwf Hmin Hsub Hnew Hrow Hread.
  destruct (broadcast_succeeds w Hwf) as (w1 & Hb & Hc1 & Hs1).
  destruct (broadcast_spec w w1 _ ch seq _ Hwf Hmin Hsub Hb) as (batch & Hbatch & Hat & Hmin1 & Hnext).
  rewrite Hnew in Hbatch. destruct batch as [|e [|]]; [done| |done].
  apply (f_equal head) in Hbatch. cbn [fmap list_fmap head] in Hbatch. apply (inj Some) in Hbatch as Hfields.
  rewrite Hrow in Hfields. destruct (Hnext ltac:(done)) as (x & [= <-] & Hm1).
  assert (Hseq : ns_Seq e = ns_Seq n) by (by injection Hfields).
  rewrite decide_False, decide_True, Hm1, Hseq in Hat by done. simpl in Hat. injection Hat as Hsub1 Hch1.
  set (w2 := set_broker_proc (set_chans (<[ch := mkChannel [] false]> (bp_chans (broker_proc w1)))
               (broker_proc w1)) w1).
  assert (Hloop : ws_loop ch [WsBatch None] [] w1 = (Ok [e], w2)) by by rewrite (ws_loop_batch _ [e] []).
  exists w2. split_and!; [|done|done| |].
  - unfold live_wait. rewrite decide_True by done. unfold sendWSNotifications, mbind, M_bind, try.
    rewrite Hb. unfold mret at 1, M_ret at 1. cbv beta iota. rewrite Hloop. unfold mret, M_ret. do 2 f_equal.
    rewrite list_fmap_singleton, (same_message e n) by done.
    pose proof (read_notifications_written [n] ltac:(by constructor)) as Hr.
    change (read_notifications [Ok (event_message n)] = [as_read n]) in Hr. by rewrite Hr.
  - intros ch' seq' Hs'. destruct (Hmin1 ch' seq' Hs') as [Hle Hsome]. split; [exact Hle|]. simpl.
    destruct (decide (ch' = ch)) as [->|Hne]; [by rewrite lookup_insert_eq | by rewrite lookup_insert_ne].
  - unfold at_channel. simpl. by rewrite lookup_insert_eq, Hsub1.
Qed.

(** *** The step of the test *)
Section Step.
Context {laws : UrlLaws L client_paths} (cli : Client) (b : URL) (Hb : url_Parse (apiBaseURL cli) = Ok b).
Context (l ch : nat).
#[local] Instance tested_outside : Outside := live l ch.

(** The test's client and its first listener, whose subscription has seen all events *)
Record test_ready (s : TestState) : Prop := {
  rd_client : te_ProcessingClient (ts_env s) = Some cli;
  rd_listener : exists rest, te_WebsocketListeners (ts_env s) = l :: rest;
  rd_queue : exists c seq, ts_listeners s !! l = Some (mkListener (Some c) false [] false seq);
  rd_wf : wf_db (events_seq (ts_world s)) (committed (ts_world s));
  rd_min : min_seq_ok (broker_proc (ts_world s));
  rd_seq : 0 <= events_seq (ts_world s);
  rd_sub : exists seq, at_channel ch (broker_proc (ts_world s)) = (Some seq, Some (mkChannel [] false)) /\
    seq <= events_seq (ts_world s) /\ forall row, row ∈ db_events (committed (ts_world s)) -> er_seq row < seq;
}.

Lemma next_message_arrives s c seq m w' rest :
  te_WebsocketListeners (ts_env s) = l :: rest ->
  ts_listeners s !! l = Some (mkListener (Some c) false [] false seq) ->
  live_wait l ch (ForMessage l listenersMessageWaitTimeout) (ts_world s) = (Ok [ArriveMessage l m], w') ->
  next_message s = (Done m, set_listeners
    (<[l := mkListener (Some c) false [] false (ns_Seq m)]> (ts_listeners s)) (set_world w' s)).
Proof.
  intros Hl Hq Hw. pose proof (lookup_lt_Some _ _ _ Hq) as Hlt.
  assert (Hwl : forall s, ts_listeners s !! l = Some (mkListener (Some c) false [] false seq) ->
    wl_load l s = (Done (mkListener (Some c) false [] false seq), s)) by (intros s0 H; unfold wl_load; by rewrite H).
  assert (Hpop : pop_message l s = (Done None, s)) by (unfold pop_message; by rewrite (run_bind _ _ _ _ _ (Hwl s Hq))).
  unfold next_message, first_listener. unfold mbind at 1 2, T_bind at 1 2, t_gets. rewrite Hl.
  unfold t_index. rewrite decide_True by lia. simpl (_ !! Z.to_nat 0). unfold mret at 1, T_ret at 1.
  unfold GetNextMessageWithTimeout. rewrite (run_bind _ _ _ _ _ Hpop), (run_bind _ _ _ _ _ (Hwl s Hq)).
  cbn [wl_closed].
  set (s1 := set_listeners (<[l := mkListener (Some c) false [m] false (ns_Seq m)]> (ts_listeners s)) (set_world w' s)).
  assert (Hwait : wait_for (ForMessage l listenersMessageWaitTimeout) s = (Done tt, s1)).
  { unfold wait_for, os_wait, tested_outside, live. rewrite Hw. cbn [t_forM deliver].
    unfold processMessage, mbind, T_bind, wl_load. cbn [ts_listeners set_world]. rewrite Hq. done. }
  rewrite (run_bind _ _ _ _ _ Hwait). unfold pop_message at 1, mbind, T_bind, wl_load.
  cbn [ts_listeners set_listeners set_world s1]. rewrite list_lookup_insert_eq by done.
  cbn [wl_messages]. unfold wl_store, t_modify. cbn [ts_listeners set_listeners s1].
  by rewrite list_insert_insert_eq.
Qed.

Lemma wf_with_account account s d :
  wf_db s d -> acc_Address account ∉ fst <$> db_accounts d -> is_go_map (acc_Metainfo account) ->
  wf_db (s + 1) (with_account account s d).
Proof.
  intros Hwf Hfresh Hmap. pose proof (wf_events _ _ Hwf) as He. destruct Hwf. unfold with_account.
  split; simpl; try done.
  - rewrite fmap_app. apply NoDup_app. split; [done|]. split; [|apply NoDup_singleton].
    intros a Ha ->%list_elem_of_singleton. by apply Hfresh.
  - apply Forall_app. split; [done|]. by apply Forall_singleton.
  - rewrite fmap_app. apply StronglySorted_snoc; [done|]. rewrite Forall_fmap.
    eapply Forall_impl; [exact He|]. simpl. naive_solver.
  - apply Forall_app. split; [|by apply Forall_singleton; split; [simpl; lia|]].
    eapply Forall_impl; [exact He|]. simpl. intros e [? ?]. split; [lia|done].
Qed.

(** The metainfo that the test gives, and what the server keeps of it *)
Definition test_metainfo (metainfo : option json) : Prop :=
  match metainfo with
  | Some j => is_go_map j /\ metainfo_ok j /\ is_null j = false
  | None => True
  end.

Lemma test_metainfo_kept metainfo :
  test_metainfo metainfo -> is_go_map (default JNull metainfo) /\ json_ok (default JNull metainfo) = true.
Proof. destruct metainfo as [j|]; simpl; [|done]. intros (? & [? ?] & ?). done. Qed.

(** The account is made through the client. *)
Lemma client_makes_account metainfo s address w1 :
  test_metainfo metainfo -> te_ProcessingClient (ts_env s) = Some cli ->
  CreateAccount (default JNull metainfo) (ts_world s) = (Ok (mkAccount address (default JNull metainfo)), w1) ->
  processing_call (fun cli => NewWallet_client cli metainfo) s =
    (Done (inl (mkAccount address (default JNull metainfo))), set_world w1 s).
Proof.
  intros Hmeta Hcli Hrun. destruct (test_metainfo_kept _ Hmeta) as [Hmap Hok].
  destruct (value_calls_agree true cli b Hb (CallNewWallet metainfo) (ts_world s)) as [Hw Hr].
  - done.
  - destruct metainfo as [j|]; [|done]. by split.
  - intros a w' Ha. cbn [server_side] in Ha. rewrite Hrun in Ha. injection Ha as <- _. by split.
  - cbn [server_side] in Hw, Hr. rewrite Hrun in Hw, Hr. destruct Hr as (r & Hr & ->).
    unfold processing_call, processing_client. unfold mbind, T_bind, t_gets. rewrite Hcli.
    unfold t_deref, mret, T_ret, call.
    change (client_side_call true cli (CallNewWallet metainfo) (ts_world s)) with
      (NewWallet_client cli metainfo (ts_world s)) in Hw, Hr.
    destruct (NewWallet_client cli metainfo (ts_world s)) as [r1 w2]. simpl in Hw, Hr. by subst r1 w2.
Qed.

(** A step that a test takes from a ready state: it ends, reports nothing, and leaves the
    accounts [made] in the tables, one event for each. *)
Definition makes {A} (m : T A) (a : A) (made : list Account) (s s' : TestState) : Prop :=
  m s = (Done a, s') /\ test_ready s' /\ ts_failures s' = ts_failures s /\
  db_accounts (committed (ts_world s')) =
    db_accounts (committed (ts_world s)) ++ ((fun a => (acc_Address a, acc_Metainfo a)) <$> made) /\
  events_seq (ts_world s') = events_seq (ts_world s) + Z.of_nat (length made).

(** What the test looks at once the account and the event's message are there *)
Lemma account_checks metainfo checkSeq address seq s0 s s1 :
  test_metainfo metainfo -> address <> "" -> (checkSeq < 0 \/ checkSeq = seq) ->
  let account := mkAccount address (default JNull metainfo) in
  processing_call (fun cli => NewWallet_client cli metainfo) s0 = (Done (inl account), s) ->
  next_message s = (Done (mkNotificationWithSeq (mkNotification NewAddressEvent (DataAccount account)) seq), s1) ->
  testGenerateClientWalletWithMetainfo metainfo checkSeq s0 = (Done account, s1).
Proof.
  intros Hmeta Hne Hseq account Hcall Hmsg. unfold testGenerateClientWalletWithMetainfo, or_fatal.
  rewrite (run_bind _ _ s0 account s) by (unfold mbind, T_bind; by rewrite Hcall).
  assert (Hcmp : forall j s, metainfo = Some j -> compareMetainfo j j s = (Done tt, s)).
  { intros j s2 ->. destruct Hmeta as (_ & Hm & _). by apply passes_compareMetainfo. }
  rewrite (run_bind _ _ s tt s).
  2: { destruct metainfo as [j|]; [|done]. destruct Hmeta as (_ & _ & Hn). simpl. rewrite Hn. by apply Hcmp. }
  rewrite (run_bind _ _ s tt s) by (unfold expect; by rewrite bool_decide_eq_true_2).
  rewrite (run_bind _ _ _ _ _ Hmsg).
  rewrite (run_bind _ _ s1 tt s1) by (case_decide; [|done]; destruct Hseq as [?|<-]; [lia|]; by rewrite expect_eq_refl).
  rewrite (run_bind _ _ s1 tt s1) by by rewrite expect_eq_refl.
  rewrite (run_bind _ _ s1 account s1) by done.
  rewrite (run_bind _ _ s1 tt s1) by by rewrite expect_eq_refl.
  rewrite (run_bind _ _ s1 tt s1); [done|]. destruct metainfo as [j|]; [by apply Hcmp | done].
Qed.

Lemma account_step metainfo checkSeq s :
  test_ready s -> test_metainfo metainfo -> events_seq (ts_world s) < 2 ^ 31 ->
  (checkSeq < 0 \/ checkSeq = events_seq (ts_world s)) ->
  exists address s', address <> "" /\
    makes (testGenerateClientWalletWithMetainfo metainfo checkSeq)
      (mkAccount address (default JNull metainfo)) [mkAccount address (default JNull metainfo)] s s'.
Proof.
  intros [Hcli [rest Hl] (c & seq0 & Hq) Hwf Hmin Hpos (seq & Hsub & Hle & Hseen)] Hmeta Hmax Hseq.
  destruct (test_metainfo_kept _ Hmeta) as [Hmap Hjson].
  set (w := ts_world s) in *.
  assert (Hfree : events_seq w ∉ er_seq <$> db_events (committed w)).
  { intros (row & Heq & Hin)%list_elem_of_fmap. specialize (Hseen _ Hin). lia. }
  destruct (account_created (default JNull metainfo) w Hfree)
    as (address & w1 & Hrun & Hne & Hfresh & Hc1 & Hs1 & Hsubs & Hchans & Hm1).
  set (account := mkAccount address (default JNull metainfo)) in *.
  set (n := mkNotificationWithSeq (mkNotification NewAddressEvent (DataAccount account)) (events_seq w)).
  assert (Hwf1 : wf_db (events_seq w1) (committed w1)) by (rewrite Hs1, Hc1; by apply wf_with_account).
  assert (Hat1 : at_channel ch (broker_proc w1) = (Some seq, Some (mkChannel [] false)))
    by (unfold at_channel in *; by rewrite Hsubs, Hchans).
  assert (Hmin1 : min_seq_ok (broker_proc w1))
    by (intros ch' seq'; rewrite Hsubs, Hchans, Hm1; apply Hmin).
  set (row := mkEventRow (events_seq w) "new-address" (Account_MarshalJSON account)).
  assert (Hnew : filter (fun row => seq <= er_seq row /\ PostgresEventStorage.is_muted (committed w1) row = false)
    (db_events (committed w1)) = [row]).
  { rewrite Hc1. cbn [db_events with_account]. rewrite filter_app.
    assert (filter (fun row0 => seq <= er_seq row0 /\ PostgresEventStorage.is_muted
      (with_account account (events_seq w) (committed w)) row0 = false) (db_events (committed w)) = []) as ->.
    { apply filter_none, Forall_forall. intros r Hr [Hge _]. specialize (Hseen r Hr). lia. }
    rewrite filter_cons_True by (split; [exact Hle | reflexivity]). done. }
  assert (Hread : readable n) by (split; [by split|]; split; [unfold is_i64; simpl; lia | simpl; by rewrite Hjson]).
  destruct (live_delivers l ch listenersMessageWaitTimeout seq row n w1 Hwf1 Hmin1 Hat1 Hnew eq_refl Hread)
    as (w2 & Hwait & Hc2 & Hs2 & Hmin2 & Hat2).
  exists address, (set_listeners (<[l := mkListener (Some c) false [] false (events_seq w)]> (ts_listeners s))
    (set_world w2 s)). split; [exact Hne|]. split_and!.
  - apply (account_checks _ _ _ (events_seq w) _ (set_world w1 s)); [done|done|done| |].
    + by apply client_makes_account.
    + by apply (next_message_arrives (set_world w1 s) c seq0 (as_read n) w2 rest).
  - split; simpl; [done | by exists rest | | by rewrite Hs2, Hc2 | done | rewrite Hs2, Hs1; lia |].
    + exists c, (events_seq w). apply list_lookup_insert_eq. by eapply lookup_lt_Some.
    + exists (events_seq w + 1). rewrite Hs2, Hs1, Hc2, Hc1. split; [exact Hat2|]. split; [lia|].
      intros r [Hr|Hr]%elem_of_app; [specialize (Hseen r Hr); lia|].
      apply list_elem_of_singleton in Hr as ->. simpl. lia.
  - done.
  - simpl. by rewrite Hc2, Hc1.
  - simpl. by rewrite Hs2, Hs1.
Qed.

Lemma makes_subtest {A} name (zero : A) (m : T A) a made s s' :
  makes m a made (set_failures [] s) s' ->
  makes (run_subtest name zero m) a made s (set_failures (ts_failures s) s').
Proof.
  intros (Hr & Hrd & Hf & Hacc & Hseq). unfold makes, run_subtest. rewrite Hr. simpl in Hf. rewrite Hf.
  rewrite app_nil_r. split_and!; [done | by destruct Hrd; split | done | exact Hacc | exact Hseq].
Qed.

Lemma makes_bind {A B} (m : T A) (f : A -> T B) a b0 made1 made2 s s1 s2 :
  makes m a made1 s s1 -> makes (f a) b0 made2 s1 s2 -> makes (m ≫= f) b0 (made1 ++ made2) s s2.
Proof.
  intros (Hr1 & _ & Hf1 & Ha1 & Hs1) (Hr2 & Hrd & Hf2 & Ha2 & Hs2). unfold makes.
  rewrite (run_bind _ _ _ _ _ Hr1), Hr2, Hf2, Hf1, Ha2, Ha1, Hs2, Hs1, fmap_app, app_assoc, length_app.
  split_and!; [done..|lia].
Qed.

Lemma makes_ret {A} (a : A) s : test_ready s -> makes (mret a) a [] s s.
Proof. intros H. unfold makes. rewrite app_nil_r. split_and!; [done..|simpl; lia]. Qed.

Lemma ready_set_failures fs s : test_ready s -> test_ready (set_failures fs s).
Proof. intros []. by split. Qed.

Lemma ready_after {A} (m : T A) a made s s' : makes m a made s s' -> test_ready s'.
Proof. by intros (_ & ? & _). Qed.

Lemma accounts_made metainfos : forall s,
  test_ready s -> Forall test_metainfo metainfos ->
  events_seq (ts_world s) + Z.of_nat (length metainfos) <= 2 ^ 31 ->
  exists accounts s', makes (t_mapM (fun m => testGenerateClientWalletWithMetainfo m (-1)) metainfos)
      accounts accounts s s' /\ acc_Metainfo <$> accounts = default JNull <$> metainfos.
Proof.
  induction metainfos as [|m metainfos IH]; intros s Hrd Hm Hmax.
  { exists [], s. split; [by apply makes_ret | done]. }
  apply Forall_cons in Hm as [Hm Hms]. simpl length in Hmax.
  destruct (account_step m (-1) s Hrd Hm ltac:(lia) ltac:(lia)) as (address & s1 & _ & H1).
  pose proof H1 as (_ & Hrd1 & _ & _ & Hs1). simpl in Hs1.
  destruct (IH s1 Hrd1 Hms ltac:(lia)) as (accounts & s2 & H2 & Hmeta).
  exists (mkAccount address (default JNull m) :: accounts), s2. split; [|by rewrite !fmap_cons, Hmeta].
  cbn [t_mapM]. apply (makes_bind _ _ _ _ [_] _ _ _ _ H1).
  rewrite <- (app_nil_r accounts) at 2. eapply (makes_bind _ _ _ _ _ [] _ _ _ H2).
  apply makes_ret. by eapply ready_after.
Qed.

Lemma initial_metainfo : test_metainfo (Some initialTestMetainfo).
Proof. split; [done|]. split; [|done]. split; vm_compute; reflexivity. Qed.

Lemma all_metainfos : Forall test_metainfo testMetainfos.
Proof.
  repeat constructor; try done; try apply initial_metainfo; vm_compute; reflexivity.
Qed.

Lemma first_accounts s :
  test_ready s -> events_seq (ts_world s) = 1 ->
  exists a1 a2 s', makes testGenerateClientWallet (Some a2) [a1; a2] s s' /\
    acc_Metainfo a1 = JNull /\ acc_Metainfo a2 = initialTestMetainfo.
Proof.
  intros Hrd H1.
  destruct (account_step None 1 (set_failures [] s)) as (ad1 & s1 & _ & Hm1);
    [by apply ready_set_failures | done | simpl; lia | simpl; lia|].
  set (s1' := set_failures (ts_failures s) s1).
  assert (Hs1 : makes (runSubtest "EmptyMetainfo" (testGenerateClientWalletWithMetainfo None 1 ;; mret tt)) tt
    [mkAccount ad1 JNull] s s1').
  { apply makes_subtest. eapply (makes_bind _ _ _ _ [_] []); [exact Hm1 | by apply makes_ret; eapply ready_after]. }
  pose proof Hs1 as (_ & Hrd1 & _ & _ & Hseq1). simpl in Hseq1.
  destruct (account_step (Some initialTestMetainfo) 2 (set_failures [] s1')) as (ad2 & s2 & _ & Hm2);
    [by apply ready_set_failures | apply initial_metainfo | simpl; lia | right; simpl; lia|].
  exists (mkAccount ad1 JNull), (mkAccount ad2 initialTestMetainfo), (set_failures (ts_failures s1') s2).
  split; [|done]. eapply (makes_bind _ _ _ _ [_] [_]); [exact Hs1|]. apply makes_subtest.
  eapply (makes_bind _ _ _ _ [_] []); [exact Hm2 | by apply makes_ret; eapply ready_after].
Qed.

End Step.

(** C19: The tests of new accounts run against the program: the Go client, the HTTP server, the
    wallet, its tables, the broker, the websocket handler and the listener that reads what
    it writes. On a server that does not fail, with a node that gives new addresses and a
    listener that has seen all events, both test functions end without reporting
    anything, and the tables then have exactly the accounts that they were given, with the
    metainfo that they sent, and one event for each. The first test function looks at the
    numbers 1 and 2, so it is run on a new server. *)
Theorem account_tests_pass {laws : UrlLaws L client_paths} (cli : Client) (b : URL) (l ch : nat) (s : TestState)
    (Hb : url_Parse (apiBaseURL cli) = Ok b) (Hready : test_ready cli l ch s)
    (Hroom : events_seq (ts_world s) <= 2 ^ 30) :
  (events_seq (ts_world s) = 1 ->
   exists a1 a2 s', makes cli l ch (testGenerateClientWallet (OS := live l ch)) (Some a2) [a1; a2] s s' /\
     acc_Metainfo a1 = JNull /\ acc_Metainfo a2 = initialTestMetainfo) /\
  exists accounts s', makes cli l ch (testGenerateMultipleClientWallets (OS := live l ch)) accounts accounts s s' /\
    acc_Metainfo <$> accounts = default JNull <$> testMetainfos.
Proof.
  split; [by apply (first_accounts cli b)|].
  apply (accounts_made cli b); [done | done | apply all_metainfos |].
  change (Z.of_nat (length testMetainfos)) with 3. lia.
Qed.

End AccountTests.

(** ** Witnesses *)
Definition test_miner : RpcConfig := mkRpcConfig "miner" "http://miner/" "user" "pass" false.

Definition test_environment (cli : Client) : TestEnvironment :=
  mkTestEnvironment "bitcoin-processing-test" "172.18.0.1" None
    (Some [("node-miner", mkNodeContainer (mkContainer "1" "node-miner" "172.18.0.3") (Some test_miner))])
    false None None None (Some cli) false "http://172.18.0.1:4000/wallets/cb" [] None [] 400000.

Definition test_state (cli : Client) (w : World) : TestState :=
  mkTestState w (test_environment cli) [] [] [] [] [].

Section MakeWithdrawRun.
#[local] Instance harness_env : Env := test_env no_fault.
#[local] Existing Instance PostgresStorage.
#[local] Existing Instance PostgresEvents.
#[local] Existing Instance test_urls.
#[local] Existing Instance test_urls_laws.
#[local] Existing Instance test_texts.
#[local] Existing Instance test_config.
#[local] Instance harness_node : NodeAPI :=
  test_node [] (mkGetTransactionResult "h" "" 0 "") 100000000 100000000 (Ok "hash").
#[local] Instance harness_http : HTTPClient := test_http 200.
#[local] Instance harness_backoff : BrokerConfig := test_broker_config 1.
#[local] Existing Instance tested_server.

(** A withdrawal of 0.0005 BTC: accepted, with the drawn id 1000. *)
Lemma testMakeWithdraw_passes_witness :
  exists s', testMakeWithdraw "client" 50000 JNull (test_state client_side init_world) = (Done 0%nat, s') /\
    ts_txs s' = [mkTxTestData 1000 "client" 50000 10000 "" "" JNull 0] /\ ts_failures s' = [].
Proof.
  pose proof (testMakeWithdraw_passes "client" 50000 10000 JNull client_side
    (("gateway:8000", "") : @URL test_urls) (test_state client_side init_world)) as H.
  cbv zeta in H.
  destruct (withdraw_request true false (mkWithdrawRequest uuid_Nil "client" 50000 10000 "" JNull)
    (ts_world (test_state client_side init_world))) as [accepted w'] eqn:Hw.
  assert (Ha : accepted = Ok (mkWithdrawRequest 1000 "client" 50000 10000 "fixed" JNull)).
  { apply (f_equal fst) in Hw. vm_compute in Hw. by rewrite <- Hw. }
  subst accepted. eexists. split.
  - apply H; [reflexivity | vm_compute; reflexivity | split; vm_compute; congruence |
      split; [vm_compute; reflexivity | split; vm_compute; congruence] | reflexivity | discriminate].
  - by split.
Defined.
End MakeWithdrawRun.

(** A server with one subscriber that has seen everything, and the listener that reads
    for it; the node makes addresses that no account has. *)
Section AccountsRun.
#[local] Instance accounts_env : Env := test_env no_fault.
#[local] Existing Instance PostgresStorage.
#[local] Existing Instance PostgresEvents.
#[local] Existing Instance test_urls.
#[local] Existing Instance test_urls_laws.
#[local] Existing Instance test_texts.
#[local] Existing Instance test_config.
#[local] Instance accounts_http : HTTPClient := test_http 200.
#[local] Instance accounts_backoff : BrokerConfig := test_broker_config 1.

Definition fresh_node : NodeAPI :=
  let node := test_node [] (mkGetTransactionResult "h" "" 0 "") 100000000 100000000 (Ok "hash") in {|
  NodeAPI.CreateNewAddress :=
    w ← gets (fun w => w);
    log_act (ARequest "getnewaddress" []) ;;
    mret (fresh ("" :: (fst <$> db_accounts (committed w))));
  NodeAPI.ListTransactionsSinceBlock := @NodeAPI.ListTransactionsSinceBlock node;
  NodeAPI.GetTransaction := @NodeAPI.GetTransaction node;
  NodeAPI.SendWithPerKBFee := @NodeAPI.SendWithPerKBFee node;
  NodeAPI.SendWithFixedFee := @NodeAPI.SendWithFixedFee node;
  NodeAPI.GetAddressInfo := @NodeAPI.GetAddressInfo node;
  NodeAPI.GetConfirmedAndUnconfirmedBalance := @NodeAPI.GetConfirmedAndUnconfirmedBalance node;
|}.
#[local] Existing Instance fresh_node.

#[local] Existing Instance tested_server.

#[local] Instance fresh_node_laws : NodeAPILaws fresh_node.
Proof.
  pose proof (test_node_laws [] (mkGetTransactionResult "h" "" 0 "") 100000000 100000000 (Ok "hash")) as [].
  by split.
Qed.

Definition accounts_state : TestState :=
  let w := set_broker_proc (set_subs {[ 0%nat := 0 ]} 0 (set_chans {[ 0%nat := mkChannel [] false ]}
    (broker_proc init_world))) init_world in
  mkTestState w (set_te_WebsocketListeners [0%nat] (test_environment client_side))
    [] [mkListener (Some 0%nat) false [] false 0] [] [] [].

Lemma account_tests_pass_witness :
  (exists a1 a2 s', makes client_side 0 0 (testGenerateClientWallet (OS := live 0 0)) (Some a2) [a1; a2]
     accounts_state s' /\ acc_Metainfo a1 = JNull /\ acc_Metainfo a2 = initialTestMetainfo) /\
  exists accounts s', makes client_side 0 0 (testGenerateMultipleClientWallets (OS := live 0 0)) accounts accounts
     accounts_state s' /\ acc_Metainfo <$> accounts = default JNull <$> testMetainfos.
Proof.
  assert (T := account_tests_pass (DL := test_decimal_laws) (UL := test_uuid_laws) (fun n => eq_refl)).
  destruct (T ltac:(intros w; eexists; split; [reflexivity|]; split;
      [intros Heq; apply (infinite_is_fresh ("" :: (fst <$> db_accounts (committed w)))); rewrite Heq; by left
      |intros Hin; by apply (infinite_is_fresh ("" :: (fst <$> db_accounts (committed w)))); right])
    _ client_side (("gateway:8000", "") : @URL test_urls) 0%nat 0%nat accounts_state) as [T1 T2].
  - reflexivity.
  - split.
    + reflexivity.
    + by exists [].
    + by exists 0%nat, 0.
    + apply empty_db_wf.
    + intros ch seq. simpl. destruct (decide (ch = 0%nat)) as [->|Hne].
      * intros [= <-]. split; [done|]. by eexists.
      * by rewrite lookup_singleton_ne.
    + done.
    + exists 0. split; [reflexivity|]. split; [done|]. intros row []%not_elem_of_nil.
  - done.
  - split; [by apply T1 | exact T2].
Defined.

End AccountsRun.

(** A miner whose mempool is empty for one poll and then holds "h" *)
Definition mining_reply (history : History) (method : string) : outcome string :=
  let reply (result : json) := Ok (json_text (JObj [("result", result); ("error", JNull)])) in
  if decide (method = "getrawmempool") then
    reply (JArr (match history with [] => [] | _ => [JStr "h"] end))
  else if decide (method = "generatetoaddress") then reply (JArr [JStr "block"])
  else reply (JStr "m1").

Definition miner_rpc : RpcLib := {|
  chain_hash := string;
  NewHashFromStr s := Ok s;
  hash_String s := s;
  url_parses _ := true;
  rpc_New _ _ _ _ := Ok tt;
  rpc_GetBlockCount _ := Ok 100;
  rpc_ListSinceBlock _ _ := Ok (mkListSinceBlockResult [] "tip");
  rpc_GetTransaction _ h := Ok (mkGetTransactionResult h "" 1 "00");
  rpc_DecodeRawTransaction _ _ := Err ErrJSON;
  rpc_SetTxFee _ _ := Ok tt;
  rpc_GetBalance _ _ := Ok 500000;
  node_Do history _ body :=
    match body with
    | VMap (_ :: (_, VStr method) :: _) => mining_reply history method
    | _ => Err ErrJSON
    end;
|}.

Definition quiet : Outside := {| os_wait _ _ := mret []; os_map_order A l := l |}.

(** A docker daemon that does not answer *)
Definition no_docker : DockerLib :=
  let fails {A} : M A := throw (ErrMsg "Cannot connect to the Docker daemon") in {|
  docker_NewEnvClient := mret tt;
  docker_NetworkList := fails;
  docker_NetworkCreate _ := fails;
  docker_NetworkInspect _ := fails;
  docker_ContainerCreate _ _ := fails;
  docker_ContainerStart _ := fails;
  docker_ContainerStop _ := fails;
  docker_ContainerRemove _ := fails;
  docker_ContainerKill _ _ := fails;
  docker_ContainerInspect _ := fails;
  docker_ContainerLogs _ := fails;
  os_OpenLog _ := fails;
  os_TempFile := fails;
  os_source_path s := s;
  net_Dial _ _ := fails;
  net_Listen _ := fails;
  fmt_float _ := "";
|}.

Section MiningRun.
#[local] Existing Instance test_decimal.
#[local] Existing Instance test_btcutil.
#[local] Existing Instance miner_rpc.
#[local] Existing Instance quiet.

Lemma mined_from_mempool_witness :
  exists s' miner, MineTx "h" (test_state (NewClient "http://gateway:8000") init_world) = (Done (inl "block"), s') /\
    mined_after (fun hashes => "h" ∈ hashes) miner (inl "block") s'.
Proof.
  destruct (MineTx "h" (test_state (NewClient "http://gateway:8000") init_world)) as [r s'] eqn:Hr.
  pose proof (f_equal fst Hr) as Hf. vm_compute in Hf. simpl in Hf. subst r.
  destruct (proj1 (mined_from_mempool (test_state (NewClient "http://gateway:8000") init_world)
    s' "block") "h" Hr) as [miner Hm].
  exists s', miner. split; [reflexivity | exact Hm].
Defined.
End MiningRun.

(** ** Stopping a websocket listener
    [Stop] does not set [stopped]: a second call dereferences the client that the first
    one cleared. *)
Section ListenerStop.
Context {L : UrlLib} {CT : ClientTransport}.

Lemma listener_stopped_twice_panics l x c s :
  ts_listeners s !! l = Some x -> wl_wsClient x = Some c -> wl_stopped x = false -> wl_closed x = false ->
  exists s1, listener_Stop l s = (Done tt, s1) /\ listener_Stop l s1 = (Panicked nil_deref, s1).
Proof.
  intros Hl Hc Hs Hcl. unfold listener_Stop, wl_load, mbind, T_bind at 1 3. rewrite Hl, Hs.
  unfold t_deref. rewrite Hc, Hcl. simpl. eexists. split; [done|].
  unfold T_bind. simpl. rewrite list_lookup_insert_eq by (by eapply lookup_lt_Some). simpl. done.
Qed.

End ListenerStop.
