(* ===== verification/ReliabilityProps.v ===== *)
(** * Properties: the failures that the reliability tests cause *)
From S2P Require Import Prelude.
From S2P Require Import Go.
From S2P Require Import World.
From S2P Require Import Effects.
From S2P Require Import Rpc.
From S2P Require Import Client.
From S2P Require Import Testing.
From S2P Require Import Harness.
From S2P Require Import TestEnv.
From S2P Require Import HarnessProps.
From S2P Require Import Reliability.
Local Open Scope Z_scope.

(** ** The messages that a case waits for, without the counting *)
Definition hit (moment : failureMoment) (qt : queryType) (msg : FrontendMessage) : bool :=
  match is_the_moment moment qt msg with Ok b => b | _ => false end.

Definition noted (c : nat) (msg : FrontendMessage) (qts : gmap nat queryType) : gmap nat queryType :=
  match msg with Parse query => <[c := determineQueryTypeFromParseMsg query]> qts | _ => qts end.

Fixpoint hits (moment : failureMoment) (qts : gmap nat queryType)
    (msgs : list (nat * FrontendMessage)) : list nat :=
  match msgs with
  | [] => []
  | (c, msg) :: msgs =>
      let qts := noted c msg qts in
      (if hit moment (default queryUndefined (qts !! c)) msg then [c] else []) ++ hits moment qts msgs
  end.

(** The statements that the server prepares have parameters. *)
Definition has_parameters (msg : FrontendMessage) : Prop :=
  match msg with Bind [] => False | _ => True end.

Definition closes_connections (failure : failureType) : Prop :=
  failure = FailureConnFailure \/ failure = FailureConnFailureMultiple.

Section Failures.
Context {K : DockerLib}.

Lemma is_the_moment_Ok moment qt msg :
  has_parameters msg -> is_the_moment moment qt msg = Ok (hit moment qt msg).
Proof.
  intros Hp. unfold hit. destruct msg as [q|t|[|k ps]|]; try done.
  destruct moment; simpl; try done; unfold metadata_write; by case_decide.
Qed.

Lemma note_query_eq c msg p :
  note_query c msg p = set_fp_qtForConn (noted c msg (fp_qtForConn p)) p.
Proof. by destruct msg, p. Qed.

(** What one message does to a plan whose failures close the connection *)
Definition after_message (c : nat) (msg : FrontendMessage) (p : FailurePlan) : FailurePlan :=
  let q := note_query c msg p in
  if hit (fp_moment p) (qt_of c q) msg && bool_decide (0 < fp_count p)
  then mkFailurePlan (fp_failure p) (fp_moment p)
         (if decide (fp_count p = 1) then -1 else fp_count p - 1)
         (if decide (fp_count p = 1) then true else fp_failureDone p)
         (fp_qtForConn q) (fp_shutdown p ++ [c])
  else q.

(** The channel is closed by the last failure, and then nothing is counted any more. *)
Definition plan_ok (p : FailurePlan) : Prop :=
  closes_connections (fp_failure p) /\
  ((0 < fp_count p /\ fp_failureDone p = false) \/ (fp_count p = -1 /\ fp_failureDone p = true)).

Lemma client_message_runs c msg p s :
  plan_ok p -> has_parameters msg -> client_message c msg p s = (Done (after_message c msg p), s).
Proof.
  intros [Hf Hc] Hp. unfold client_message, failing_handler, after_message. rewrite note_query_eq.
  destruct p as [f m k d qts sh]. simpl in *. rewrite is_the_moment_Ok by done.
  destruct (hit _ _ msg); [|done]. unfold causeFailure, close_when_done, mbind, T_bind. simpl.
  destruct Hc as [[Hc ->]|[-> ->]]; [|done].
  rewrite decide_False, bool_decide_eq_true_2 by lia.
  destruct Hf as [->| ->]; simpl; destruct (decide (k = 1)) as [->|Hn]; simpl; try done;
    by rewrite decide_False by lia.
Qed.

Lemma after_message_ok c msg p : plan_ok p -> plan_ok (after_message c msg p).
Proof.
  intros [Hf Hc]. unfold after_message. rewrite note_query_eq.
  destruct p as [f m k d qts sh]. simpl in *. destruct (_ && _) eqn:E; [|by split].
  apply andb_true_iff in E as [_ E%bool_decide_eq_true]. split; [done|]. simpl.
  case_decide as H1; [by right | left]. destruct Hc as [[? ?]|[? ?]]; [|lia]. split; [lia | done].
Qed.

Lemma client_messages_run msgs p s :
  plan_ok p -> Forall (fun m => has_parameters m.2) msgs ->
  let n := Z.to_nat (fp_count p) in
  let hs := hits (fp_moment p) (fp_qtForConn p) msgs in
  exists p', client_messages msgs p s = (Done p', s) /\
    fp_shutdown p' = fp_shutdown p ++ take n hs /\
    fp_failureDone p' = bool_decide (fp_failureDone p = true \/ (n <= length hs)%nat).
Proof.
  revert p. induction msgs as [|[c msg] msgs IH]; intros p Hp Hall; cbv zeta.
  - exists p. simpl. rewrite take_nil, app_nil_r. split; [done|]. split; [done|].
    destruct Hp as [_ [[Hc ->]|[Hc ->]]]; symmetry.
    + apply bool_decide_eq_false. intros [|]; [done | lia].
    + apply bool_decide_eq_true. by left.
  - apply Forall_cons in Hall as [Hm Hall].
    destruct (IH (after_message c msg p) (after_message_ok c msg p Hp) Hall) as (p' & Hr & Hs & Hd).
    exists p'. split.
    { simpl. unfold mbind, T_bind. by rewrite client_message_runs. }
    rewrite Hs, Hd. clear Hr Hs Hd IH p' Hall. destruct Hp as [_ Hc].
    unfold after_message. rewrite note_query_eq. destruct p as [f m k d qts sh]. simpl in *.
    unfold qt_of. simpl. destruct (hit _ _ msg); cbn [andb app]; [|done].
    destruct Hc as [[Hc ->]|[-> ->]]; [|done].
    rewrite bool_decide_eq_true_2 by done. simpl.
    destruct (Z.to_nat k) as [|n] eqn:En; [lia|]. simpl. rewrite <- app_assoc. simpl.
    destruct (decide (k = 1)) as [->|H1].
    + assert (n = 0%nat) as -> by lia. simpl. rewrite take_0. by split.
    + replace (Z.to_nat (k - 1)) with n by lia. split; [done|].
      apply bool_decide_ext. split; intros [|]; try done; right; lia.
Qed.

(** C31: When the case is to close connections, whatever the server sends through the proxy,
    and however many messages the case waits for are among it: the handler closes the
    connection of exactly the first of them (the first two in the "multiple" case), and
    the channel that the test waits for is closed once, by the last of these failures;
    the messages after it do nothing. *)
Theorem connection_failures_exact (failure : failureType) (moment : failureMoment)
    (msgs : list (nat * FrontendMessage)) (s : TestState)
    (Hf : closes_connections failure) (Hall : Forall (fun m => has_parameters m.2) msgs) :
  let n := if decide (failure = FailureConnFailureMultiple) then 2%nat else 1%nat in
  exists p', client_messages msgs (new_plan failure moment) s = (Done p', s) /\
    fp_shutdown p' = take n (hits moment ∅ msgs) /\
    fp_failureDone p' = bool_decide (n <= length (hits moment ∅ msgs))%nat.
Proof.
  assert (Hp : plan_ok (new_plan failure moment)).
  { split; [done|]. left. split; [|done]. simpl. by case_decide. }
  destruct (client_messages_run msgs _ s Hp Hall) as (p' & Hr & Hs & Hd). exists p'.
  assert (Hn : Z.to_nat (fp_count (new_plan failure moment)) =
    if decide (failure = FailureConnFailureMultiple) then 2%nat else 1%nat) by (by destruct failure).
  rewrite Hn in Hs, Hd. split; [done|]. split; [done|]. rewrite Hd.
  apply bool_decide_ext. split; [by intros [|] | by right].
Qed.

End Failures.

#[local] Existing Instance no_docker.

(** Two connections; the first has the insertion of a transaction prepared, and binds it
    twice: only the first of them is failed. *)
Lemma connection_failures_exact_witness :
  let msgs := [(0%nat, Parse "INSERT INTO transactions (id) VALUES ($1)"); (1%nat, Bind ["x"]);
               (0%nat, Bind ["7"]); (0%nat, OtherMessage); (0%nat, Bind ["7"])] in
  let s := test_state (NewClient "http://gateway:8000") init_world in
  hits FailureMomentTxWrite ∅ msgs = [0%nat; 0%nat] /\
  exists p', client_messages msgs (new_plan FailureConnFailure FailureMomentTxWrite) s = (Done p', s) /\
    fp_shutdown p' = [0%nat] /\ fp_failureDone p' = true.
Proof.
  intros msgs s. split; [vm_compute; reflexivity|].
  destruct (connection_failures_exact FailureConnFailure FailureMomentTxWrite msgs s) as (p' & H1 & H2 & H3);
    [by left | by repeat constructor|].
  exists p'. split; [exact H1|]. split; [rewrite H2 | rewrite H3]; vm_compute; reflexivity.
Defined.
